(** * mtx-changer-python: the changer script and its specification

    A shallow embedding of [mtx-changer-python.py].  Python strings are
    [string], a character being a byte ([\d] and [\w] are read over
    ASCII); the regular expressions are kept as the pattern texts of the
    script and run by a backtracking matcher with Python's search order;
    calls of external tools, sleeps and prints are events issued against
    an oracle for the tools' answers; [sys.exit] and uncaught exceptions
    are outcomes.  The configuration is taken as read and the [ready] text
    as set; the calls of [log] are left out. *)

From Stdlib Require Import String Ascii List Bool ZArith NArith Lia.
Import ListNotations.
Open Scope string_scope.

(** ** Strings *)

Definition newline : ascii := "010"%char.

(** Python's ["\n"]. *)
Definition nl : string := String newline "".

Definition between (lo hi a : ascii) : bool :=
  (N_of_ascii lo <=? N_of_ascii a)%N && (N_of_ascii a <=? N_of_ascii hi)%N.

Definition is_digit (a : ascii) : bool := between "0" "9" a.

Definition is_word (a : ascii) : bool :=
  between "a" "z" a || between "A" "Z" a || is_digit a || Ascii.eqb a "_".

Fixpoint take (n : nat) (s : string) : string :=
  match n, s with
  | S n', String a s' => String a (take n' s')
  | _, _ => ""
  end.

Fixpoint all_chars (f : ascii -> bool) (s : string) : bool :=
  match s with
  | "" => true
  | String a s' => f a && all_chars f s'
  end.

(** [x in s] on strings. *)
Fixpoint contains (x s : string) : bool :=
  prefix x s || match s with
                | "" => false
                | String _ s' => contains x s'
                end.

(** [s.rstrip('\n')] *)
Fixpoint rstrip_nl (s : string) : string :=
  match s with
  | "" => ""
  | String a s' =>
      match rstrip_nl s' with
      | "" => if Ascii.eqb a newline then "" else String a ""
      | r => String a r
      end
  end.

(** ** The [re] module, for the fragment of pattern syntax the script uses *)

Module re.

(** One-character classes: a literal, [.], [\d], [\w], a bracket set. *)
Inductive cls : Type :=
| Lit (a : ascii)
| Dot
| Dig
| Wrd
| Range (rs : list (ascii * ascii)).

Definition accepts (c : cls) (a : ascii) : bool :=
  match c with
  | Lit b => Ascii.eqb b a
  | Dot => negb (Ascii.eqb a newline)
  | Dig => is_digit a
  | Wrd => is_word a
  | Range rs => existsb (fun r => between (fst r) (snd r) a) rs
  end.

(** The script's patterns are sequences of single characters, of greedy
    [c*] and [c+] and lazy [c+?] over one-character classes, and of group
    parentheses; there is no alternation and nothing is repeated but a
    class. *)
Inductive item : Type :=
| One (c : cls)
| Star (c : cls)
| Plus (c : cls)
| PlusLazy (c : cls)
| Open
| Close.

(** [anchored] records a leading [^]; no flag is ever passed to [re], so
    [^] matches at the start of the subject only. *)
Record regex : Type := { anchored : bool; items : list item }.

(** Groups: [pending] holds the subject as it was left when a group was
    opened; [closed] holds the texts of the finished groups in order. *)
Record caps : Type := { pending : list string; closed : list string }.

Definition open_group (s : string) (g : caps) : caps :=
  {| pending := s :: pending g; closed := closed g |}.

Definition close_group (s : string) (g : caps) : caps :=
  match pending g with
  | s0 :: ps =>
      {| pending := ps;
         closed := (closed g ++ [take (String.length s0 - String.length s) s0])%list |}
  | [] => g
  end.

Definition cont : Type := string -> caps -> option (string * caps).

Definition one (c : cls) (k : cont) : cont :=
  fun s g =>
    match s with
    | String a s' => if accepts c a then k s' g else None
    | "" => None
    end.

(** Greedy repetition: the longest run first, then shorter ones. *)
Fixpoint star (c : cls) (k : cont) (s : string) (g : caps) : option (string * caps) :=
  match s with
  | String a s' =>
      if accepts c a then
        match star c k s' g with
        | Some r => Some r
        | None => k s g
        end
      else k s g
  | "" => k s g
  end.

(** Lazy repetition: the shortest run first. *)
Fixpoint lazy (c : cls) (k : cont) (s : string) (g : caps) : option (string * caps) :=
  match k s g with
  | Some r => Some r
  | None =>
      match s with
      | String a s' => if accepts c a then lazy c k s' g else None
      | "" => None
      end
  end.

Fixpoint rmatch (p : list item) (k : cont) : cont :=
  match p with
  | [] => k
  | One c :: p' => one c (rmatch p' k)
  | Star c :: p' => star c (rmatch p' k)
  | Plus c :: p' => one c (star c (rmatch p' k))
  | PlusLazy c :: p' => one c (lazy c (rmatch p' k))
  | Open :: p' => fun s g => rmatch p' k s (open_group s g)
  | Close :: p' => fun s g => rmatch p' k s (close_group s g)
  end.

Definition accept : cont := fun s g => Some (s, g).

(** A match object: [group 0], the groups from 1 on, and what follows. *)
Record Match : Type := { text : string; groups : list string; rest : string }.

Definition group (m : Match) (n : nat) : string :=
  match n with
  | O => text m
  | S n' => nth n' (groups m) ""
  end.

(** The match that starts at the head of [s], if there is one. *)
Definition match_here (p : list item) (s : string) : option Match :=
  match rmatch p accept s {| pending := []; closed := [] |} with
  | Some (s', g) =>
      Some {| text := take (String.length s - String.length s') s; groups := closed g; rest := s' |}
  | None => None
  end.

(** [at_start] says whether [s] is the whole subject. *)
Definition try (r : regex) (at_start : bool) (s : string) : option Match :=
  if anchored r && negb at_start then None else match_here (items r) s.

Fixpoint scan (r : regex) (at_start : bool) (s : string) : option Match :=
  match try r at_start s with
  | Some m => Some m
  | None =>
      match s with
      | String _ s' => scan r false s'
      | "" => None
      end
  end.

(** All matches from left to right, without overlap.  [skip] counts the
    characters that the last match still covers. *)
Fixpoint iter (r : regex) (skip : nat) (at_start : bool) (s : string) : list Match :=
  match skip with
  | S n =>
      match s with
      | String _ s' => iter r n false s'
      | "" => []
      end
  | O =>
      match try r at_start s with
      | Some m =>
          m :: match s with
               | String _ s' => iter r (Nat.pred (String.length (text m))) false s'
               | "" => []
               end
      | None =>
          match s with
          | String _ s' => iter r 0 false s'
          | "" => []
          end
      end
  end.

(** A replacement template: [\1] to [\9] stand for groups. *)
Fixpoint expand (repl : string) (m : Match) : string :=
  match repl with
  | String "\" (String d repl') =>
      if is_digit d
      then group m (nat_of_ascii d - 48) ++ expand repl' m
      else String "\" (String d (expand repl' m))
  | String a repl' => String a (expand repl' m)
  | "" => ""
  end.

Fixpoint subst (r : regex) (repl : string) (skip : nat) (at_start : bool) (s : string) : string :=
  match skip with
  | S n =>
      match s with
      | String _ s' => subst r repl n false s'
      | "" => ""
      end
  | O =>
      match try r at_start s with
      | Some m =>
          expand repl m ++
          match text m, s with
          | "", String a s' => String a (subst r repl 0 false s')
          | String _ w, String _ s' => subst r repl (String.length w) false s'
          | _, "" => ""
          end
      | None =>
          match s with
          | String a s' => String a (subst r repl 0 false s')
          | "" => ""
          end
      end
  end.

(** *** Reading a pattern text *)

Inductive mode : Type :=
| Normal
| Escape
| InSet (rs : list (ascii * ascii))
| InSetDash (rs : list (ascii * ascii)).

Definition quantify (q : cls -> item) (acc : list item) : option (list item) :=
  match acc with
  | One c :: acc' => Some (q c :: acc')
  | _ => None
  end.

Definition punctuation (a : ascii) : bool :=
  negb (is_word a) && between " " "~" a.

(** [acc] is the pattern read so far, last item first; [depth] counts the
    open groups.  Syntax outside the fragment yields [None]. *)
Fixpoint read (s : string) (md : mode) (depth : nat) (acc : list item) : option (list item) :=
  match s with
  | "" =>
      match md, depth with
      | Normal, O => Some (rev acc)
      | _, _ => None
      end
  | String a s' =>
      match md with
      | Escape =>
          if Ascii.eqb a "d" then read s' Normal depth (One Dig :: acc)
          else if Ascii.eqb a "w" then read s' Normal depth (One Wrd :: acc)
          else if punctuation a then read s' Normal depth (One (Lit a) :: acc)
          else None
      | InSet rs =>
          if Ascii.eqb a "]" then
            match rs with
            | [] => None
            | _ => read s' Normal depth (One (Range (rev rs)) :: acc)
            end
          else if Ascii.eqb a "-" then
            match rs with
            | [] => read s' (InSet [(a, a)]) depth acc
            | _ => read s' (InSetDash rs) depth acc
            end
          else if Ascii.eqb a "^" || Ascii.eqb a "\" || Ascii.eqb a "[" then None
          else read s' (InSet ((a, a) :: rs)) depth acc
      | InSetDash rs =>
          if Ascii.eqb a "]" then
            read s' Normal depth (One (Range (rev (("-", "-")%char :: rs))) :: acc)
          else if Ascii.eqb a "\" || Ascii.eqb a "[" then None
          else
            match rs with
            | (lo, _) :: rs' => read s' (InSet ((lo, a) :: rs')) depth acc
            | [] => None
            end
      | Normal =>
          if Ascii.eqb a "\" then read s' Escape depth acc
          else if Ascii.eqb a "[" then read s' (InSet []) depth acc
          else if Ascii.eqb a "(" then
            match depth with
            | O => read s' Normal 1 (Open :: acc)
            | _ => None
            end
          else if Ascii.eqb a ")" then
            match depth with
            | S O => read s' Normal 0 (Close :: acc)
            | _ => None
            end
          else if Ascii.eqb a "." then read s' Normal depth (One Dot :: acc)
          else if Ascii.eqb a "*" then
            match quantify Star acc with
            | Some acc' => read s' Normal depth acc'
            | None => None
            end
          else if Ascii.eqb a "+" then
            match quantify Plus acc with
            | Some acc' => read s' Normal depth acc'
            | None => None
            end
          else if Ascii.eqb a "?" then
            match acc with
            | Plus c :: acc' => read s' Normal depth (PlusLazy c :: acc')
            | _ => None
            end
          else if Ascii.eqb a "^" || Ascii.eqb a "$" || Ascii.eqb a "|"
                  || Ascii.eqb a "{" || Ascii.eqb a "}" || Ascii.eqb a "]" then None
          else read s' Normal depth (One (Lit a) :: acc)
      end
  end.

Definition parse (pattern : string) : option regex :=
  match pattern with
  | String "^" p =>
      option_map (fun l => {| anchored := true; items := l |}) (read p Normal 0 [])
  | p => option_map (fun l => {| anchored := false; items := l |}) (read p Normal 0 [])
  end.

(** A pattern that matches nowhere. *)
Definition never : regex := {| anchored := false; items := [One (Range [])] |}.

(** The compiled pattern.  Every pattern text of the script is inside the
    fragment; a text outside of it can only come from an operand spliced
    into a pattern, and is then taken to match nowhere. *)
Definition compile (pattern : string) : regex :=
  match parse pattern with
  | Some r => r
  | None => never
  end.

(** *** The functions of the module, on pattern texts as in Python *)

(** [re.search(pattern, s)]: the leftmost match, or [None]. *)
Definition search (pattern s : string) : option Match :=
  scan (compile pattern) true s.

(** [re.findall(pattern, s)] for a pattern without groups: the matched
    texts. *)
Definition findall (pattern s : string) : list string :=
  map text (iter (compile pattern) 0 true s).

(** [re.findall(pattern, s)] for a pattern with two groups: the pairs of
    group texts. *)
Definition findall2 (pattern s : string) : list (string * string) :=
  map (fun m => (group m 1, group m 2)) (iter (compile pattern) 0 true s).

(** [re.sub(pattern, repl, s)]. *)
Definition sub (pattern repl s : string) : string :=
  subst (compile pattern) repl 0 true s.

End re.

(** ** Effects: tools, sleeps, prints, exits *)

(** [subprocess.run]'s result. *)
Record CompletedProcess : Type :=
  { returncode : Z; stdout : string; stderr : string }.

(** What the script does to the outside: it runs a shell command, sleeps,
    or prints a line on its standard output.  Writing the log file is left
    out: nothing in the script reads it. *)
Inductive event : Type :=
| Run (cmd : string)
| Sleep (seconds : Z)
| Output (line : string).

Inductive exn : Type :=
| AttributeError      (* an attribute of [None] *)
| UnboundLocalError   (* a local variable read before any assignment *)
| IndexError
| TypeError
| OutOfFuel.          (* the model's bound on loops and calls is used up *)

(** A computation ends by returning, by [sys.exit(code)], or by an
    exception that nothing catches. *)
Inductive outcome (A : Type) : Type :=
| Ret (a : A)
| Exit (code : Z)
| Raise (e : exn).
Arguments Ret {A} a.
Arguments Exit {A} code.
Arguments Raise {A} e.

(** A computation reads the events so far (the tools' answers may depend
    on them) and yields its outcome and the events it adds. *)
Definition M (A : Type) : Type := list event -> outcome A * list event.

Definition ret {A : Type} (a : A) : M A := fun _ => (Ret a, []).

Definition bind {A B : Type} (m : M A) (k : A -> M B) : M B :=
  fun h =>
    match m h with
    | (Ret a, e1) => let (o, e2) := k a (h ++ e1)%list in (o, (e1 ++ e2)%list)
    | (Exit c, e1) => (Exit c, e1)
    | (Raise x, e1) => (Raise x, e1)
    end.

Notation "x <- c1 ;; c2" := (bind c1 (fun x => c2))
  (at level 61, c1 at next level, right associativity).
Notation "c1 ;; c2" := (bind c1 (fun _ => c2))
  (at level 61, right associativity).

Definition sys_exit {A : Type} (code : Z) : M A := fun _ => (Exit code, []).
Definition raise {A : Type} (e : exn) : M A := fun _ => (Raise e, []).
Definition sleep (seconds : Z) : M unit := fun _ => (Ret tt, [Sleep seconds]).
Definition print (line : string) : M unit := fun _ => (Ret tt, [Output line]).

(** The exit status of the process: 0 when the script runs to its end,
    the argument of [sys.exit], 1 after an uncaught exception. *)
Definition exit_status {A : Type} (o : outcome A) : Z :=
  match o with
  | Ret _ => 0
  | Exit code => code
  | Raise _ => 1
  end.

(** The commands among a list of events. *)
Fixpoint commands (evs : list event) : list string :=
  match evs with
  | [] => []
  | Run cmd :: evs' => cmd :: commands evs'
  | _ :: evs' => commands evs'
  end.

(** ** The script *)

(** The variables that the configuration file sets; the numbers are the
    values of [int(...)] of the settings. *)
Record config : Type :=
  { mtx_bin : string;
    mt_bin : string;
    tapeinfo_bin : string;
    lsscsi_bin : string;
    auto_clean : bool;
    chk_drive : bool;
    include_import_export : bool;
    inventory : bool;
    offline : bool;
    vxa_packetloader : bool;
    load_wait : Z;
    clean_wait : Z;
    offline_sleep : Z;
    load_sleep : Z;
    cln_str : string;
    ready : string }.

(** The positional arguments of the command line. *)
Record request : Type :=
  { chgr_device : string;
    mtx_cmd : string;
    slot : string;
    drive_device : string;
    drive_index : string }.

(** What [do_getvolname] returns: nothing, one label, or the labels of
    the source and of the destination of a transfer. *)
Inductive volume_t : Type :=
| NoVolume
| Label (vol : string)
| Labels (src_vol dst_vol : string).

(** [cln_codes = ['20', '21']] *)
Definition cln_codes : list string := ["20"; "21"].

Definition is_space (a : ascii) : bool :=
  Ascii.eqb a " " || between "009" "013" a.

(** [s.split()]: the words between runs of white space.  [cur] is the
    word being read. *)
Fixpoint split_ws (s cur : string) : list string :=
  match s with
  | "" => match cur with "" => [] | _ => [cur] end
  | String a s' =>
      if is_space a
      then match cur with "" => split_ws s' "" | _ => cur :: split_ws s' "" end
      else split_ws s' (cur ++ String a "")
  end.

Definition split (s : string) : list string := split_ws s "".

Section Script.

Variable cfg : config.
Variable req : request.

(** The answer of the shell to a command, given the events so far. *)
Variable shell : list event -> string -> CompletedProcess.

(** The number that [random.choice] draws. *)
Variable rnd : nat.

(** The texts that [usage] prints. *)
Variables doc_opt_str prog_info_txt : string.

Definition get_shell_result (cmd : string) : M CompletedProcess :=
  fun h => (Ret (shell h cmd), [Run cmd]).

Definition usage {A : Type} : M A :=
  print doc_opt_str ;;
  print prog_info_txt ;;
  sys_exit 1.

Definition print_opt_errors_command : string :=
  "The command provided (" ++ mtx_cmd req ++ ") is not a valid command.".

Definition do_loaded : M string :=
  let cmd := mtx_bin cfg ++ " -f " ++ chgr_device req ++ " status" in
  result <- get_shell_result cmd ;;
  if negb (returncode result =? 0)%Z then
    print (stderr result) ;;
    sys_exit (returncode result)
  else
    let drive_loaded_line :=
      re.search ("Data Transfer Element " ++ drive_index req ++ ":Full.*") (stdout result) in
    match drive_loaded_line with
    | Some m =>
        let slot_and_vol_loaded :=
          split (re.sub "^Data Transfer Element.*Element (\d+) Loaded.*= (\w+)" "\1 \2"
                        (re.group m 0)) in
        match slot_and_vol_loaded with
        | slot_loaded :: vol_loaded :: _ => ret slot_loaded
        | _ => raise IndexError
        end
    | None => ret "0"
    end.

Definition do_slots : M string :=
  let cmd := mtx_bin cfg ++ " -f " ++ chgr_device req ++ " status" in
  result <- get_shell_result cmd ;;
  if negb (returncode result =? 0)%Z then sys_exit (returncode result)
  else
    let slots_line := re.search "Storage Changer.*" (stdout result) in
    match slots_line with
    | None => raise AttributeError
    | Some m =>
        let slots := re.sub "^Storage Changer.* Drives, (\d+) Slots.*" "\1" (re.group m 0) in
        ret slots
    end.

Definition do_inventory : M unit :=
  let cmd := mtx_bin cfg ++ " -f " ++ chgr_device req ++ " inventory" in
  result <- get_shell_result cmd ;;
  if negb (returncode result =? 0)%Z then sys_exit (returncode result)
  else ret tt.

(** The loop of [do_list] over [mtx_elements_list]; [last_element] is
    [mtx_elements_list[-1]] and [mtx_elements_txt] the text so far. *)
Fixpoint list_loop (elements : list string) (last_element mtx_elements_txt : string) : string :=
  match elements with
  | [] => mtx_elements_txt
  | element :: elements' =>
      let tmp_txt :=
        re.sub "Data Transfer Element \d+:Full \(Storage Element (\d+) Loaded\)" "\1" element in
      let tmp_txt := re.sub "VolumeTag = " "" tmp_txt in
      if vxa_packetloader cfg then
        let tmp_txt := re.sub " *Storage Element [0-9]*:.*Full" "" tmp_txt in
        let tmp_txt := re.sub "Full :VolumeTag=" "" tmp_txt in
        list_loop elements' last_element mtx_elements_txt
      else
        let tmp_txt :=
          if include_import_export cfg
          then re.sub "Storage Element (\d+) IMPORT.EXPORT:Full :VolumeTag=(.*)" "\1:\2" tmp_txt
          else tmp_txt in
        let tmp_txt := re.sub "Storage Element " "" tmp_txt in
        let tmp_txt := re.sub "Full :VolumeTag=" "" tmp_txt in
        list_loop elements' last_element
          (mtx_elements_txt ++ tmp_txt ++ (if String.eqb element last_element then "" else nl))
  end.

(** The text that [do_list] makes of the output of [mtx status]. *)
Definition list_text (status : string) : string :=
  let data_transfer_elements_list := re.findall "Data Transfer Element \d+:Full.*\w" status in
  let storage_elements_list := re.findall "Storage Element \d+:Full :.*\w" status in
  let importexport_elements_list :=
    if include_import_export cfg
    then re.findall "Storage Element \d+ IMPORT.EXPORT:Full.*\w" status
    else [] in
  let mtx_elements_list :=
    (data_transfer_elements_list ++ storage_elements_list ++ importexport_elements_list)%list in
  list_loop mtx_elements_list (last mtx_elements_list "") "".

Definition do_list : M string :=
  (if inventory cfg then do_inventory else ret tt) ;;
  let cmd := mtx_bin cfg ++ " -f " ++ chgr_device req ++ " status" in
  result <- get_shell_result cmd ;;
  if negb (returncode result =? 0)%Z then sys_exit (returncode result)
  else ret (list_text (stdout result)).

(** The loop of [do_listall] over [mtx_elements_list]. *)
Fixpoint listall_loop (elements : list string) (last_element mtx_elements_txt : string) : string :=
  match elements with
  | [] => mtx_elements_txt
  | element :: elements' =>
      let tmp_txt := re.sub "Data Transfer Element (\d+):Empty" "D:\1:E" element in
      let tmp_txt :=
        re.sub "Data Transfer Element (\d+):Full \(Storage Element (\d+) Loaded\):VolumeTag = (.*)"
               "D:\1:F:\2:\3" tmp_txt in
      let tmp_txt := re.sub "Storage Element (\d+):Empty" "S:\1:E" tmp_txt in
      let tmp_txt := re.sub "Storage Element (\d+):Full :VolumeTag=(.*)" "S:\1:F:\2" tmp_txt in
      let tmp_txt :=
        if include_import_export cfg then
          let tmp_txt := re.sub "Storage Element (\d+) IMPORT.EXPORT:Empty" "I:\1:E" tmp_txt in
          re.sub "Storage Element (\d+) IMPORT.EXPORT:Full :VolumeTag=(.*)" "I:\1:F:\2" tmp_txt
        else tmp_txt in
      listall_loop elements' last_element
        (mtx_elements_txt ++ tmp_txt ++ (if String.eqb element last_element then "" else nl))
  end.

(** The text that [do_listall] makes of the output of [mtx status]. *)
Definition listall_text (status : string) : string :=
  let data_transfer_elements_list := re.findall "Data Transfer Element \d+:.*\w" status in
  let storage_elements_list := re.findall "Storage Element \d+:.*\w" status in
  let importexport_elements_list :=
    if include_import_export cfg
    then re.findall "Storage Element \d+ IMPORT.EXPORT.*\w" status
    else [] in
  let mtx_elements_list :=
    (data_transfer_elements_list ++ storage_elements_list ++ importexport_elements_list)%list in
  listall_loop mtx_elements_list (last mtx_elements_list "") "".

Definition do_listall : M string :=
  (if inventory cfg then do_inventory else ret tt) ;;
  let cmd := mtx_bin cfg ++ " -f " ++ chgr_device req ++ " status" in
  result <- get_shell_result cmd ;;
  if negb (returncode result =? 0)%Z then sys_exit (returncode result)
  else ret (listall_text (stdout result)).

(** The label that [do_getvolname] finds in the listing [all_slots]. *)
Definition getvolname (all_slots : string) : volume_t :=
  if String.eqb (mtx_cmd req) "transfer" then
    let src_vol :=
      match re.search ("[SI]:" ++ slot req ++ ":.:(.*)") all_slots with
      | Some vol => re.group vol 1
      | None => ""
      end in
    let dst_vol :=
      match re.search ("[SI]:" ++ drive_device req ++ ":.:(.*)") all_slots with
      | Some vol => re.group vol 1
      | None => ""
      end in
    Labels src_vol dst_vol
  else if String.eqb (mtx_cmd req) "load" then
    match re.search ("[SI]:" ++ slot req ++ ":.:(.*)") all_slots with
    | Some vol => Label (re.group vol 1)
    | None =>
        match re.search ("D:" ++ drive_index req ++ ":F:\d+:(.*)") all_slots with
        | Some vol => Label (re.group vol 1)
        | None => Label ""
        end
    end
  else if String.eqb (mtx_cmd req) "unload" then
    match re.search ("D:" ++ drive_index req ++ ":.:" ++ slot req ++ ":(.*)") all_slots with
    | Some vol => Label (re.group vol 1)
    | None => Label ""
    end
  else NoVolume.

(** [do_getvolname] sets the global [all_slots] and returns the volume. *)
Definition do_getvolname : M (string * volume_t) :=
  all_slots <- do_listall ;;
  ret (all_slots, getvolname all_slots).

(** The [while s <= int(load_wait)] loop of [do_wait_for_drive]; it
    returns the value of [s] on leaving the loop. *)
Fixpoint wait_loop (fuel : nat) (s : Z) : M Z :=
  if (s <=? load_wait cfg)%Z then
    match fuel with
    | O => raise OutOfFuel
    | S fuel' =>
        let cmd := mt_bin cfg ++ " -f " ++ drive_device req ++ " status" in
        result <- get_shell_result cmd ;;
        match re.search (ready cfg) (stdout result) with
        | Some _ => ret s
        | None =>
            sleep 1 ;;
            wait_loop fuel' (s + 1)%Z
        end
    end
  else ret s.

Definition do_wait_for_drive : M Z :=
  s <- wait_loop (Z.to_nat (load_wait cfg + 1)) 0%Z ;;
  if (s =? load_wait cfg + 1)%Z then ret 1%Z else ret 0%Z.

(** The cleaning tapes of the listing, as pairs of slot and label. *)
Definition chk_for_cln_tapes (all_slots : string) : list (string * string) :=
  let cln_tapes := re.findall2 ("D:\d+:F:(\d+):(" ++ cln_str cfg ++ ".*)") all_slots in
  (cln_tapes ++ re.findall2 ("[SI]:(\d+):F:(" ++ cln_str cfg ++ ".*)") all_slots)%list.

(** [random.choice] *)
Definition random_choice {A : Type} (l : list A) : M A :=
  match nth_error l (rnd mod List.length l) with
  | Some x => ret x
  | None => raise IndexError
  end.

(** [do_get_sg_node] returns the node, or 1 when it finds none: [None]
    here.  The local [st] is bound in three branches only. *)
Definition do_get_sg_node : M (option string) :=
  st <- (if contains "/dev/st" (drive_device req) || contains "/dev/nst" (drive_device req) then
           ret (Some (re.sub "/dev/n*(st\d+)" "\1" (drive_device req)))
         else if contains "/by-id" (drive_device req) then
           ret (Some (re.sub "/dev/tape/by-id/scsi-3(.+?)-.*" "\1" (drive_device req)))
         else if contains "/by-path" (drive_device req) then
           let cmd := "ls -l " ++ drive_device req in
           result <- get_shell_result cmd ;;
           ret (Some (re.sub ".* -> .*/n*(st\d+).*" "\1" (rstrip_nl (stdout result))))
         else ret None) ;;
  let cmd := lsscsi_bin cfg ++ " -ug" in
  result <- get_shell_result cmd ;;
  match st with
  | None => raise UnboundLocalError
  | Some st =>
      match re.search (".*" ++ st ++ " .*(/dev/sg\d+)") (stdout result) with
      | Some sg_search => ret (Some (re.group sg_search 1))
      | None => ret None
      end
  end.

(** [any(cln_code in i for i in tapealerts)] for some [cln_code] of
    [cln_codes]; an alert [i] is the pair of its number and its text. *)
Definition clean_drive_alert (tapealerts : list (string * string)) : bool :=
  existsb (fun cln_code =>
             existsb (fun i => String.eqb cln_code (fst i) || String.eqb cln_code (snd i))
                     tapealerts)
          cln_codes.

Definition load_cmd (slt drv_idx : string) : string :=
  mtx_bin cfg ++ " -f " ++ chgr_device req ++ " load " ++ slt ++ " " ++ drv_idx.

Definition unload_cmd (slt drv_idx : string) : string :=
  mtx_bin cfg ++ " -f " ++ chgr_device req ++ " unload " ++ slt ++ " " ++ drv_idx.

Definition offline_cmd (drv_dev : string) : string :=
  mt_bin cfg ++ " -f " ++ drv_dev ++ " offline".

(** [do_unload], [do_checkdrive], [do_clean] and [do_load] call one
    another; [fuel] bounds the depth of the calls.  [all_slots] is the
    global that [do_getvolname] has set. *)
Fixpoint do_unload (fuel : nat) (all_slots slt drv_dev drv_idx vol : string) (cln : bool)
  {struct fuel} : M Z :=
  match fuel with
  | O => raise OutOfFuel
  | S fuel' =>
      (if offline cfg then
         result <- get_shell_result (offline_cmd drv_dev) ;;
         if negb (offline_sleep cfg =? 0)%Z then sleep (offline_sleep cfg) else ret tt
       else ret tt) ;;
      result <- get_shell_result (unload_cmd slt drv_idx) ;;
      if negb (returncode result =? 0)%Z then
        let fail_txt :=
          "Failed to unload drive device " ++ drv_dev ++ " (drive index: " ++ drv_idx ++ ") "
          ++ (if negb (String.eqb vol "") then "with volume (" ++ vol ++ ") " else "")
          ++ "to slot " ++ slt ++ "." in
        print (fail_txt ++ " Err: " ++ stderr result) ;;
        ret (returncode result)
      else if cln then ret (returncode result)
      else if chk_drive cfg then
        checkdrive <- do_checkdrive fuel' all_slots ;;
        if (checkdrive =? 1)%Z then ret 0%Z else ret (returncode result)
      else ret (returncode result)
  end

with do_checkdrive (fuel : nat) (all_slots : string) {struct fuel} : M Z :=
  match fuel with
  | O => raise OutOfFuel
  | S fuel' =>
      let cln_tapes := chk_for_cln_tapes all_slots in
      if auto_clean cfg && (List.length cln_tapes =? 0)%nat then ret 1%Z
      else
        sg <- do_get_sg_node ;;
        match sg with
        | None => ret 1%Z
        | Some sg =>
            let cmd := tapeinfo_bin cfg ++ " -f " ++ sg in
            result <- get_shell_result cmd ;;
            let tapealerts := re.findall2 "TapeAlert\[(\d+)\]: +(.*)" (stdout result) in
            (if (0 <? List.length tapealerts)%nat then
               if clean_drive_alert tapealerts then
                 if auto_clean cfg then do_clean fuel' all_slots cln_tapes else ret tt
               else ret tt
             else ret tt) ;;
            ret 0%Z
        end
  end

with do_clean (fuel : nat) (all_slots : string) (cln_tapes : list (string * string))
  {struct fuel} : M unit :=
  match fuel with
  | O => raise OutOfFuel
  | S fuel' =>
      cln_tuple <- random_choice cln_tapes ;;
      let cln_slot := fst cln_tuple in
      let cln_vol := snd cln_tuple in
      let cln_tape_in_drv := re.search ("^D:(\d+):F:" ++ cln_slot) all_slots in
      (match cln_tape_in_drv with
       | Some m => do_unload fuel' all_slots cln_slot "" (re.group m 1) cln_vol true ;; ret tt
       | None => ret tt
       end) ;;
      do_load fuel' all_slots cln_slot (drive_device req) (drive_index req) cln_vol true ;;
      ret tt
  end

(** [do_load] returns what [do_wait_for_drive] returns, and [None] after
    a cleaning tape. *)
with do_load (fuel : nat) (all_slots slt drv_dev drv_idx vol : string) (cln : bool)
  {struct fuel} : M (option Z) :=
  match fuel with
  | O => raise OutOfFuel
  | S fuel' =>
      result <- get_shell_result (load_cmd slt drv_idx) ;;
      if negb (returncode result =? 0)%Z then
        let fail_txt :=
          "Failed to load drive device " ++ drv_dev ++ " (drive index: " ++ drv_idx ++ ") "
          ++ (if negb (String.eqb vol "") then "with volume (" ++ vol ++ ") " else "")
          ++ "from slot " ++ slt ++ "." in
        print (fail_txt ++ " Err: " ++ stderr result) ;;
        sys_exit (returncode result)
      else
        (if cln then
           sleep (clean_wait cfg) ;;
           do_unload fuel' all_slots slt drv_dev drv_idx vol true ;;
           ret tt
         else
           if negb (load_sleep cfg =? 0)%Z then sleep (load_sleep cfg) else ret tt) ;;
        if negb cln then
          r <- do_wait_for_drive ;;
          ret (Some r)
        else ret None
  end.

Definition transfer_cmd : string :=
  mtx_bin cfg ++ " -f " ++ chgr_device req ++ " transfer " ++ slot req ++ " " ++ drive_device req.

(** [do_transfer]; [volume] is the pair that [do_getvolname] returned. *)
Definition do_transfer (volume : string * string) : M Z :=
  let cmd := transfer_cmd in
  if String.eqb (fst volume) "" || negb (String.eqb (snd volume) "") then sys_exit 1
  else
    result <- get_shell_result cmd ;;
    if negb (returncode result =? 0)%Z then ret (returncode result)
    else ret 0%Z.

(** The depth of calls that the interpreter allows. *)
Definition recursion_limit : nat := 1000.

Definition label_of (volume : volume_t) : M string :=
  match volume with
  | Label vol => ret vol
  | _ => raise TypeError
  end.

Definition labels_of (volume : volume_t) : M (string * string) :=
  match volume with
  | Labels src_vol dst_vol => ret (src_vol, dst_vol)
  | _ => raise TypeError
  end.

Definition one_of (x : string) (l : list string) : bool :=
  existsb (String.eqb x) l.

(** The call of the function of [mtx_cmd], with the globals [all_slots]
    and [volume] as [do_getvolname] has left them. *)
Definition dispatch (all_slots : string) (volume : volume_t) : M unit :=
  if String.eqb (mtx_cmd req) "list" then
    txt <- do_list ;; print txt
  else if String.eqb (mtx_cmd req) "listall" then
    txt <- do_listall ;; print txt
  else if String.eqb (mtx_cmd req) "slots" then
    txt <- do_slots ;; print txt
  else if String.eqb (mtx_cmd req) "loaded" then
    txt <- do_loaded ;; print txt
  else if String.eqb (mtx_cmd req) "load" then
    vol <- label_of volume ;;
    result <- do_load recursion_limit all_slots (slot req) (drive_device req) (drive_index req)
                      vol false ;;
    match result with
    | Some code => sys_exit code
    | None => sys_exit 0
    end
  else if String.eqb (mtx_cmd req) "unload" then
    vol <- label_of volume ;;
    result <- do_unload recursion_limit all_slots (slot req) (drive_device req) (drive_index req)
                        vol false ;;
    sys_exit result
  else if String.eqb (mtx_cmd req) "transfer" then
    volume <- labels_of volume ;;
    do_transfer volume ;;
    ret tt
  else
    print (nl ++ print_opt_errors_command) ;;
    usage.

(** The script from the point where the configuration is read and the
    [ready] text is set. *)
Definition main : M unit :=
  gv <- (if one_of (mtx_cmd req) ["load"; "loaded"; "unload"; "transfer"]
         then do_getvolname
         else ret ("", NoVolume)) ;;
  dispatch (fst gv) (snd gv).

End Script.

(** The exit status and the events of a run of the script from no events. *)
Definition run_script (cfg : config) (req : request)
  (shell : list event -> string -> CompletedProcess) (rnd : nat) : Z * list event :=
  let (o, evs) := main cfg req shell rnd "" "" [] in
  (exit_status o, evs).

(** ** Requests and worlds that the statements below are read at *)

(** A transfer: the destination slot stands where the drive device stands
    for the other commands. *)
Definition transfer_request (chgr src_slot dst_slot drv_idx : string) : request :=
  {| chgr_device := chgr; mtx_cmd := "transfer"; slot := src_slot;
     drive_device := dst_slot; drive_index := drv_idx |}.

Definition sample_config : config :=
  {| mtx_bin := "mtx"; mt_bin := "mt"; tapeinfo_bin := "tapeinfo"; lsscsi_bin := "lsscsi";
     auto_clean := true; chk_drive := true; include_import_export := false;
     inventory := false; offline := false; vxa_packetloader := false;
     load_wait := 2; clean_wait := 5; offline_sleep := 0; load_sleep := 0;
     cln_str := "CLN"; ready := "ONLINE" |}.

Definition packetloader_config : config :=
  {| mtx_bin := "mtx"; mt_bin := "mt"; tapeinfo_bin := "tapeinfo"; lsscsi_bin := "lsscsi";
     auto_clean := true; chk_drive := true; include_import_export := false;
     inventory := false; offline := false; vxa_packetloader := true;
     load_wait := 2; clean_wait := 5; offline_sleep := 0; load_sleep := 0;
     cln_str := "CLN"; ready := "ONLINE" |}.

Definition import_export_config : config :=
  {| mtx_bin := "mtx"; mt_bin := "mt"; tapeinfo_bin := "tapeinfo"; lsscsi_bin := "lsscsi";
     auto_clean := true; chk_drive := true; include_import_export := true;
     inventory := false; offline := false; vxa_packetloader := false;
     load_wait := 2; clean_wait := 5; offline_sleep := 0; load_sleep := 0;
     cln_str := "CLN"; ready := "ONLINE" |}.

Definition ok (out : string) : CompletedProcess :=
  {| returncode := 0; stdout := out; stderr := "" |}.

Definition failed (code : Z) (err : string) : CompletedProcess :=
  {| returncode := code; stdout := ""; stderr := err |}.

(** A shell in which every command succeeds and prints nothing. *)
Definition quiet_shell (h : list event) (cmd : string) : CompletedProcess := ok "".

Definition transfer_1_to_2 : request :=
  {| chgr_device := "/dev/sg3"; mtx_cmd := "transfer"; slot := "1";
     drive_device := "2"; drive_index := "0" |}.

(** A changer with a volume in slot 1 and none in slot 2, whose transfer
    command fails with code 1. *)
Definition failing_transfer_shell (h : list event) (cmd : string) : CompletedProcess :=
  if String.eqb cmd "mtx -f /dev/sg3 status" then
    ok ("Storage Element 1:Full :VolumeTag=VOL001" ++ nl ++ "Storage Element 2:Empty" ++ nl)
  else failed 1 "mtx: MOVE MEDIUM failed".

Definition load_9_into_0 : request :=
  {| chgr_device := "/dev/sg3"; mtx_cmd := "load"; slot := "9";
     drive_device := "/dev/nst0"; drive_index := "0" |}.

Definition slots_request : request :=
  {| chgr_device := "/dev/sg3"; mtx_cmd := "slots"; slot := "0";
     drive_device := "/dev/nst0"; drive_index := "0" |}.

(** A status text without the line of the changer. *)
Definition no_summary_shell (h : list event) (cmd : string) : CompletedProcess :=
  ok ("Data Transfer Element 0:Empty" ++ nl ++ "      Storage Element 1:Empty" ++ nl).

Definition unload_5_from_0 : request :=
  {| chgr_device := "/dev/sg3"; mtx_cmd := "unload"; slot := "5";
     drive_device := "/dev/nst0"; drive_index := "0" |}.

(** A listing with the cleaning tape of slot 3 in drive 1. *)
Definition tape_in_drive_1 : string :=
  "D:0:E" ++ nl ++ "D:1:F:3:CLN001" ++ nl ++ "S:3:E" ++ nl ++ "S:5:F:VOL005".

(** A changer whose drive 0 holds the volume of slot 5 and whose drive 1
    holds the cleaning tape of slot 3; after the unload the drive asks to
    be cleaned. *)
Definition dirty_drive_shell (h : list event) (cmd : string) : CompletedProcess :=
  if String.eqb cmd "mtx -f /dev/sg3 status" then
    ok ("  Storage Changer /dev/sg3:2 Drives, 5 Slots ( 0 Import/Export )" ++ nl ++
        "Data Transfer Element 0:Full (Storage Element 5 Loaded):VolumeTag = VOL005" ++ nl ++
        "Data Transfer Element 1:Full (Storage Element 3 Loaded):VolumeTag = CLN001" ++ nl ++
        "      Storage Element 3:Empty" ++ nl ++
        "      Storage Element 5:Empty" ++ nl)
  else if String.eqb cmd "lsscsi -ug" then
    ok ("[3:0:0:0]  tape  350223344ab001200  /dev/st0  /dev/sg4" ++ nl)
  else if String.eqb cmd "tapeinfo -f /dev/sg4" then
    ok ("TapeAlert[20]: Clean Now: The tape drive needs cleaning NOW." ++ nl)
  else ok "".

(** ** The readiness poller's queries *)





(** ** The unload and the check of the drive *)

(** The forms of drive device that the usage text names and that
    [do_get_sg_node] tells apart. *)
Definition known_device (drv_dev : string) : bool :=
  contains "/dev/st" drv_dev || contains "/dev/nst" drv_dev
  || contains "/by-id" drv_dev || contains "/by-path" drv_dev.

(** The events of [do_unload] before the [mtx unload] command. *)
Definition offline_events (cfg : config) (drv_dev : string) : list event :=
  if offline cfg then
    Run (offline_cmd cfg drv_dev)
    :: (if negb (offline_sleep cfg =? 0)%Z then [Sleep (offline_sleep cfg)] else [])
  else [].

(** The commands that look for the drive's node and read its alerts. *)
Definition diagnostic (cfg : config) (req : request) (cmd : string) : Prop :=
  cmd = "ls -l " ++ drive_device req \/
  cmd = lsscsi_bin cfg ++ " -ug" \/
  exists sg, cmd = tapeinfo_bin cfg ++ " -f " ++ sg.

(** ** The inventory that a status text describes *)

(** An element of the changer: a drive with, when it is full, the slot
    that its volume came from and the volume's label; or a storage slot,
    or an import/export slot, with the label of its volume when it is
    full.  Indices and slot numbers are kept as the script keeps them, as
    the numerals of the text. *)
Inductive Element : Type :=
| Drive (index : string) (loaded : option (string * string))
| Slot (import_export : bool) (number : string) (volume : option string).

Inductive kind : Type := DataTransfer | Storage | ImportExport.

Definition kind_of (e : Element) : kind :=
  match e with
  | Drive _ _ => DataTransfer
  | Slot false _ _ => Storage
  | Slot true _ _ => ImportExport
  end.

Definition index_or_slot (e : Element) : string :=
  match e with
  | Drive index _ => index
  | Slot _ number _ => number
  end.

(** The line of [mtx status] for an element. *)
Definition status_line (e : Element) : string :=
  match e with
  | Drive n None => "Data Transfer Element " ++ n ++ ":Empty"
  | Drive n (Some (m, v)) =>
      "Data Transfer Element " ++ n ++ ":Full (Storage Element " ++ m ++ " Loaded):VolumeTag = " ++ v
  | Slot false n None => "Storage Element " ++ n ++ ":Empty"
  | Slot false n (Some v) => "Storage Element " ++ n ++ ":Full :VolumeTag=" ++ v
  | Slot true n None => "Storage Element " ++ n ++ " IMPORT/EXPORT:Empty"
  | Slot true n (Some v) => "Storage Element " ++ n ++ " IMPORT/EXPORT:Full :VolumeTag=" ++ v
  end.

(** The token of [listall] for an element. *)
Definition token (e : Element) : string :=
  match e with
  | Drive n None => "D:" ++ n ++ ":E"
  | Drive n (Some (m, v)) => "D:" ++ n ++ ":F:" ++ m ++ ":" ++ v
  | Slot false n None => "S:" ++ n ++ ":E"
  | Slot false n (Some v) => "S:" ++ n ++ ":F:" ++ v
  | Slot true n None => "I:" ++ n ++ ":E"
  | Slot true n (Some v) => "I:" ++ n ++ ":F:" ++ v
  end.

Definition nonempty (s : string) : bool :=
  match s with
  | "" => false
  | _ => true
  end.

(** A numeral: one digit or more. *)
Definition numeral (s : string) : bool := nonempty s && all_chars is_digit s.

(** A volume label: one word character or more. *)
Definition label (s : string) : bool := nonempty s && all_chars is_word s.

Definition well_formed_element (e : Element) : bool :=
  match e with
  | Drive n None => numeral n
  | Drive n (Some (m, v)) => numeral n && numeral m && label v
  | Slot _ n None => numeral n
  | Slot _ n (Some v) => numeral n && label v
  end.

Fixpoint spaces (n : nat) : string :=
  match n with
  | O => ""
  | S n' => String " " (spaces n')
  end.

(** A line of the status text: the line of an element between blanks, or
    any other line. *)
Inductive line : Type :=
| Element_line (indent : nat) (e : Element) (padding : nat)
| Other_line (txt : string).

Definition line_text (l : line) : string :=
  match l with
  | Element_line indent e padding => spaces indent ++ status_line e ++ spaces padding
  | Other_line txt => txt
  end.

Fixpoint elements (ls : list line) : list Element :=
  match ls with
  | [] => []
  | Element_line _ e _ :: ls' => e :: elements ls'
  | Other_line _ :: ls' => elements ls'
  end.

(** The status text: the lines, a line feed between them and, when
    [final_newline] is set, after the last. *)
Definition status_text (ls : list line) (final_newline : bool) : string :=
  String.concat nl (map line_text ls) ++ (if final_newline then nl else "").

Definition kind_eqb (k1 k2 : kind) : bool :=
  match k1, k2 with
  | DataTransfer, DataTransfer | Storage, Storage | ImportExport, ImportExport => true
  | _, _ => false
  end.

Definition of_kind (k : kind) (e : Element) : bool := kind_eqb (kind_of e) k.


Definition same_key (e1 e2 : Element) : bool :=
  kind_eqb (kind_of e1) (kind_of e2) && String.eqb (index_or_slot e1) (index_or_slot e2).

(** At most one element for a kind and a number. *)
Fixpoint unique_keys (es : list Element) : bool :=
  match es with
  | [] => true
  | e :: es' => negb (existsb (same_key e) es') && unique_keys es'
  end.

Definition rank (k : kind) : nat :=
  match k with
  | DataTransfer => 0
  | Storage => 1
  | ImportExport => 2
  end.

(** The order in which the device reports: the drives, then the storage
    slots, then the import/export slots. *)
Fixpoint in_order (es : list Element) : bool :=
  match es with
  | [] => true
  | e :: es' =>
      forallb (fun e' => rank (kind_of e) <=? rank (kind_of e'))%nat es' && in_order es'
  end.

(** A line that is not the line of an element shows neither of the texts
    that the lines of elements start with. *)
Definition well_formed_line (l : line) : bool :=
  match l with
  | Element_line _ e _ => well_formed_element e
  | Other_line txt =>
      negb (contains "Data Transfer Element " txt) && negb (contains "Storage Element " txt)
  end.

Definition well_formed_status (ls : list line) : bool :=
  forallb well_formed_line ls && unique_keys (elements ls) && in_order (elements ls).

(** The elements that [listall] lists. *)
Definition listed (cfg : config) (e : Element) : bool :=
  match kind_of e with
  | ImportExport => include_import_export cfg
  | _ => true
  end.



(** A status text as [mtx] prints it: the line of the changer, two
    drives, two storage slots and two import/export slots. *)
Definition sample_lines : list line :=
  [ Other_line "  Storage Changer /dev/sg3:2 Drives, 4 Slots ( 2 Import/Export )";
    Element_line 0 (Drive "0" (Some ("5", "G03005TA"))) 0;
    Element_line 0 (Drive "1" None) 0;
    Element_line 6 (Slot false "1" (Some "G03001TA")) 24;
    Element_line 6 (Slot false "5" None) 0;
    Element_line 6 (Slot true "41" None) 0;
    Element_line 6 (Slot true "42" (Some "G03029TA")) 24 ].

(** ** Notions for the proofs about the matcher *)

Definition no_newline (a : ascii) : bool := negb (Ascii.eqb a newline).

Definition no_word (a : ascii) : bool := negb (is_word a).

(** The continuation fails on every text that starts with a character of
    the class. *)
Definition rejects (c : re.cls) (k : re.cont) : Prop :=
  forall a s g, re.accepts c a = true -> k (String a s) g = None.

(** The text does not start with a character of the class. *)
Definition stops (c : re.cls) (s : string) : Prop :=
  match s with
  | "" => True
  | String a _ => re.accepts c a = false
  end.

(** The end of a line: the end of the text or a line feed. *)
Definition line_end (s : string) : Prop :=
  s = "" \/ exists more, s = String newline more.

(** Blanks and then the end of the line. *)
Definition blank_end (s : string) : Prop :=
  exists n rest, s = spaces n ++ rest /\ line_end rest.

(** The pattern matches at no place of [s] when [rest] follows. *)
Definition nowhere (r : re.regex) (s rest : string) : Prop :=
  forall s1 s2, s = s1 ++ s2 -> s2 <> "" -> re.match_here (re.items r) (s2 ++ rest) = None.

(** The pattern items of a literal text. *)
Fixpoint lits (P : string) : list re.item :=
  match P with
  | "" => []
  | String a P' => re.One (re.Lit a) :: lits P'
  end.

(** The pattern with which [do_listall] finds the lines of a kind. *)
Definition element_pattern (k : kind) : string :=
  match k with
  | DataTransfer => "Data Transfer Element \d+:.*\w"
  | Storage => "Storage Element \d+:.*\w"
  | ImportExport => "Storage Element \d+ IMPORT.EXPORT.*\w"
  end.

(** The lines of a kind that [re.findall] finds in a line. *)
Definition found (k : kind) (l : line) : list string :=
  match l with
  | Element_line _ e _ => if of_kind k e then [status_line e] else []
  | Other_line _ => []
  end.

(** The substitutions that the loop of [do_listall] applies to an
    element; [iie] is [include_import_export]. *)
Definition listall_subs (iie : bool) (element : string) : string :=
  let tmp_txt := re.sub "Data Transfer Element (\d+):Empty" "D:\1:E" element in
  let tmp_txt :=
    re.sub "Data Transfer Element (\d+):Full \(Storage Element (\d+) Loaded\):VolumeTag = (.*)"
           "D:\1:F:\2:\3" tmp_txt in
  let tmp_txt := re.sub "Storage Element (\d+):Empty" "S:\1:E" tmp_txt in
  let tmp_txt := re.sub "Storage Element (\d+):Full :VolumeTag=(.*)" "S:\1:F:\2" tmp_txt in
  if iie then
    let tmp_txt := re.sub "Storage Element (\d+) IMPORT.EXPORT:Empty" "I:\1:E" tmp_txt in
    re.sub "Storage Element (\d+) IMPORT.EXPORT:Full :VolumeTag=(.*)" "I:\1:F:\2" tmp_txt
  else tmp_txt.

(** The tokens, each followed by a line feed unless its line is the
    last line. *)
Fixpoint sep_tokens (es : list Element) (last_element : string) : string :=
  match es with
  | [] => ""
  | e :: es' =>
      token e ++ (if String.eqb (status_line e) last_element then "" else nl)
      ++ sep_tokens es' last_element
  end.

(** The pattern texts of the script. *)
Definition pattern_texts : list string :=
  [ "^Data Transfer Element.*Element (\d+) Loaded.*= (\w+)";
    "Storage Changer.*";
    "^Storage Changer.* Drives, (\d+) Slots.*";
    "Data Transfer Element \d+:Full.*\w";
    "Storage Element \d+:Full :.*\w";
    "Storage Element \d+ IMPORT.EXPORT:Full.*\w";
    "Data Transfer Element \d+:Full \(Storage Element (\d+) Loaded\)";
    "VolumeTag = ";
    " *Storage Element [0-9]*:.*Full";
    "Full :VolumeTag=";
    "Storage Element (\d+) IMPORT.EXPORT:Full :VolumeTag=(.*)";
    "Storage Element ";
    "Data Transfer Element \d+:.*\w";
    "Storage Element \d+:.*\w";
    "Storage Element \d+ IMPORT.EXPORT.*\w";
    "Data Transfer Element (\d+):Empty";
    "Data Transfer Element (\d+):Full \(Storage Element (\d+) Loaded\):VolumeTag = (.*)";
    "Storage Element (\d+):Empty";
    "Storage Element (\d+):Full :VolumeTag=(.*)";
    "Storage Element (\d+) IMPORT.EXPORT:Empty";
    "/dev/n*(st\d+)";
    "/dev/tape/by-id/scsi-3(.+?)-.*";
    ".* -> .*/n*(st\d+).*";
    "TapeAlert\[(\d+)\]: +(.*)" ].

Definition parses (pattern : string) : bool :=
  match re.parse pattern with
  | Some _ => true
  | None => false
  end.

(** ** The commands and the lines of the requests *)

Definition inventory_cmd (cfg : config) (req : request) : string :=
  mtx_bin cfg ++ " -f " ++ chgr_device req ++ " inventory".

Definition changer_status_cmd (cfg : config) (req : request) : string :=
  mtx_bin cfg ++ " -f " ++ chgr_device req ++ " status".

(** The events of the inventory that goes before a listing. *)
Definition inventory_events (cfg : config) (req : request) : list event :=
  if inventory cfg then [Run (inventory_cmd cfg req)] else [].

(** The commands that the script knows. *)
Definition valid_commands : list string :=
  ["list"; "listall"; "slots"; "loaded"; "load"; "unload"; "transfer"].

(** The line that [do_unload] prints when the unload fails. *)
Definition unload_failure (drv_dev drv_idx vol slt err : string) : string :=
  let fail_txt :=
    "Failed to unload drive device " ++ drv_dev ++ " (drive index: " ++ drv_idx ++ ") "
    ++ (if negb (String.eqb vol "") then "with volume (" ++ vol ++ ") " else "")
    ++ "to slot " ++ slt ++ "." in
  fail_txt ++ " Err: " ++ err.

(** The line that [do_load] prints when the load fails. *)
Definition load_failure (drv_dev drv_idx vol slt err : string) : string :=
  let fail_txt :=
    "Failed to load drive device " ++ drv_dev ++ " (drive index: " ++ drv_idx ++ ") "
    ++ (if negb (String.eqb vol "") then "with volume (" ++ vol ++ ") " else "")
    ++ "from slot " ++ slt ++ "." in
  fail_txt ++ " Err: " ++ err.

(** The events of [do_unload] when the drive is not checked after the
    unload; [result] is the answer to the unload command. *)
Definition unload_events (cfg : config) (req : request) (slt drv_dev drv_idx vol : string)
  (result : CompletedProcess) : list event :=
  (offline_events cfg drv_dev ++
   Run (unload_cmd cfg req slt drv_idx) ::
   (if (returncode result =? 0)%Z then []
    else [Output (unload_failure drv_dev drv_idx vol slt (stderr result))]))%list.


(** A run that has not used up the bound on the depth of the calls and
    has run [n] commands at most. *)
Definition within {A : Type} (n : nat) (r : outcome A * list event) : Prop :=
  fst r <> Raise OutOfFuel /\ (List.length (commands (snd r)) <= n)%nat.

(** A changer whose every command fails with code 5. *)
Definition failing_shell (h : list event) (cmd : string) : CompletedProcess :=
  failed 5 "mtx: cannot open SCSI device".

(** ** More notions for the proofs about the matcher *)

(** The continuation fails behind every part of [y], not empty, that
    the class accepts. *)
Definition fails_inside (c : re.cls) (k : re.cont) (y : string) : Prop :=
  forall y1 y2 g, y = y1 ++ y2 -> y1 <> "" -> all_chars (re.accepts c) y1 = true -> k y2 g = None.

(** The line of the changer in the status text. *)
Definition changer_line (dev drives slots import_export : string) : string :=
  "Storage Changer " ++ dev ++ ":" ++ drives ++ " Drives, " ++ slots ++ " Slots ( "
  ++ import_export ++ " Import/Export )".

(** ** The list of the volumes that a status text describes *)

(** An element that holds a volume. *)
Definition holds_volume (e : Element) : bool :=
  match e with
  | Drive _ (Some _) | Slot _ _ (Some _) => true
  | _ => false
  end.

(** The entry of [list] for an element that holds a volume: the slot, or
    for a drive the slot that its volume came from, and the label. *)
Definition list_entry (e : Element) : string :=
  match e with
  | Drive _ (Some (m, v)) => m ++ ":" ++ v
  | Slot _ n (Some v) => n ++ ":" ++ v
  | _ => ""
  end.

(** The pattern with which [do_list] finds the lines of a kind. *)
Definition full_pattern (k : kind) : string :=
  match k with
  | DataTransfer => "Data Transfer Element \d+:Full.*\w"
  | Storage => "Storage Element \d+:Full :.*\w"
  | ImportExport => "Storage Element \d+ IMPORT.EXPORT:Full.*\w"
  end.

(** The substitutions that the loop of [do_list] applies to an element
    when [vxa_packetloader] is not set; [iie] is [include_import_export]. *)
Definition list_subs (iie : bool) (element : string) : string :=
  let tmp_txt :=
    re.sub "Data Transfer Element \d+:Full \(Storage Element (\d+) Loaded\)" "\1" element in
  let tmp_txt := re.sub "VolumeTag = " "" tmp_txt in
  let tmp_txt :=
    if iie
    then re.sub "Storage Element (\d+) IMPORT.EXPORT:Full :VolumeTag=(.*)" "\1:\2" tmp_txt
    else tmp_txt in
  let tmp_txt := re.sub "Storage Element " "" tmp_txt in
  re.sub "Full :VolumeTag=" "" tmp_txt.

(** The entries, each followed by a line feed unless its line is the
    last line. *)
Fixpoint sep_entries (es : list Element) (last_element : string) : string :=
  match es with
  | [] => ""
  | e :: es' =>
      list_entry e ++ (if String.eqb (status_line e) last_element then "" else nl)
      ++ sep_entries es' last_element
  end.

(** The lines that [do_list] finds in a line of the status text. *)
Definition found_full (k : kind) (l : line) : list string :=
  match l with
  | Element_line _ e _ => if of_kind k e && holds_volume e then [status_line e] else []
  | Other_line _ => []
  end.

(** The steps of [read] over a pattern text. *)
Definition plain (a : ascii) : bool :=
  negb (Ascii.eqb a "\" || Ascii.eqb a "[" || Ascii.eqb a "(" || Ascii.eqb a ")"
        || Ascii.eqb a "." || Ascii.eqb a "*" || Ascii.eqb a "+" || Ascii.eqb a "?"
        || Ascii.eqb a "^" || Ascii.eqb a "$" || Ascii.eqb a "|"
        || Ascii.eqb a "{" || Ascii.eqb a "}" || Ascii.eqb a "]").

(** The first of the answers that a list gives. *)
Fixpoint first_hit {A B : Type} (hit : A -> option B) (l : list A) : option B :=
  match l with
  | [] => None
  | x :: l' =>
      match hit x with
      | Some y => Some y
      | None => first_hit hit l'
      end
  end.

(** What a match shows: its text and the texts of its groups. *)
Definition shown (m : option re.Match) : option (string * list string) :=
  option_map (fun m => (re.text m, re.groups m)) m.

(** ** The slot of the volume in a drive *)

(** The pattern with which [do_loaded] looks for the drive. *)
Definition loaded_regex (idx : string) : re.regex :=
  {| re.anchored := false;
     re.items :=
       (lits "Data Transfer Element " ++ lits idx ++ lits ":Full" ++ [re.Star re.Dot])%list |}.

(** The line of the drive [idx] when it holds a volume, up to the end of
    the line. *)
Definition loaded_hit (idx : string) (l : line) : option (string * list string) :=
  match l with
  | Element_line _ (Drive n (Some (m, v))) p =>
      if String.eqb n idx
      then Some (status_line (Drive n (Some (m, v))) ++ spaces p, [])
      else None
  | _ => None
  end.

(** The volume in the drive [idx], with the slot that it came from. *)
Fixpoint loaded_in (idx : string) (es : list Element) : option (string * string) :=
  match es with
  | [] => None
  | Drive n (Some mv) :: es' => if String.eqb n idx then Some mv else loaded_in idx es'
  | _ :: es' => loaded_in idx es'
  end.

(** ** The labels that [do_getvolname] finds in a listing *)

(** The patterns of [do_getvolname], read: for the volume of a slot, for
    the volume of a drive, and for the volume of a drive that came from a
    slot. *)
Definition slot_regex (slt : string) : re.regex :=
  {| re.anchored := false;
     re.items :=
       (re.One (re.Range [("S", "S"); ("I", "I")]%char) :: lits ":" ++ lits slt
        ++ lits ":" ++ re.One re.Dot :: lits ":" ++ [re.Open; re.Star re.Dot; re.Close])%list |}.

Definition drive_regex (idx : string) : re.regex :=
  {| re.anchored := false;
     re.items :=
       (lits "D:" ++ lits idx ++ lits ":F:" ++ re.Plus re.Dig :: lits ":"
        ++ [re.Open; re.Star re.Dot; re.Close])%list |}.

Definition drive_slot_regex (idx slt : string) : re.regex :=
  {| re.anchored := false;
     re.items :=
       (lits "D:" ++ lits idx ++ lits ":" ++ re.One re.Dot :: lits ":" ++ lits slt ++ lits ":"
        ++ [re.Open; re.Star re.Dot; re.Close])%list |}.

(** The label of the volume in the slot [slt], storage or import/export. *)
Fixpoint volume_in_slot (slt : string) (es : list Element) : option string :=
  match es with
  | [] => None
  | Slot _ n (Some v) :: es' => if String.eqb n slt then Some v else volume_in_slot slt es'
  | _ :: es' => volume_in_slot slt es'
  end.

(** The label of the volume in the drive [idx] that came from the slot
    [slt]. *)
Fixpoint loaded_from (idx slt : string) (es : list Element) : option string :=
  match es with
  | [] => None
  | Drive n (Some (m, v)) :: es' =>
      if String.eqb n idx && String.eqb m slt then Some v else loaded_from idx slt es'
  | _ :: es' => loaded_from idx slt es'
  end.

(** The label, empty when there is none. *)
Definition label_or_empty (v : option string) : string :=
  match v with
  | Some v => v
  | None => ""
  end.

(** What the patterns of [do_getvolname] find in the token of an
    element. *)
Definition slot_hit (slt : string) (e : Element) : option (string * list string) :=
  match e with
  | Slot _ n (Some v) => if String.eqb slt n then Some (token e, [v]) else None
  | _ => None
  end.

Definition drive_hit (idx : string) (e : Element) : option (string * list string) :=
  match e with
  | Drive n (Some (m, v)) => if String.eqb idx n then Some (token e, [v]) else None
  | _ => None
  end.

Definition drive_slot_hit (idx slt : string) (e : Element) : option (string * list string) :=
  match e with
  | Drive n (Some (m, v)) =>
      if String.eqb idx n && String.eqb slt m then Some (token e, [v]) else None
  | _ => None
  end.

(** The text of the first group of a match, when there is one. *)
Definition first_group (m : option re.Match) : option string :=
  option_map (fun vol => re.group vol 1) m.

(** ** The cleaning tapes of a listing *)

(** The patterns of [chk_for_cln_tapes], read: for the cleaning tapes in
    drives and for those in slots. *)
Definition cln_drive_regex (cln : string) : re.regex :=
  {| re.anchored := false;
     re.items :=
       (lits "D:" ++ re.Plus re.Dig :: lits ":F:" ++ re.Open :: re.Plus re.Dig :: re.Close
        :: lits ":" ++ re.Open :: lits cln ++ [re.Star re.Dot; re.Close])%list |}.

Definition cln_slot_regex (cln : string) : re.regex :=
  {| re.anchored := false;
     re.items :=
       (re.One (re.Range [("S", "S"); ("I", "I")]%char) :: lits ":" ++ re.Open
        :: re.Plus re.Dig :: re.Close :: lits ":F:" ++ re.Open
        :: lits cln ++ [re.Star re.Dot; re.Close])%list |}.

(** The cleaning tape that an element holds: the slot that names it in
    the listing, and its label. *)
Definition cln_in_drive (cln : string) (e : Element) : list (string * string) :=
  match e with
  | Drive _ (Some (m, v)) => if String.prefix cln v then [(m, v)] else []
  | _ => []
  end.

Definition cln_in_slot (cln : string) (e : Element) : list (string * string) :=
  match e with
  | Slot _ n (Some v) => if String.prefix cln v then [(n, v)] else []
  | _ => []
  end.

(** What the patterns of [chk_for_cln_tapes] find in the token of an
    element. *)
Definition cln_drive_hit (cln : string) (e : Element) : option (string * list string) :=
  match e with
  | Drive _ (Some (m, v)) => if String.prefix cln v then Some (token e, [m; v]) else None
  | _ => None
  end.

Definition cln_slot_hit (cln : string) (e : Element) : option (string * list string) :=
  match e with
  | Slot _ n (Some v) => if String.prefix cln v then Some (token e, [n; v]) else None
  | _ => None
  end.

(** The matches of a list, one at most for each member. *)
Definition hits {A B : Type} (hit : A -> option B) (l : list A) : list B :=
  flat_map (fun x => match hit x with Some y => [y] | None => [] end) l.

(** A changer with a cleaning tape in drive 0, from slot 3, and another
    one in slot 4. *)
Definition cleaning_lines : list line :=
  [ Element_line 0 (Drive "0" (Some ("3", "CLN001"))) 0;
    Element_line 6 (Slot false "3" None) 0;
    Element_line 6 (Slot false "4" (Some "CLN002")) 24;
    Element_line 6 (Slot false "5" (Some "VOL005")) 24 ].

(** ** A drive device of no known form *)

(** An unload from a drive device that is none of [/dev/st#],
    [/dev/nst#], [/dev/tape/by-id/...] and [/dev/tape/by-path/...]. *)
Definition unload_5_from_tape0 : request :=
  {| chgr_device := "/dev/sg3"; mtx_cmd := "unload"; slot := "5";
     drive_device := "/dev/tape0"; drive_index := "0" |}.

(** ** The sg node of a drive *)

(** The pattern with which [do_get_sg_node] looks for the node of the
    drive [st]. *)
Definition sg_regex (st : string) : re.regex :=
  {| re.anchored := false;
     re.items :=
       (re.Star re.Dot :: lits st ++ lits " " ++ re.Star re.Dot :: re.Open
        :: lits "/dev/sg" ++ [re.Plus re.Dig; re.Close])%list |}.

(** The part of the pattern for the node, and what it gives where the
    node [/dev/sg] with the number [k] stands before [c] and [more]. *)
Definition sg_items : list re.item :=
  (re.Open :: lits "/dev/sg" ++ [re.Plus re.Dig; re.Close])%list.

Definition sg_found (k c more : string) (g : re.caps) : string * re.caps :=
  (c ++ more,
   {| re.pending := re.pending g;
      re.closed := (re.closed g ++ [("/dev/sg" ++ k)%string])%list |}).

(** Lines, each with its line feed. *)
Definition lines_text (ls : list string) : string :=
  String.concat "" (map (fun l => l ++ nl) ls).

(** A line that does not name the drive [st]. *)
Definition other_drive (st l : string) : bool :=
  all_chars no_newline l && negb (contains (st ++ " ") l).

(** The answer of [lsscsi -ug] on a machine with a disk and a tape
    drive. *)
Definition lsscsi_shell (h : list event) (cmd : string) : CompletedProcess :=
  ok (lines_text ["[0:0:0:0]    disk    ATA      /dev/sda   /dev/sg0"]
      ++ "[1:0:0:0]    tape    IBM      /dev/st0   /dev/sg2" ++ nl).

(** ** The drive that holds the cleaning tape *)

(** The pattern with which [do_clean] looks for the drive that holds the
    tape of the slot [slt]. *)
Definition cln_drv_regex (slt : string) : re.regex :=
  {| re.anchored := true;
     re.items :=
       (lits "D:" ++ re.Open :: re.Plus re.Dig :: re.Close :: lits ":F:" ++ lits slt)%list |}.

(** The drive that [do_clean] unloads before it loads the tape of the
    slot [slt]: the drive of the first line, when the slot that its volume
    came from begins with [slt]. *)
Definition cln_tape_in_drv (slt : string) (es : list Element) : option string :=
  match es with
  | Drive n (Some (m, _)) :: _ => if String.prefix slt m then Some n else None
  | _ => None
  end.

(** A listing whose first line is a drive with the volume of slot 31,
    the cleaning tape being in slot 3. *)
Definition tape_of_slot_31 : list Element :=
  [Drive "0" (Some ("31", "VOL031")); Slot false "3" (Some "CLN003"); Slot false "31" None].

(** ** The alerts of a drive *)

(** A line of the answer of [tapeinfo]: an alert with its number and its
    text behind one blank or more, or another line. *)
Inductive tapeinfo_line : Type :=
| Alert_line (code : string) (pad : nat) (txt : string)
| Info_line (txt : string).

Definition tapeinfo_line_text (l : tapeinfo_line) : string :=
  match l with
  | Alert_line code pad txt => "TapeAlert[" ++ code ++ "]:" ++ spaces (S pad) ++ txt
  | Info_line txt => txt
  end.

(** The answer of [tapeinfo], every line with its line feed. *)
Definition tapeinfo_text (ls : list tapeinfo_line) : string :=
  lines_text (map tapeinfo_line_text ls).

(** The number of an alert is a numeral and its text does not begin with
    a blank; no other line has the word [TapeAlert[]. *)
Definition well_formed_tapeinfo_line (l : tapeinfo_line) : bool :=
  match l with
  | Alert_line code _ txt =>
      numeral code && all_chars no_newline txt && negb (String.prefix " " txt)
  | Info_line txt => all_chars no_newline txt && negb (contains "TapeAlert[" txt)
  end.

(** The alerts of the lines, as pairs of number and text. *)
Definition alerts (ls : list tapeinfo_line) : list (string * string) :=
  flat_map (fun l => match l with
                     | Alert_line code _ txt => [(code, txt)]
                     | Info_line _ => []
                     end) ls.

(** The pattern of the alerts. *)
Definition alert_items : list re.item :=
  (lits "TapeAlert[" ++
   [re.Open; re.Plus re.Dig; re.Close; re.One (re.Lit "]"); re.One (re.Lit ":");
    re.Plus (re.Lit " "); re.Open; re.Star re.Dot; re.Close])%list.

(** A drive that asks to be cleaned, in the words of [tapeinfo]. *)
Definition dirty_tapeinfo : list tapeinfo_line :=
  [ Info_line "Product Type: Tape Drive";
    Alert_line "20" 4 "Clean Now: The tape drive needs cleaning NOW.";
    Info_line "BlockPosition: 0" ].

(** The answers of [lsscsi] and of [tapeinfo] for a drive that asks to be
    cleaned. *)
Definition alert_shell (h : list event) (cmd : string) : CompletedProcess :=
  if String.eqb cmd "lsscsi -ug" then
    ok ("[1:0:0:0]    tape    IBM      /dev/st0   /dev/sg2" ++ nl)
  else if String.eqb cmd "tapeinfo -f /dev/sg2" then ok (tapeinfo_text dirty_tapeinfo)
  else ok "".

(** ** The ready text *)

(** [print_opt_errors('uname')] *)
Definition print_opt_errors_uname : string :=
  "Could not determine the OS using the 'uname' utility.".

(** The commands that tell the two [mt] programs of Linux apart. *)
Definition mt_st_cmd : string := "mt --version|grep " ++ String "034" "mt-st" ++ String "034" "".

Definition gnu_cpio_cmd : string :=
  "mt --version|grep " ++ String "034" "GNU cpio" ++ String "034" "".

(** [get_ready_str]; [isfile] is [os.path.isfile]. *)
Definition get_ready_str (shell : list event -> string -> CompletedProcess)
  (isfile : string -> bool) (doc_opt_str prog_info_txt : string) : M string :=
  result <- get_shell_result shell "uname" ;;
  let uname := stdout result in
  if String.eqb uname ("Linux" ++ nl) then
    if isfile "/etc/debian_version" then
      result <- get_shell_result shell mt_st_cmd ;;
      if (returncode result =? 1)%Z then ret "drive status" else ret "ONLINE"
    else
      result <- get_shell_result shell gnu_cpio_cmd ;;
      if (returncode result =? 0)%Z then ret "drive status" else ret "ONLINE"
  else if String.eqb uname ("SunOS" ++ nl) then ret "No Additional Sense"
  else if String.eqb uname ("FreeBSD" ++ nl) then ret "Current Driver State: at rest."
  else
    print (nl ++ print_opt_errors_uname) ;;
    usage doc_opt_str prog_info_txt.

(** The text [x] begins [s], and a character of [f] follows it. *)
Fixpoint follows (x : string) (f : ascii -> bool) (s : string) : bool :=
  match x, s with
  | "", String c _ => f c
  | String a x', String b s' => Ascii.eqb a b && follows x' f s'
  | _, "" => false
  end.

(** The text [x] is in [s] before a character of [f]. *)
Fixpoint contains_before (x : string) (f : ascii -> bool) (s : string) : bool :=
  follows x f s || match s with
                   | "" => false
                   | String _ s' => contains_before x f s'
                   end.

Definition is_some {A : Type} (o : option A) : bool :=
  match o with
  | Some _ => true
  | None => false
  end.

(** ** The sg node of a drive that is named by its id *)

(** A drive named by its id, and the answer of [lsscsi -ug] for it. *)
Definition unload_5_by_id : request :=
  {| chgr_device := "/dev/sg3"; mtx_cmd := "unload"; slot := "5";
     drive_device := "/dev/tape/by-id/scsi-350223344ab001200-nst"; drive_index := "0" |}.

Definition lsscsi_id_shell (h : list event) (cmd : string) : CompletedProcess :=
  ok (lines_text ["[0:0:0:0]    disk    35000c500a1b2c3d4      /dev/sda   /dev/sg0"]
      ++ "[1:0:0:0]    tape    350223344ab001200      /dev/st0   /dev/sg2" ++ nl).

(** ** The sg node of a drive that is named by its path *)

(** The part of the pattern of the link's target behind the last
    directory, and what it gives for the drive [st]. *)
Definition st_items : list re.item :=
  [re.One (re.Lit "/"); re.Star (re.Lit "n"); re.Open; re.One (re.Lit "s"); re.One (re.Lit "t");
   re.Plus re.Dig; re.Close; re.Star re.Dot].

Definition st_found (n : string) (g : re.caps) : string * re.caps :=
  ("", {| re.pending := re.pending g;
          re.closed := (re.closed g ++ [("st" ++ n)%string])%list |}).

(** The name of the device in a directory: [st#] or [nst#]. *)
Definition st_node (rewind : bool) (n : string) : string :=
  (if rewind then "" else "n") ++ "st" ++ n.

(** A drive named by its path, and the answers of [ls -l] and of
    [lsscsi -ug] for it. *)
Definition unload_5_by_path : request :=
  {| chgr_device := "/dev/sg3"; mtx_cmd := "unload"; slot := "5";
     drive_device := "/dev/tape/by-path/pci-0000:03:00.0-sas-nst"; drive_index := "0" |}.

Definition by_path_shell (h : list event) (cmd : string) : CompletedProcess :=
  if String.eqb cmd "lsscsi -ug" then lsscsi_shell h cmd
  else
    ok ("lrwxrwxrwx 1 root root 10 Jan  1 00:00 /dev/tape/by-path/pci-0000:03:00.0-sas-nst"
        ++ " -> " ++ "../.." ++ "/" ++ st_node false "0" ++ nl).

(** ** A drive whose line does not name a slot *)

(** The head of the line of the drive [idx] when it holds a volume. *)
Definition full_drive_head (idx : string) : string :=
  "Data Transfer Element " ++ idx ++ ":Full".

(** A line that is not the line of the drive [idx] with a volume. *)
Definition other_than_full (idx l : string) : bool :=
  all_chars no_newline l && negb (contains (full_drive_head idx) l).

(** The answer of [mtx status] for a drive with a volume of which the
    changer does not know the slot. *)
Definition unknown_source_shell (h : list event) (cmd : string) : CompletedProcess :=
  ok (lines_text ["  Storage Changer /dev/sg3:1 Drives, 2 Slots ( 0 Import/Export )"]
      ++ (full_drive_head "0" ++ " (Unknown Storage Element Loaded):VolumeTag = VOL001") ++ nl).

(** ** The commands that only read *)

(** The two commands that ask the changer and move nothing. *)
Definition asks_changer (cfg : config) (req : request) (cmd : string) : Prop :=
  cmd = inventory_cmd cfg req \/ cmd = changer_status_cmd cfg req.

(** ** The exceptions of the script *)


Definition no_exception (e : exn) : Prop := False.



(** * Facts *)

Import re.

(** ** Computations *)

Lemma fst_bind {A B : Type} (m : M A) (k : A -> M B) (h : list event) :
  fst (bind m k h) =
  match fst (m h) with
  | Ret a => fst (k a (h ++ snd (m h))%list)
  | Exit c => Exit c
  | Raise e => Raise e
  end.
Proof.
  unfold bind. destruct (m h) as [[a | c | e] e1]; cbn [fst snd]; try reflexivity.
  destruct (k a (h ++ e1)%list); reflexivity.
Qed.

Lemma snd_bind {A B : Type} (m : M A) (k : A -> M B) (h : list event) :
  snd (bind m k h) =
  (snd (m h) ++
   match fst (m h) with
   | Ret a => snd (k a (h ++ snd (m h))%list)
   | _ => []
   end)%list.
Proof.
  unfold bind. destruct (m h) as [[a | c | e] e1]; cbn [fst snd];
    try (rewrite app_nil_r; reflexivity).
  destruct (k a (h ++ e1)%list); reflexivity.
Qed.

Lemma bind_Ret {A B : Type} (m : M A) (k : A -> M B) (h : list event) (a : A) (e1 : list event) :
  m h = (Ret a, e1) ->
  bind m k h = (fst (k a (h ++ e1)%list), (e1 ++ snd (k a (h ++ e1)%list))%list).
Proof. intros H. unfold bind. rewrite H. destruct (k a (h ++ e1)%list). reflexivity. Qed.

Lemma commands_app (e1 e2 : list event) :
  commands (e1 ++ e2) = (commands e1 ++ commands e2)%list.
Proof.
  induction e1 as [| [c | z | l] e1 IH]; cbn; [reflexivity | now rewrite IH | exact IH | exact IH].
Qed.

Lemma eqb_empty_false (s : string) : s <> "" -> String.eqb s "" = false.
Proof. intros H. apply String.eqb_neq. exact H. Qed.

(** ** The transfer *)

Lemma dispatch_transfer (cfg : config) (shell : list event -> string -> CompletedProcess)
  (rnd : nat) (doc info chgr src_slot dst_slot drv_idx all_slots : string) (volume : volume_t) :
  let req := transfer_request chgr src_slot dst_slot drv_idx in
  dispatch cfg req shell rnd doc info all_slots volume =
  (volume <- labels_of volume ;; do_transfer cfg req shell volume ;; ret tt).
Proof. reflexivity. Qed.

(** C1: whatever labels the source and the destination of a transfer
    resolve to, the transfer command is run if and only if the source
    label is not empty and the destination label is empty, and then it is
    the only command; when the source label is empty or the destination
    label is not, the process exits with code 1 and nothing is run. *)
Theorem transfer_guard (cfg : config) (shell : list event -> string -> CompletedProcess)
  (rnd : nat) (doc info chgr src_slot dst_slot drv_idx all_slots src_vol dst_vol : string)
  (h : list event) :
  let req := transfer_request chgr src_slot dst_slot drv_idx in
  let run := dispatch cfg req shell rnd doc info all_slots (Labels src_vol dst_vol) h in
  (In (transfer_cmd cfg req) (commands (snd run)) <-> src_vol <> "" /\ dst_vol = "") /\
  (src_vol <> "" /\ dst_vol = "" -> commands (snd run) = [transfer_cmd cfg req]) /\
  (src_vol = "" \/ dst_vol <> "" -> exit_status (fst run) = 1%Z /\ snd run = []).
Proof.
  intros req run. subst run req. rewrite dispatch_transfer.
  unfold labels_of, do_transfer, bind, ret, sys_exit, get_shell_result. cbn [fst snd].
  destruct (String.eqb_spec src_vol "") as [Hs | Hs].
  - cbn. split; [| split].
    + split; [intros [] | intros [Hn _]; contradiction].
    + intros [Hn _]. contradiction.
    + auto.
  - destruct (String.eqb_spec dst_vol "") as [Hd | Hd].
    + cbn [orb negb]. cbv iota.
      destruct (negb _); cbn;
        (split; [split; auto | split; [auto | intros [? | ?]; contradiction]]).
    + cbn. split; [| split].
      * split; [intros [] | intros [_ Hn]; contradiction].
      * intros [_ Hn]. contradiction.
      * auto.
Qed.

(** A transfer that passes the guard ends with exit status 0 whatever the
    transfer command returns: [dispatch] drops what [do_transfer] returns. *)
Lemma transfer_failure_is_dropped (cfg : config)
  (shell : list event -> string -> CompletedProcess)
  (rnd : nat) (doc info chgr src_slot dst_slot drv_idx all_slots src_vol : string)
  (h : list event) :
  src_vol <> "" ->
  let req := transfer_request chgr src_slot dst_slot drv_idx in
  let run := dispatch cfg req shell rnd doc info all_slots (Labels src_vol "") h in
  exit_status (fst run) = 0%Z /\ snd run = [Run (transfer_cmd cfg req)].
Proof.
  intros Hs req run. subst run req. rewrite dispatch_transfer.
  unfold labels_of, do_transfer, bind, ret, sys_exit, get_shell_result. cbn [fst snd].
  rewrite (eqb_empty_false _ Hs). cbn [orb negb String.eqb].
  destruct (negb _); cbn; auto.
Qed.

(** C2, at a transfer from the full slot 1 to the empty slot 2 whose
    transfer command exits with code 1: the labels pass the guard, the
    command is run, and the process exits with status 0, not with 1. *)
Theorem failed_transfer_exits_0 :
  getvolname transfer_1_to_2 ("S:1:F:VOL001" ++ nl ++ "S:2:E") = Labels "VOL001" "" /\
  returncode (failing_transfer_shell [Run "mtx -f /dev/sg3 status"]
                "mtx -f /dev/sg3 transfer 1 2") = 1%Z /\
  run_script sample_config transfer_1_to_2 failing_transfer_shell 0 =
    (0%Z, [Run "mtx -f /dev/sg3 status"; Run "mtx -f /dev/sg3 transfer 1 2"]).
Proof. vm_compute. auto. Qed.

(** ** The volume of a load *)

(** C3, at a load of slot 9, which the listing does not have, into drive
    0, which holds the volume of slot 2: the label resolved is that of the
    volume in the drive, though its source slot is not the slot asked for. *)
Theorem load_fallback_ignores_source_slot :
  getvolname load_9_into_0
    ("D:0:F:2:VOL002" ++ nl ++ "S:1:F:VOL001" ++ nl ++ "S:2:E" ++ nl ++ "S:3:E")
  = Label "VOL002".
Proof. vm_compute. reflexivity. Qed.

(** The same when the slot asked for is listed and empty, its volume being
    in another drive. *)
Example load_fallback_with_empty_slot :
  getvolname
    {| chgr_device := "/dev/sg3"; mtx_cmd := "load"; slot := "3";
       drive_device := "/dev/nst0"; drive_index := "0" |}
    ("D:0:F:2:VOL002" ++ nl ++ "D:1:F:3:VOL003" ++ nl ++ "S:2:E" ++ nl ++ "S:3:E")
  = Label "VOL002".
Proof. vm_compute. reflexivity. Qed.

(** The unload looks for the slot asked for in the drive's line. *)
Example unload_volume_checks_source_slot :
  getvolname unload_5_from_0 ("D:0:F:2:VOL002" ++ nl ++ "S:5:E") = Label "" /\
  getvolname unload_5_from_0 ("D:0:F:5:VOL005" ++ nl ++ "S:5:E") = Label "VOL005".
Proof. vm_compute. auto. Qed.

(** ** The number of slots *)

(** C4, at a status text without the line of the changer: [do_slots]
    raises [AttributeError], and the process ends with status 1 having
    printed nothing. *)
Theorem slots_without_summary_raises :
  do_slots sample_config slots_request no_summary_shell [] =
    (Raise AttributeError, [Run "mtx -f /dev/sg3 status"]) /\
  run_script sample_config slots_request no_summary_shell 0 =
    (1%Z, [Run "mtx -f /dev/sg3 status"]).
Proof. vm_compute. auto. Qed.

(** ** The cleaning tape in a drive *)

(** C8, at a listing with the cleaning tape of slot 3 in drive 1: the
    tape is a candidate, and [do_clean] loads it from slot 3 into drive 0
    without an unload of drive 1 before. *)
Theorem cleaning_tape_in_drive_1_is_not_unloaded :
  chk_for_cln_tapes sample_config tape_in_drive_1 = [("3", "CLN001")] /\
  do_clean sample_config unload_5_from_0 quiet_shell 0 3 tape_in_drive_1 [("3", "CLN001")] [] =
    (Ret tt, [Run "mtx -f /dev/sg3 load 3 0"; Sleep 5; Run "mtx -f /dev/sg3 unload 3 0"]).
Proof. vm_compute. auto. Qed.

(** The same tape in the drive that the listing starts with is unloaded
    first. *)
Example cleaning_tape_in_drive_0_is_unloaded :
  commands (snd (do_clean sample_config unload_5_from_0 quiet_shell 0 3
     ("D:0:F:3:CLN001" ++ nl ++ "D:1:E" ++ nl ++ "S:3:E") [("3", "CLN001")] [])) =
  ["mtx -f /dev/sg3 unload 3 0"; "mtx -f /dev/sg3 load 3 0"; "mtx -f /dev/sg3 unload 3 0"].
Proof. vm_compute. reflexivity. Qed.

(** The whole run of an unload after which the drive asks for cleaning,
    the cleaning tape being in drive 1. *)
Example unload_with_cleaning_tape_in_drive_1 :
  snd (run_script sample_config unload_5_from_0 dirty_drive_shell 0) =
  [ Run "mtx -f /dev/sg3 status"; Run "mtx -f /dev/sg3 unload 5 0"; Run "lsscsi -ug";
    Run "tapeinfo -f /dev/sg4"; Run "mtx -f /dev/sg3 load 3 0"; Sleep 5;
    Run "mtx -f /dev/sg3 unload 3 0" ].
Proof. vm_compute. reflexivity. Qed.

(** ** The list of a packet loader *)

Lemma list_loop_packetloader (cfg : config) (elements : list string) (last_element txt : string) :
  vxa_packetloader cfg = true -> list_loop cfg elements last_element txt = txt.
Proof.
  intros Hv. induction elements as [| element elements IH]; cbn [list_loop].
  - reflexivity.
  - rewrite Hv. exact IH.
Qed.

(** C10: with [vxa_packetloader] set, the text of [list] is empty for every
    status text, and [do_list] returns the empty text unless a command of
    [mtx] fails, in which case it exits with that command's code. *)
Theorem list_packetloader_empty (cfg : config) (req : request)
  (shell : list event -> string -> CompletedProcess) (h : list event) :
  vxa_packetloader cfg = true ->
  (forall status, list_text cfg status = "") /\
  match fst (do_list cfg req shell h) with
  | Ret txt => txt = ""
  | Exit code => code <> 0%Z
  | Raise _ => False
  end.
Proof.
  intros Hv.
  assert (Ht : forall status, list_text cfg status = "").
  { intros status. unfold list_text. apply list_loop_packetloader. exact Hv. }
  split; [exact Ht |].
  unfold do_list. rewrite fst_bind.
  assert (Hs : forall h',
    match fst ((result <- get_shell_result shell (mtx_bin cfg ++ " -f " ++ chgr_device req ++ " status") ;;
                if negb (returncode result =? 0)%Z then sys_exit (returncode result)
                else ret (list_text cfg (stdout result))) h') with
    | Ret txt => txt = ""
    | Exit code => code <> 0%Z
    | Raise _ => False
    end).
  { intros h'. rewrite fst_bind. cbn [get_shell_result fst snd].
    destruct (Z.eqb_spec (returncode (shell h' (mtx_bin cfg ++ " -f " ++ chgr_device req ++ " status"))) 0)
      as [E | E]; cbn [negb sys_exit ret fst]; [apply Ht | exact E]. }
  destruct (inventory cfg).
  - unfold do_inventory at 1. rewrite fst_bind. cbn [get_shell_result fst snd].
    destruct (Z.eqb_spec (returncode (shell h (mtx_bin cfg ++ " -f " ++ chgr_device req ++ " inventory"))) 0)
      as [E | E]; cbn [negb sys_exit ret fst]; [apply Hs | exact E].
  - cbn [ret fst]. apply Hs.
Qed.

(** The list of a packet loader with a full slot. *)
Lemma list_packetloader_empty_witness :
  list_text packetloader_config ("Storage Element 1:Full :VolumeTag=VOL001" ++ nl) = "".
Proof.
  apply (list_packetloader_empty packetloader_config slots_request quiet_shell []).
  reflexivity.
Defined.

(** Without the setting the same text lists the volume. *)
Example list_without_packetloader :
  list_text sample_config ("Storage Element 1:Full :VolumeTag=VOL001" ++ nl) = "1:VOL001".
Proof. vm_compute. reflexivity. Qed.

(** ** The wait for the drive *)

Section Poller.

Variable cfg : config.
Variable req : request.
Variable shell : list event -> string -> CompletedProcess.







End Poller.


(** ** The unload *)

Section Unload.

Variable cfg : config.
Variable req : request.
Variable shell : list event -> string -> CompletedProcess.
Variable rnd : nat.

Lemma do_unload_eq (fuel : nat) (all_slots slt drv_dev drv_idx vol : string) (cln : bool) :
  do_unload cfg req shell rnd (S fuel) all_slots slt drv_dev drv_idx vol cln =
  ((if offline cfg then
      result <- get_shell_result shell (offline_cmd cfg drv_dev) ;;
      if negb (offline_sleep cfg =? 0)%Z then sleep (offline_sleep cfg) else ret tt
    else ret tt) ;;
   result <- get_shell_result shell (unload_cmd cfg req slt drv_idx) ;;
   if negb (returncode result =? 0)%Z then
     let fail_txt :=
       "Failed to unload drive device " ++ drv_dev ++ " (drive index: " ++ drv_idx ++ ") "
       ++ (if negb (String.eqb vol "") then "with volume (" ++ vol ++ ") " else "")
       ++ "to slot " ++ slt ++ "." in
     print (fail_txt ++ " Err: " ++ stderr result) ;;
     ret (returncode result)
   else if cln then ret (returncode result)
   else if chk_drive cfg then
     checkdrive <- do_checkdrive cfg req shell rnd fuel all_slots ;;
     if (checkdrive =? 1)%Z then ret 0%Z else ret (returncode result)
   else ret (returncode result)).
Proof. reflexivity. Qed.

Lemma do_checkdrive_eq (fuel : nat) (all_slots : string) :
  do_checkdrive cfg req shell rnd (S fuel) all_slots =
  (let cln_tapes := chk_for_cln_tapes cfg all_slots in
   if auto_clean cfg && (List.length cln_tapes =? 0)%nat then ret 1%Z
   else
     sg <- do_get_sg_node cfg req shell ;;
     match sg with
     | None => ret 1%Z
     | Some sg =>
         let cmd := tapeinfo_bin cfg ++ " -f " ++ sg in
         result <- get_shell_result shell cmd ;;
         let tapealerts := re.findall2 "TapeAlert\[(\d+)\]: +(.*)" (stdout result) in
         (if (0 <? List.length tapealerts)%nat then
            if clean_drive_alert tapealerts then
              if auto_clean cfg then do_clean cfg req shell rnd fuel all_slots cln_tapes else ret tt
            else ret tt
          else ret tt) ;;
         ret 0%Z
     end).
Proof. reflexivity. Qed.

Lemma sg_node_diagnostic (h : list event) :
  Forall (diagnostic cfg req) (commands (snd (do_get_sg_node cfg req shell h))).
Proof.
  unfold do_get_sg_node. rewrite snd_bind, commands_app. apply Forall_app. split.
  - destruct (_ || _); [cbn; constructor |].
    destruct (contains "/by-id" _); [cbn; constructor |].
    destruct (contains "/by-path" _); [| cbn; constructor].
    rewrite snd_bind. cbn. constructor; [left; reflexivity | constructor].
  - destruct (fst _); [| constructor | constructor].
    rewrite snd_bind, commands_app. cbn [get_shell_result fst snd commands app].
    constructor; [right; left; reflexivity |].
    destruct a; [| constructor].
    destruct (re.search _ _); constructor.
Qed.


Lemma offline_part (drv_dev : string) (h : list event) :
  (if offline cfg then
     result <- get_shell_result shell (offline_cmd cfg drv_dev) ;;
     if negb (offline_sleep cfg =? 0)%Z then sleep (offline_sleep cfg) else ret tt
   else ret tt) h = (Ret tt, offline_events cfg drv_dev).
Proof.
  unfold offline_events. destruct (offline cfg); [| reflexivity].
  unfold bind. cbn [get_shell_result].
  destruct (negb _); reflexivity.
Qed.

(** C9: an unload with the cleaning flag set returns the code of the
    [mtx unload] command and runs, besides the optional [mt offline], that
    command alone: [do_checkdrive] is not entered, so there is no query of
    [tapeinfo] and no load or unload of a cleaning tape after it. *)
Theorem cleaning_unload_skips_checkdrive (fuel : nat)
  (all_slots slt drv_dev drv_idx vol : string) (h : list event) :
  let run := do_unload cfg req shell rnd (S fuel) all_slots slt drv_dev drv_idx vol true h in
  let result := shell (h ++ offline_events cfg drv_dev)%list (unload_cmd cfg req slt drv_idx) in
  fst run = Ret (returncode result) /\
  commands (snd run) =
    (commands (offline_events cfg drv_dev) ++ [unload_cmd cfg req slt drv_idx])%list.
Proof.
  intros run result. subst run. rewrite do_unload_eq.
  rewrite (bind_Ret _ _ h tt (offline_events cfg drv_dev) (offline_part drv_dev h)).
  cbn [fst snd]. rewrite fst_bind, snd_bind. cbn [get_shell_result fst snd]. fold result.
  rewrite !commands_app.
  destruct (negb (returncode result =? 0)%Z); cbn; auto.
Qed.



End Unload.


(** An unload when [lsscsi] shows no node for the drive, a cleaning tape
    being in slot 3. *)
Example unload_without_sg_node :
  run_script sample_config unload_5_from_0
    (fun _ cmd =>
       if String.eqb cmd "mtx -f /dev/sg3 status" then
         ok ("Data Transfer Element 0:Full (Storage Element 5 Loaded):VolumeTag = VOL005" ++ nl ++
             "      Storage Element 3:Full :VolumeTag=CLN001" ++ nl ++
             "      Storage Element 5:Empty" ++ nl)
       else ok "") 0 =
  (0%Z, [Run "mtx -f /dev/sg3 status"; Run "mtx -f /dev/sg3 unload 5 0"; Run "lsscsi -ug"]).
Proof. vm_compute. reflexivity. Qed.

(** With a drive device of no known form [do_get_sg_node] reads its local
    [st] before any assignment. *)
Example unknown_device_raises :
  fst (do_get_sg_node sample_config
         {| chgr_device := "/dev/sg3"; mtx_cmd := "unload"; slot := "5";
            drive_device := "/dev/nsa0"; drive_index := "0" |} quiet_shell []) =
  Raise UnboundLocalError.
Proof. vm_compute. reflexivity. Qed.

(** ** Strings *)

Lemma app_empty_r (s : string) : s ++ "" = s.
Proof. induction s as [| a s IH]; cbn; [reflexivity | now rewrite IH]. Qed.

Lemma app_assoc_s (x y z : string) : (x ++ y) ++ z = x ++ y ++ z.
Proof. induction x as [| a x IH]; cbn; [reflexivity | now rewrite IH]. Qed.

Lemma string_length_app (x y : string) : String.length (x ++ y) = String.length x + String.length y.
Proof. induction x as [| a x IH]; cbn; [reflexivity | now rewrite IH]. Qed.

Lemma take_app (x y : string) : take (String.length (x ++ y) - String.length y) (x ++ y) = x.
Proof.
  rewrite string_length_app. replace (String.length x + String.length y - String.length y)
    with (String.length x) by lia.
  induction x as [| a x IH]; cbn; [destruct y; reflexivity | now rewrite IH].
Qed.

Lemma take_all (x : string) : take (String.length x - 0) x = x.
Proof.
  rewrite Nat.sub_0_r. induction x as [| a x IH]; cbn; [reflexivity | now rewrite IH].
Qed.

Lemma all_chars_app (f : ascii -> bool) (x y : string) :
  all_chars f (x ++ y) = all_chars f x && all_chars f y.
Proof.
  induction x as [| a x IH]; cbn; [reflexivity |]. rewrite IH. apply andb_assoc.
Qed.

Lemma all_chars_impl (f g : ascii -> bool) (s : string) :
  (forall a, f a = true -> g a = true) -> all_chars f s = true -> all_chars g s = true.
Proof.
  intros Hfg. induction s as [| a s IH]; cbn; [reflexivity |].
  intros H. apply andb_true_iff in H as [Ha Hs]. rewrite (Hfg a Ha), (IH Hs). reflexivity.
Qed.

(** ** The matcher *)

(** A greedy repetition takes a whole run of the class when what follows
    in the pattern cannot start inside the run. *)
Lemma star_run (c : cls) (k : cont) (run rest : string) (g : caps) :
  all_chars (accepts c) run = true -> rejects c k -> stops c rest ->
  star c k (run ++ rest) g = k rest g.
Proof.
  intros Hrun Hk Hrest. induction run as [| a run IH]; cbn [append].
  - destruct rest as [| b rest]; cbn [star]; [reflexivity |].
    cbn in Hrest. rewrite Hrest. reflexivity.
  - cbn in Hrun. apply andb_true_iff in Hrun as [Ha Hrun].
    cbn [star]. rewrite Ha, (IH Hrun), (Hk a _ g Ha).
    destruct (k rest g); reflexivity.
Qed.

Lemma word_no_newline (a : ascii) : is_word a = true -> no_newline a = true.
Proof.
  unfold no_newline. destruct (Ascii.eqb_spec a newline) as [-> | _]; [discriminate | reflexivity].
Qed.

Lemma digit_no_newline (a : ascii) : is_digit a = true -> no_newline a = true.
Proof.
  unfold no_newline. destruct (Ascii.eqb_spec a newline) as [-> | _]; [discriminate | reflexivity].
Qed.

(** [.*\w] at the end of a pattern: on a line that ends in a word
    character followed by characters that are none, it takes the line up
    to that word character. *)
Lemma dot_star_word (body : string) (w : ascii) (tail rest : string) (g : caps) :
  all_chars no_newline body = true -> is_word w = true ->
  all_chars no_word tail = true -> line_end rest ->
  star Dot (one Wrd accept) (body ++ String w (tail ++ rest)) g = Some (tail ++ rest, g).
Proof.
  intros Hbody Hw Htail Hrest.
  assert (Hnone : star Dot (one Wrd accept) (tail ++ rest) g = None).
  { clear Hbody. induction tail as [| a tail IH]; cbn [append].
    - destruct Hrest as [-> | [more ->]]; reflexivity.
    - cbn in Htail. apply andb_true_iff in Htail as [Ha Htail].
      unfold no_word in Ha. apply negb_true_iff in Ha.
      cbn [star]. rewrite (IH Htail). cbn [one accepts]. rewrite Ha.
      destruct (negb _); reflexivity. }
  induction body as [| a body IH]; cbn [append star accepts].
  - fold (no_newline w). rewrite (word_no_newline w Hw), Hnone.
    cbn [one accepts]. rewrite Hw. reflexivity.
  - cbn in Hbody. apply andb_true_iff in Hbody as [Ha Hbody].
    fold (no_newline a). rewrite Ha, (IH Hbody). reflexivity.
Qed.

(** A text of word characters only splits before its last character. *)
Lemma word_last (v : string) :
  v <> "" -> all_chars is_word v = true ->
  exists v' w, v = v' ++ String w "" /\ all_chars is_word v' = true /\ is_word w = true.
Proof.
  induction v as [| a v IH]; [contradiction |]. intros _ Hv.
  cbn in Hv. apply andb_true_iff in Hv as [Ha Hv].
  destruct v as [| b v].
  - exists "", a. auto.
  - destruct (IH ltac:(discriminate) Hv) as (v' & w & Heq & Hv' & Hw).
    exists (String a v'), w. rewrite Heq. cbn. rewrite Ha. auto.
Qed.

(** ** Searching *)

Lemma try_unanchored (r : regex) (b : bool) (s : string) :
  anchored r = false -> try r b s = match_here (items r) s.
Proof. unfold try. intros ->. reflexivity. Qed.

Lemma nowhere_nil (r : regex) (rest : string) : nowhere r "" rest.
Proof. intros [| a s1] s2 H Hne; [cbn in H; congruence | discriminate]. Qed.

Lemma nowhere_cons (r : regex) (a : ascii) (s rest : string) :
  match_here (items r) (String a (s ++ rest)) = None -> nowhere r s rest ->
  nowhere r (String a s) rest.
Proof.
  intros Hhere Hs [| b s1] s2 H Hne; cbn in H.
  - subst s2. exact Hhere.
  - injection H as _ H. exact (Hs s1 s2 H Hne).
Qed.

Lemma nowhere_app (r : regex) (s t rest : string) :
  nowhere r s (t ++ rest) -> nowhere r t rest -> nowhere r (s ++ t) rest.
Proof.
  induction s as [| a s IH]; intros Hs Ht; cbn [append]; [exact Ht |].
  apply nowhere_cons.
  - rewrite app_assoc_s. apply (Hs "" (String a s)); [reflexivity | discriminate].
  - apply IH; [| exact Ht].
    intros s1 s2 -> Hne. apply (Hs (String a s1) s2); [reflexivity | exact Hne].
Qed.

(** A run of characters at which the pattern cannot start. *)
Lemma nowhere_run (r : regex) (f : ascii -> bool) (s rest : string) :
  (forall a t, f a = true -> match_here (items r) (String a t) = None) ->
  all_chars f s = true -> nowhere r s rest.
Proof.
  intros Hf. induction s as [| a s IH]; intros Hs; [apply nowhere_nil |].
  cbn in Hs. apply andb_true_iff in Hs as [Ha Hs].
  apply nowhere_cons; [apply Hf; exact Ha | apply IH; exact Hs].
Qed.

Lemma iter_flag (r : regex) (n : nat) (b : bool) (s : string) :
  anchored r = false -> iter r n b s = iter r n false s.
Proof.
  intros Hr. destruct n as [| n]; destruct s as [| a s]; cbn [iter];
    rewrite ?(try_unanchored r b), ?(try_unanchored r false) by exact Hr; reflexivity.
Qed.

Lemma subst_flag (r : regex) (repl : string) (n : nat) (b : bool) (s : string) :
  anchored r = false -> subst r repl n b s = subst r repl n false s.
Proof.
  intros Hr. destruct n as [| n]; destruct s as [| a s]; cbn [subst];
    rewrite ?(try_unanchored r b), ?(try_unanchored r false) by exact Hr; reflexivity.
Qed.

Lemma iter_nowhere (r : regex) (s rest : string) :
  anchored r = false -> nowhere r s rest ->
  iter r 0 false (s ++ rest) = iter r 0 false rest.
Proof.
  intros Hr. induction s as [| a s IH]; intros Hs; cbn [append]; [reflexivity |].
  cbn [iter]. rewrite (try_unanchored r false) by exact Hr.
  change (String a (s ++ rest)) with (String a s ++ rest).
  rewrite (Hs "" (String a s)) by (reflexivity || discriminate).
  apply IH. intros s1 s2 -> Hne. apply (Hs (String a s1) s2); [reflexivity | exact Hne].
Qed.

Lemma subst_nowhere (r : regex) (repl s rest : string) :
  anchored r = false -> nowhere r s rest ->
  subst r repl 0 false (s ++ rest) = s ++ subst r repl 0 false rest.
Proof.
  intros Hr. induction s as [| a s IH]; intros Hs; cbn [append]; [reflexivity |].
  cbn [subst]. rewrite (try_unanchored r false) by exact Hr.
  change (String a (s ++ rest)) with (String a s ++ rest).
  rewrite (Hs "" (String a s)) by (reflexivity || discriminate).
  f_equal. apply IH. intros s1 s2 -> Hne. apply (Hs (String a s1) s2); [reflexivity | exact Hne].
Qed.

Lemma iter_skip (r : regex) (w rest : string) :
  iter r (String.length w) false (w ++ rest) = iter r 0 false rest.
Proof. induction w as [| a w IH]; cbn [String.length append iter]; [reflexivity | exact IH]. Qed.

Lemma subst_skip (r : regex) (repl w rest : string) :
  subst r repl (String.length w) false (w ++ rest) = subst r repl 0 false rest.
Proof. induction w as [| a w IH]; cbn [String.length append subst]; [reflexivity | exact IH]. Qed.

(** A match that starts here and takes [w]. *)
Lemma iter_match (r : regex) (w rest : string) (gs : list string) :
  anchored r = false -> w <> "" ->
  match_here (items r) (w ++ rest) = Some {| text := w; groups := gs; rest := rest |} ->
  iter r 0 false (w ++ rest) =
    {| text := w; groups := gs; rest := rest |} :: iter r 0 false rest.
Proof.
  intros Hr Hw Hm. destruct w as [| a w]; [contradiction |].
  cbn [append iter]. rewrite (try_unanchored r false) by exact Hr.
  change (String a (w ++ rest)) with (String a w ++ rest). rewrite Hm.
  cbn [text String.length Nat.pred]. rewrite iter_skip. reflexivity.
Qed.

Lemma subst_match (r : regex) (repl w rest : string) (gs : list string) :
  anchored r = false -> w <> "" ->
  match_here (items r) (w ++ rest) = Some {| text := w; groups := gs; rest := rest |} ->
  subst r repl 0 false (w ++ rest) =
    expand repl {| text := w; groups := gs; rest := rest |} ++ subst r repl 0 false rest.
Proof.
  intros Hr Hw Hm. destruct w as [| a w]; [contradiction |].
  cbn [append subst]. rewrite (try_unanchored r false) by exact Hr.
  change (String a (w ++ rest)) with (String a w ++ rest). rewrite Hm.
  cbn [text]. rewrite subst_skip. reflexivity.
Qed.

(** The result of [match_here] from the result of the matcher. *)
Lemma match_here_some (p : list item) (w rest : string) (g : caps) :
  rmatch p accept (w ++ rest) {| pending := []; closed := [] |} = Some (rest, g) ->
  match_here p (w ++ rest) = Some {| text := w; groups := closed g; rest := rest |}.
Proof. unfold match_here. intros ->. rewrite take_app. reflexivity. Qed.

Lemma match_here_none (p : list item) (s : string) :
  rmatch p accept s {| pending := []; closed := [] |} = None -> match_here p s = None.
Proof. unfold match_here. intros ->. reflexivity. Qed.

Lemma plus_run (c : cls) (k : cont) (run rest : string) (g : caps) :
  nonempty run = true -> all_chars (accepts c) run = true -> rejects c k -> stops c rest ->
  one c (star c k) (run ++ rest) g = k rest g.
Proof.
  intros Hne Hrun Hk Hrest. destruct run as [| a run]; [discriminate |].
  cbn in Hrun. apply andb_true_iff in Hrun as [Ha Hrun].
  cbn [append one]. rewrite Ha. apply star_run; assumption.
Qed.

Lemma lits_mismatch (P : string) (p : list item) (k : cont) : forall (s : string) (g : caps),
  prefix P s = false -> rmatch (lits P ++ p) k s g = None.
Proof.
  induction P as [| b P IH]; intros s g Hp.
  - destruct s; discriminate.
  - destruct s as [| a s]; cbn [lits List.app rmatch one]; [reflexivity |].
    cbn [prefix] in Hp. cbn [accepts].
    destruct (Ascii.eqb_spec b a) as [-> | Hne]; [| reflexivity].
    destruct (ascii_dec a a) as [_ | Hc]; [| contradiction]. apply IH. exact Hp.
Qed.

(** A literal without line feed lies inside the line if it is a prefix
    of the text. *)
Lemma prefix_in_line (P : string) : forall (s rest : string),
  all_chars no_newline P = true -> line_end rest ->
  prefix P (s ++ rest) = prefix P s.
Proof.
  induction P as [| b P IH]; intros s rest HP Hrest.
  - destruct s, rest; reflexivity.
  - cbn in HP. apply andb_true_iff in HP as [Hb HP].
    destruct s as [| a s]; cbn [append prefix].
    + destruct Hrest as [-> | [more ->]]; [reflexivity |]. cbn [prefix].
      destruct (ascii_dec b newline) as [-> | _]; [discriminate | reflexivity].
    + destruct (ascii_dec b a); [apply IH; assumption | reflexivity].
Qed.

Lemma contains_suffix (P s1 s2 : string) :
  contains P (s1 ++ s2) = false -> prefix P s2 = false.
Proof.
  induction s1 as [| a s1 IH]; cbn [append]; intros H.
  - destruct s2; cbn [contains] in H; apply orb_false_iff in H; apply H.
  - cbn [contains] in H. apply orb_false_iff in H as [_ H]. apply IH. exact H.
Qed.

(** A line without the literal that the pattern starts with. *)
Lemma nowhere_without (r : regex) (P : string) (p : list item) (txt rest : string) :
  items r = (lits P ++ p)%list -> all_chars no_newline P = true ->
  contains P txt = false -> line_end rest -> nowhere r txt rest.
Proof.
  intros Hr HP Htxt Hrest s1 s2 -> _.
  apply match_here_none. rewrite Hr. apply lits_mismatch.
  rewrite (prefix_in_line P s2 rest HP Hrest). apply (contains_suffix P s1 s2 Htxt).
Qed.

(** A pattern that starts with a word, a blank and a word character does
    not match a word that only blanks follow to the end of the line. *)
Lemma word_blank_mismatch (P : string) (c : ascii) (p : list item) (k : cont) :
  is_word c = true -> all_chars is_word P = true ->
  forall (w tail : string) (g : caps),
    all_chars is_word w = true -> blank_end tail ->
    rmatch (lits P ++ One (Lit " ") :: One (Lit c) :: p) k (w ++ tail) g = None.
Proof.
  intros Hc. induction P as [| b P IH]; intros HP w tail g Hw (n & rest & -> & Hrest).
  - cbn [lits List.app rmatch]. destruct w as [| a w]; cbn [append].
    + destruct n as [| n]; cbn [spaces append].
      * destruct Hrest as [-> | [more ->]]; reflexivity.
      * cbn [one accepts Ascii.eqb Bool.eqb andb]. cbv iota.
        destruct n as [| n]; cbn [spaces append].
        -- destruct Hrest as [-> | [more ->]]; cbn [one accepts]; [reflexivity |].
           destruct (Ascii.eqb_spec c newline) as [-> | _]; [discriminate | reflexivity].
        -- cbn [one accepts].
           destruct (Ascii.eqb_spec c " ") as [-> | _]; [discriminate | reflexivity].
    + cbn in Hw. apply andb_true_iff in Hw as [Ha _]. cbn [one accepts].
      destruct (Ascii.eqb_spec " " a) as [<- | _]; [discriminate | reflexivity].
  - cbn in HP. apply andb_true_iff in HP as [Hb HP].
    cbn [lits List.app rmatch]. destruct w as [| a w]; cbn [append].
    + destruct n as [| n]; cbn [spaces append].
      * destruct Hrest as [-> | [more ->]]; cbn [one accepts]; [reflexivity |].
        destruct (Ascii.eqb_spec b newline) as [-> | _]; [discriminate | reflexivity].
      * cbn [one accepts].
        destruct (Ascii.eqb_spec b " ") as [-> | _]; [discriminate | reflexivity].
    + cbn in Hw. apply andb_true_iff in Hw as [Ha Hw]. cbn [one accepts].
      destruct (Ascii.eqb b a); [| reflexivity].
      apply (IH HP w (spaces n ++ rest) g Hw). exists n, rest. auto.
Qed.

(** So such a pattern matches nowhere in a label at the end of a line. *)
Lemma nowhere_label (r : regex) (P : string) (c : ascii) (p : list item) (v tail : string) :
  items r = (lits P ++ One (Lit " ") :: One (Lit c) :: p)%list ->
  is_word c = true -> all_chars is_word P = true ->
  all_chars is_word v = true -> blank_end tail -> nowhere r v tail.
Proof.
  intros Hr Hc HP Hv Htail s1 s2 -> _.
  rewrite all_chars_app in Hv. apply andb_true_iff in Hv as [_ Hv].
  apply match_here_none. rewrite Hr. apply word_blank_mismatch; assumption.
Qed.

(** A pattern that starts with a literal starts at that character only. *)
Lemma first_lit_mismatch (b : ascii) (p : list item) (a : ascii) (t : string) :
  Ascii.eqb b a = false -> match_here (One (Lit b) :: p) (String a t) = None.
Proof. intros H. unfold match_here. cbn [rmatch one accepts]. rewrite H. reflexivity. Qed.

Lemma nowhere_digits (r : regex) (b : ascii) (p : list item) (n rest : string) :
  items r = One (Lit b) :: p -> is_digit b = false ->
  all_chars is_digit n = true -> nowhere r n rest.
Proof.
  intros Hr Hb. apply nowhere_run. intros a t Ha. rewrite Hr.
  apply first_lit_mismatch. destruct (Ascii.eqb_spec b a) as [-> | _]; [congruence | reflexivity].
Qed.

Lemma nowhere_spaces (r : regex) (b : ascii) (p : list item) (n : nat) (rest : string) :
  items r = One (Lit b) :: p -> Ascii.eqb b " " = false -> nowhere r (spaces n) rest.
Proof.
  intros Hr Hb. apply (nowhere_run r (Ascii.eqb " ")).
  - intros a t Ha. apply Ascii.eqb_eq in Ha. subst a. rewrite Hr.
    apply first_lit_mismatch. exact Hb.
  - induction n as [| n IH]; [reflexivity | exact IH].
Qed.

(** ** Tactics that run the matcher on a text with unknown parts *)

(** Whether a class accepts a character that is known. *)
Ltac eval_accepts :=
  repeat match goal with
  | |- context [accepts ?c (Ascii ?b0 ?b1 ?b2 ?b3 ?b4 ?b5 ?b6 ?b7)] =>
      let v := eval vm_compute in (accepts c (Ascii b0 b1 b2 b3 b4 b5 b6 b7)) in
      change (accepts c (Ascii b0 b1 b2 b3 b4 b5 b6 b7)) with v; cbv iota
  end.

(** The items of a pattern text. *)
Ltac eval_items :=
  repeat match goal with
  | |- context [items (compile ?p)] =>
      let v := eval vm_compute in (items (compile p)) in
      change (items (compile p)) with v
  end.

(** The matcher over the known characters at the head of the text. *)
Ltac run_matcher :=
  repeat (progress (cbn [rmatch one append open_group close_group pending closed accept
                         status_line token];
                    rewrite ?app_assoc_s;
                    eval_accepts)).

(** [rejects] for a continuation that starts with a literal. *)
Ltac solve_rejects :=
  let a := fresh "a" in let s := fresh "s" in let g := fresh "g" in let Ha := fresh "Ha" in
  intros a s g Ha; cbn [one accepts];
  match goal with
  | |- context [Ascii.eqb ?b a] =>
      destruct (Ascii.eqb_spec b a) as [<- | _]; [vm_compute in Ha; discriminate Ha | reflexivity]
  end.

Ltac solve_stops :=
  solve [exact I | vm_compute; reflexivity].

(** A run of digits under [\d+]. *)
Ltac digits_run :=
  rewrite plus_run; [| assumption | assumption | solve_rejects | solve_stops].

(** No match at the head of the text. *)
Ltac solve_none :=
  apply match_here_none; eval_items; run_matcher;
  repeat (digits_run; run_matcher);
  reflexivity.

Ltac solve_blank_end :=
  first [exists 0, ""; split; [reflexivity | left; reflexivity]
        | eexists _, _; split; [reflexivity | assumption]].

(** No match at any place of a text made of known characters, numerals,
    blanks and a label at its end. *)
Ltac solve_nowhere :=
  cbn [append status_line token]; rewrite ?app_assoc_s;
  lazymatch goal with
  | |- nowhere _ "" _ => apply nowhere_nil
  | |- nowhere _ (String _ _) _ => apply nowhere_cons; [solve_none | solve_nowhere]
  | |- nowhere _ (spaces _ ++ _) _ =>
      apply nowhere_app;
      [eapply nowhere_spaces; [vm_compute; reflexivity | reflexivity] | solve_nowhere]
  | |- nowhere _ (spaces _) _ =>
      eapply nowhere_spaces; [vm_compute; reflexivity | reflexivity]
  | |- nowhere _ (?n ++ _) _ =>
      apply nowhere_app;
      [eapply nowhere_digits; [vm_compute; reflexivity | reflexivity | assumption] | solve_nowhere]
  | |- nowhere _ ?v _ =>
      first
        [eapply (nowhere_label _ "Data" "T");
         [vm_compute; reflexivity | reflexivity | reflexivity | assumption | solve_blank_end]
        | eapply (nowhere_label _ "Storage" "E");
         [vm_compute; reflexivity | reflexivity | reflexivity | assumption | solve_blank_end]]
  end.

Lemma dot_star_word_eq (s body : string) (w : ascii) (tail rest : string) (g : caps) :
  s = body ++ String w (tail ++ rest) ->
  all_chars no_newline body = true -> is_word w = true ->
  all_chars no_word tail = true -> line_end rest ->
  star Dot (one Wrd accept) s g = Some (tail ++ rest, g).
Proof. intros ->. apply dot_star_word. Qed.

Lemma spaces_no_word (n : nat) : all_chars no_word (spaces n) = true.
Proof. induction n as [| n IH]; [reflexivity | exact IH]. Qed.

Lemma digits_no_newline (n : string) :
  all_chars (accepts Dig) n = true -> all_chars no_newline n = true.
Proof. apply all_chars_impl. exact digit_no_newline. Qed.

Lemma words_no_newline (v : string) :
  all_chars is_word v = true -> all_chars no_newline v = true.
Proof. apply all_chars_impl. exact word_no_newline. Qed.

(** The sides of [all_chars no_newline] on a text made of literals,
    numerals and words. *)
Ltac solve_no_newline :=
  cbn [append all_chars];
  lazymatch goal with
  | |- true = true => reflexivity
  | |- (_ && _)%bool = true => apply andb_true_iff; split; [reflexivity | solve_no_newline]
  | |- all_chars no_newline (_ ++ _) = true =>
      rewrite all_chars_app; apply andb_true_iff; split; solve_no_newline
  | |- all_chars no_newline _ = true =>
      first [apply digits_no_newline; assumption | apply words_no_newline; assumption]
  end.

Section Lines.

Variables (n m v : string) (p : nat) (rest : string).
Hypothesis Hn1 : nonempty n = true.
Hypothesis Hn2 : all_chars (accepts Dig) n = true.
Hypothesis Hm1 : nonempty m = true.
Hypothesis Hm2 : all_chars (accepts Dig) m = true.
Hypothesis Hv1 : nonempty v = true.
Hypothesis Hv2 : all_chars is_word v = true.
Hypothesis Hrest : line_end rest.

Lemma label_last : exists v' w, v = v' ++ String w "" /\ all_chars is_word v' = true /\ is_word w = true.
Proof. apply word_last; [destruct v; [discriminate | discriminate] | exact Hv2]. Qed.

Lemma dte_drive_empty :
  rmatch (items (compile "Data Transfer Element \d+:.*\w")) accept
    (status_line (Drive n None) ++ spaces p ++ rest) {| pending := []; closed := [] |} =
  Some (spaces p ++ rest, {| pending := []; closed := [] |}).
Proof.
  eval_items. run_matcher. digits_run. run_matcher.
  apply (dot_star_word "Empt" "y"); [reflexivity | reflexivity | apply spaces_no_word | exact Hrest].
Qed.

Lemma dte_drive_full :
  rmatch (items (compile "Data Transfer Element \d+:.*\w")) accept
    (status_line (Drive n (Some (m, v))) ++ spaces p ++ rest) {| pending := []; closed := [] |} =
  Some (spaces p ++ rest, {| pending := []; closed := [] |}).
Proof.
  destruct label_last as (v' & w & Hv & Hv' & Hw).
  eval_items. run_matcher. digits_run. run_matcher.
  apply (dot_star_word_eq _ ("Full (Storage Element " ++ m ++ " Loaded):VolumeTag = " ++ v') w);
    [| | exact Hw | apply spaces_no_word | exact Hrest].
  - rewrite Hv. cbn [append]. rewrite ?app_assoc_s. reflexivity.
  - solve_no_newline.
Qed.

Lemma se_slot_empty :
  rmatch (items (compile "Storage Element \d+:.*\w")) accept
    (status_line (Slot false n None) ++ spaces p ++ rest) {| pending := []; closed := [] |} =
  Some (spaces p ++ rest, {| pending := []; closed := [] |}).
Proof.
  eval_items. run_matcher. digits_run. run_matcher.
  apply (dot_star_word "Empt" "y"); [reflexivity | reflexivity | apply spaces_no_word | exact Hrest].
Qed.

Lemma se_slot_full :
  rmatch (items (compile "Storage Element \d+:.*\w")) accept
    (status_line (Slot false n (Some v)) ++ spaces p ++ rest) {| pending := []; closed := [] |} =
  Some (spaces p ++ rest, {| pending := []; closed := [] |}).
Proof.
  destruct label_last as (v' & w & Hv & Hv' & Hw).
  eval_items. run_matcher. digits_run. run_matcher.
  apply (dot_star_word_eq _ ("Full :VolumeTag=" ++ v') w);
    [| | exact Hw | apply spaces_no_word | exact Hrest].
  - rewrite Hv. cbn [append]. rewrite ?app_assoc_s. reflexivity.
  - solve_no_newline.
Qed.

Lemma ie_slot_empty :
  rmatch (items (compile "Storage Element \d+ IMPORT.EXPORT.*\w")) accept
    (status_line (Slot true n None) ++ spaces p ++ rest) {| pending := []; closed := [] |} =
  Some (spaces p ++ rest, {| pending := []; closed := [] |}).
Proof.
  eval_items. run_matcher. digits_run. run_matcher.
  apply (dot_star_word ":Empt" "y"); [reflexivity | reflexivity | apply spaces_no_word | exact Hrest].
Qed.

Lemma ie_slot_full :
  rmatch (items (compile "Storage Element \d+ IMPORT.EXPORT.*\w")) accept
    (status_line (Slot true n (Some v)) ++ spaces p ++ rest) {| pending := []; closed := [] |} =
  Some (spaces p ++ rest, {| pending := []; closed := [] |}).
Proof.
  destruct label_last as (v' & w & Hv & Hv' & Hw).
  eval_items. run_matcher. digits_run. run_matcher.
  apply (dot_star_word_eq _ (":Full :VolumeTag=" ++ v') w);
    [| | exact Hw | apply spaces_no_word | exact Hrest].
  - rewrite Hv. cbn [append]. rewrite ?app_assoc_s. reflexivity.
  - solve_no_newline.
Qed.

Lemma dte_not_slot_empty (ie : bool) :
  nowhere (compile "Data Transfer Element \d+:.*\w") (status_line (Slot ie n None)) (spaces p ++ rest).
Proof. destruct ie; solve_nowhere. Qed.

Lemma dte_not_slot_full (ie : bool) :
  nowhere (compile "Data Transfer Element \d+:.*\w") (status_line (Slot ie n (Some v))) (spaces p ++ rest).
Proof. destruct ie; solve_nowhere. Qed.

Lemma se_not_drive_empty :
  nowhere (compile "Storage Element \d+:.*\w") (status_line (Drive n None)) (spaces p ++ rest).
Proof. solve_nowhere. Qed.

Lemma se_not_drive_full :
  nowhere (compile "Storage Element \d+:.*\w") (status_line (Drive n (Some (m, v)))) (spaces p ++ rest).
Proof. solve_nowhere. Qed.

Lemma se_not_ie_empty :
  nowhere (compile "Storage Element \d+:.*\w") (status_line (Slot true n None)) (spaces p ++ rest).
Proof. solve_nowhere. Qed.

Lemma se_not_ie_full :
  nowhere (compile "Storage Element \d+:.*\w") (status_line (Slot true n (Some v))) (spaces p ++ rest).
Proof. solve_nowhere. Qed.

Lemma ie_not_drive_empty :
  nowhere (compile "Storage Element \d+ IMPORT.EXPORT.*\w") (status_line (Drive n None)) (spaces p ++ rest).
Proof. solve_nowhere. Qed.

Lemma ie_not_drive_full :
  nowhere (compile "Storage Element \d+ IMPORT.EXPORT.*\w") (status_line (Drive n (Some (m, v)))) (spaces p ++ rest).
Proof. solve_nowhere. Qed.

Lemma ie_not_slot_empty :
  nowhere (compile "Storage Element \d+ IMPORT.EXPORT.*\w") (status_line (Slot false n None)) (spaces p ++ rest).
Proof. solve_nowhere. Qed.

Lemma ie_not_slot_full :
  nowhere (compile "Storage Element \d+ IMPORT.EXPORT.*\w") (status_line (Slot false n (Some v))) (spaces p ++ rest).
Proof. solve_nowhere. Qed.

End Lines.

Lemma take_whole (x : string) : take (String.length x - String.length "") x = x.
Proof. apply take_all. Qed.

(** A repetition takes the whole text when every character is of the
    class and the pattern may end there. *)
Lemma star_all (c : cls) (k : cont) (s : string) (g : caps) (r : string * caps) :
  all_chars (accepts c) s = true -> k "" g = Some r -> star c k s g = Some r.
Proof.
  intros Hs Hk. induction s as [| a s IH]; cbn [star]; [exact Hk |].
  cbn in Hs. apply andb_true_iff in Hs as [Ha Hs]. rewrite Ha, (IH Hs). reflexivity.
Qed.

Lemma sub_nowhere (pattern repl s : string) :
  anchored (compile pattern) = false ->
  match_here (items (compile pattern)) "" = None ->
  nowhere (compile pattern) s "" ->
  sub pattern repl s = s.
Proof.
  intros Hr He Hs. unfold sub. rewrite subst_flag by exact Hr.
  rewrite <- (app_empty_r s) at 1. rewrite (subst_nowhere _ _ _ _ Hr Hs).
  cbn [subst]. rewrite (try_unanchored _ false) by exact Hr. rewrite He.
  apply app_empty_r.
Qed.

Lemma sub_whole (pattern repl s : string) (g : caps) :
  anchored (compile pattern) = false ->
  match_here (items (compile pattern)) "" = None ->
  nonempty s = true ->
  rmatch (items (compile pattern)) accept s {| pending := []; closed := [] |} = Some ("", g) ->
  sub pattern repl s = expand repl {| text := s; groups := closed g; rest := "" |}.
Proof.
  intros Hr He Hs Hm. unfold sub. rewrite subst_flag by exact Hr.
  rewrite <- (app_empty_r s) at 1.
  rewrite (subst_match _ repl s "" (closed g) Hr).
  - cbn [subst]. rewrite (try_unanchored _ false) by exact Hr. rewrite He.
    apply app_empty_r.
  - destruct s; [discriminate | discriminate].
  - apply match_here_some. rewrite app_empty_r. exact Hm.
Qed.

(** The matcher, with the texts of the groups. *)
Ltac run_groups :=
  repeat (progress (cbn [rmatch one append open_group close_group pending closed accept
                         status_line token List.app];
                    rewrite ?app_assoc_s, ?take_app, ?take_whole;
                    eval_accepts)).

(** A substitution whose pattern matches the whole text. *)
Ltac sub_matches :=
  erewrite sub_whole; [| vm_compute; reflexivity | vm_compute; reflexivity | reflexivity |].

Section Tokens.

Variables (n m v : string).
Hypothesis Hn1 : nonempty n = true.
Hypothesis Hn2 : all_chars (accepts Dig) n = true.
Hypothesis Hm1 : nonempty m = true.
Hypothesis Hm2 : all_chars (accepts Dig) m = true.
Hypothesis Hv1 : nonempty v = true.
Hypothesis Hv2 : all_chars is_word v = true.

Lemma label_dots : all_chars (accepts Dot) v = true.
Proof. apply (words_no_newline v Hv2). Qed.

Lemma sub1_drive_empty :
  sub "Data Transfer Element (\d+):Empty" "D:\1:E" (status_line (Drive n None)) = token (Drive n None).
Proof.
  sub_matches.
  2:{ eval_items. run_groups. digits_run. run_groups. reflexivity. }
  vm_compute. reflexivity.
Qed.

Lemma sub2_drive_full :
  sub "Data Transfer Element (\d+):Full \(Storage Element (\d+) Loaded\):VolumeTag = (.*)" "D:\1:F:\2:\3"
    (status_line (Drive n (Some (m, v)))) = token (Drive n (Some (m, v))).
Proof.
  sub_matches.
  2:{ eval_items. run_groups. digits_run. run_groups. digits_run. run_groups.
      apply star_all; [exact label_dots | run_groups; reflexivity]. }
  transitivity ("D:" ++ n ++ ":F:" ++ m ++ ":" ++ v ++ ""); [vm_compute; reflexivity |].
  rewrite app_empty_r. reflexivity.
Qed.

Lemma sub3_slot_empty :
  sub "Storage Element (\d+):Empty" "S:\1:E" (status_line (Slot false n None)) = token (Slot false n None).
Proof.
  sub_matches.
  2:{ eval_items. run_groups. digits_run. run_groups. reflexivity. }
  vm_compute. reflexivity.
Qed.

Lemma sub4_slot_full :
  sub "Storage Element (\d+):Full :VolumeTag=(.*)" "S:\1:F:\2" (status_line (Slot false n (Some v)))
  = token (Slot false n (Some v)).
Proof.
  sub_matches.
  2:{ eval_items. run_groups. digits_run. run_groups.
      apply star_all; [exact label_dots | run_groups; reflexivity]. }
  transitivity ("S:" ++ n ++ ":F:" ++ v ++ ""); [vm_compute; reflexivity |].
  rewrite app_empty_r. reflexivity.
Qed.

Lemma sub5_ie_empty :
  sub "Storage Element (\d+) IMPORT.EXPORT:Empty" "I:\1:E" (status_line (Slot true n None))
  = token (Slot true n None).
Proof.
  sub_matches.
  2:{ eval_items. run_groups. digits_run. run_groups. reflexivity. }
  vm_compute. reflexivity.
Qed.

Lemma sub6_ie_full :
  sub "Storage Element (\d+) IMPORT.EXPORT:Full :VolumeTag=(.*)" "I:\1:F:\2"
    (status_line (Slot true n (Some v))) = token (Slot true n (Some v)).
Proof.
  sub_matches.
  2:{ eval_items. run_groups. digits_run. run_groups.
      apply star_all; [exact label_dots | run_groups; reflexivity]. }
  transitivity ("I:" ++ n ++ ":F:" ++ v ++ ""); [vm_compute; reflexivity |].
  rewrite app_empty_r. reflexivity.
Qed.

(** The innermost substitution of a chain. *)
Ltac sub_step :=
  match goal with
  | |- context [sub ?p ?r (status_line ?e)] =>
      first [ rewrite sub1_drive_empty | rewrite sub2_drive_full | rewrite sub3_slot_empty
            | rewrite sub4_slot_full | rewrite sub5_ie_empty | rewrite sub6_ie_full
            | rewrite (sub_nowhere p r (status_line e));
              [| vm_compute; reflexivity | vm_compute; reflexivity | solve_nowhere] ]
  | |- context [sub ?p ?r (token ?e)] =>
      rewrite (sub_nowhere p r (token e));
      [| vm_compute; reflexivity | vm_compute; reflexivity | solve_nowhere]
  end.

Lemma subs_drive_empty (iie : bool) :
  listall_subs iie (status_line (Drive n None)) = token (Drive n None).
Proof. unfold listall_subs. destruct iie; repeat sub_step; reflexivity. Qed.

Lemma subs_drive_full (iie : bool) :
  listall_subs iie (status_line (Drive n (Some (m, v)))) = token (Drive n (Some (m, v))).
Proof. unfold listall_subs. destruct iie; repeat sub_step; reflexivity. Qed.

Lemma subs_slot_empty (iie : bool) :
  listall_subs iie (status_line (Slot false n None)) = token (Slot false n None).
Proof. unfold listall_subs. destruct iie; repeat sub_step; reflexivity. Qed.

Lemma subs_slot_full (iie : bool) :
  listall_subs iie (status_line (Slot false n (Some v))) = token (Slot false n (Some v)).
Proof. unfold listall_subs. destruct iie; repeat sub_step; reflexivity. Qed.

Lemma subs_ie_empty :
  listall_subs true (status_line (Slot true n None)) = token (Slot true n None).
Proof. unfold listall_subs. repeat sub_step; reflexivity. Qed.

Lemma subs_ie_full :
  listall_subs true (status_line (Slot true n (Some v))) = token (Slot true n (Some v)).
Proof. unfold listall_subs. repeat sub_step; reflexivity. Qed.

End Tokens.

Lemma element_pattern_unanchored (k : kind) : anchored (compile (element_pattern k)) = false.
Proof. destruct k; vm_compute; reflexivity. Qed.

Lemma element_pattern_spaces (k : kind) (n : nat) (rest : string) :
  nowhere (compile (element_pattern k)) (spaces n) rest.
Proof.
  destruct k; (eapply nowhere_spaces; [vm_compute; reflexivity | reflexivity]).
Qed.

Lemma numeral_parts (n : string) :
  numeral n = true -> nonempty n = true /\ all_chars (accepts Dig) n = true.
Proof. unfold numeral. intros H. apply andb_true_iff in H. exact H. Qed.

Lemma label_parts (v : string) :
  label v = true -> nonempty v = true /\ all_chars is_word v = true.
Proof. unfold label. intros H. apply andb_true_iff in H. exact H. Qed.

(** The parts of [well_formed_element], as hypotheses. *)
Ltac element_parts H :=
  cbn [well_formed_element] in H;
  repeat match type of H with
  | (_ && _)%bool = true =>
      let H1 := fresh "H" in apply andb_true_iff in H as [H H1];
      first [apply numeral_parts in H1 as [? ?] | apply label_parts in H1 as [? ?]]
  end;
  first [apply numeral_parts in H as [? ?] | apply label_parts in H as [? ?]].

Lemma status_line_nonempty (e : Element) : status_line e <> "".
Proof. destruct e as [n [[m v] |] | [|] n [v |]]; cbn; discriminate. Qed.

Lemma findall_element (k : kind) (i p : nat) (e : Element) (rest : string) :
  well_formed_element e = true -> line_end rest ->
  map text (iter (compile (element_pattern k)) 0 false
              ((spaces i ++ status_line e ++ spaces p) ++ rest)) =
  ((if of_kind k e then [status_line e] else []) ++
   map text (iter (compile (element_pattern k)) 0 false rest))%list.
Proof.
  intros Hwf Hrest.
  pose proof (element_pattern_unanchored k) as Hr.
  rewrite !app_assoc_s.
  rewrite (iter_nowhere _ (spaces i) _ Hr (element_pattern_spaces k i _)).
  assert (Hmatch : forall gs,
    match_here (items (compile (element_pattern k))) (status_line e ++ spaces p ++ rest) =
      Some {| text := status_line e; groups := gs; rest := spaces p ++ rest |} ->
    of_kind k e = true ->
    map text (iter (compile (element_pattern k)) 0 false (status_line e ++ spaces p ++ rest)) =
    ((if of_kind k e then [status_line e] else []) ++
     map text (iter (compile (element_pattern k)) 0 false rest))%list).
  { intros gs Hm Hk. rewrite Hk.
    rewrite (iter_match _ _ _ gs Hr (status_line_nonempty e) Hm). cbn [map text List.app].
    rewrite (iter_nowhere _ (spaces p) _ Hr (element_pattern_spaces k p _)). reflexivity. }
  assert (Hmiss :
    nowhere (compile (element_pattern k)) (status_line e) (spaces p ++ rest) ->
    of_kind k e = false ->
    map text (iter (compile (element_pattern k)) 0 false (status_line e ++ spaces p ++ rest)) =
    ((if of_kind k e then [status_line e] else []) ++
     map text (iter (compile (element_pattern k)) 0 false rest))%list).
  { intros Hno Hk. rewrite Hk. rewrite (iter_nowhere _ _ _ Hr Hno).
    rewrite (iter_nowhere _ (spaces p) _ Hr (element_pattern_spaces k p _)). reflexivity. }
  pose (g0 := {| pending := []; closed := [] |}).
  destruct e as [n [[m v] |] | [|] n [v |]]; element_parts Hwf; destruct k;
    cbn [element_pattern] in *.
  - apply (Hmatch []); [apply (match_here_some _ _ _ g0) | reflexivity].
    apply (dte_drive_full n m v p rest); assumption.
  - apply Hmiss; [| reflexivity]. apply (se_not_drive_full n m v p rest); assumption.
  - apply Hmiss; [| reflexivity]. apply (ie_not_drive_full n m v p rest); assumption.
  - apply (Hmatch []); [apply (match_here_some _ _ _ g0) | reflexivity].
    apply (dte_drive_empty n p rest); assumption.
  - apply Hmiss; [| reflexivity]. apply (se_not_drive_empty n p rest); assumption.
  - apply Hmiss; [| reflexivity]. apply (ie_not_drive_empty n p rest); assumption.
  - apply Hmiss; [| reflexivity]. apply (dte_not_slot_full n v p rest); assumption.
  - apply Hmiss; [| reflexivity]. apply (se_not_ie_full n v p rest); assumption.
  - apply (Hmatch []); [apply (match_here_some _ _ _ g0) | reflexivity].
    apply (ie_slot_full n v p rest); assumption.
  - apply Hmiss; [| reflexivity]. apply (dte_not_slot_empty n p rest); assumption.
  - apply Hmiss; [| reflexivity]. apply (se_not_ie_empty n p rest); assumption.
  - apply (Hmatch []); [apply (match_here_some _ _ _ g0) | reflexivity].
    apply (ie_slot_empty n p rest); assumption.
  - apply Hmiss; [| reflexivity]. apply (dte_not_slot_full n v p rest); assumption.
  - apply (Hmatch []); [apply (match_here_some _ _ _ g0) | reflexivity].
    apply (se_slot_full n v p rest); assumption.
  - apply Hmiss; [| reflexivity]. apply (ie_not_slot_full n v p rest); assumption.
  - apply Hmiss; [| reflexivity]. apply (dte_not_slot_empty n p rest); assumption.
  - apply (Hmatch []); [apply (match_here_some _ _ _ g0) | reflexivity].
    apply (se_slot_empty n p rest); assumption.
  - apply Hmiss; [| reflexivity]. apply (ie_not_slot_empty n p rest); assumption.
Qed.

Lemma element_pattern_other (k : kind) (txt rest : string) :
  well_formed_line (Other_line txt) = true -> line_end rest ->
  nowhere (compile (element_pattern k)) txt rest.
Proof.
  cbn [well_formed_line]. intros H Hrest.
  apply andb_true_iff in H as [Hd Hs]. apply negb_true_iff in Hd, Hs.
  destruct k; cbn [element_pattern].
  - eapply (nowhere_without _ "Data Transfer Element ");
      [vm_compute; reflexivity | reflexivity | exact Hd | exact Hrest].
  - eapply (nowhere_without _ "Storage Element ");
      [vm_compute; reflexivity | reflexivity | exact Hs | exact Hrest].
  - eapply (nowhere_without _ "Storage Element ");
      [vm_compute; reflexivity | reflexivity | exact Hs | exact Hrest].
Qed.

Lemma findall_line (k : kind) (l : line) (rest : string) :
  well_formed_line l = true -> line_end rest ->
  map text (iter (compile (element_pattern k)) 0 false (line_text l ++ rest)) =
  (found k l ++ map text (iter (compile (element_pattern k)) 0 false rest))%list.
Proof.
  intros Hwf Hrest. destruct l as [i e p | txt]; cbn [line_text found].
  - apply findall_element; assumption.
  - rewrite (iter_nowhere _ txt rest (element_pattern_unanchored k)
               (element_pattern_other k txt rest Hwf Hrest)).
    reflexivity.
Qed.

Lemma findall_newline (k : kind) (rest : string) :
  iter (compile (element_pattern k)) 0 false (nl ++ rest) =
  iter (compile (element_pattern k)) 0 false rest.
Proof.
  apply (iter_nowhere _ nl rest (element_pattern_unanchored k)).
  unfold nl, newline. destruct k; cbn [element_pattern]; solve_nowhere.
Qed.

Lemma findall_end (k : kind) : iter (compile (element_pattern k)) 0 false "" = [].
Proof. destruct k; vm_compute; reflexivity. Qed.

Lemma concat_cons (sep x : string) (xs : list string) :
  String.concat sep (x :: xs) =
  x ++ match xs with
       | [] => ""
       | _ => sep ++ String.concat sep xs
       end.
Proof. destruct xs; cbn [String.concat]; [rewrite app_empty_r |]; reflexivity. Qed.

(** What [re.findall] finds in a status text: the lines of the elements
    of the kind, in the order of the text. *)
Lemma findall_status (k : kind) (ls : list line) (final_newline : bool) :
  forallb well_formed_line ls = true ->
  findall (element_pattern k) (status_text ls final_newline) =
  map status_line (filter (of_kind k) (elements ls)).
Proof.
  intros Hwf. unfold findall, status_text.
  rewrite (iter_flag _ _ _ _ (element_pattern_unanchored k)).
  set (ending := if final_newline then nl else "").
  assert (Hending : line_end ending /\ iter (compile (element_pattern k)) 0 false ending = []).
  { subst ending. destruct final_newline.
    - split; [right; exists ""; reflexivity |].
      change nl with (nl ++ ""). rewrite findall_newline. apply findall_end.
    - split; [left; reflexivity | apply findall_end]. }
  destruct Hending as [Hend Hnone].
  induction ls as [| l ls IH]; cbn [map elements String.concat].
  - cbn [append filter map]. rewrite Hnone. reflexivity.
  - cbn [forallb] in Hwf. apply andb_true_iff in Hwf as [Hl Hls].
    change (match map line_text ls with
            | [] => line_text l
            | _ :: _ => line_text l ++ nl ++ String.concat nl (map line_text ls)
            end) with (String.concat nl (line_text l :: map line_text ls)).
    rewrite concat_cons, app_assoc_s.
    assert (Hsplit : map status_line (filter (of_kind k)
                       match l with
                       | Element_line _ e _ => e :: elements ls
                       | Other_line _ => elements ls
                       end) =
                     (found k l ++ map status_line (filter (of_kind k) (elements ls)))%list).
    { destruct l as [i e p | txt]; cbn [found filter]; [| reflexivity].
      destruct (of_kind k e); reflexivity. }
    rewrite Hsplit. clear Hsplit.
    destruct ls as [| l' ls].
    + cbn [map append elements filter]. rewrite (findall_line k l ending Hl Hend), Hnone.
      reflexivity.
    + change (match map line_text (l' :: ls) with
              | [] => ""
              | _ :: _ => nl ++ String.concat nl (map line_text (l' :: ls))
              end) with (nl ++ String.concat nl (map line_text (l' :: ls))).
      rewrite app_assoc_s.
      rewrite (findall_line k l _ Hl) by (right; eexists; reflexivity).
      rewrite findall_newline. rewrite (IH Hls). reflexivity.
Qed.

(** ** Lines of different elements differ *)

Lemma run_unique (f : ascii -> bool) (n : string) : forall (n' : string) (c c' : ascii) (r r' : string),
  all_chars f n = true -> all_chars f n' = true -> f c = false -> f c' = false ->
  n ++ String c r = n' ++ String c' r' -> n = n' /\ c = c' /\ r = r'.
Proof.
  induction n as [| a n IH]; intros [| a' n'] c c' r r' Hn Hn' Hc Hc' Heq; cbn in Heq, Hn, Hn'.
  - injection Heq as -> ->. auto.
  - injection Heq as -> _. apply andb_true_iff in Hn' as [Ha' _]. congruence.
  - injection Heq as -> _. apply andb_true_iff in Hn as [Ha _]. congruence.
  - injection Heq as -> Heq.
    apply andb_true_iff in Hn as [_ Hn]. apply andb_true_iff in Hn' as [_ Hn'].
    destruct (IH n' c c' r r' Hn Hn' Hc Hc' Heq) as (-> & -> & ->). auto.
Qed.

Lemma status_line_key (e1 e2 : Element) :
  well_formed_element e1 = true -> well_formed_element e2 = true ->
  status_line e1 = status_line e2 -> same_key e1 e2 = true.
Proof.
  intros H1 H2 Heq.
  destruct e1 as [n [[m v] |] | [|] n [v |]]; element_parts H1;
    destruct e2 as [n' [[m' v'] |] | [|] n' [v' |]]; element_parts H2;
    cbn [status_line append] in Heq; try discriminate Heq;
    repeat match type of Heq with
           | String _ _ = String _ _ => injection Heq as Heq
           end;
    match type of Heq with
    | ?x ++ String ?c _ = ?y ++ String ?c' _ =>
        destruct (run_unique is_digit x y c c' _ _ ltac:(assumption) ltac:(assumption)
                    ltac:(reflexivity) ltac:(reflexivity) Heq) as (-> & Hc & _)
    end;
    try discriminate Hc;
    unfold same_key; cbn [kind_of index_or_slot kind_eqb andb]; apply String.eqb_refl.
Qed.

(** ** The loop of [do_listall] *)

Section Loop.

Variable cfg : config.

Lemma listall_loop_cons (element : string) (els : list string) (last_element acc : string) :
  listall_loop cfg (element :: els) last_element acc =
  listall_loop cfg els last_element
    (acc ++ listall_subs (include_import_export cfg) element
         ++ (if String.eqb element last_element then "" else nl)).
Proof.
  cbn [listall_loop]. unfold listall_subs. destruct (include_import_export cfg); reflexivity.
Qed.

Lemma subs_token (e : Element) :
  well_formed_element e = true -> listed cfg e = true ->
  listall_subs (include_import_export cfg) (status_line e) = token e.
Proof.
  intros Hwf Hl. unfold listed in Hl.
  destruct e as [n [[m v] |] | [|] n [v |]]; element_parts Hwf; cbn [kind_of] in Hl;
    rewrite ?Hl.
  - apply subs_drive_full; assumption.
  - apply subs_drive_empty; assumption.
  - apply subs_ie_full; assumption.
  - apply subs_ie_empty; assumption.
  - apply subs_slot_full; assumption.
  - apply subs_slot_empty; assumption.
Qed.

Lemma listall_loop_tokens (es : list Element) : forall (last_element acc : string),
  forallb well_formed_element es = true -> forallb (listed cfg) es = true ->
  listall_loop cfg (map status_line es) last_element acc = acc ++ sep_tokens es last_element.
Proof.
  induction es as [| e es IH]; intros last_element acc Hwf Hl; cbn [map sep_tokens].
  - cbn [listall_loop]. rewrite app_empty_r. reflexivity.
  - cbn [forallb] in Hwf, Hl.
    apply andb_true_iff in Hwf as [He Hwf]. apply andb_true_iff in Hl as [Hle Hl].
    rewrite listall_loop_cons, (IH _ _ Hwf Hl), (subs_token e He Hle).
    rewrite !app_assoc_s. reflexivity.
Qed.

End Loop.

Lemma sep_tokens_cons (e : Element) (es : list Element) (last_element : string) :
  sep_tokens (e :: es) last_element =
  token e ++ (if String.eqb (status_line e) last_element then "" else nl)
  ++ sep_tokens es last_element.
Proof. reflexivity. Qed.

Lemma existsb_last (f : Element -> bool) (es : list Element) (d : Element) :
  es <> [] -> existsb f es = false -> f (last es d) = false.
Proof.
  induction es as [| e es IH]; [contradiction |]. intros _ H.
  cbn [existsb] in H. apply orb_false_iff in H as [He Hes].
  destruct es as [| e' es]; [exact He |].
  apply IH; [discriminate | exact Hes].
Qed.

Lemma forallb_last (f : Element -> bool) (es : list Element) (d : Element) :
  es <> [] -> forallb f es = true -> f (last es d) = true.
Proof.
  induction es as [| e es IH]; [contradiction |]. intros _ H.
  cbn [forallb] in H. apply andb_true_iff in H as [He Hes].
  destruct es as [| e' es]; [exact He |].
  apply IH; [discriminate | exact Hes].
Qed.

Lemma last_status_line (es : list Element) (d : Element) :
  es <> [] -> last (map status_line es) "" = status_line (last es d).
Proof.
  induction es as [| e es IH]; [contradiction |]. intros _.
  destruct es as [| e' es]; [reflexivity |].
  change (last (map status_line (e :: e' :: es)) "") with (last (map status_line (e' :: es)) "").
  change (last (e :: e' :: es) d) with (last (e' :: es) d).
  apply IH. discriminate.
Qed.

(** With one element at most for a key, only the last token lacks its
    line feed. *)
Lemma sep_tokens_concat (es : list Element) (d : Element) :
  forallb well_formed_element es = true -> unique_keys es = true -> es <> [] ->
  sep_tokens es (status_line (last es d)) = String.concat nl (map token es).
Proof.
  induction es as [| e es IH]; [contradiction |]. intros Hwf Hu _.
  cbn [forallb] in Hwf. apply andb_true_iff in Hwf as [He Hwf].
  cbn [unique_keys] in Hu. apply andb_true_iff in Hu as [Hfresh Hu].
  apply negb_true_iff in Hfresh.
  destruct es as [| e' es].
  - cbn [sep_tokens last map String.concat]. rewrite String.eqb_refl.
    cbn [append]. apply app_empty_r.
  - change (last (e :: e' :: es) d) with (last (e' :: es) d).
    rewrite sep_tokens_cons, (IH Hwf Hu ltac:(discriminate)).
    assert (Hne : String.eqb (status_line e) (status_line (last (e' :: es) d)) = false).
    { apply String.eqb_neq. intros Heq.
      pose proof (existsb_last _ (e' :: es) d ltac:(discriminate) Hfresh) as Hk.
      pose proof (forallb_last _ (e' :: es) d ltac:(discriminate) Hwf) as Hwl.
      rewrite (status_line_key e _ He Hwl Heq) in Hk. discriminate. }
    rewrite Hne. reflexivity.
Qed.

(** ** The order of the listing *)

Lemma filter_none (k : kind) (es : list Element) :
  forallb (fun e => negb (of_kind k e)) es = true -> filter (of_kind k) es = [].
Proof.
  induction es as [| e es IH]; [reflexivity |]. cbn [forallb filter]. intros H.
  apply andb_true_iff in H as [He Hes]. apply negb_true_iff in He. rewrite He. apply IH, Hes.
Qed.

Lemma forallb_weaken {A : Type} (f g : A -> bool) (l : list A) :
  (forall x, f x = true -> g x = true) -> forallb f l = true -> forallb g l = true.
Proof.
  intros Hfg. induction l as [| x l IH]; [reflexivity |]. cbn [forallb]. intros H.
  apply andb_true_iff in H as [Hx Hl]. rewrite (Hfg x Hx), (IH Hl). reflexivity.
Qed.

(** When the drives come first and the import/export slots last, the
    three lists that [do_listall] concatenates are the listed elements in
    the order of the text. *)
Lemma listed_in_order (cfg : config) (es : list Element) :
  in_order es = true ->
  (filter (of_kind DataTransfer) es ++ filter (of_kind Storage) es ++
   (if include_import_export cfg then filter (of_kind ImportExport) es else []))%list =
  filter (listed cfg) es.
Proof.
  induction es as [| e es IH]; intros Ho.
  - destruct (include_import_export cfg); reflexivity.
  - cbn [in_order] in Ho. apply andb_true_iff in Ho as [Hle Ho].
    specialize (IH Ho).
    assert (Hnone : forall k, (rank k <? rank (kind_of e))%nat = true ->
                              filter (of_kind k) es = []).
    { intros k Hk. apply filter_none. revert Hle. apply forallb_weaken. intros e' He'.
      unfold of_kind. apply Nat.ltb_lt in Hk. apply Nat.leb_le in He'.
      destruct (kind_of e'), k; cbn [kind_eqb negb]; try reflexivity; cbn [rank] in *; lia. }
    cbn [filter].
    change (of_kind DataTransfer e) with (kind_eqb (kind_of e) DataTransfer).
    change (of_kind Storage e) with (kind_eqb (kind_of e) Storage).
    change (of_kind ImportExport e) with (kind_eqb (kind_of e) ImportExport).
    change (listed cfg e) with (match kind_of e with
                                | ImportExport => include_import_export cfg
                                | _ => true
                                end).
    destruct (kind_of e) eqn:Hk; cbn [kind_eqb].
    + cbn [List.app]. f_equal. exact IH.
    + rewrite (Hnone DataTransfer ltac:(reflexivity)) in *.
      cbn [List.app] in *. f_equal. exact IH.
    + rewrite (Hnone DataTransfer ltac:(reflexivity)), (Hnone Storage ltac:(reflexivity)) in *.
      cbn [List.app] in *.
      destruct (include_import_export cfg); [f_equal |]; exact IH.
Qed.

Lemma unique_keys_filter (f : Element -> bool) (es : list Element) :
  unique_keys es = true -> unique_keys (filter f es) = true.
Proof.
  induction es as [| e es IH]; [reflexivity |]. cbn [unique_keys filter]. intros H.
  apply andb_true_iff in H as [Hfresh Hu]. apply negb_true_iff in Hfresh.
  destruct (f e); [| apply IH, Hu].
  cbn [unique_keys]. rewrite (IH Hu), andb_true_r. apply negb_true_iff.
  clear -Hfresh. induction es as [| e' es IH]; [reflexivity |].
  cbn [existsb] in Hfresh. apply orb_false_iff in Hfresh as [He Hes].
  cbn [filter]. destruct (f e'); [cbn [existsb]; rewrite He |]; apply IH, Hes.
Qed.

Lemma well_formed_elements (ls : list line) :
  forallb well_formed_line ls = true -> forallb well_formed_element (elements ls) = true.
Proof.
  induction ls as [| [i e p | txt] ls IH]; [reflexivity | |]; cbn [forallb elements]; intros H;
    apply andb_true_iff in H as [Hl Hls].
  - cbn [well_formed_line] in Hl. rewrite Hl. apply IH, Hls.
  - apply IH, Hls.
Qed.

Lemma forallb_sub_filter {A : Type} (f g : A -> bool) (l : list A) :
  forallb f l = true -> forallb f (filter g l) = true.
Proof.
  induction l as [| x l IH]; [reflexivity |]. cbn [forallb filter]. intros H.
  apply andb_true_iff in H as [Hx Hl]. destruct (g x); [cbn [forallb]; rewrite Hx |]; apply IH, Hl.
Qed.

Lemma forallb_filter_self {A : Type} (f : A -> bool) (l : list A) :
  forallb f (filter f l) = true.
Proof.
  induction l as [| x l IH]; [reflexivity |]. cbn [filter].
  destruct (f x) eqn:Hx; [cbn [forallb]; rewrite Hx |]; exact IH.
Qed.

(** ** The tokens *)






(** ** The listing of a well-formed status text *)



(** ** The number of slots, for every status text *)

Lemma scan_nowhere (r : regex) (s : string) : forall (b : bool),
  anchored r = false -> match_here (items r) "" = None -> nowhere r s "" ->
  scan r b s = None.
Proof.
  induction s as [| a s IH]; intros b Hr He Hs; cbn [scan];
    rewrite (try_unanchored r b) by exact Hr.
  - rewrite He. reflexivity.
  - pose proof (Hs "" (String a s) eq_refl ltac:(discriminate)) as Hhere.
    rewrite app_empty_r in Hhere. rewrite Hhere.
    apply IH; [exact Hr | exact He |].
    intros s1 s2 -> Hne. apply (Hs (String a s1) s2); [reflexivity | exact Hne].
Qed.

(** Whenever [mtx status] succeeds with a text that does not show
    [Storage Changer], [do_slots] raises [AttributeError]. *)
Lemma slots_raise_without_summary (cfg : config) (req : request)
  (shell : list event -> string -> CompletedProcess) (h : list event) :
  let cmd := mtx_bin cfg ++ " -f " ++ chgr_device req ++ " status" in
  returncode (shell h cmd) = 0%Z ->
  contains "Storage Changer" (stdout (shell h cmd)) = false ->
  do_slots cfg req shell h = (Raise AttributeError, [Run cmd]).
Proof.
  intros cmd Hrc Hno. unfold do_slots, bind. cbn [get_shell_result]. fold cmd.
  rewrite Hrc. cbn [Z.eqb negb]. unfold search.
  rewrite scan_nowhere; [reflexivity | reflexivity | reflexivity |].
  eapply (nowhere_without _ "Storage Changer");
    [vm_compute; reflexivity | reflexivity | exact Hno | left; reflexivity].
Qed.

(** ** The scenarios of the specification *)

(** Every pattern text of the script is inside the fragment that [re]
    reads. *)
Example pattern_texts_parse : forallb parses pattern_texts = true.
Proof. vm_compute. reflexivity. Qed.

Example listall_scenario :
  listall_text sample_config
    ("Data Transfer Element 0:Full (Storage Element 5 Loaded):VolumeTag = G03005TA" ++ nl ++
     "Storage Element 5:Empty") =
  "D:0:F:5:G03005TA" ++ nl ++ "S:5:E".
Proof. vm_compute. reflexivity. Qed.

Example loaded_scenario :
  fst (do_loaded sample_config load_9_into_0
         (fun _ _ => ok "Data Transfer Element 0:Empty") []) = Ret "0".
Proof. vm_compute. reflexivity. Qed.

Example slots_scenario :
  fst (do_slots sample_config slots_request
         (fun _ _ => ok "Storage Changer /dev/x 4 Drives, 44 Slots ( 4 Import/Export )") []) =
  Ret "44".
Proof. vm_compute. reflexivity. Qed.

Example transfer_scenario :
  run_script sample_config transfer_1_to_2
    (fun _ _ => ok ("Storage Element 1:Empty" ++ nl ++ "Storage Element 2:Empty")) 0 =
  (1%Z, [Run "mtx -f /dev/sg3 status"]).
Proof. vm_compute. reflexivity. Qed.

(** ** Requests that the script does not know *)

Lemma one_of_cons_false (x y : string) (l : list string) :
  one_of x (y :: l) = false -> String.eqb x y = false /\ one_of x l = false.
Proof. unfold one_of. cbn [existsb]. intros H. apply orb_false_iff in H. exact H. Qed.

Lemma one_of_In (x : string) (l : list string) : one_of x l = true -> In x l.
Proof.
  unfold one_of. induction l as [| y l IH]; cbn [existsb In]; [discriminate |].
  intros H. apply orb_true_iff in H as [H | H].
  - left. symmetry. apply String.eqb_eq. exact H.
  - right. apply IH. exact H.
Qed.

(** X1: for a command that is none of [list], [listall], [slots],
    [loaded], [load], [unload] and [transfer], the script prints the line
    of the error and the two texts of [usage] and exits with code 1; it
    runs no command, not even the status of the changer. *)
Theorem unknown_command_prints_usage (cfg : config) (req : request)
  (shell : list event -> string -> CompletedProcess) (rnd : nat) (doc info : string)
  (h : list event) :
  one_of (mtx_cmd req) valid_commands = false ->
  main cfg req shell rnd doc info h =
    (Exit 1%Z, [Output (nl ++ print_opt_errors_command req); Output doc; Output info]).
Proof.
  intros H. unfold valid_commands in H.
  repeat (apply one_of_cons_false in H as [? H]).
  unfold main, dispatch, one_of. cbn [existsb].
  repeat match goal with E : String.eqb _ _ = false |- _ => rewrite E; clear E end.
  reflexivity.
Qed.

(** The command [eject]. *)
Lemma unknown_command_prints_usage_witness :
  main sample_config
    {| chgr_device := "/dev/sg3"; mtx_cmd := "eject"; slot := "1";
       drive_device := "/dev/nst0"; drive_index := "0" |} quiet_shell 0 "usage" "version" [] =
  (Exit 1%Z,
   [Output (nl ++ "The command provided (eject) is not a valid command.");
    Output "usage"; Output "version"]).
Proof.
  apply (unknown_command_prints_usage sample_config
           {| chgr_device := "/dev/sg3"; mtx_cmd := "eject"; slot := "1";
              drive_device := "/dev/nst0"; drive_index := "0" |} quiet_shell 0 "usage" "version" []).
  reflexivity.
Defined.

(** ** Failures of the inventory and of the status of the changer *)

Lemma bind_Exit {A B : Type} (m : M A) (k : A -> M B) (h : list event) (c : Z) (e1 : list event) :
  m h = (Exit c, e1) -> bind m k h = (Exit c, e1).
Proof. intros H. unfold bind. rewrite H. reflexivity. Qed.

Lemma bind_Raise {A B : Type} (m : M A) (k : A -> M B) (h : list event) (x : exn) (e1 : list event) :
  m h = (Raise x, e1) -> bind m k h = (Raise x, e1).
Proof. intros H. unfold bind. rewrite H. reflexivity. Qed.

Section Listing.

Variable cfg : config.
Variable req : request.
Variable shell : list event -> string -> CompletedProcess.

Lemma inventory_part (h : list event) :
  (inventory cfg = true -> returncode (shell h (inventory_cmd cfg req)) = 0%Z) ->
  (if inventory cfg then do_inventory cfg req shell else ret tt) h =
  (Ret tt, inventory_events cfg req).
Proof.
  intros H. unfold inventory_events. destruct (inventory cfg); [| reflexivity].
  unfold do_inventory, bind, get_shell_result. fold (inventory_cmd cfg req).
  rewrite (H eq_refl). reflexivity.
Qed.

Lemma inventory_fails (h : list event) :
  inventory cfg = true -> returncode (shell h (inventory_cmd cfg req)) <> 0%Z ->
  (if inventory cfg then do_inventory cfg req shell else ret tt) h =
  (Exit (returncode (shell h (inventory_cmd cfg req))), [Run (inventory_cmd cfg req)]).
Proof.
  intros Hi H. rewrite Hi.
  unfold do_inventory, bind, get_shell_result. fold (inventory_cmd cfg req).
  apply Z.eqb_neq in H. rewrite H. reflexivity.
Qed.

Lemma do_listall_run (h : list event) :
  (inventory cfg = true -> returncode (shell h (inventory_cmd cfg req)) = 0%Z) ->
  let result := shell (h ++ inventory_events cfg req)%list (changer_status_cmd cfg req) in
  do_listall cfg req shell h =
  (if (returncode result =? 0)%Z then Ret (listall_text cfg (stdout result))
   else Exit (returncode result),
   (inventory_events cfg req ++ [Run (changer_status_cmd cfg req)])%list).
Proof.
  intros H result. unfold do_listall.
  rewrite (bind_Ret _ _ h tt (inventory_events cfg req) (inventory_part h H)).
  unfold bind, get_shell_result. fold (changer_status_cmd cfg req). fold result.
  destruct (returncode result =? 0)%Z; reflexivity.
Qed.

Lemma do_list_run (h : list event) :
  (inventory cfg = true -> returncode (shell h (inventory_cmd cfg req)) = 0%Z) ->
  let result := shell (h ++ inventory_events cfg req)%list (changer_status_cmd cfg req) in
  do_list cfg req shell h =
  (if (returncode result =? 0)%Z then Ret (list_text cfg (stdout result))
   else Exit (returncode result),
   (inventory_events cfg req ++ [Run (changer_status_cmd cfg req)])%list).
Proof.
  intros H result. unfold do_list.
  rewrite (bind_Ret _ _ h tt (inventory_events cfg req) (inventory_part h H)).
  unfold bind, get_shell_result. fold (changer_status_cmd cfg req). fold result.
  destruct (returncode result =? 0)%Z; reflexivity.
Qed.

(** Every command but [slots] begins with the listing of [do_list] or of
    [do_listall]; when that exits, the script exits. *)
Lemma main_listing_exits (rnd : nat) (doc info : string) (h : list event) (code : Z)
  (evs : list event) :
  one_of (mtx_cmd req) ["list"; "listall"; "loaded"; "load"; "unload"; "transfer"] = true ->
  do_list cfg req shell h = (Exit code, evs) ->
  do_listall cfg req shell h = (Exit code, evs) ->
  main cfg req shell rnd doc info h = (Exit code, evs).
Proof.
  intros Hcmd Hlist Hall.
  apply one_of_In in Hcmd. cbn [In] in Hcmd.
  unfold main, dispatch.
  destruct Hcmd as [E | [E | [E | [E | [E | [E | []]]]]]]; rewrite <- E;
    change (one_of _ _) with true || change (one_of _ _) with false; cbv iota.
  - change (String.eqb "list" "list") with true. cbv iota.
    unfold bind at 1. cbn [ret fst snd]. rewrite app_nil_r.
    rewrite (bind_Exit _ _ _ _ _ Hlist). reflexivity.
  - change (String.eqb "listall" "list") with false.
    change (String.eqb "listall" "listall") with true. cbv iota.
    unfold bind at 1. cbn [ret fst snd]. rewrite app_nil_r.
    rewrite (bind_Exit _ _ _ _ _ Hall). reflexivity.
  - apply bind_Exit. unfold do_getvolname. apply bind_Exit. exact Hall.
  - apply bind_Exit. unfold do_getvolname. apply bind_Exit. exact Hall.
  - apply bind_Exit. unfold do_getvolname. apply bind_Exit. exact Hall.
  - apply bind_Exit. unfold do_getvolname. apply bind_Exit. exact Hall.
Qed.

(** X2: every command but [slots] begins with the inventory, where
    [inventory] is set, and with the status of the changer.  When the
    inventory fails the script exits with its code and the status is not
    asked for; when the status fails the script exits with its code.  In
    both cases nothing is printed and no other command is run: no volume
    is moved. *)
Theorem failed_listing_ends_request (rnd : nat) (doc info : string) (h : list event) :
  one_of (mtx_cmd req) ["list"; "listall"; "loaded"; "load"; "unload"; "transfer"] = true ->
  let inv := shell h (inventory_cmd cfg req) in
  let result := shell (h ++ inventory_events cfg req)%list (changer_status_cmd cfg req) in
  let run := main cfg req shell rnd doc info h in
  (inventory cfg = true -> returncode inv <> 0%Z ->
   run = (Exit (returncode inv), [Run (inventory_cmd cfg req)])) /\
  ((inventory cfg = true -> returncode inv = 0%Z) -> returncode result <> 0%Z ->
   run = (Exit (returncode result),
          (inventory_events cfg req ++ [Run (changer_status_cmd cfg req)])%list)).
Proof.
  intros Hcmd inv result run. split.
  - intros Hi Hrc. apply (main_listing_exits _ _ _ _ _ _ Hcmd).
    + unfold do_list. apply bind_Exit. apply inventory_fails; assumption.
    + unfold do_listall. apply bind_Exit. apply inventory_fails; assumption.
  - intros Hinv Hrc. apply Z.eqb_neq in Hrc. apply (main_listing_exits _ _ _ _ _ _ Hcmd).
    + rewrite (do_list_run h Hinv). fold result. rewrite Hrc. reflexivity.
    + rewrite (do_listall_run h Hinv). fold result. rewrite Hrc. reflexivity.
Qed.

End Listing.

(** A load from a changer whose status cannot be read. *)
Lemma failed_listing_ends_request_witness :
  main sample_config load_9_into_0 failing_shell 0 "" "" [] =
  (Exit 5%Z, [Run "mtx -f /dev/sg3 status"]).
Proof.
  apply (failed_listing_ends_request sample_config load_9_into_0 failing_shell 0 "" "" []).
  - reflexivity.
  - discriminate.
  - discriminate.
Defined.

(** ** Loads and unloads *)

Section Moves.

Variable cfg : config.
Variable req : request.
Variable shell : list event -> string -> CompletedProcess.
Variable rnd : nat.

Lemma do_load_eq (fuel : nat) (all_slots slt drv_dev drv_idx vol : string) (cln : bool) :
  do_load cfg req shell rnd (S fuel) all_slots slt drv_dev drv_idx vol cln =
  (result <- get_shell_result shell (load_cmd cfg req slt drv_idx) ;;
   if negb (returncode result =? 0)%Z then
     let fail_txt :=
       "Failed to load drive device " ++ drv_dev ++ " (drive index: " ++ drv_idx ++ ") "
       ++ (if negb (String.eqb vol "") then "with volume (" ++ vol ++ ") " else "")
       ++ "from slot " ++ slt ++ "." in
     print (fail_txt ++ " Err: " ++ stderr result) ;;
     sys_exit (returncode result)
   else
     (if cln then
        sleep (clean_wait cfg) ;;
        do_unload cfg req shell rnd fuel all_slots slt drv_dev drv_idx vol true ;;
        ret tt
      else
        if negb (load_sleep cfg =? 0)%Z then sleep (load_sleep cfg) else ret tt) ;;
     if negb cln then
       r <- do_wait_for_drive cfg req shell ;;
       ret (Some r)
     else ret None).
Proof. reflexivity. Qed.

Lemma do_clean_eq (fuel : nat) (all_slots : string) (cln_tapes : list (string * string)) :
  do_clean cfg req shell rnd (S fuel) all_slots cln_tapes =
  (cln_tuple <- random_choice rnd cln_tapes ;;
   let cln_slot := fst cln_tuple in
   let cln_vol := snd cln_tuple in
   let cln_tape_in_drv := re.search ("^D:(\d+):F:" ++ cln_slot) all_slots in
   (match cln_tape_in_drv with
    | Some m =>
        do_unload cfg req shell rnd fuel all_slots cln_slot "" (re.group m 1) cln_vol true ;; ret tt
    | None => ret tt
    end) ;;
   do_load cfg req shell rnd fuel all_slots cln_slot (drive_device req) (drive_index req)
           cln_vol true ;;
   ret tt).
Proof. reflexivity. Qed.

(** An unload after which the drive is not checked: the unload has
    failed, or it is the unload of a cleaning tape, or [chk_drive] is not
    set. *)
Lemma unload_unchecked (fuel : nat) (all_slots slt drv_dev drv_idx vol : string) (cln : bool)
  (h : list event) :
  let result := shell (h ++ offline_events cfg drv_dev)%list (unload_cmd cfg req slt drv_idx) in
  returncode result <> 0%Z \/ cln = true \/ chk_drive cfg = false ->
  do_unload cfg req shell rnd (S fuel) all_slots slt drv_dev drv_idx vol cln h =
  (Ret (returncode result), unload_events cfg req slt drv_dev drv_idx vol result).
Proof.
  intros result H. rewrite do_unload_eq.
  rewrite (bind_Ret _ _ h tt _ (offline_part cfg shell drv_dev h)).
  unfold unload_events.
  match goal with
  | |- (fst (?K ?h'), _) = _ =>
      assert (HK : K h' = (Ret (returncode result),
                           Run (unload_cmd cfg req slt drv_idx) ::
                           (if (returncode result =? 0)%Z then []
                            else [Output (unload_failure drv_dev drv_idx vol slt (stderr result))])))
  end.
  { unfold bind at 1. cbn [get_shell_result fst snd]. fold result.
    destruct (Z.eqb_spec (returncode result) 0) as [E | E]; cbn [negb].
    - destruct H as [H | [-> | H]]; [contradiction | reflexivity |].
      rewrite H. destruct cln; reflexivity.
    - reflexivity. }
  rewrite HK. reflexivity.
Qed.

Lemma commands_unload_events (slt drv_dev drv_idx vol : string) (result : CompletedProcess) :
  commands (unload_events cfg req slt drv_dev drv_idx vol result) =
  (commands (offline_events cfg drv_dev) ++ [unload_cmd cfg req slt drv_idx])%list.
Proof.
  unfold unload_events. rewrite commands_app. cbn [commands].
  destruct (_ =? _)%Z; reflexivity.
Qed.

Lemma load_fails (fuel : nat) (all_slots slt drv_dev drv_idx vol : string) (cln : bool)
  (h : list event) :
  let result := shell h (load_cmd cfg req slt drv_idx) in
  returncode result <> 0%Z ->
  do_load cfg req shell rnd (S fuel) all_slots slt drv_dev drv_idx vol cln h =
  (Exit (returncode result),
   [Run (load_cmd cfg req slt drv_idx);
    Output (load_failure drv_dev drv_idx vol slt (stderr result))]).
Proof.
  intros result H. rewrite do_load_eq.
  unfold bind at 1. cbn [get_shell_result fst snd]. fold result.
  apply Z.eqb_neq in H. rewrite H. reflexivity.
Qed.





Variables doc info : string.

Lemma dispatch_load (all_slots : string) (volume : volume_t) :
  mtx_cmd req = "load" ->
  dispatch cfg req shell rnd doc info all_slots volume =
  (vol <- label_of volume ;;
   result <- do_load cfg req shell rnd recursion_limit all_slots (slot req) (drive_device req)
                     (drive_index req) vol false ;;
   match result with
   | Some code => sys_exit code
   | None => sys_exit 0
   end).
Proof. intros H. unfold dispatch. rewrite H. reflexivity. Qed.

Lemma dispatch_unload (all_slots : string) (volume : volume_t) :
  mtx_cmd req = "unload" ->
  dispatch cfg req shell rnd doc info all_slots volume =
  (vol <- label_of volume ;;
   result <- do_unload cfg req shell rnd recursion_limit all_slots (slot req) (drive_device req)
                       (drive_index req) vol false ;;
   sys_exit result).
Proof. intros H. unfold dispatch. rewrite H. reflexivity. Qed.

(** X3: when the load command of a [load] request fails, the script
    prints one line, which names the drive, the slot and, when it is
    known, the volume, and ends with the error text of the tool; it exits
    with the code of the tool, and the drive is not asked for its
    status. *)
Theorem failed_load_exits_with_code (all_slots vol : string) (h : list event) :
  mtx_cmd req = "load" ->
  let cmd := load_cmd cfg req (slot req) (drive_index req) in
  let result := shell h cmd in
  returncode result <> 0%Z ->
  dispatch cfg req shell rnd doc info all_slots (Label vol) h =
  (Exit (returncode result),
   [Run cmd; Output (load_failure (drive_device req) (drive_index req) vol (slot req) (stderr result))]).
Proof.
  intros Hcmd cmd result Hrc. rewrite (dispatch_load _ _ Hcmd).
  unfold label_of. unfold bind at 1. cbn [ret fst snd]. rewrite app_nil_r.
  change recursion_limit with (S 999).
  rewrite (bind_Exit _ _ _ _ _ (load_fails 999 all_slots _ _ _ vol false h Hrc)).
  reflexivity.
Qed.


(** X5: when the unload command of an [unload] request fails, the script
    prints one line, which names the drive, the slot and, when it is
    known, the volume, and ends with the error text of the tool; it exits
    with the code of the tool, and the drive is not checked. *)
Theorem failed_unload_exits_with_code (all_slots vol : string) (h : list event) :
  mtx_cmd req = "unload" ->
  let cmd := unload_cmd cfg req (slot req) (drive_index req) in
  let result := shell (h ++ offline_events cfg (drive_device req))%list cmd in
  returncode result <> 0%Z ->
  dispatch cfg req shell rnd doc info all_slots (Label vol) h =
  (Exit (returncode result),
   (offline_events cfg (drive_device req) ++
    [Run cmd;
     Output (unload_failure (drive_device req) (drive_index req) vol (slot req) (stderr result))])%list).
Proof.
  intros Hcmd cmd result Hrc. rewrite (dispatch_unload _ _ Hcmd).
  unfold label_of. unfold bind at 1. cbn [ret fst snd]. rewrite app_nil_r.
  change recursion_limit with (S 999).
  rewrite (bind_Ret _ _ _ _ _
             (unload_unchecked 999 all_slots _ _ _ vol false h (or_introl Hrc))).
  unfold sys_exit. cbn [fst snd]. rewrite app_nil_r.
  unfold unload_events. fold cmd. fold result.
  apply Z.eqb_neq in Hrc. rewrite Hrc. reflexivity.
Qed.

(** X6: whenever [do_unload] returns, it returns the code of the unload
    command: what the check of the drive and the cleaning after a
    successful unload find does not change the value. *)
Theorem unload_returns_code_of_tool (fuel : nat) (all_slots slt drv_dev drv_idx vol : string)
  (cln : bool) (h : list event) :
  let result := shell (h ++ offline_events cfg drv_dev)%list (unload_cmd cfg req slt drv_idx) in
  match fst (do_unload cfg req shell rnd (S fuel) all_slots slt drv_dev drv_idx vol cln h) with
  | Ret r => r = returncode result
  | _ => True
  end.
Proof.
  intros result. rewrite do_unload_eq.
  rewrite (bind_Ret _ _ h tt _ (offline_part cfg shell drv_dev h)). cbn [fst].
  rewrite fst_bind. cbn [get_shell_result fst snd]. fold result.
  destruct (Z.eqb_spec (returncode result) 0) as [E | E]; cbn [negb].
  - destruct cln; [reflexivity |].
    destruct (chk_drive cfg); [| reflexivity].
    rewrite fst_bind.
    destruct (fst (do_checkdrive cfg req shell rnd fuel all_slots _)) as [r | c | x];
      [| exact I | exact I].
    destruct (r =? 1)%Z; cbn; congruence.
  - reflexivity.
Qed.



End Moves.

(** A load whose command fails. *)
Lemma failed_load_exits_with_code_witness :
  dispatch sample_config load_9_into_0 failing_shell 0 "" "" "" (Label "VOL009") [] =
  (Exit 5%Z,
   [Run "mtx -f /dev/sg3 load 9 0";
    Output ("Failed to load drive device /dev/nst0 (drive index: 0) with volume (VOL009) "
            ++ "from slot 9. Err: mtx: cannot open SCSI device")]).
Proof.
  apply (failed_load_exits_with_code sample_config load_9_into_0 failing_shell 0 "" "" ""
           "VOL009" []).
  - reflexivity.
  - discriminate.
Defined.


(** An unload whose command fails. *)
Lemma failed_unload_exits_with_code_witness :
  dispatch sample_config unload_5_from_0 failing_shell 0 "" "" "" (Label "") [] =
  (Exit 5%Z,
   [Run "mtx -f /dev/sg3 unload 5 0";
    Output ("Failed to unload drive device /dev/nst0 (drive index: 0) "
            ++ "to slot 5. Err: mtx: cannot open SCSI device")]).
Proof.
  apply (failed_unload_exits_with_code sample_config unload_5_from_0 failing_shell 0 "" "" ""
           "" []).
  - reflexivity.
  - discriminate.
Defined.



(** ** The check of the drive and the cleaning *)

Lemma within_bind {A B : Type} (a b : nat) (m : M A) (k : A -> M B) (h : list event) :
  within a (m h) -> (forall x h', within b (k x h')) -> within (a + b) (bind m k h).
Proof.
  unfold within, bind. intros [Hm Hc] Hk.
  destruct (m h) as [[x | c | e] e1]; cbn [fst snd] in *.
  - specialize (Hk x (h ++ e1)%list). destruct (k x (h ++ e1)%list) as [o e2].
    cbn [fst snd] in *. destruct Hk as [Hk1 Hk2]. split; [exact Hk1 |].
    rewrite commands_app, length_app. lia.
  - split; [discriminate | lia].
  - split; [intros E; apply Hm; injection E as ->; reflexivity | lia].
Qed.

Lemma within_weaken {A : Type} (a b : nat) (r : outcome A * list event) :
  (a <= b)%nat -> within a r -> within b r.
Proof. unfold within. intros H [H1 H2]. split; [exact H1 | lia]. Qed.

Lemma within_ret {A : Type} (x : A) (h : list event) : within 0 (ret x h).
Proof. split; [discriminate | cbn; lia]. Qed.

Lemma within_print (l : string) (h : list event) : within 0 (print l h).
Proof. split; [discriminate | cbn; lia]. Qed.

Lemma within_sleep (z : Z) (h : list event) : within 0 (sleep z h).
Proof. split; [discriminate | cbn; lia]. Qed.

Lemma within_exit {A : Type} (c : Z) (h : list event) : within 0 (sys_exit (A := A) c h).
Proof. split; [discriminate | cbn; lia]. Qed.

Lemma within_shell (shell : list event -> string -> CompletedProcess) (cmd : string)
  (h : list event) : within 1 (get_shell_result shell cmd h).
Proof. split; [discriminate | cbn; lia]. Qed.

Lemma fuel_bind {A B : Type} (m : M A) (k : A -> M B) (h : list event) :
  fst (m h) <> Raise OutOfFuel -> (forall x h', fst (k x h') <> Raise OutOfFuel) ->
  fst (bind m k h) <> Raise OutOfFuel.
Proof.
  intros Hm Hk. rewrite fst_bind. destruct (fst (m h)) as [x | c | e].
  - apply Hk.
  - discriminate.
  - intros E. apply Hm. injection E as ->. reflexivity.
Qed.

Section Depth.

Variable cfg : config.
Variable req : request.
Variable shell : list event -> string -> CompletedProcess.
Variable rnd : nat.

Lemma within_offline (drv_dev : string) (h : list event) :
  within 1
    ((if offline cfg then
        result <- get_shell_result shell (offline_cmd cfg drv_dev) ;;
        if negb (offline_sleep cfg =? 0)%Z then sleep (offline_sleep cfg) else ret tt
      else ret tt) h).
Proof.
  destruct (offline cfg).
  - apply (within_bind 1 0); [apply within_shell |].
    intros x h'. destruct (negb _); [apply within_sleep | apply within_ret].
  - apply (within_weaken 0); [lia | apply within_ret].
Qed.

Lemma within_unload_cln (fuel : nat) (all_slots slt drv_dev drv_idx vol : string) (h : list event) :
  within 2 (do_unload cfg req shell rnd (S fuel) all_slots slt drv_dev drv_idx vol true h).
Proof.
  rewrite do_unload_eq.
  apply (within_bind 1 1); [apply within_offline |]. intros _ h1.
  apply (within_bind 1 0); [apply within_shell |]. intros result h2.
  destruct (negb _); [| apply within_ret].
  apply (within_bind 0 0); [apply within_print |]. intros _ h3. apply within_ret.
Qed.

Lemma within_load_cln (fuel : nat) (all_slots slt drv_dev drv_idx vol : string) (h : list event) :
  within 3 (do_load cfg req shell rnd (S (S fuel)) all_slots slt drv_dev drv_idx vol true h).
Proof.
  rewrite do_load_eq.
  apply (within_bind 1 2); [apply within_shell |]. intros result h1.
  destruct (negb _).
  - apply (within_weaken 0); [lia |].
    apply (within_bind 0 0); [apply within_print |]. intros _ h2. apply within_exit.
  - apply (within_bind 2 0); [| intros _ h2; apply within_ret].
    apply (within_bind 0 2); [apply within_sleep |]. intros _ h2.
    apply (within_bind 2 0); [apply within_unload_cln |]. intros _ h3. apply within_ret.
Qed.

Lemma within_sg_node (h : list event) : within 2 (do_get_sg_node cfg req shell h).
Proof.
  unfold do_get_sg_node.
  apply (within_bind 1 1).
  - destruct (_ || _); [apply (within_weaken 0); [lia | apply within_ret] |].
    destruct (contains "/by-id" _); [apply (within_weaken 0); [lia | apply within_ret] |].
    destruct (contains "/by-path" _); [| apply (within_weaken 0); [lia | apply within_ret]].
    apply (within_bind 1 0); [apply within_shell |]. intros x h'. apply within_ret.
  - intros st h1. apply (within_bind 1 0); [apply within_shell |]. intros result h2.
    destruct st as [st |]; [| split; [discriminate | cbn; lia]].
    destruct (re.search _ _); apply within_ret.
Qed.

Lemma within_clean (fuel : nat) (all_slots : string) (cln_tapes : list (string * string))
  (h : list event) :
  within 5 (do_clean cfg req shell rnd (S (S (S fuel))) all_slots cln_tapes h).
Proof.
  rewrite do_clean_eq.
  apply (within_bind 0 5).
  - unfold random_choice. destruct (nth_error _ _); [apply within_ret |].
    split; [discriminate | cbn; lia].
  - intros cln_tuple h1. cbv zeta.
    apply (within_bind 2 3).
    + destruct (re.search _ _); [| apply (within_weaken 0); [lia | apply within_ret]].
      apply (within_bind 2 0); [apply within_unload_cln |]. intros _ h2. apply within_ret.
    + intros _ h2. apply (within_bind 3 0); [apply within_load_cln |]. intros _ h3.
      apply within_ret.
Qed.

Lemma within_checkdrive (fuel : nat) (all_slots : string) (h : list event) :
  within 8 (do_checkdrive cfg req shell rnd (S (S (S (S fuel)))) all_slots h).
Proof.
  rewrite do_checkdrive_eq. cbv zeta.
  destruct (_ && _); [apply (within_weaken 0); [lia | apply within_ret] |].
  apply (within_bind 2 6); [apply within_sg_node |]. intros sg h1.
  destruct sg as [sg |]; [| apply (within_weaken 0); [lia | apply within_ret]].
  apply (within_bind 1 5); [apply within_shell |]. intros result h2.
  apply (within_bind 5 0); [| intros _ h3; apply within_ret].
  destruct (_ <? _)%nat; [| apply (within_weaken 0); [lia | apply within_ret]].
  destruct (clean_drive_alert _); [| apply (within_weaken 0); [lia | apply within_ret]].
  destruct (auto_clean cfg); [| apply (within_weaken 0); [lia | apply within_ret]].
  apply within_clean.
Qed.

Lemma within_unload (fuel : nat) (all_slots slt drv_dev drv_idx vol : string) (cln : bool)
  (h : list event) :
  within 10
    (do_unload cfg req shell rnd (S (S (S (S (S fuel))))) all_slots slt drv_dev drv_idx vol cln h).
Proof.
  rewrite do_unload_eq.
  apply (within_bind 1 9); [apply within_offline |]. intros _ h1.
  apply (within_bind 1 8); [apply within_shell |]. intros result h2.
  destruct (negb _).
  - apply (within_weaken 0); [lia |].
    apply (within_bind 0 0); [apply within_print |]. intros _ h3. apply within_ret.
  - destruct cln; [apply (within_weaken 0); [lia | apply within_ret] |].
    destruct (chk_drive cfg); [| apply (within_weaken 0); [lia | apply within_ret]].
    apply (within_bind 8 0); [apply within_checkdrive |]. intros checkdrive h3.
    destruct (_ =? _)%Z; apply within_ret.
Qed.

(** X9: the calls of [do_unload], [do_checkdrive], [do_clean] and
    [do_load] nest five deep at most, since the moves of a cleaning tape
    do not check the drive again: with a bound of five or more on the
    depth, an unload never reaches the bound, whatever the tools answer,
    and it runs ten commands at most. *)
Theorem unload_runs_ten_commands_at_most (fuel : nat)
  (all_slots slt drv_dev drv_idx vol : string) (cln : bool) (h : list event) :
  let run :=
    do_unload cfg req shell rnd (S (S (S (S (S fuel))))) all_slots slt drv_dev drv_idx vol cln h in
  fst run <> Raise OutOfFuel /\ (List.length (commands (snd run)) <= 10)%nat.
Proof. intros run. exact (within_unload fuel all_slots slt drv_dev drv_idx vol cln h). Qed.

Lemma fuel_wait_loop (fuel : nat) : forall (s : Z) (h : list event),
  (load_wait cfg + 1 - s <= Z.of_nat fuel)%Z ->
  fst (wait_loop cfg req shell fuel s h) <> Raise OutOfFuel.
Proof.
  induction fuel as [| fuel IH]; intros s h H; cbn [wait_loop].
  - destruct (Z.leb_spec s (load_wait cfg)); [lia | discriminate].
  - destruct (Z.leb_spec s (load_wait cfg)); [| discriminate].
    apply fuel_bind; [discriminate |]. intros result h1.
    destruct (re.search _ _); [discriminate |].
    apply fuel_bind; [discriminate |]. intros _ h2. apply IH. lia.
Qed.

Lemma fuel_wait_for_drive (h : list event) :
  fst (do_wait_for_drive cfg req shell h) <> Raise OutOfFuel.
Proof.
  unfold do_wait_for_drive. apply fuel_bind; [apply fuel_wait_loop; lia |].
  intros s h1. destruct (_ =? _)%Z; discriminate.
Qed.

Lemma fuel_load (fuel : nat) (all_slots slt drv_dev drv_idx vol : string) (h : list event) :
  fst (do_load cfg req shell rnd (S fuel) all_slots slt drv_dev drv_idx vol false h)
  <> Raise OutOfFuel.
Proof.
  rewrite do_load_eq. apply fuel_bind; [discriminate |]. intros result h1.
  destruct (negb _).
  - apply fuel_bind; [discriminate |]. intros _ h2. discriminate.
  - apply fuel_bind.
    + cbn [negb]. destruct (negb _); discriminate.
    + intros _ h2. cbn [negb]. apply fuel_bind; [apply fuel_wait_for_drive |].
      intros r h3. discriminate.
Qed.

Lemma fuel_inventory (h : list event) :
  fst ((if inventory cfg then do_inventory cfg req shell else ret tt) h) <> Raise OutOfFuel.
Proof.
  destruct (inventory cfg); [| discriminate].
  unfold do_inventory. apply fuel_bind; [discriminate |]. intros result h1.
  destruct (negb _); discriminate.
Qed.

Lemma fuel_listall (h : list event) : fst (do_listall cfg req shell h) <> Raise OutOfFuel.
Proof.
  unfold do_listall. apply fuel_bind; [apply fuel_inventory |]. intros _ h1.
  apply fuel_bind; [discriminate |]. intros result h2. destruct (negb _); discriminate.
Qed.

Lemma fuel_list (h : list event) : fst (do_list cfg req shell h) <> Raise OutOfFuel.
Proof.
  unfold do_list. apply fuel_bind; [apply fuel_inventory |]. intros _ h1.
  apply fuel_bind; [discriminate |]. intros result h2. destruct (negb _); discriminate.
Qed.

Lemma fuel_slots (h : list event) : fst (do_slots cfg req shell h) <> Raise OutOfFuel.
Proof.
  unfold do_slots. apply fuel_bind; [discriminate |]. intros result h1.
  destruct (negb _); [discriminate |]. destruct (re.search _ _); discriminate.
Qed.

Lemma fuel_loaded (h : list event) : fst (do_loaded cfg req shell h) <> Raise OutOfFuel.
Proof.
  unfold do_loaded. apply fuel_bind; [discriminate |]. intros result h1.
  destruct (negb _).
  - apply fuel_bind; [discriminate |]. intros _ h2. discriminate.
  - destruct (re.search _ _); [| discriminate].
    destruct (split _) as [| a [| b l]]; discriminate.
Qed.

Lemma fuel_dispatch (doc info all_slots : string) (volume : volume_t) (h : list event) :
  fst (dispatch cfg req shell rnd doc info all_slots volume h) <> Raise OutOfFuel.
Proof.
  unfold dispatch.
  destruct (String.eqb (mtx_cmd req) "list").
  { apply fuel_bind; [apply fuel_list | discriminate]. }
  destruct (String.eqb (mtx_cmd req) "listall").
  { apply fuel_bind; [apply fuel_listall | discriminate]. }
  destruct (String.eqb (mtx_cmd req) "slots").
  { apply fuel_bind; [apply fuel_slots | discriminate]. }
  destruct (String.eqb (mtx_cmd req) "loaded").
  { apply fuel_bind; [apply fuel_loaded | discriminate]. }
  destruct (String.eqb (mtx_cmd req) "load").
  { apply fuel_bind; [destruct volume; discriminate |]. intros vol h1.
    apply fuel_bind; [apply fuel_load |]. intros [code |] h2; discriminate. }
  destruct (String.eqb (mtx_cmd req) "unload").
  { apply fuel_bind; [destruct volume; discriminate |]. intros vol h1.
    apply fuel_bind; [apply (within_unload 995) |]. intros r h2. discriminate. }
  destruct (String.eqb (mtx_cmd req) "transfer").
  { apply fuel_bind; [destruct volume; discriminate |]. intros vol h1.
    apply fuel_bind; [| discriminate].
    unfold do_transfer. destruct (_ || _); [discriminate |].
    apply fuel_bind; [discriminate |]. intros result h2. destruct (negb _); discriminate. }
  apply fuel_bind; [discriminate |]. intros _ h1.
  unfold usage. apply fuel_bind; [discriminate |]. intros _ h2.
  apply fuel_bind; [discriminate |]. intros _ h3. discriminate.
Qed.

(** X10: whatever the request, the settings and the answers of the
    tools, the script comes to an end: the loop of [do_wait_for_drive]
    and the calls among [do_unload], [do_checkdrive], [do_clean] and
    [do_load] stay within the bounds of the model. *)
Theorem script_ends_within_bounds (doc info : string) (h : list event) :
  match fst (main cfg req shell rnd doc info h) with
  | Raise OutOfFuel => False
  | _ => True
  end.
Proof.
  assert (H : fst (main cfg req shell rnd doc info h) <> Raise OutOfFuel).
  { unfold main. apply fuel_bind.
    - destruct (one_of _ _); [| discriminate].
      unfold do_getvolname. apply fuel_bind; [apply fuel_listall | discriminate].
    - intros gv h1. apply fuel_dispatch. }
  destruct (fst (main cfg req shell rnd doc info h)) as [x | c | e]; [exact I | exact I |].
  destruct e; try exact I. apply H. reflexivity.
Qed.

Lemma checkdrive_not_auto_clean (fuel : nat) (all_slots : string) (h : list event) :
  auto_clean cfg = false ->
  Forall (diagnostic cfg req) (commands (snd (do_checkdrive cfg req shell rnd (S fuel) all_slots h))).
Proof.
  intros Ha. rewrite do_checkdrive_eq. cbv zeta. rewrite Ha. cbn [andb].
  rewrite snd_bind. rewrite commands_app. apply Forall_app. split.
  - apply sg_node_diagnostic.
  - destruct (fst (do_get_sg_node cfg req shell h)) as [[sg |] | c | x]; cbn [commands snd ret];
      try apply Forall_nil.
    rewrite snd_bind. cbn [get_shell_result fst snd]. rewrite commands_app. cbn [commands app].
    apply Forall_cons; [right; right; exists sg; reflexivity |].
    rewrite snd_bind.
    match goal with
    | |- context [fst (?m ?hh)] =>
        assert (Hm : m hh = (Ret tt, []))
    end.
    { destruct (_ <? _)%nat; [| reflexivity].
      destruct (clean_drive_alert _); reflexivity. }
    rewrite Hm. cbn. apply Forall_nil.
Qed.

(** X11: with [auto_clean] not set no tape is loaded to clean the drive,
    whatever alerts the drive shows: the commands of [do_unload] are the
    offline command, where [offline] is set, the unload command and then
    only commands that look for the drive's node and read its alerts. *)
Theorem unload_without_auto_clean (fuel : nat) (all_slots slt drv_dev drv_idx vol : string)
  (cln : bool) (h : list event) :
  auto_clean cfg = false ->
  let run := do_unload cfg req shell rnd (S (S fuel)) all_slots slt drv_dev drv_idx vol cln h in
  exists diag,
    commands (snd run) =
      (commands (offline_events cfg drv_dev) ++ unload_cmd cfg req slt drv_idx :: diag)%list /\
    Forall (diagnostic cfg req) diag.
Proof.
  intros Ha run.
  set (result := shell (h ++ offline_events cfg drv_dev)%list (unload_cmd cfg req slt drv_idx)).
  destruct (Z.eqb_spec (returncode result) 0) as [E | E].
  2: { exists []. split; [| apply Forall_nil]. subst run.
       rewrite (unload_unchecked cfg req shell rnd (S fuel) all_slots slt drv_dev drv_idx vol cln h
                  (or_introl E)).
       apply commands_unload_events. }
  destruct cln.
  { exists []. split; [| apply Forall_nil]. subst run.
    rewrite (unload_unchecked cfg req shell rnd (S fuel) all_slots slt drv_dev drv_idx vol true h
               (or_intror (or_introl eq_refl))).
    apply commands_unload_events. }
  destruct (chk_drive cfg) eqn:Hc.
  2: { exists []. split; [| apply Forall_nil]. subst run.
       rewrite (unload_unchecked cfg req shell rnd (S fuel) all_slots slt drv_dev drv_idx vol false h
                  (or_intror (or_intror Hc))).
       apply commands_unload_events. }
  subst run. rewrite do_unload_eq.
  rewrite (bind_Ret _ _ h tt _ (offline_part cfg shell drv_dev h)). cbn [snd].
  rewrite commands_app, snd_bind. cbn [get_shell_result fst snd]. fold result.
  rewrite E. cbn [Z.eqb negb]. rewrite Hc.
  rewrite commands_app. cbn [commands app].
  eexists. split; [reflexivity |].
  rewrite snd_bind, commands_app. apply Forall_app. split.
  - apply checkdrive_not_auto_clean. exact Ha.
  - destruct (fst (do_checkdrive _ _ _ _ _ _ _)) as [r | c | x]; cbn [commands]; try apply Forall_nil.
    destruct (r =? 1)%Z; cbn; apply Forall_nil.
Qed.



(** X13: a [load_wait] below 0: [do_wait_for_drive] asks the drive
    nothing; it returns 1, as after a wait without success, when
    [load_wait] is -1, and 0, as for a drive that is ready, when
    [load_wait] is less. *)
Theorem wait_for_drive_without_query (h : list event) :
  (load_wait cfg < 0)%Z ->
  do_wait_for_drive cfg req shell h =
  (Ret (if (load_wait cfg =? -1)%Z then 1%Z else 0%Z), []).
Proof.
  intros H. unfold do_wait_for_drive.
  assert (Hl : wait_loop cfg req shell (Z.to_nat (load_wait cfg + 1)) 0%Z h = (Ret 0%Z, [])).
  { destruct (Z.to_nat (load_wait cfg + 1)); cbn [wait_loop];
      (destruct (Z.leb_spec 0 (load_wait cfg)); [lia | reflexivity]). }
  rewrite (bind_Ret _ _ _ _ _ Hl). cbn [app].
  destruct (Z.eqb_spec (load_wait cfg) (-1)) as [E | E].
  - rewrite E. reflexivity.
  - destruct (Z.eqb_spec 0 (load_wait cfg + 1)); [lia | reflexivity].
Qed.

End Depth.

(** An unload from a drive that asks to be cleaned, with [auto_clean] not
    set: the alerts are read and no tape is loaded. *)
Lemma unload_without_auto_clean_witness :
  exists diag,
    commands (snd (do_unload
      {| mtx_bin := "mtx"; mt_bin := "mt"; tapeinfo_bin := "tapeinfo"; lsscsi_bin := "lsscsi";
         auto_clean := false; chk_drive := true; include_import_export := false;
         inventory := false; offline := false; vxa_packetloader := false;
         load_wait := 2; clean_wait := 5; offline_sleep := 0; load_sleep := 0;
         cln_str := "CLN"; ready := "ONLINE" |}
      unload_5_from_0 dirty_drive_shell 0 2 tape_in_drive_1 "5" "/dev/nst0" "0" "VOL005" false []))
    = "mtx -f /dev/sg3 unload 5 0" :: diag /\
    Forall (diagnostic
      {| mtx_bin := "mtx"; mt_bin := "mt"; tapeinfo_bin := "tapeinfo"; lsscsi_bin := "lsscsi";
         auto_clean := false; chk_drive := true; include_import_export := false;
         inventory := false; offline := false; vxa_packetloader := false;
         load_wait := 2; clean_wait := 5; offline_sleep := 0; load_sleep := 0;
         cln_str := "CLN"; ready := "ONLINE" |} unload_5_from_0) diag.
Proof.
  apply (unload_without_auto_clean
      {| mtx_bin := "mtx"; mt_bin := "mt"; tapeinfo_bin := "tapeinfo"; lsscsi_bin := "lsscsi";
         auto_clean := false; chk_drive := true; include_import_export := false;
         inventory := false; offline := false; vxa_packetloader := false;
         load_wait := 2; clean_wait := 5; offline_sleep := 0; load_sleep := 0;
         cln_str := "CLN"; ready := "ONLINE" |}
      unload_5_from_0 dirty_drive_shell 0 0 tape_in_drive_1 "5" "/dev/nst0" "0" "VOL005" false []).
  reflexivity.
Defined.

(** A wait of -1 seconds. *)
Lemma wait_for_drive_without_query_witness :
  do_wait_for_drive
    {| mtx_bin := "mtx"; mt_bin := "mt"; tapeinfo_bin := "tapeinfo"; lsscsi_bin := "lsscsi";
       auto_clean := true; chk_drive := true; include_import_export := false;
       inventory := false; offline := false; vxa_packetloader := false;
       load_wait := -1; clean_wait := 5; offline_sleep := 0; load_sleep := 0;
       cln_str := "CLN"; ready := "ONLINE" |} load_9_into_0 quiet_shell [] =
  (Ret 1%Z, []).
Proof.
  apply (wait_for_drive_without_query
    {| mtx_bin := "mtx"; mt_bin := "mt"; tapeinfo_bin := "tapeinfo"; lsscsi_bin := "lsscsi";
       auto_clean := true; chk_drive := true; include_import_export := false;
       inventory := false; offline := false; vxa_packetloader := false;
       load_wait := -1; clean_wait := 5; offline_sleep := 0; load_sleep := 0;
       cln_str := "CLN"; ready := "ONLINE" |} load_9_into_0 quiet_shell []).
  reflexivity.
Defined.

(** ** The number of slots, from the line of the changer *)

(** Whether a pattern fails does not depend on the groups so far. *)
Lemma star_none_caps (c : cls) (k : cont) :
  (forall s g g', k s g = None -> k s g' = None) ->
  forall s g g', star c k s g = None -> star c k s g' = None.
Proof.
  intros Hk. induction s as [| a s IH]; intros g g'; cbn [star]; [apply Hk |].
  destruct (accepts c a); [| apply Hk].
  destruct (star c k s g) eqn:E; [discriminate |].
  rewrite (IH g g' E). apply Hk.
Qed.

Lemma lazy_none_caps (c : cls) (k : cont) :
  (forall s g g', k s g = None -> k s g' = None) ->
  forall s g g', lazy c k s g = None -> lazy c k s g' = None.
Proof.
  intros Hk. induction s as [| a s IH]; intros g g'; cbn [lazy].
  - destruct (k "" g) eqn:E; [discriminate |]. rewrite (Hk _ _ g' E). reflexivity.
  - destruct (k (String a s) g) eqn:E; [discriminate |]. rewrite (Hk _ _ g' E).
    destruct (accepts c a); [apply IH | reflexivity].
Qed.

Lemma rmatch_none_caps (p : list item) (k : cont) :
  (forall s g g', k s g = None -> k s g' = None) ->
  forall s g g', rmatch p k s g = None -> rmatch p k s g' = None.
Proof.
  intros Hk. induction p as [| [c | c | c | c | |] p IH]; cbn [rmatch]; intros s g g'.
  - apply Hk.
  - unfold one. destruct s as [| a s]; [reflexivity |]. destruct (accepts c a); [apply IH | reflexivity].
  - apply star_none_caps. exact IH.
  - unfold one. destruct s as [| a s]; [reflexivity |].
    destruct (accepts c a); [apply star_none_caps; exact IH | reflexivity].
  - unfold one. destruct s as [| a s]; [reflexivity |].
    destruct (accepts c a); [apply lazy_none_caps; exact IH | reflexivity].
  - apply IH.
  - apply IH.
Qed.

Lemma match_here_caps (p : list item) (s : string) (g : caps) :
  match_here p s = None -> rmatch p accept s g = None.
Proof.
  unfold match_here. intros H.
  destruct (rmatch p accept s {| pending := []; closed := [] |}) as [[s' g'] |] eqn:E;
    [discriminate |].
  apply (rmatch_none_caps p accept) with (g := {| pending := []; closed := [] |}); [| exact E].
  intros s0 g0 g0'. discriminate.
Qed.

(** A greedy repetition that no later place of the text lets the pattern
    go on from stops at the first place from the right that does. *)
Lemma star_none (c : cls) (k : cont) : forall (y : string) (g : caps),
  (forall y1 y2, y = y1 ++ y2 -> all_chars (accepts c) y1 = true -> k y2 g = None) ->
  star c k y g = None.
Proof.
  induction y as [| a y IH]; intros g H; cbn [star].
  - apply (H "" ""); reflexivity.
  - destruct (accepts c a) eqn:Ha.
    + rewrite IH; [apply (H "" (String a y)); reflexivity |].
      intros y1 y2 -> Hy1. apply (H (String a y1) y2); [reflexivity |].
      cbn [all_chars]. rewrite Ha. exact Hy1.
    + apply (H "" (String a y)); reflexivity.
Qed.

Lemma star_last (c : cls) (k : cont) (x y : string) (g : caps) (r : string * caps) :
  all_chars (accepts c) x = true -> k y g = Some r -> fails_inside c k y ->
  star c k (x ++ y) g = Some r.
Proof.
  intros Hx Hk Hy. induction x as [| a x IH]; cbn [append].
  - destruct y as [| b y]; cbn [star]; [exact Hk |].
    destruct (accepts c b) eqn:Hb; [| exact Hk].
    rewrite star_none; [exact Hk |].
    intros y1 y2 -> Hy1. apply (Hy (String b y1) y2); [reflexivity | discriminate |].
    cbn [all_chars]. rewrite Hb. exact Hy1.
  - cbn in Hx. apply andb_true_iff in Hx as [Ha Hx]. cbn [star]. rewrite Ha, (IH Hx). reflexivity.
Qed.

(** A part of a text without line feed lies inside the line. *)
Lemma line_split : forall (y1 t rest y2 : string),
  t ++ rest = y1 ++ y2 -> all_chars no_newline y1 = true -> line_end rest ->
  exists t2, t = y1 ++ t2 /\ y2 = t2 ++ rest.
Proof.
  induction y1 as [| b y1 IH]; intros t rest y2 E Hy Hrest.
  - exists t. split; [reflexivity | symmetry; exact E].
  - cbn in Hy. apply andb_true_iff in Hy as [Hb Hy].
    destruct t as [| a t]; cbn [append] in E.
    + destruct Hrest as [-> | [more ->]]; [discriminate |].
      injection E as <- _. discriminate.
    + injection E as -> E. destruct (IH t rest y2 E Hy Hrest) as (t2 & -> & ->).
      exists t2. split; reflexivity.
Qed.

(** The places behind the first character of a line. *)
Lemma fails_inside_line (r : regex) (a : ascii) (t rest : string) :
  nowhere r t rest -> match_here (items r) rest = None -> line_end rest ->
  fails_inside Dot (rmatch (items r) accept) (String a (t ++ rest)).
Proof.
  intros Ht Hr Hrest y1 y2 g E Hne Hy1.
  destruct y1 as [| b y1]; [contradiction |]. cbn [append] in E. injection E as _ E.
  cbn in Hy1. apply andb_true_iff in Hy1 as [_ Hy1].
  destruct (line_split y1 t rest y2 E Hy1 Hrest) as (t2 & -> & ->).
  apply match_here_caps. destruct t2 as [| c t2].
  - exact Hr.
  - apply (Ht y1 (String c t2)); [reflexivity | discriminate].
Qed.

Lemma fails_inside_text (r : regex) (a : ascii) (t : string) :
  nowhere r t "" -> match_here (items r) "" = None ->
  fails_inside Dot (rmatch (items r) accept) (String a t).
Proof.
  intros Ht Hr. rewrite <- (app_empty_r t).
  apply fails_inside_line; [exact Ht | exact Hr | left; reflexivity].
Qed.

(** A repetition before the end of the pattern takes the whole run. *)
Lemma star_accept (c : cls) (run rest : string) (g : caps) :
  all_chars (accepts c) run = true -> stops c rest ->
  star c accept (run ++ rest) g = Some (rest, g).
Proof.
  intros Hrun Hrest. induction run as [| a run IH]; cbn [append].
  - destruct rest as [| b rest]; cbn [star]; [reflexivity |].
    cbn in Hrest. rewrite Hrest. reflexivity.
  - cbn in Hrun. apply andb_true_iff in Hrun as [Ha Hrun]. cbn [star]. rewrite Ha, (IH Hrun).
    reflexivity.
Qed.

Lemma line_end_stops (rest : string) : line_end rest -> stops Dot rest.
Proof. intros [-> | [more ->]]; [exact I | reflexivity]. Qed.

(** A literal that is not of the class of a run does not match the run. *)
Lemma lit_run_mismatch (b : ascii) (c : cls) (k : cont) (n rest : string) (g : caps) :
  accepts c b = false -> nonempty n = true -> all_chars (accepts c) n = true ->
  one (Lit b) k (n ++ rest) g = None.
Proof.
  intros Hb Hn Hc. destruct n as [| a n]; [discriminate |].
  cbn in Hc. apply andb_true_iff in Hc as [Ha _]. cbn [append one accepts].
  destruct (Ascii.eqb_spec b a) as [-> | _]; [congruence | reflexivity].
Qed.

(** The first match of a pattern, behind a text in which it matches
    nowhere. *)
Lemma scan_found (r : regex) (pre s : string) (m : Match) : forall (b : bool),
  anchored r = false -> nowhere r pre s -> match_here (items r) s = Some m ->
  scan r b (pre ++ s) = Some m.
Proof.
  induction pre as [| a pre IH]; intros b Hr Hpre Hm.
  - cbn [append]. destruct s as [| c s]; cbn [scan]; rewrite (try_unanchored _ _ _ Hr), Hm; reflexivity.
  - cbn [append scan]. rewrite (try_unanchored _ _ _ Hr).
    pose proof (Hpre "" (String a pre) eq_refl ltac:(discriminate)) as H0.
    cbn [append] in H0. rewrite H0.
    apply IH; [exact Hr | | exact Hm].
    intros s1 s2 -> Hs2. apply (Hpre (String a s1) s2); [reflexivity | exact Hs2].
Qed.

(** A substitution whose pattern is tied to the start of the text and
    matches the whole text. *)
Lemma sub_whole_anchored (pattern repl s : string) (g : caps) :
  anchored (compile pattern) = true ->
  nonempty s = true ->
  rmatch (items (compile pattern)) accept s {| pending := []; closed := [] |} = Some ("", g) ->
  sub pattern repl s = expand repl {| text := s; groups := closed g; rest := "" |}.
Proof.
  intros Hr Hs Hm. unfold sub. destruct s as [| a s]; [discriminate |].
  cbn [subst]. unfold try at 1. rewrite Hr. cbn [negb andb].
  unfold match_here. rewrite Hm. cbn [text].
  change (String.length (String a s) - String.length "") with (String.length (String a s) - 0).
  rewrite take_all.
  rewrite <- (app_empty_r s) at 3. rewrite subst_skip. cbn [subst].
  unfold try. rewrite Hr. cbn [negb andb]. apply app_empty_r.
Qed.

(** No match at the head of a text, also where a literal meets a numeral. *)
Ltac none_here :=
  apply match_here_none; eval_items; run_matcher;
  repeat (first [ digits_run
                | rewrite (lit_run_mismatch _ Dig) by first [reflexivity | assumption] ];
          run_matcher);
  reflexivity.

(** No match at any place of a text made of known characters, numerals
    and blanks. *)
Ltac nowhere_text :=
  cbn [append]; rewrite ?app_assoc_s;
  lazymatch goal with
  | |- nowhere _ "" _ => apply nowhere_nil
  | |- nowhere _ (String _ _) _ => apply nowhere_cons; [none_here | nowhere_text]
  | |- nowhere _ (spaces _ ++ _) _ =>
      apply nowhere_app;
      [eapply nowhere_spaces; [vm_compute; reflexivity | reflexivity] | nowhere_text]
  | |- nowhere _ (spaces _) _ =>
      eapply nowhere_spaces; [vm_compute; reflexivity | reflexivity]
  | |- nowhere _ (?n ++ _) _ =>
      apply nowhere_app;
      [eapply nowhere_digits; [vm_compute; reflexivity | reflexivity | assumption] | nowhere_text]
  end.

(** The parts of a text have no line feed. *)
Ltac no_newline_parts :=
  repeat (cbn [append all_chars];
          first [ reflexivity | assumption
                | apply digits_no_newline; assumption
                | apply words_no_newline; assumption
                | rewrite all_chars_app
                | apply andb_true_iff; split ]).

Section Changer.

Variables (indent : nat) (dev d s i more : string).
Hypothesis Hdev : all_chars no_newline dev = true.
Hypothesis Hd1 : nonempty d = true.
Hypothesis Hd2 : all_chars (accepts Dig) d = true.
Hypothesis Hs1 : nonempty s = true.
Hypothesis Hs2 : all_chars (accepts Dig) s = true.
Hypothesis Hi1 : nonempty i = true.
Hypothesis Hi2 : all_chars (accepts Dig) i = true.
Hypothesis Hrest : line_end more.

Lemma search_changer_line :
  search "Storage Changer.*" (spaces indent ++ changer_line dev d s i ++ more) =
  Some {| text := changer_line dev d s i; groups := []; rest := more |}.
Proof.
  unfold search. apply scan_found.
  - vm_compute. reflexivity.
  - eapply nowhere_spaces; [vm_compute; reflexivity | reflexivity].
  - apply (match_here_some _ _ _ {| pending := []; closed := [] |}).
    eval_items. unfold changer_line.
    set (T := dev ++ ":" ++ d ++ " Drives, " ++ s ++ " Slots ( " ++ i ++ " Import/Export )").
    cbn [append rmatch one]. eval_accepts.
    change (star Dot accept (String " " T ++ more) {| pending := []; closed := [] |} =
            Some (more, {| pending := []; closed := [] |})).
    apply star_accept; [| apply line_end_stops; exact Hrest].
    subst T. change (accepts Dot) with no_newline. no_newline_parts.
Qed.

Lemma changer_line_parts :
  changer_line dev d s i =
  "Storage Changer"
  ++ (String " " (dev ++ ":" ++ d)
      ++ String " " ("Drives, " ++ s ++ " Slots ( " ++ i ++ " Import/Export )")).
Proof.
  unfold changer_line. cbn [append]. rewrite !app_assoc_s. reflexivity.
Qed.

Lemma sub_changer_line :
  sub "^Storage Changer.* Drives, (\d+) Slots.*" "\1" (changer_line dev d s i) = s.
Proof.
  rewrite (sub_whole_anchored _ _ _ {| pending := []; closed := [s] |}).
  - transitivity (s ++ ""); [vm_compute; reflexivity | apply app_empty_r].
  - vm_compute. reflexivity.
  - reflexivity.
  - rewrite changer_line_parts.
    change (star Dot (rmatch (items (compile " Drives, (\d+) Slots.*")) accept)
              (String " " (dev ++ ":" ++ d)
               ++ String " " ("Drives, " ++ s ++ " Slots ( " ++ i ++ " Import/Export )"))
              {| pending := []; closed := [] |} = Some ("", {| pending := []; closed := [s] |})).
    apply star_last.
    + change (accepts Dot) with no_newline. no_newline_parts.
    + eval_items. run_groups. digits_run. run_groups.
      apply star_all; [| reflexivity].
      change (accepts Dot) with no_newline. no_newline_parts.
    + apply fails_inside_text; [| vm_compute; reflexivity].
      nowhere_text.
Qed.

End Changer.

(** X14: when the status text begins with the line of the changer, as
    [mtx] prints it, [do_slots] returns the numeral that stands before
    [Slots] in that line, whatever the name of the device and whatever
    follows the line. *)
Theorem slots_of_changer_line (cfg : config) (req : request)
  (shell : list event -> string -> CompletedProcess) (h : list event)
  (indent : nat) (dev d s i more : string) :
  let result := shell h (changer_status_cmd cfg req) in
  returncode result = 0%Z ->
  stdout result = spaces indent ++ changer_line dev d s i ++ more ->
  all_chars no_newline dev = true ->
  numeral d = true -> numeral s = true -> numeral i = true ->
  line_end more ->
  do_slots cfg req shell h = (Ret s, [Run (changer_status_cmd cfg req)]).
Proof.
  intros result Hrc Hout Hdev Hd Hs Hi Hmore.
  apply numeral_parts in Hd as [Hd1 Hd2]. apply numeral_parts in Hs as [Hs1 Hs2].
  apply numeral_parts in Hi as [Hi1 Hi2].
  unfold do_slots, bind, get_shell_result. fold (changer_status_cmd cfg req). fold result.
  rewrite Hrc, Hout. cbn [Z.eqb negb].
  rewrite search_changer_line by assumption.
  cbn [group text]. rewrite sub_changer_line by assumption.
  reflexivity.
Qed.

(** The changer of five slots. *)
Lemma slots_of_changer_line_witness :
  do_slots sample_config slots_request dirty_drive_shell [] =
  (Ret "5", [Run "mtx -f /dev/sg3 status"]).
Proof.
  apply (slots_of_changer_line sample_config slots_request dirty_drive_shell [] 2
           "/dev/sg3" "2" "5" "0"
           (nl ++
            "Data Transfer Element 0:Full (Storage Element 5 Loaded):VolumeTag = VOL005" ++ nl ++
            "Data Transfer Element 1:Full (Storage Element 3 Loaded):VolumeTag = CLN001" ++ nl ++
            "      Storage Element 3:Empty" ++ nl ++
            "      Storage Element 5:Empty" ++ nl)).
  - reflexivity.
  - reflexivity.
  - reflexivity.
  - reflexivity.
  - reflexivity.
  - reflexivity.
  - right. eexists. reflexivity.
Defined.
(** ** The list of a well-formed status text *)

(** A substitution whose pattern matches at one place of the text. *)
Lemma sub_once (pattern repl pre w post : string) (gs : list string) :
  anchored (compile pattern) = false ->
  match_here (items (compile pattern)) "" = None ->
  nowhere (compile pattern) pre (w ++ post) ->
  w <> "" ->
  match_here (items (compile pattern)) (w ++ post) =
    Some {| text := w; groups := gs; rest := post |} ->
  nowhere (compile pattern) post "" ->
  sub pattern repl (pre ++ w ++ post) =
  pre ++ expand repl {| text := w; groups := gs; rest := post |} ++ post.
Proof.
  intros Hr He Hpre Hw Hm Hpost. unfold sub. rewrite subst_flag by exact Hr.
  rewrite (subst_nowhere _ _ _ _ Hr Hpre).
  rewrite (subst_match _ repl w post gs Hr Hw Hm).
  rewrite <- (app_empty_r post) at 2. rewrite (subst_nowhere _ _ _ _ Hr Hpost).
  cbn [subst]. rewrite (try_unanchored _ false) by exact Hr. rewrite He.
  rewrite app_empty_r. reflexivity.
Qed.

(** A pattern with a character that is not of a word does not match
    inside a word. *)
Lemma lits_word_mismatch (P : string) (c : ascii) (p : list item) (k : cont) :
  is_word c = false ->
  forall (w : string) (g : caps),
    all_chars is_word w = true -> rmatch (lits P ++ One (Lit c) :: p) k w g = None.
Proof.
  intros Hc. induction P as [| b P IH]; intros w g Hw; cbn [lits List.app rmatch].
  - destruct w as [| a w]; [reflexivity |]. cbn in Hw. apply andb_true_iff in Hw as [Ha _].
    cbn [one accepts]. destruct (Ascii.eqb_spec c a) as [-> | _]; [congruence | reflexivity].
  - destruct w as [| a w]; [reflexivity |]. cbn in Hw. apply andb_true_iff in Hw as [_ Hw].
    cbn [one accepts]. destruct (Ascii.eqb b a); [apply IH; exact Hw | reflexivity].
Qed.

Lemma nowhere_word (r : regex) (P : string) (c : ascii) (p : list item) (v : string) :
  items r = (lits P ++ One (Lit c) :: p)%list -> is_word c = false ->
  all_chars is_word v = true -> nowhere r v "".
Proof.
  intros Hr Hc Hv s1 s2 -> _.
  rewrite all_chars_app in Hv. apply andb_true_iff in Hv as [_ Hv].
  apply match_here_none. rewrite Hr, app_empty_r. apply lits_word_mismatch; assumption.
Qed.

(** No match at any place of a text made of known characters, numerals
    and a label at its end. *)
Ltac nowhere_entry :=
  cbn [append status_line token list_entry]; rewrite ?app_assoc_s;
  lazymatch goal with
  | |- nowhere _ "" _ => apply nowhere_nil
  | |- nowhere _ (String _ _) _ => apply nowhere_cons; [none_here | nowhere_entry]
  | |- nowhere _ (?n ++ _) _ =>
      apply nowhere_app;
      [eapply nowhere_digits; [vm_compute; reflexivity | reflexivity | assumption] | nowhere_entry]
  | |- nowhere _ ?v "" =>
      first
        [ eapply (nowhere_word _ "Data" " "); [vm_compute; reflexivity | reflexivity | assumption]
        | eapply (nowhere_word _ "Storage" " "); [vm_compute; reflexivity | reflexivity | assumption]
        | eapply (nowhere_word _ "VolumeTag" " "); [vm_compute; reflexivity | reflexivity | assumption]
        | eapply (nowhere_word _ "Full" " "); [vm_compute; reflexivity | reflexivity | assumption] ]
  end.

Section ListLines.

Variables (n m v : string) (p : nat) (rest : string).
Hypothesis Hn1 : nonempty n = true.
Hypothesis Hn2 : all_chars (accepts Dig) n = true.
Hypothesis Hm1 : nonempty m = true.
Hypothesis Hm2 : all_chars (accepts Dig) m = true.
Hypothesis Hv1 : nonempty v = true.
Hypothesis Hv2 : all_chars is_word v = true.
Hypothesis Hrest : line_end rest.

Lemma dtf_drive_full :
  rmatch (items (compile "Data Transfer Element \d+:Full.*\w")) accept
    (status_line (Drive n (Some (m, v))) ++ spaces p ++ rest) {| pending := []; closed := [] |} =
  Some (spaces p ++ rest, {| pending := []; closed := [] |}).
Proof.
  destruct (label_last v Hv1 Hv2) as (v' & w & Hv & Hv' & Hw).
  eval_items. run_matcher. digits_run. run_matcher.
  apply (dot_star_word_eq _ (" (Storage Element " ++ m ++ " Loaded):VolumeTag = " ++ v') w);
    [| | exact Hw | apply spaces_no_word | exact Hrest].
  - rewrite Hv. cbn [append]. rewrite ?app_assoc_s. reflexivity.
  - solve_no_newline.
Qed.

Lemma sef_slot_full :
  rmatch (items (compile "Storage Element \d+:Full :.*\w")) accept
    (status_line (Slot false n (Some v)) ++ spaces p ++ rest) {| pending := []; closed := [] |} =
  Some (spaces p ++ rest, {| pending := []; closed := [] |}).
Proof.
  destruct (label_last v Hv1 Hv2) as (v' & w & Hv & Hv' & Hw).
  eval_items. run_matcher. digits_run. run_matcher.
  apply (dot_star_word_eq _ ("VolumeTag=" ++ v') w);
    [| | exact Hw | apply spaces_no_word | exact Hrest].
  - rewrite Hv. cbn [append]. rewrite ?app_assoc_s. reflexivity.
  - solve_no_newline.
Qed.

Lemma ief_slot_full :
  rmatch (items (compile "Storage Element \d+ IMPORT.EXPORT:Full.*\w")) accept
    (status_line (Slot true n (Some v)) ++ spaces p ++ rest) {| pending := []; closed := [] |} =
  Some (spaces p ++ rest, {| pending := []; closed := [] |}).
Proof.
  destruct (label_last v Hv1 Hv2) as (v' & w & Hv & Hv' & Hw).
  eval_items. run_matcher. digits_run. run_matcher.
  apply (dot_star_word_eq _ (" :VolumeTag=" ++ v') w);
    [| | exact Hw | apply spaces_no_word | exact Hrest].
  - rewrite Hv. cbn [append]. rewrite ?app_assoc_s. reflexivity.
  - solve_no_newline.
Qed.

Lemma dtf_not_drive_empty :
  nowhere (compile "Data Transfer Element \d+:Full.*\w") (status_line (Drive n None)) (spaces p ++ rest).
Proof. solve_nowhere. Qed.

Lemma dtf_not_slot_empty (ie : bool) :
  nowhere (compile "Data Transfer Element \d+:Full.*\w") (status_line (Slot ie n None)) (spaces p ++ rest).
Proof. destruct ie; solve_nowhere. Qed.

Lemma dtf_not_slot_full (ie : bool) :
  nowhere (compile "Data Transfer Element \d+:Full.*\w") (status_line (Slot ie n (Some v))) (spaces p ++ rest).
Proof. destruct ie; solve_nowhere. Qed.

Lemma sef_not_drive_empty :
  nowhere (compile "Storage Element \d+:Full :.*\w") (status_line (Drive n None)) (spaces p ++ rest).
Proof. solve_nowhere. Qed.

Lemma sef_not_drive_full :
  nowhere (compile "Storage Element \d+:Full :.*\w") (status_line (Drive n (Some (m, v)))) (spaces p ++ rest).
Proof. solve_nowhere. Qed.

Lemma sef_not_slot_empty (ie : bool) :
  nowhere (compile "Storage Element \d+:Full :.*\w") (status_line (Slot ie n None)) (spaces p ++ rest).
Proof. destruct ie; solve_nowhere. Qed.

Lemma sef_not_ie_full :
  nowhere (compile "Storage Element \d+:Full :.*\w") (status_line (Slot true n (Some v))) (spaces p ++ rest).
Proof. solve_nowhere. Qed.

Lemma ief_not_drive_empty :
  nowhere (compile "Storage Element \d+ IMPORT.EXPORT:Full.*\w") (status_line (Drive n None)) (spaces p ++ rest).
Proof. solve_nowhere. Qed.

Lemma ief_not_drive_full :
  nowhere (compile "Storage Element \d+ IMPORT.EXPORT:Full.*\w") (status_line (Drive n (Some (m, v)))) (spaces p ++ rest).
Proof. solve_nowhere. Qed.

Lemma ief_not_slot_empty (ie : bool) :
  nowhere (compile "Storage Element \d+ IMPORT.EXPORT:Full.*\w") (status_line (Slot ie n None)) (spaces p ++ rest).
Proof. destruct ie; solve_nowhere. Qed.

Lemma ief_not_slot_full :
  nowhere (compile "Storage Element \d+ IMPORT.EXPORT:Full.*\w") (status_line (Slot false n (Some v))) (spaces p ++ rest).
Proof. solve_nowhere. Qed.

End ListLines.

Lemma full_pattern_unanchored (k : kind) : anchored (compile (full_pattern k)) = false.
Proof. destruct k; vm_compute; reflexivity. Qed.

Lemma full_pattern_spaces (k : kind) (n : nat) (rest : string) :
  nowhere (compile (full_pattern k)) (spaces n) rest.
Proof.
  destruct k; cbn [full_pattern];
    (eapply nowhere_spaces; [vm_compute; reflexivity | reflexivity]).
Qed.

Lemma findall_full_element (k : kind) (i p : nat) (e : Element) (rest : string) :
  well_formed_element e = true -> line_end rest ->
  map text (iter (compile (full_pattern k)) 0 false
              ((spaces i ++ status_line e ++ spaces p) ++ rest)) =
  ((if of_kind k e && holds_volume e then [status_line e] else []) ++
   map text (iter (compile (full_pattern k)) 0 false rest))%list.
Proof.
  intros Hwf Hrest.
  pose proof (full_pattern_unanchored k) as Hr.
  rewrite !app_assoc_s.
  rewrite (iter_nowhere _ (spaces i) _ Hr (full_pattern_spaces k i _)).
  assert (Hmatch : forall gs,
    match_here (items (compile (full_pattern k))) (status_line e ++ spaces p ++ rest) =
      Some {| text := status_line e; groups := gs; rest := spaces p ++ rest |} ->
    of_kind k e && holds_volume e = true ->
    map text (iter (compile (full_pattern k)) 0 false (status_line e ++ spaces p ++ rest)) =
    ((if of_kind k e && holds_volume e then [status_line e] else []) ++
     map text (iter (compile (full_pattern k)) 0 false rest))%list).
  { intros gs Hm Hk. rewrite Hk.
    rewrite (iter_match _ _ _ gs Hr (status_line_nonempty e) Hm). cbn [map text List.app].
    rewrite (iter_nowhere _ (spaces p) _ Hr (full_pattern_spaces k p _)). reflexivity. }
  assert (Hmiss :
    nowhere (compile (full_pattern k)) (status_line e) (spaces p ++ rest) ->
    of_kind k e && holds_volume e = false ->
    map text (iter (compile (full_pattern k)) 0 false (status_line e ++ spaces p ++ rest)) =
    ((if of_kind k e && holds_volume e then [status_line e] else []) ++
     map text (iter (compile (full_pattern k)) 0 false rest))%list).
  { intros Hno Hk. rewrite Hk. rewrite (iter_nowhere _ _ _ Hr Hno).
    rewrite (iter_nowhere _ (spaces p) _ Hr (full_pattern_spaces k p _)). reflexivity. }
  pose (g0 := {| pending := []; closed := [] |}).
  destruct e as [n [[m v] |] | [|] n [v |]]; element_parts Hwf; destruct k;
    cbn [full_pattern] in *.
  - apply (Hmatch []); [apply (match_here_some _ _ _ g0) | reflexivity].
    apply (dtf_drive_full n m v p rest); assumption.
  - apply Hmiss; [| reflexivity]. apply (sef_not_drive_full n m v p rest); assumption.
  - apply Hmiss; [| reflexivity]. apply (ief_not_drive_full n m v p rest); assumption.
  - apply Hmiss; [| reflexivity]. apply (dtf_not_drive_empty n p rest); assumption.
  - apply Hmiss; [| reflexivity]. apply (sef_not_drive_empty n p rest); assumption.
  - apply Hmiss; [| reflexivity]. apply (ief_not_drive_empty n p rest); assumption.
  - apply Hmiss; [| reflexivity]. apply (dtf_not_slot_full n v p rest); assumption.
  - apply Hmiss; [| reflexivity]. apply (sef_not_ie_full n v p rest); assumption.
  - apply (Hmatch []); [apply (match_here_some _ _ _ g0) | reflexivity].
    apply (ief_slot_full n v p rest); assumption.
  - apply Hmiss; [| reflexivity]. apply (dtf_not_slot_empty n p rest); assumption.
  - apply Hmiss; [| reflexivity]. apply (sef_not_slot_empty n p rest); assumption.
  - apply Hmiss; [| reflexivity]. apply (ief_not_slot_empty n p rest); assumption.
  - apply Hmiss; [| reflexivity]. apply (dtf_not_slot_full n v p rest); assumption.
  - apply (Hmatch []); [apply (match_here_some _ _ _ g0) | reflexivity].
    apply (sef_slot_full n v p rest); assumption.
  - apply Hmiss; [| reflexivity]. apply (ief_not_slot_full n v p rest); assumption.
  - apply Hmiss; [| reflexivity]. apply (dtf_not_slot_empty n p rest); assumption.
  - apply Hmiss; [| reflexivity]. apply (sef_not_slot_empty n p rest); assumption.
  - apply Hmiss; [| reflexivity]. apply (ief_not_slot_empty n p rest); assumption.
Qed.

Lemma full_pattern_other (k : kind) (txt rest : string) :
  well_formed_line (Other_line txt) = true -> line_end rest ->
  nowhere (compile (full_pattern k)) txt rest.
Proof.
  cbn [well_formed_line]. intros H Hrest.
  apply andb_true_iff in H as [Hd Hs]. apply negb_true_iff in Hd, Hs.
  destruct k; cbn [full_pattern].
  - eapply (nowhere_without _ "Data Transfer Element ");
      [vm_compute; reflexivity | reflexivity | exact Hd | exact Hrest].
  - eapply (nowhere_without _ "Storage Element ");
      [vm_compute; reflexivity | reflexivity | exact Hs | exact Hrest].
  - eapply (nowhere_without _ "Storage Element ");
      [vm_compute; reflexivity | reflexivity | exact Hs | exact Hrest].
Qed.

Lemma findall_full_line (k : kind) (l : line) (rest : string) :
  well_formed_line l = true -> line_end rest ->
  map text (iter (compile (full_pattern k)) 0 false (line_text l ++ rest)) =
  (found_full k l ++ map text (iter (compile (full_pattern k)) 0 false rest))%list.
Proof.
  intros Hwf Hrest. destruct l as [i e p | txt]; cbn [line_text found_full].
  - apply findall_full_element; assumption.
  - rewrite (iter_nowhere _ txt rest (full_pattern_unanchored k)
               (full_pattern_other k txt rest Hwf Hrest)).
    reflexivity.
Qed.

(** What a pattern finds in a status text, from what it finds in a line. *)
Lemma findall_lines (r : regex) (found : line -> list string) (ls : list line)
  (final_newline : bool) :
  anchored r = false ->
  (forall l rest, well_formed_line l = true -> line_end rest ->
     map text (iter r 0 false (line_text l ++ rest)) =
     (found l ++ map text (iter r 0 false rest))%list) ->
  match_here (items r) "" = None ->
  (forall rest, nowhere r nl rest) ->
  forallb well_formed_line ls = true ->
  map text (iter r 0 true (status_text ls final_newline)) = flat_map found ls.
Proof.
  intros Hr Hline Hend Hnl Hwf. unfold status_text.
  rewrite (iter_flag _ _ _ _ Hr).
  assert (Hempty : iter r 0 false "" = []).
  { cbn [iter]. rewrite (try_unanchored _ _ _ Hr), Hend. reflexivity. }
  set (ending := if final_newline then nl else "").
  assert (Hending : line_end ending /\ iter r 0 false ending = []).
  { subst ending. destruct final_newline.
    - split; [right; exists ""; reflexivity |].
      change nl with (nl ++ ""). rewrite (iter_nowhere _ nl "" Hr (Hnl "")). exact Hempty.
    - split; [left; reflexivity | exact Hempty]. }
  destruct Hending as [Hfin Hnone].
  induction ls as [| l ls IH]; cbn [map flat_map String.concat].
  - cbn [append]. rewrite Hnone. reflexivity.
  - cbn [forallb] in Hwf. apply andb_true_iff in Hwf as [Hl Hls].
    change (match map line_text ls with
            | [] => line_text l
            | _ :: _ => line_text l ++ nl ++ String.concat nl (map line_text ls)
            end) with (String.concat nl (line_text l :: map line_text ls)).
    rewrite concat_cons, app_assoc_s.
    destruct ls as [| l' ls].
    + cbn [map append flat_map]. rewrite (Hline l ending Hl Hfin), Hnone. reflexivity.
    + change (match map line_text (l' :: ls) with
              | [] => ""
              | _ :: _ => nl ++ String.concat nl (map line_text (l' :: ls))
              end) with (nl ++ String.concat nl (map line_text (l' :: ls))).
      rewrite app_assoc_s.
      rewrite (Hline l _ Hl) by (right; eexists; reflexivity).
      rewrite (iter_nowhere _ nl _ Hr (Hnl _)). rewrite (IH Hls). reflexivity.
Qed.

Lemma flat_map_found_full (k : kind) (ls : list line) :
  flat_map (found_full k) ls =
  map status_line (filter (of_kind k) (filter holds_volume (elements ls))).
Proof.
  induction ls as [| [i e p | txt] ls IH]; cbn [flat_map found_full elements filter];
    [reflexivity | | exact IH].
  rewrite IH. destruct (holds_volume e); cbn [filter]; destruct (of_kind k e);
    reflexivity.
Qed.

Lemma findall_full_status (k : kind) (ls : list line) (final_newline : bool) :
  forallb well_formed_line ls = true ->
  findall (full_pattern k) (status_text ls final_newline) =
  map status_line (filter (of_kind k) (filter holds_volume (elements ls))).
Proof.
  intros Hwf. unfold findall. rewrite <- flat_map_found_full.
  apply findall_lines.
  - apply full_pattern_unanchored.
  - intros l rest. apply findall_full_line.
  - destruct k; vm_compute; reflexivity.
  - intros rest. unfold nl, newline. destruct k; cbn [full_pattern]; solve_nowhere.
  - exact Hwf.
Qed.

(** A substitution whose pattern matches nowhere in the text. *)
Ltac sub_unchanged :=
  match goal with
  | |- context [sub ?p ?r ?s] =>
      lazymatch s with
      | context [sub _ _ _] => fail
      | _ => rewrite (sub_nowhere p r s);
             [| vm_compute; reflexivity | vm_compute; reflexivity | nowhere_entry]
      end
  end.

(** Two texts with the same parts. *)
Ltac same_text :=
  repeat (progress (cbn [append status_line list_entry token]; rewrite ?app_assoc_s));
  reflexivity.

Section ListEntries.

Variables (n m v : string).
Hypothesis Hn1 : nonempty n = true.
Hypothesis Hn2 : all_chars (accepts Dig) n = true.
Hypothesis Hm1 : nonempty m = true.
Hypothesis Hm2 : all_chars (accepts Dig) m = true.
Hypothesis Hv1 : nonempty v = true.
Hypothesis Hv2 : all_chars is_word v = true.

Lemma list_sub1_drive :
  sub "Data Transfer Element \d+:Full \(Storage Element (\d+) Loaded\)" "\1"
    (status_line (Drive n (Some (m, v)))) = m ++ ":VolumeTag = " ++ v.
Proof.
  assert (E : status_line (Drive n (Some (m, v))) =
              "" ++ ("Data Transfer Element " ++ n ++ ":Full (Storage Element " ++ m ++ " Loaded)")
                 ++ ":VolumeTag = " ++ v) by same_text.
  rewrite E. rewrite (sub_once _ _ _ _ _ [m]).
  - cbn [expand is_digit between group nth] .
    change (nat_of_ascii "1" - 48) with 1. cbn [nth groups append].
    rewrite app_empty_r. reflexivity.
  - vm_compute. reflexivity.
  - vm_compute. reflexivity.
  - apply nowhere_nil.
  - discriminate.
  - apply (match_here_some _ _ _ {| pending := []; closed := [m] |}).
    eval_items. run_groups. digits_run. run_groups. digits_run. run_groups. reflexivity.
  - nowhere_entry.
Qed.

Lemma list_sub2_drive :
  sub "VolumeTag = " "" (m ++ ":VolumeTag = " ++ v) = m ++ ":" ++ v.
Proof.
  assert (E : m ++ ":VolumeTag = " ++ v = (m ++ ":") ++ "VolumeTag = " ++ v) by same_text.
  rewrite E. rewrite (sub_once _ _ _ _ _ []).
  - cbn [expand]. same_text.
  - vm_compute. reflexivity.
  - vm_compute. reflexivity.
  - nowhere_entry.
  - discriminate.
  - apply (match_here_some _ _ _ {| pending := []; closed := [] |}). vm_compute. reflexivity.
  - nowhere_entry.
Qed.

Lemma list_subs_drive (iie : bool) :
  list_subs iie (status_line (Drive n (Some (m, v)))) = list_entry (Drive n (Some (m, v))).
Proof.
  unfold list_subs. rewrite list_sub1_drive, list_sub2_drive. cbn [list_entry].
  destruct iie; repeat sub_unchanged; reflexivity.
Qed.

Lemma list_sub4_slot :
  sub "Storage Element " "" (status_line (Slot false n (Some v))) = n ++ ":Full :VolumeTag=" ++ v.
Proof.
  assert (E : status_line (Slot false n (Some v)) =
              "" ++ "Storage Element " ++ n ++ ":Full :VolumeTag=" ++ v) by same_text.
  rewrite E. rewrite (sub_once _ _ _ _ _ []).
  - reflexivity.
  - vm_compute. reflexivity.
  - vm_compute. reflexivity.
  - apply nowhere_nil.
  - discriminate.
  - apply (match_here_some _ _ _ {| pending := []; closed := [] |}). vm_compute. reflexivity.
  - nowhere_entry.
Qed.

Lemma list_sub5_slot :
  sub "Full :VolumeTag=" "" (n ++ ":Full :VolumeTag=" ++ v) = n ++ ":" ++ v.
Proof.
  assert (E : n ++ ":Full :VolumeTag=" ++ v = (n ++ ":") ++ "Full :VolumeTag=" ++ v) by same_text.
  rewrite E. rewrite (sub_once _ _ _ _ _ []).
  - cbn [expand]. same_text.
  - vm_compute. reflexivity.
  - vm_compute. reflexivity.
  - nowhere_entry.
  - discriminate.
  - apply (match_here_some _ _ _ {| pending := []; closed := [] |}). vm_compute. reflexivity.
  - nowhere_entry.
Qed.

Lemma list_subs_slot (iie : bool) :
  list_subs iie (status_line (Slot false n (Some v))) = list_entry (Slot false n (Some v)).
Proof.
  unfold list_subs. do 2 sub_unchanged.
  destruct iie; [sub_unchanged |]; rewrite list_sub4_slot, list_sub5_slot; reflexivity.
Qed.

Lemma list_sub3_ie :
  sub "Storage Element (\d+) IMPORT.EXPORT:Full :VolumeTag=(.*)" "\1:\2"
    (status_line (Slot true n (Some v))) = n ++ ":" ++ v.
Proof.
  sub_matches.
  2:{ eval_items. run_groups. digits_run. run_groups.
      apply star_all; [exact (label_dots v Hv2) | run_groups; reflexivity]. }
  transitivity (n ++ ":" ++ v ++ ""); [vm_compute; reflexivity |].
  rewrite app_empty_r. reflexivity.
Qed.

Lemma list_subs_ie :
  list_subs true (status_line (Slot true n (Some v))) = list_entry (Slot true n (Some v)).
Proof.
  unfold list_subs. do 2 sub_unchanged. rewrite list_sub3_ie.
  do 2 sub_unchanged. reflexivity.
Qed.

End ListEntries.

Section ListLoop.

Variable cfg : config.
Hypothesis Hvxa : vxa_packetloader cfg = false.

Lemma list_loop_cons (element : string) (els : list string) (last_element acc : string) :
  list_loop cfg (element :: els) last_element acc =
  list_loop cfg els last_element
    (acc ++ list_subs (include_import_export cfg) element
         ++ (if String.eqb element last_element then "" else nl)).
Proof.
  cbn [list_loop]. rewrite Hvxa. unfold list_subs.
  destruct (include_import_export cfg); reflexivity.
Qed.

Lemma list_subs_entry (e : Element) :
  well_formed_element e = true -> holds_volume e = true -> listed cfg e = true ->
  list_subs (include_import_export cfg) (status_line e) = list_entry e.
Proof.
  intros Hwf Hh Hl. unfold listed in Hl.
  destruct e as [n [[m v] |] | [|] n [v |]]; try discriminate Hh; element_parts Hwf;
    cbn [kind_of] in Hl; rewrite ?Hl.
  - apply list_subs_drive; assumption.
  - apply list_subs_ie; assumption.
  - apply list_subs_slot; assumption.
Qed.

Lemma list_loop_entries (es : list Element) : forall (last_element acc : string),
  forallb well_formed_element es = true -> forallb holds_volume es = true ->
  forallb (listed cfg) es = true ->
  list_loop cfg (map status_line es) last_element acc = acc ++ sep_entries es last_element.
Proof.
  induction es as [| e es IH]; intros last_element acc Hwf Hh Hl; cbn [map sep_entries].
  - cbn [list_loop]. rewrite app_empty_r. reflexivity.
  - cbn [forallb] in Hwf, Hh, Hl.
    apply andb_true_iff in Hwf as [He Hwf]. apply andb_true_iff in Hh as [Hhe Hh].
    apply andb_true_iff in Hl as [Hle Hl].
    rewrite list_loop_cons, (IH _ _ Hwf Hh Hl), (list_subs_entry e He Hhe Hle).
    rewrite !app_assoc_s. reflexivity.
Qed.

End ListLoop.

Lemma sep_entries_cons (e : Element) (es : list Element) (last_element : string) :
  sep_entries (e :: es) last_element =
  list_entry e ++ (if String.eqb (status_line e) last_element then "" else nl)
  ++ sep_entries es last_element.
Proof. reflexivity. Qed.

(** With one element at most for a key, only the last entry lacks its
    line feed. *)
Lemma sep_entries_concat (es : list Element) (d : Element) :
  forallb well_formed_element es = true -> unique_keys es = true -> es <> [] ->
  sep_entries es (status_line (last es d)) = String.concat nl (map list_entry es).
Proof.
  induction es as [| e es IH]; [contradiction |]. intros Hwf Hu _.
  cbn [forallb] in Hwf. apply andb_true_iff in Hwf as [He Hwf].
  cbn [unique_keys] in Hu. apply andb_true_iff in Hu as [Hfresh Hu].
  apply negb_true_iff in Hfresh.
  destruct es as [| e' es].
  - cbn [sep_entries last map String.concat]. rewrite String.eqb_refl.
    cbn [append]. apply app_empty_r.
  - change (last (e :: e' :: es) d) with (last (e' :: es) d).
    rewrite sep_entries_cons, (IH Hwf Hu ltac:(discriminate)).
    assert (Hne : String.eqb (status_line e) (status_line (last (e' :: es) d)) = false).
    { apply String.eqb_neq. intros Heq.
      pose proof (existsb_last _ (e' :: es) d ltac:(discriminate) Hfresh) as Hk.
      pose proof (forallb_last _ (e' :: es) d ltac:(discriminate) Hwf) as Hwl.
      rewrite (status_line_key e _ He Hwl Heq) in Hk. discriminate. }
    rewrite Hne. reflexivity.
Qed.

Lemma in_order_filter (f : Element -> bool) (es : list Element) :
  in_order es = true -> in_order (filter f es) = true.
Proof.
  induction es as [| e es IH]; [reflexivity |]. cbn [in_order filter]. intros H.
  apply andb_true_iff in H as [Hle Ho].
  destruct (f e); [| apply IH, Ho].
  cbn [in_order]. rewrite (IH Ho), andb_true_r. apply forallb_sub_filter. exact Hle.
Qed.

(** The entries of [list]. *)
Lemma list_text_entries (cfg : config) (ls : list line) (final_newline : bool) :
  vxa_packetloader cfg = false -> well_formed_status ls = true ->
  list_text cfg (status_text ls final_newline) =
  String.concat nl
    (map list_entry (filter (listed cfg) (filter holds_volume (elements ls)))).
Proof.
  intros Hvxa H. unfold well_formed_status in H.
  apply andb_true_iff in H as [H Ho]. apply andb_true_iff in H as [Hwf Hu].
  pose proof (well_formed_elements ls Hwf) as Hes.
  set (full := filter holds_volume (elements ls)).
  set (out := filter (listed cfg) full).
  assert (Hfull : forallb well_formed_element full = true)
    by (apply forallb_sub_filter; exact Hes).
  assert (Hout : forallb well_formed_element out = true)
    by (apply forallb_sub_filter; exact Hfull).
  unfold list_text.
  change (re.findall "Data Transfer Element \d+:Full.*\w")
    with (re.findall (full_pattern DataTransfer)).
  change (re.findall "Storage Element \d+:Full :.*\w") with (re.findall (full_pattern Storage)).
  change (re.findall "Storage Element \d+ IMPORT.EXPORT:Full.*\w")
    with (re.findall (full_pattern ImportExport)).
  rewrite !(findall_full_status _ ls final_newline Hwf). fold full.
  assert (Hlist : (map status_line (filter (of_kind DataTransfer) full) ++
                   map status_line (filter (of_kind Storage) full) ++
                   (if include_import_export cfg
                    then map status_line (filter (of_kind ImportExport) full) else []))%list
                  = map status_line out).
  { subst out. rewrite <- (listed_in_order cfg full (in_order_filter _ _ Ho)), !map_app.
    destruct (include_import_export cfg); reflexivity. }
  rewrite Hlist.
  rewrite (list_loop_entries cfg Hvxa out _ "" Hout).
  2: { subst out. apply forallb_sub_filter. apply forallb_filter_self. }
  2: { apply forallb_filter_self. }
  cbn [append]. destruct out as [| e0 out0] eqn:Eout; [reflexivity |].
  rewrite (last_status_line (e0 :: out0) e0) by discriminate.
  apply sep_entries_concat; [exact Hout | | discriminate].
  rewrite <- Eout. subst out. apply unique_keys_filter. apply unique_keys_filter. exact Hu.
Qed.

(** X15: with [vxa_packetloader] not set and for a well-formed status
    text, the text of [list] has one entry for every element that holds a
    volume, the import/export slots being counted when
    [include_import_export] is set: the entries stand in the order of the
    status text, with a line feed between two entries and none after the
    last; the entry of a slot is its number, a colon and the label of its
    volume, and the entry of a drive is the number of the slot that its
    volume came from, a colon and the label. *)
Theorem list_lines (cfg : config) (ls : list line) (final_newline : bool) :
  vxa_packetloader cfg = false -> well_formed_status ls = true ->
  let out := filter (listed cfg) (filter holds_volume (elements ls)) in
  list_text cfg (status_text ls final_newline) = String.concat nl (map list_entry out) /\
  Forall (fun e => exists slt vol,
            list_entry e = slt ++ ":" ++ vol /\ numeral slt = true /\ label vol = true) out.
Proof.
  intros Hvxa H out. split; [exact (list_text_entries cfg ls final_newline Hvxa H) |].
  unfold well_formed_status in H.
  apply andb_true_iff in H as [H _]. apply andb_true_iff in H as [Hwf _].
  pose proof (well_formed_elements ls Hwf) as Hes.
  apply Forall_forall. intros e He. subst out.
  apply filter_In in He as [He _]. apply filter_In in He as [He Hh].
  rewrite forallb_forall in Hes. specialize (Hes e He).
  destruct e as [n [[m v] |] | ie n [v |]]; try discriminate Hh; cbn [well_formed_element] in Hes;
    cbn [list_entry].
  - apply andb_true_iff in Hes as [Hes Hv]. apply andb_true_iff in Hes as [_ Hm].
    exists m, v. auto.
  - apply andb_true_iff in Hes as [Hn Hv]. exists n, v. auto.
Qed.

(** The list of [sample_lines], import/export slots included. *)
Lemma list_lines_witness :
  list_text import_export_config (status_text sample_lines true) =
  String.concat nl ["5:G03005TA"; "1:G03001TA"; "42:G03029TA"].
Proof.
  apply (list_lines import_export_config sample_lines true).
  - reflexivity.
  - vm_compute. reflexivity.
Defined.
(** ** Patterns with an operand spliced in *)

(** A word character is read as itself. *)
Lemma read_word_char (a : ascii) (s : string) (depth : nat) (acc : list item) :
  is_word a = true ->
  read (String a s) Normal depth acc = read s Normal depth (One (Lit a) :: acc).
Proof.
  intros Ha. cbn [read].
  repeat match goal with
  | |- context [Ascii.eqb a ?c] =>
      destruct (Ascii.eqb_spec a c) as [-> | _]; [discriminate Ha |]
  end.
  reflexivity.
Qed.

Lemma read_word (w s : string) (depth : nat) : forall (acc : list item),
  all_chars is_word w = true ->
  read (w ++ s) Normal depth acc = read s Normal depth (rev (lits w) ++ acc)%list.
Proof.
  induction w as [| a w IH]; intros acc Hw; [reflexivity |].
  cbn in Hw. apply andb_true_iff in Hw as [Ha Hw].
  cbn [append]. rewrite (read_word_char a _ depth acc Ha), (IH _ Hw).
  cbn [lits rev]. rewrite <- app_assoc. reflexivity.
Qed.

Lemma digits_are_words (n : string) : all_chars (accepts Dig) n = true -> all_chars is_word n = true.
Proof.
  apply all_chars_impl. intros a Ha. cbn [accepts] in Ha. unfold is_word.
  rewrite Ha. rewrite orb_true_r. reflexivity.
Qed.

Lemma read_plain (a : ascii) (s : string) (depth : nat) (acc : list item) :
  plain a = true ->
  read (String a s) Normal depth acc = read s Normal depth (One (Lit a) :: acc).
Proof.
  unfold plain. intros Ha. apply negb_true_iff in Ha.
  repeat (apply orb_false_iff in Ha as [Ha ?]).
  cbn [read].
  repeat match goal with
  | E : Ascii.eqb a ?c = false |- _ => rewrite E; clear E
  end.
  reflexivity.
Qed.

Lemma read_dot (s : string) (depth : nat) (acc : list item) :
  read (String "." s) Normal depth acc = read s Normal depth (One Dot :: acc).
Proof. reflexivity. Qed.

Lemma read_star (s : string) (depth : nat) (c : cls) (acc : list item) :
  read (String "*" s) Normal depth (One c :: acc) = read s Normal depth (Star c :: acc).
Proof. reflexivity. Qed.

Lemma read_plus (s : string) (depth : nat) (c : cls) (acc : list item) :
  read (String "+" s) Normal depth (One c :: acc) = read s Normal depth (Plus c :: acc).
Proof. reflexivity. Qed.

Lemma read_open (s : string) (acc : list item) :
  read (String "(" s) Normal 0 acc = read s Normal 1 (Open :: acc).
Proof. reflexivity. Qed.

Lemma read_close (s : string) (acc : list item) :
  read (String ")" s) Normal 1 acc = read s Normal 0 (Close :: acc).
Proof. reflexivity. Qed.

Lemma read_digit (s : string) (depth : nat) (acc : list item) :
  read (String "\" (String "d" s)) Normal depth acc = read s Normal depth (One Dig :: acc).
Proof. reflexivity. Qed.

Lemma read_set_SI (s : string) (depth : nat) (acc : list item) :
  read (String "[" (String "S" (String "I" (String "]" s)))) Normal depth acc =
  read s Normal depth (One (Range [("S", "S"); ("I", "I")]%char) :: acc).
Proof. reflexivity. Qed.

Lemma parse_unanchored (a : ascii) (p : string) :
  Ascii.eqb a "^" = false ->
  parse (String a p) =
  option_map (fun l => {| anchored := false; items := l |}) (read (String a p) Normal 0 []).
Proof.
  intros Ha. destruct a as [[|] [|] [|] [|] [|] [|] [|] [|]];
    first [discriminate Ha | reflexivity].
Qed.

(** The reading of a pattern text with operands that are words. *)
Ltac read_pattern :=
  unfold compile; cbn [append];
  first [rewrite parse_unanchored by reflexivity | unfold parse];
  repeat first
    [ rewrite read_word by assumption
    | rewrite read_word_char by reflexivity
    | rewrite read_plain by reflexivity
    | rewrite read_dot | rewrite read_star | rewrite read_plus
    | rewrite read_open | rewrite read_close | rewrite read_digit | rewrite read_set_SI ];
  repeat (progress (cbn [read option_map rev List.app lits];
                    rewrite ?rev_app_distr, ?rev_involutive, <- ?app_assoc));
  reflexivity.

Lemma loaded_pattern (idx : string) :
  all_chars is_word idx = true ->
  compile ("Data Transfer Element " ++ idx ++ ":Full.*") =
  {| anchored := false;
     items := (lits "Data Transfer Element " ++ lits idx ++ lits ":Full" ++ [Star Dot])%list |}.
Proof. intros H. read_pattern. Qed.

(** The text where a pattern matches nowhere is passed over. *)
Lemma scan_skip (r : regex) (s rest : string) : forall (b : bool),
  anchored r = false -> nowhere r s rest -> scan r b (s ++ rest) = scan r false rest.
Proof.
  induction s as [| a s IH]; intros b Hr Hs.
  - cbn [append]. destruct rest; cbn [scan]; rewrite !(try_unanchored _ _ _ Hr); reflexivity.
  - cbn [append scan]. rewrite (try_unanchored _ _ _ Hr).
    pose proof (Hs "" (String a s) eq_refl ltac:(discriminate)) as H0.
    cbn [append] in H0. rewrite H0.
    apply IH; [exact Hr |].
    intros s1 s2 -> Hs2. apply (Hs (String a s1) s2); [reflexivity | exact Hs2].
Qed.

(** The first match of a pattern in lines: the match of the first line
    that has one. *)
Lemma scan_lines {A : Type} (r : regex) (text_of : A -> string)
  (hit : A -> option (string * list string)) (good : A -> Prop) (ending : string) :
  anchored r = false ->
  (forall l rest, good l -> line_end rest ->
     match hit l with
     | Some (w, gs) =>
         exists pre post,
           text_of l = pre ++ w ++ post /\ nowhere r pre (w ++ post ++ rest) /\
           match_here (items r) (w ++ post ++ rest) =
             Some {| text := w; groups := gs; rest := post ++ rest |}
     | None => nowhere r (text_of l) rest
     end) ->
  (forall rest, nowhere r nl rest) ->
  line_end ending -> scan r false ending = None ->
  forall (lines : list A), Forall good lines ->
  shown (scan r true (String.concat nl (map text_of lines) ++ ending)) = first_hit hit lines.
Proof.
  intros Hr Hline Hnl Hend Hnone lines Hgood.
  assert (Hflag : forall s, scan r true s = scan r false s).
  { intros s. destruct s; cbn [scan]; rewrite !(try_unanchored _ _ _ Hr); reflexivity. }
  rewrite Hflag.
  induction Hgood as [| l lines Hl Hls IH].
  - cbn [map String.concat append first_hit]. rewrite Hnone. reflexivity.
  - cbn [map]. rewrite concat_cons, app_assoc_s. cbn [first_hit].
    assert (Hrest : line_end (match map text_of lines with
                              | [] => ""
                              | _ :: _ => nl ++ String.concat nl (map text_of lines)
                              end ++ ending)).
    { destruct lines; [exact Hend | right; eexists; reflexivity]. }
    specialize (Hline l _ Hl Hrest).
    destruct (hit l) as [[w gs] |].
    + destruct Hline as (pre & post & -> & Hpre & Hm).
      rewrite !app_assoc_s. rewrite (scan_found _ _ _ _ false Hr Hpre Hm). reflexivity.
    + rewrite (scan_skip _ _ _ false Hr Hline).
      destruct lines as [| l' lines]; [cbn [map append first_hit]; rewrite Hnone; reflexivity |].
      cbn [map] in *. rewrite app_assoc_s, (scan_skip _ _ _ false Hr (Hnl _)). exact IH.
Qed.

(** A literal text in a pattern matches itself. *)
Lemma lits_match (x : string) (p : list item) (k : cont) : forall (s : string) (g : caps),
  rmatch (lits x ++ p) k (x ++ s) g = rmatch p k s g.
Proof.
  induction x as [| a x IH]; intros s g; [reflexivity |].
  cbn [lits List.app rmatch append one accepts]. rewrite Ascii.eqb_refl. apply IH.
Qed.

(** Two numerals that differ, each before a character that is no digit. *)
Lemma lits_numeral_mismatch (c c' : ascii) (p : list item) (k : cont) (t : string) (g : caps) :
  is_digit c = false -> is_digit c' = false ->
  forall (x n : string),
    all_chars is_digit x = true -> all_chars is_digit n = true -> x <> n ->
    rmatch (lits x ++ One (Lit c) :: p) k (n ++ String c' t) g = None.
Proof.
  intros Hc Hc'. induction x as [| b x IH]; intros n Hx Hn Hne.
  - destruct n as [| a n]; [contradiction |].
    cbn in Hn. apply andb_true_iff in Hn as [Ha _].
    cbn [lits List.app rmatch append one accepts].
    destruct (Ascii.eqb_spec c a) as [-> | _]; [congruence | reflexivity].
  - cbn in Hx. apply andb_true_iff in Hx as [Hb Hx].
    cbn [lits List.app rmatch]. destruct n as [| a n]; cbn [append one accepts].
    + destruct (Ascii.eqb_spec b c') as [-> | _]; [congruence | reflexivity].
    + cbn in Hn. apply andb_true_iff in Hn as [_ Hn].
      destruct (Ascii.eqb_spec b a) as [-> | _]; [| reflexivity].
      apply IH; [exact Hx | exact Hn | congruence].
Qed.

(** No match at any place behind the first of a text made of known
    characters, numerals, blanks and a label at its end, for a pattern
    given by its items. *)
Ltac none_at_head := apply match_here_none; reflexivity.

Ltac nowhere_items :=
  cbn [append status_line token]; rewrite ?app_assoc_s;
  lazymatch goal with
  | |- nowhere _ "" _ => apply nowhere_nil
  | |- nowhere _ (String _ _) _ => apply nowhere_cons; [none_at_head | nowhere_items]
  | |- nowhere _ (spaces _ ++ _) _ =>
      apply nowhere_app;
      [eapply nowhere_spaces; [reflexivity | reflexivity] | nowhere_items]
  | |- nowhere _ (spaces _) _ =>
      eapply nowhere_spaces; [reflexivity | reflexivity]
  | |- nowhere _ (?n ++ _) _ =>
      apply nowhere_app;
      [eapply nowhere_digits; [reflexivity | reflexivity | assumption] | nowhere_items]
  | |- nowhere _ ?v _ =>
      first
        [eapply (nowhere_label _ "Data" "T");
         [reflexivity | reflexivity | reflexivity | assumption | solve_blank_end]
        | eapply (nowhere_label _ "Storage" "E");
         [reflexivity | reflexivity | reflexivity | assumption | solve_blank_end]]
  end.

Lemma spaces_no_newline (n : nat) : all_chars no_newline (spaces n) = true.
Proof. induction n as [| n IH]; [reflexivity | exact IH]. Qed.

Section LoadedLines.

Variables (idx n m v : string) (p : nat) (more : string).
Hypothesis Hi2 : all_chars (accepts Dig) idx = true.
Hypothesis Hn1 : nonempty n = true.
Hypothesis Hn2 : all_chars (accepts Dig) n = true.
Hypothesis Hm1 : nonempty m = true.
Hypothesis Hm2 : all_chars (accepts Dig) m = true.
Hypothesis Hv1 : nonempty v = true.
Hypothesis Hv2 : all_chars is_word v = true.
Hypothesis Hmore : line_end more.

Lemma loaded_not_slot_full (ie : bool) :
  nowhere (loaded_regex idx) (status_line (Slot ie n (Some v))) (spaces p ++ more).
Proof. destruct ie; nowhere_items. Qed.

Lemma loaded_not_slot_empty (ie : bool) :
  nowhere (loaded_regex idx) (status_line (Slot ie n None)) (spaces p ++ more).
Proof. destruct ie; nowhere_items. Qed.

(** At the start of the line of a drive: the index is another one, or
    the drive is empty. *)
Lemma loaded_other_index (tail : string) :
  idx <> n ->
  match_here (items (loaded_regex idx)) ("Data Transfer Element " ++ n ++ String ":" tail) = None.
Proof.
  intros Hne. apply match_here_none.
  change (rmatch (lits "Data Transfer Element "
                  ++ (lits idx ++ One (Lit ":") :: lits "Full" ++ [Star Dot]))%list accept
            ("Data Transfer Element " ++ n ++ String ":" tail)
            {| pending := []; closed := [] |} = None).
  rewrite lits_match. apply lits_numeral_mismatch; try reflexivity; assumption.
Qed.

Lemma loaded_empty_drive (tail : string) :
  match_here (items (loaded_regex idx)) ("Data Transfer Element " ++ n ++ ":Empty" ++ tail) = None.
Proof.
  destruct (String.eqb_spec idx n) as [E | E].
  - subst n. apply match_here_none.
    change (rmatch (lits "Data Transfer Element "
                    ++ (lits idx ++ lits ":Full" ++ [Star Dot]))%list accept
              ("Data Transfer Element " ++ idx ++ ":Empty" ++ tail)
              {| pending := []; closed := [] |} = None).
    rewrite !lits_match. reflexivity.
  - apply (loaded_other_index ("Empty" ++ tail) E).
Qed.

Lemma loaded_not_drive_empty :
  nowhere (loaded_regex idx) (status_line (Drive n None)) (spaces p ++ more).
Proof.
  cbn [status_line append]. apply nowhere_cons.
  - match goal with
    | |- match_here _ ?t = None =>
        replace t with ("Data Transfer Element " ++ n ++ ":Empty" ++ spaces p ++ more)
          by same_text
    end.
    apply (loaded_empty_drive (spaces p ++ more)).
  - nowhere_items.
Qed.

Lemma loaded_not_drive_other :
  idx <> n ->
  nowhere (loaded_regex idx) (status_line (Drive n (Some (m, v)))) (spaces p ++ more).
Proof.
  intros Hne. cbn [status_line append]. apply nowhere_cons.
  - match goal with
    | |- match_here _ ?t = None =>
        replace t with
          ("Data Transfer Element " ++ n
           ++ String ":" ("Full (Storage Element " ++ m ++ " Loaded):VolumeTag = " ++ v
                          ++ spaces p ++ more))
          by same_text
    end.
    apply (loaded_other_index _ Hne).
  - nowhere_items.
Qed.

Lemma loaded_drive_match :
  match_here (items (loaded_regex idx))
    ((status_line (Drive idx (Some (m, v))) ++ spaces p) ++ "" ++ more) =
  Some {| text := status_line (Drive idx (Some (m, v))) ++ spaces p; groups := [];
          rest := "" ++ more |}.
Proof.
  apply (match_here_some _ _ _ {| pending := []; closed := [] |}).
  match goal with
  | |- rmatch _ _ ?t _ = _ =>
      replace t with
        ("Data Transfer Element "
         ++ idx ++ ":Full"
         ++ (" (Storage Element " ++ m ++ " Loaded):VolumeTag = " ++ v ++ spaces p) ++ more)
        by same_text
  end.
  change (items (loaded_regex idx))
    with (lits "Data Transfer Element " ++ (lits idx ++ (lits ":Full" ++ [Star Dot])))%list.
  rewrite !lits_match. cbn [rmatch].
  apply star_accept; [| apply line_end_stops; exact Hmore].
  change (accepts Dot) with no_newline. no_newline_parts.
  apply spaces_no_newline.
Qed.

End LoadedLines.

Lemma loaded_regex_spaces (idx : string) (n : nat) (rest : string) :
  nowhere (loaded_regex idx) (spaces n) rest.
Proof. eapply nowhere_spaces; reflexivity. Qed.

Lemma loaded_line (idx : string) (l : line) (rest : string) :
  all_chars (accepts Dig) idx = true -> well_formed_line l = true -> line_end rest ->
  match loaded_hit idx l with
  | Some (w, gs) =>
      exists pre post,
        line_text l = pre ++ w ++ post /\ nowhere (loaded_regex idx) pre (w ++ post ++ rest) /\
        match_here (items (loaded_regex idx)) (w ++ post ++ rest) =
          Some {| text := w; groups := gs; rest := post ++ rest |}
  | None => nowhere (loaded_regex idx) (line_text l) rest
  end.
Proof.
  intros Hidx Hl Hrest. destruct l as [i e p | txt]; cbn [line_text loaded_hit].
  - cbn [well_formed_line] in Hl.
    assert (Hmiss : nowhere (loaded_regex idx) (status_line e) (spaces p ++ rest) ->
                    nowhere (loaded_regex idx) (spaces i ++ status_line e ++ spaces p) rest).
    { intros H. apply nowhere_app; [apply loaded_regex_spaces |].
      apply nowhere_app; [exact H | apply loaded_regex_spaces]. }
    destruct e as [n [[m v] |] | ie n [v |]]; element_parts Hl.
    + destruct (String.eqb_spec n idx) as [-> | Hne].
      * exists (spaces i), "". split; [| split].
        -- rewrite app_empty_r. reflexivity.
        -- apply loaded_regex_spaces.
        -- apply loaded_drive_match; assumption.
      * apply Hmiss. apply loaded_not_drive_other; try assumption. congruence.
    + apply Hmiss. apply loaded_not_drive_empty; assumption.
    + apply Hmiss. apply loaded_not_slot_full; assumption.
    + apply Hmiss. apply loaded_not_slot_empty; assumption.
  - cbn [well_formed_line] in Hl. apply andb_true_iff in Hl as [Hd _].
    apply negb_true_iff in Hd.
    eapply (nowhere_without _ "Data Transfer Element ");
      [reflexivity | reflexivity | exact Hd | exact Hrest].
Qed.

Lemma forallb_Forall {A : Type} (f : A -> bool) (l : list A) :
  forallb f l = true -> Forall (fun x => f x = true) l.
Proof. intros H. apply Forall_forall. apply forallb_forall. exact H. Qed.

(** What [do_loaded] finds in a status text. *)
Lemma search_loaded (idx : string) (ls : list line) (final_newline : bool) :
  all_chars (accepts Dig) idx = true -> forallb well_formed_line ls = true ->
  shown (search ("Data Transfer Element " ++ idx ++ ":Full.*") (status_text ls final_newline)) =
  first_hit (loaded_hit idx) ls.
Proof.
  intros Hidx Hwf. unfold search. rewrite (loaded_pattern idx (digits_are_words idx Hidx)).
  fold (loaded_regex idx). unfold status_text.
  apply (scan_lines _ line_text _ (fun l => well_formed_line l = true)).
  - reflexivity.
  - intros l rest. apply loaded_line. exact Hidx.
  - intros rest. unfold nl, newline. apply nowhere_cons; [none_at_head | apply nowhere_nil].
  - destruct final_newline; [right; exists ""; reflexivity | left; reflexivity].
  - destruct final_newline; reflexivity.
  - apply forallb_Forall. exact Hwf.
Qed.

(** A pattern tied to the start of the text matches at no other place. *)
Lemma subst_anchored (r : regex) (repl : string) : forall (s : string),
  anchored r = true -> subst r repl 0 false s = s.
Proof.
  intros s Hr. induction s as [| a s IH]; cbn [subst]; unfold try; rewrite Hr; cbn [negb andb].
  - reflexivity.
  - rewrite IH. reflexivity.
Qed.

(** A substitution whose pattern is tied to the start of the text and
    matches a part of it. *)
Lemma sub_anchored_prefix (pattern repl w post : string) (gs : list string) :
  anchored (compile pattern) = true -> w <> "" ->
  match_here (items (compile pattern)) (w ++ post) =
    Some {| text := w; groups := gs; rest := post |} ->
  sub pattern repl (w ++ post) = expand repl {| text := w; groups := gs; rest := post |} ++ post.
Proof.
  intros Hr Hw Hm. unfold sub. destruct w as [| a w]; [contradiction |].
  cbn [append subst]. unfold try at 1. rewrite Hr. cbn [negb andb].
  change (String a (w ++ post)) with (String a w ++ post) at 1. rewrite Hm. cbn [text].
  rewrite subst_skip, (subst_anchored _ _ _ Hr). reflexivity.
Qed.

(** A greedy repetition takes the whole run when the pattern goes on
    behind it. *)
Lemma star_greedy (c : cls) (k : cont) (run rest : string) (g : caps) (r : string * caps) :
  all_chars (accepts c) run = true -> stops c rest -> k rest g = Some r ->
  star c k (run ++ rest) g = Some r.
Proof.
  intros Hrun Hrest Hk. induction run as [| a run IH]; cbn [append].
  - destruct rest as [| b rest]; cbn [star]; [exact Hk |].
    cbn in Hrest. rewrite Hrest. exact Hk.
  - cbn in Hrun. apply andb_true_iff in Hrun as [Ha Hrun]. cbn [star]. rewrite Ha, (IH Hrun).
    reflexivity.
Qed.

Lemma stops_word_spaces (p : nat) : stops Wrd (spaces p).
Proof. destruct p; [exact I | reflexivity]. Qed.

(** A pattern that goes on with a word, a blank and a part that needs
    more than blanks does not match a word that only blanks follow to the
    end of the line. *)
Lemma word_blank_fails (P : string) (p : list item) (k : cont) :
  (forall s g, blank_end s -> rmatch p k s g = None) ->
  all_chars is_word P = true ->
  forall (w tail : string) (g : caps),
    all_chars is_word w = true -> blank_end tail ->
    rmatch (lits P ++ One (Lit " ") :: p) k (w ++ tail) g = None.
Proof.
  intros Hp. induction P as [| b P IH]; intros HP w tail g Hw (n & rest & -> & Hrest).
  - cbn [lits List.app rmatch]. destruct w as [| a w]; cbn [append].
    + destruct n as [| n]; cbn [spaces append].
      * destruct Hrest as [-> | [more ->]]; reflexivity.
      * cbn [one accepts Ascii.eqb Bool.eqb andb]. cbv iota.
        apply Hp. exists n, rest. auto.
    + cbn in Hw. apply andb_true_iff in Hw as [Ha _]. cbn [one accepts].
      destruct (Ascii.eqb_spec " " a) as [<- | _]; [discriminate | reflexivity].
  - cbn in HP. apply andb_true_iff in HP as [Hb HP].
    cbn [lits List.app rmatch]. destruct w as [| a w]; cbn [append].
    + destruct n as [| n]; cbn [spaces append].
      * destruct Hrest as [-> | [more ->]]; cbn [one accepts]; [reflexivity |].
        destruct (Ascii.eqb_spec b newline) as [-> | _]; [discriminate | reflexivity].
      * cbn [one accepts].
        destruct (Ascii.eqb_spec b " ") as [-> | _]; [discriminate | reflexivity].
    + cbn in Hw. apply andb_true_iff in Hw as [Ha Hw]. cbn [one accepts].
      destruct (Ascii.eqb b a); [| reflexivity].
      apply (IH HP w (spaces n ++ rest) g Hw). exists n, rest. auto.
Qed.

Lemma nowhere_word_blank (r : regex) (P : string) (p : list item) (v tail : string) :
  items r = (lits P ++ One (Lit " ") :: p)%list ->
  (forall s g, blank_end s -> rmatch p accept s g = None) ->
  all_chars is_word P = true ->
  all_chars is_word v = true -> blank_end tail -> nowhere r v tail.
Proof.
  intros Hr Hp HP Hv Htail s1 s2 -> _.
  rewrite all_chars_app in Hv. apply andb_true_iff in Hv as [_ Hv].
  apply match_here_none. rewrite Hr. apply word_blank_fails; assumption.
Qed.

(** A numeral does not begin with a blank, nor does a blank line. *)
Lemma digits_fail_at_blank (p : list item) (k : cont) (s : string) (g : caps) :
  blank_end s -> rmatch (Open :: Plus Dig :: p) k s g = None.
Proof.
  intros (n & rest & -> & Hrest). cbn [rmatch].
  destruct n as [| n]; cbn [spaces append].
  - destruct Hrest as [-> | [more ->]]; reflexivity.
  - reflexivity.
Qed.

Section LoadedEntry.

Variables (n m v : string) (p : nat).
Hypothesis Hn1 : nonempty n = true.
Hypothesis Hn2 : all_chars (accepts Dig) n = true.
Hypothesis Hm1 : nonempty m = true.
Hypothesis Hm2 : all_chars (accepts Dig) m = true.
Hypothesis Hv1 : nonempty v = true.
Hypothesis Hv2 : all_chars is_word v = true.

Lemma loaded_tag_match (g : caps) :
  pending g = [] ->
  rmatch (items (compile "= (\w+)")) accept ("= " ++ v ++ spaces p) g =
  Some (spaces p, {| pending := []; closed := (closed g ++ [v])%list |}).
Proof.
  intros Hg. eval_items. cbn [rmatch append one]. eval_accepts.
  destruct v as [| a w] eqn:Ev; [discriminate |].
  cbn in Hv2. apply andb_true_iff in Hv2 as [Ha Hw].
  cbn [append one accepts]. rewrite Ha.
  rewrite (star_greedy Wrd _ w (spaces p) _
             (spaces p, {| pending := []; closed := (closed g ++ [String a w])%list |}));
    [reflexivity | exact Hw | apply stops_word_spaces |].
  unfold close_group, open_group. cbn [pending closed]. rewrite Hg.
  change (String a (w ++ spaces p)) with (String a w ++ spaces p).
  rewrite take_app. reflexivity.
Qed.

Lemma loaded_tag_last :
  fails_inside Dot (rmatch (items (compile "= (\w+)")) accept) ("= " ++ v ++ spaces p).
Proof.
  change ("= " ++ v ++ spaces p) with (String "=" (" " ++ v ++ spaces p)).
  apply fails_inside_text; [| vm_compute; reflexivity].
  cbn [append]. apply nowhere_cons; [none_here |].
  apply nowhere_app.
  - apply (nowhere_run _ is_word); [| exact Hv2].
    intros a t Ha. eval_items. apply first_lit_mismatch.
    destruct (Ascii.eqb_spec "=" a) as [<- | _]; [discriminate Ha | reflexivity].
  - rewrite <- (app_empty_r (spaces p)).
    apply nowhere_app; [| apply nowhere_nil].
    eapply nowhere_spaces; [vm_compute; reflexivity | reflexivity].
Qed.

Lemma loaded_element_match :
  rmatch (items (compile "Element (\d+) Loaded.*= (\w+)")) accept
    ("Element " ++ m ++ " Loaded):VolumeTag = " ++ v ++ spaces p)
    {| pending := []; closed := [] |} =
  Some (spaces p, {| pending := []; closed := [m; v] |}).
Proof.
  eval_items. run_groups. digits_run. run_groups.
  change (star Dot (rmatch (items (compile "= (\w+)")) accept)
            ("):VolumeTag " ++ "= " ++ v ++ spaces p) {| pending := []; closed := [m] |} =
          Some (spaces p, {| pending := []; closed := [m; v] |})).
  apply star_last.
  - reflexivity.
  - apply (loaded_tag_match {| pending := []; closed := [m] |}). reflexivity.
  - apply loaded_tag_last.
Qed.

Lemma loaded_element_last :
  fails_inside Dot (rmatch (items (compile "Element (\d+) Loaded.*= (\w+)")) accept)
    ("Element " ++ m ++ " Loaded):VolumeTag = " ++ v ++ spaces p).
Proof.
  change ("Element " ++ m ++ " Loaded):VolumeTag = " ++ v ++ spaces p)
    with (String "E" ("lement " ++ m ++ " Loaded):VolumeTag = " ++ v ++ spaces p)).
  apply fails_inside_text; [| vm_compute; reflexivity].
  cbn [append].
  repeat (apply nowhere_cons; [none_here |]).
  apply nowhere_app; [eapply nowhere_digits; [vm_compute; reflexivity | reflexivity | exact Hm2] |].
  cbn [append].
  repeat (apply nowhere_cons; [none_here |]).
  apply nowhere_app.
  - apply (nowhere_word_blank _ "Element" (Open :: Plus Dig :: Close :: lits " Loaded" ++ Star Dot
                                           :: lits "= " ++ [Open; Plus Wrd; Close])%list).
    + vm_compute. reflexivity.
    + intros s g. apply digits_fail_at_blank.
    + reflexivity.
    + exact Hv2.
    + exists p, "". split; [reflexivity | left; reflexivity].
  - rewrite <- (app_empty_r (spaces p)).
    apply nowhere_app; [| apply nowhere_nil].
    eapply nowhere_spaces; [vm_compute; reflexivity | reflexivity].
Qed.

Lemma loaded_sub :
  sub "^Data Transfer Element.*Element (\d+) Loaded.*= (\w+)" "\1 \2"
    (status_line (Drive n (Some (m, v))) ++ spaces p) =
  m ++ " " ++ v ++ spaces p.
Proof.
  assert (E : status_line (Drive n (Some (m, v))) ++ spaces p =
              ("Data Transfer Element " ++ n ++ ":Full (Storage Element " ++ m
               ++ " Loaded):VolumeTag = " ++ v) ++ spaces p) by reflexivity.
  rewrite E.
  rewrite (sub_anchored_prefix _ _ _ _ [m; v]).
  - transitivity ((m ++ " " ++ v ++ "") ++ spaces p); [vm_compute; reflexivity |].
    rewrite app_empty_r, !app_assoc_s. reflexivity.
  - vm_compute. reflexivity.
  - discriminate.
  - apply (match_here_some _ _ _ {| pending := []; closed := [m; v] |}).
    match goal with
    | |- rmatch _ _ ?t _ = _ =>
        replace t with
          ("Data Transfer Element"
           ++ (String " " (n ++ ":Full (Storage "))
           ++ "Element " ++ m ++ " Loaded):VolumeTag = " ++ v ++ spaces p)
          by same_text
    end.
    change (items (compile "^Data Transfer Element.*Element (\d+) Loaded.*= (\w+)"))
      with (lits "Data Transfer Element"
            ++ Star Dot :: items (compile "Element (\d+) Loaded.*= (\w+)"))%list.
    rewrite lits_match. cbn [rmatch].
    apply star_last.
    + change (accepts Dot) with no_newline. no_newline_parts.
    + apply loaded_element_match.
    + apply loaded_element_last.
Qed.

End LoadedEntry.

Lemma word_not_space (a : ascii) : is_word a = true -> is_space a = false.
Proof.
  destruct a as [[|] [|] [|] [|] [|] [|] [|] [|]]; vm_compute; intros H;
    first [reflexivity | discriminate H].
Qed.

Lemma split_ws_word (w t : string) : forall (cur : string),
  all_chars is_word w = true -> split_ws (w ++ t) cur = split_ws t (cur ++ w).
Proof.
  induction w as [| a w IH]; intros cur Hw; cbn [append].
  - rewrite app_empty_r. reflexivity.
  - cbn in Hw. apply andb_true_iff in Hw as [Ha Hw].
    cbn [split_ws]. rewrite (word_not_space a Ha), (IH _ Hw), app_assoc_s. reflexivity.
Qed.

Lemma split_ws_spaces (p : nat) (cur : string) :
  split_ws (spaces p) cur = match cur with "" => [] | _ => [cur] end.
Proof.
  revert cur. induction p as [| p IH]; intros cur; cbn [spaces split_ws]; [reflexivity |].
  change (is_space " ") with true. cbv iota.
  destruct cur; rewrite IH; reflexivity.
Qed.

Lemma split_slot_and_volume (m v : string) (p : nat) :
  nonempty m = true -> all_chars (accepts Dig) m = true ->
  nonempty v = true -> all_chars is_word v = true ->
  split (m ++ " " ++ v ++ spaces p) = [m; v].
Proof.
  intros Hm1 Hm2 Hv1 Hv2. unfold split.
  rewrite (split_ws_word m _ "" (digits_are_words m Hm2)). cbn [append split_ws].
  change (is_space " ") with true. cbv iota.
  destruct m as [| a m']; [discriminate |].
  rewrite (split_ws_word v _ "" Hv2), split_ws_spaces. cbn [append].
  destruct v; [discriminate | reflexivity].
Qed.

Lemma loaded_hit_in (idx : string) (ls : list line) :
  forallb well_formed_line ls = true ->
  match first_hit (loaded_hit idx) ls with
  | Some (w, _) =>
      exists m v p,
        w = status_line (Drive idx (Some (m, v))) ++ spaces p /\
        well_formed_element (Drive idx (Some (m, v))) = true /\
        loaded_in idx (elements ls) = Some (m, v)
  | None => loaded_in idx (elements ls) = None
  end.
Proof.
  induction ls as [| l ls IH]; intros Hwf; [reflexivity |].
  cbn [forallb] in Hwf. apply andb_true_iff in Hwf as [Hl Hls]. specialize (IH Hls).
  cbn [first_hit].
  destruct l as [i [n [[m v] |] | ie n vol] p | txt]; cbn [loaded_hit elements loaded_in];
    try exact IH.
  destruct (String.eqb_spec n idx) as [-> | Hne]; [| exact IH].
  exists m, v, p. split; [reflexivity | split; [exact Hl | reflexivity]].
Qed.

(** X16: for a status text whose lines are well formed and a drive
    index that is a numeral, [do_loaded] returns the number of the slot
    that the volume in the drive of that index came from, and [0] when
    that drive is empty or the status text has no such drive. *)
Theorem loaded_slot (cfg : config) (req : request)
  (shell : list event -> string -> CompletedProcess) (h : list event)
  (ls : list line) (final_newline : bool) :
  let result := shell h (changer_status_cmd cfg req) in
  returncode result = 0%Z ->
  stdout result = status_text ls final_newline ->
  forallb well_formed_line ls = true ->
  numeral (drive_index req) = true ->
  do_loaded cfg req shell h =
  (Ret match loaded_in (drive_index req) (elements ls) with
       | Some (m, _) => m
       | None => "0"
       end,
   [Run (changer_status_cmd cfg req)]).
Proof.
  intros result Hrc Hout Hwf Hidx. apply numeral_parts in Hidx as [Hi1 Hi2].
  unfold do_loaded, bind, get_shell_result. fold (changer_status_cmd cfg req). fold result.
  rewrite Hrc, Hout. cbn [Z.eqb negb].
  pose proof (search_loaded (drive_index req) ls final_newline Hi2 Hwf) as Hs.
  pose proof (loaded_hit_in (drive_index req) ls Hwf) as Hh.
  destruct (search _ (status_text ls final_newline)) as [mt |]; cbn [shown option_map] in Hs;
    rewrite <- Hs in Hh.
  - destruct Hh as (m & v & p & Hw & Hel & Hin). rewrite Hin.
    cbn [group]. rewrite Hw.
    cbn [well_formed_element] in Hel.
    apply andb_true_iff in Hel as [Hel Hv]. apply andb_true_iff in Hel as [_ Hm].
    apply numeral_parts in Hm as [Hm1 Hm2]. apply label_parts in Hv as [Hv1 Hv2].
    rewrite (loaded_sub (drive_index req) m v p Hi2 Hm1 Hm2 Hv1 Hv2).
    rewrite (split_slot_and_volume m v p Hm1 Hm2 Hv1 Hv2). reflexivity.
  - rewrite Hh. reflexivity.
Qed.

(** Drive 0 of [sample_lines] holds the volume of slot 5. *)
Lemma loaded_slot_witness :
  do_loaded sample_config load_9_into_0 (fun _ _ => ok (status_text sample_lines true)) [] =
  (Ret "5", [Run "mtx -f /dev/sg3 status"]).
Proof.
  apply (loaded_slot sample_config load_9_into_0 (fun _ _ => ok (status_text sample_lines true))
           [] sample_lines true).
  - reflexivity.
  - reflexivity.
  - reflexivity.
  - reflexivity.
Defined.

(** ** The labels that [do_getvolname] finds in a listing *)

Lemma slot_pattern (slt : string) :
  all_chars is_word slt = true -> compile ("[SI]:" ++ slt ++ ":.:(.*)") = slot_regex slt.
Proof. intros H. unfold slot_regex. read_pattern. Qed.

Lemma drive_pattern (idx : string) :
  all_chars is_word idx = true -> compile ("D:" ++ idx ++ ":F:\d+:(.*)") = drive_regex idx.
Proof. intros H. unfold drive_regex. read_pattern. Qed.

Lemma drive_slot_pattern (idx slt : string) :
  all_chars is_word idx = true -> all_chars is_word slt = true ->
  compile ("D:" ++ idx ++ ":.:" ++ slt ++ ":(.*)") = drive_slot_regex idx slt.
Proof. intros Hi Hs. unfold drive_slot_regex. read_pattern. Qed.

Lemma first_class_mismatch (c : cls) (p : list item) (a : ascii) (t : string) :
  accepts c a = false -> match_here (One c :: p) (String a t) = None.
Proof. intros H. unfold match_here. cbn [rmatch one]. rewrite H. reflexivity. Qed.

(** A character and a colon are not found in a label at the end of a
    line. *)
Lemma class_colon_word (c : cls) (p : list item) (k : cont) (v rest : string) (g : caps) :
  accepts c newline = false -> all_chars is_word v = true -> line_end rest ->
  rmatch (One c :: One (Lit ":") :: p) k (v ++ rest) g = None.
Proof.
  intros Hc Hv Hrest. cbn [rmatch]. destruct v as [| a v]; cbn [append].
  - destruct Hrest as [-> | [more ->]]; [reflexivity |]. cbn [one]. rewrite Hc. reflexivity.
  - cbn in Hv. apply andb_true_iff in Hv as [_ Hv]. cbn [one].
    destruct (accepts c a); [| reflexivity].
    destruct v as [| b v]; cbn [append].
    + destruct Hrest as [-> | [more ->]]; reflexivity.
    + cbn in Hv. apply andb_true_iff in Hv as [Hb _]. cbn [one accepts].
      destruct (Ascii.eqb_spec ":" b) as [<- | _]; [discriminate Hb | reflexivity].
Qed.

Lemma nowhere_class_colon (r : regex) (c : cls) (p : list item) (v rest : string) :
  items r = One c :: One (Lit ":") :: p -> accepts c newline = false ->
  all_chars is_word v = true -> line_end rest -> nowhere r v rest.
Proof.
  intros Hr Hc Hv Hrest s1 s2 -> _.
  rewrite all_chars_app in Hv. apply andb_true_iff in Hv as [_ Hv].
  apply match_here_none. rewrite Hr. apply class_colon_word; assumption.
Qed.

(** Behind its first character a token has colons, numerals, [E] or [F]
    and, at its end, a label: a pattern that begins with one of the
    letters [D], [S] and [I] and a colon matches at none of these
    places. *)
Lemma token_tail_nowhere (r : regex) (c : cls) (p : list item) (e : Element) (rest : string) :
  items r = One c :: One (Lit ":") :: p ->
  accepts c ":" = false -> (forall a, is_digit a = true -> accepts c a = false) ->
  accepts c "E" = false -> accepts c "F" = false -> accepts c newline = false ->
  well_formed_element e = true -> line_end rest ->
  exists a0 t, token e = String a0 t /\ nowhere r t rest.
Proof.
  intros Hr Hcolon Hdig HE HF Hnl Hwf Hrest.
  assert (Hc : forall a t, accepts c a = false -> match_here (items r) (String a t) = None).
  { intros a t Ha. rewrite Hr. apply first_class_mismatch. exact Ha. }
  assert (Hn : forall n t, all_chars (accepts Dig) n = true -> nowhere r n t).
  { intros n t H. apply (nowhere_run r is_digit); [| exact H].
    intros a t' Ha. apply Hc. apply Hdig. exact Ha. }
  assert (Hv : forall v, all_chars is_word v = true -> nowhere r v rest).
  { intros v H. apply (nowhere_class_colon r c p); assumption. }
  destruct e as [n [[m v] |] | ie n [v |]]; element_parts Hwf; cbn [token].
  - exists "D"%char, (":" ++ n ++ ":F:" ++ m ++ ":" ++ v). split; [reflexivity |].
    cbn [append]. apply nowhere_cons; [apply Hc, Hcolon |].
    apply nowhere_app; [apply Hn; assumption |]. cbn [append].
    apply nowhere_cons; [apply Hc, Hcolon |]. apply nowhere_cons; [apply Hc, HF |].
    apply nowhere_cons; [apply Hc, Hcolon |].
    apply nowhere_app; [apply Hn; assumption |]. cbn [append].
    apply nowhere_cons; [apply Hc, Hcolon |]. apply Hv. assumption.
  - exists "D"%char, (":" ++ n ++ ":E"). split; [reflexivity |].
    cbn [append]. apply nowhere_cons; [apply Hc, Hcolon |].
    apply nowhere_app; [apply Hn; assumption |]. cbn [append].
    apply nowhere_cons; [apply Hc, Hcolon |]. apply nowhere_cons; [apply Hc, HE |].
    apply nowhere_nil.
  - exists (if ie then "I" else "S")%char, (":" ++ n ++ ":F:" ++ v).
    split; [destruct ie; reflexivity |].
    cbn [append]. apply nowhere_cons; [apply Hc, Hcolon |].
    apply nowhere_app; [apply Hn; assumption |]. cbn [append].
    apply nowhere_cons; [apply Hc, Hcolon |]. apply nowhere_cons; [apply Hc, HF |].
    apply nowhere_cons; [apply Hc, Hcolon |]. apply Hv. assumption.
  - exists (if ie then "I" else "S")%char, (":" ++ n ++ ":E").
    split; [destruct ie; reflexivity |].
    cbn [append]. apply nowhere_cons; [apply Hc, Hcolon |].
    apply nowhere_app; [apply Hn; assumption |]. cbn [append].
    apply nowhere_cons; [apply Hc, Hcolon |]. apply nowhere_cons; [apply Hc, HE |].
    apply nowhere_nil.
Qed.

Lemma digit_not_D (a : ascii) : is_digit a = true -> accepts (Lit "D") a = false.
Proof.
  intros Ha. cbn [accepts]. destruct (Ascii.eqb_spec "D" a) as [<- | _]; [discriminate Ha | reflexivity].
Qed.

Lemma digit_not_SI (a : ascii) :
  is_digit a = true -> accepts (Range [("S", "S"); ("I", "I")]%char) a = false.
Proof.
  destruct a as [[|] [|] [|] [|] [|] [|] [|] [|]]; vm_compute; intros H;
    first [reflexivity | discriminate H].
Qed.

(** A pattern that matches a token at its head only. *)
Lemma token_line (r : regex) (c : cls) (p : list item)
  (hit : Element -> option (string * list string)) (e : Element) (rest : string) :
  items r = One c :: One (Lit ":") :: p ->
  accepts c ":" = false -> (forall a, is_digit a = true -> accepts c a = false) ->
  accepts c "E" = false -> accepts c "F" = false -> accepts c newline = false ->
  well_formed_element e = true -> line_end rest ->
  match hit e with
  | Some (w, gs) =>
      w = token e /\
      match_here (items r) (token e ++ rest) = Some {| text := token e; groups := gs; rest := rest |}
  | None => match_here (items r) (token e ++ rest) = None
  end ->
  match hit e with
  | Some (w, gs) =>
      exists pre post,
        token e = pre ++ w ++ post /\ nowhere r pre (w ++ post ++ rest) /\
        match_here (items r) (w ++ post ++ rest) =
          Some {| text := w; groups := gs; rest := post ++ rest |}
  | None => nowhere r (token e) rest
  end.
Proof.
  intros Hr Hcolon Hdig HE HF Hnl Hwf Hrest Hhead.
  destruct (hit e) as [[w gs] |].
  - destruct Hhead as [-> Hm]. exists "", "". split; [| split].
    + cbn [append]. rewrite app_empty_r. reflexivity.
    + apply nowhere_nil.
    + exact Hm.
  - destruct (token_tail_nowhere r c p e rest Hr Hcolon Hdig HE HF Hnl Hwf Hrest)
      as (a0 & t & Ht & Hno).
    rewrite Ht in *. apply nowhere_cons; assumption.
Qed.

(** The head of a token: its letter, a colon, its number and a colon. *)
Lemma key_prefix (c : cls) (a : ascii) (x n : string) (q : list item) (k : cont)
  (t : string) (g : caps) :
  all_chars is_digit x = true -> all_chars is_digit n = true ->
  rmatch (One c :: One (Lit ":") :: lits x ++ One (Lit ":") :: q) k
    (String a (String ":" (n ++ String ":" t))) g =
  if accepts c a && String.eqb x n then rmatch q k t g else None.
Proof.
  intros Hx Hn. cbn [rmatch one]. destruct (accepts c a); [| reflexivity].
  cbn [accepts andb]. change (Ascii.eqb ":" ":") with true. cbv iota.
  destruct (String.eqb_spec x n) as [-> | Hne].
  - change (rmatch (lits n ++ One (Lit ":") :: q) k (n ++ String ":" t) g = rmatch q k t g).
    rewrite lits_match. cbn [rmatch one accepts]. change (Ascii.eqb ":" ":") with true.
    reflexivity.
  - apply (lits_numeral_mismatch ":" ":"); try reflexivity; assumption.
Qed.

(** A group that takes the rest of the line. *)
Lemma group_to_line_end (v rest : string) (g : caps) :
  pending g = [] -> all_chars no_newline v = true -> line_end rest ->
  rmatch [Open; Star Dot; Close] accept (v ++ rest) g =
  Some (rest, {| pending := []; closed := (closed g ++ [v])%list |}).
Proof.
  intros Hg Hv Hrest. cbn [rmatch].
  rewrite (star_greedy Dot _ v rest _
             (rest, {| pending := []; closed := (closed g ++ [v])%list |}));
    [reflexivity | exact Hv | apply line_end_stops; exact Hrest |].
  unfold close_group, open_group, accept. cbn [pending closed]. rewrite Hg, take_app. reflexivity.
Qed.

Section TokenHeads.

Variables (idx slt : string) (e : Element) (more : string).
Hypothesis Hidx : all_chars (accepts Dig) idx = true.
Hypothesis Hslt : all_chars (accepts Dig) slt = true.
Hypothesis Hwf : well_formed_element e = true.
Hypothesis Hmore : line_end more.

Lemma colon_at_line_end (p : list item) (g : caps) :
  rmatch (One (Lit ":") :: p) accept more g = None.
Proof. destruct Hmore as [-> | [t ->]]; reflexivity. Qed.

Lemma slot_head :
  match slot_hit slt e with
  | Some (w, gs) =>
      w = token e /\
      match_here (items (slot_regex slt)) (token e ++ more) =
        Some {| text := token e; groups := gs; rest := more |}
  | None => match_here (items (slot_regex slt)) (token e ++ more) = None
  end.
Proof.
  destruct e as [n [[m v] |] | ie n [v |]]; element_parts Hwf; cbn [slot_hit].
  - apply match_here_none. reflexivity.
  - apply match_here_none. reflexivity.
  - assert (E : token (Slot ie n (Some v)) ++ more =
                String (if ie then "I" else "S")%char
                  (String ":" (n ++ String ":" ("F:" ++ v ++ more))))
      by (destruct ie; same_text).
    assert (Hq : rmatch (items (slot_regex slt)) accept (token (Slot ie n (Some v)) ++ more)
                   {| pending := []; closed := [] |} =
                 if String.eqb slt n
                 then Some (more, {| pending := []; closed := [v] |}) else None).
    { rewrite E.
      change (items (slot_regex slt))
        with (One (Range [("S", "S"); ("I", "I")]%char) :: One (Lit ":")
              :: lits slt ++ One (Lit ":") :: One Dot :: One (Lit ":") :: [Open; Star Dot; Close])%list.
      rewrite key_prefix by assumption.
      replace (accepts (Range [("S", "S"); ("I", "I")]%char) (if ie then "I"%char else "S"%char))
        with true by (destruct ie; reflexivity).
      cbn [andb]. destruct (String.eqb slt n); [| reflexivity].
      cbn [append]. change (rmatch [Open; Star Dot; Close] accept (v ++ more)
                              {| pending := []; closed := [] |} =
                            Some (more, {| pending := []; closed := [v] |})).
      apply (group_to_line_end v more {| pending := []; closed := [] |});
        [reflexivity | apply words_no_newline; assumption | exact Hmore]. }
    destruct (String.eqb slt n).
    + split; [reflexivity |].
      apply (match_here_some _ _ _ {| pending := []; closed := [v] |}). exact Hq.
    + apply match_here_none. exact Hq.
  - apply match_here_none.
    assert (E : token (Slot ie n None) ++ more =
                String (if ie then "I" else "S")%char (String ":" (n ++ String ":" ("E" ++ more))))
      by (destruct ie; same_text).
    rewrite E.
    change (items (slot_regex slt))
      with (One (Range [("S", "S"); ("I", "I")]%char) :: One (Lit ":")
            :: lits slt ++ One (Lit ":") :: One Dot :: One (Lit ":") :: [Open; Star Dot; Close])%list.
    rewrite key_prefix by assumption.
    destruct (_ && _); [| reflexivity].
    cbn [append]. apply (colon_at_line_end [Open; Star Dot; Close]).
Qed.

Lemma drive_head :
  match drive_hit idx e with
  | Some (w, gs) =>
      w = token e /\
      match_here (items (drive_regex idx)) (token e ++ more) =
        Some {| text := token e; groups := gs; rest := more |}
  | None => match_here (items (drive_regex idx)) (token e ++ more) = None
  end.
Proof.
  assert (Hitems : items (drive_regex idx) =
                   (One (Lit "D") :: One (Lit ":") :: lits idx ++ One (Lit ":")
                    :: One (Lit "F") :: One (Lit ":") :: Plus Dig :: One (Lit ":")
                    :: [Open; Star Dot; Close])%list) by reflexivity.
  destruct e as [n [[m v] |] | ie n vol]; [element_parts Hwf | element_parts Hwf |];
    cbn [drive_hit].
  - assert (E : token (Drive n (Some (m, v))) ++ more =
                String "D" (String ":" (n ++ String ":" ("F:" ++ m ++ ":" ++ v ++ more))))
      by same_text.
    assert (Hq : rmatch (items (drive_regex idx)) accept (token (Drive n (Some (m, v))) ++ more)
                   {| pending := []; closed := [] |} =
                 if String.eqb idx n
                 then Some (more, {| pending := []; closed := [v] |}) else None).
    { rewrite E, Hitems, key_prefix by assumption.
      change (accepts (Lit "D") "D") with true.
      cbn [andb]. destruct (String.eqb idx n); [| reflexivity].
      cbn [append rmatch one accepts]. change (Ascii.eqb "F" "F") with true.
      change (Ascii.eqb ":" ":") with true. cbv iota.
      rewrite plus_run; [| assumption | assumption | solve_rejects | reflexivity].
      cbn [append rmatch one accepts]. change (Ascii.eqb ":" ":") with true. cbv iota.
      change (rmatch [Open; Star Dot; Close] accept (v ++ more)
                {| pending := []; closed := [] |} =
              Some (more, {| pending := []; closed := [v] |})).
      apply (group_to_line_end v more {| pending := []; closed := [] |});
        [reflexivity | apply words_no_newline; assumption | exact Hmore]. }
    destruct (String.eqb idx n).
    + split; [reflexivity |].
      apply (match_here_some _ _ _ {| pending := []; closed := [v] |}). exact Hq.
    + apply match_here_none. exact Hq.
  - apply match_here_none.
    assert (E : token (Drive n None) ++ more =
                String "D" (String ":" (n ++ String ":" ("E" ++ more)))) by same_text.
    rewrite E, Hitems, key_prefix by assumption.
    destruct (_ && _); reflexivity.
  - apply match_here_none. destruct ie, vol; reflexivity.
Qed.

Lemma drive_slot_head :
  match drive_slot_hit idx slt e with
  | Some (w, gs) =>
      w = token e /\
      match_here (items (drive_slot_regex idx slt)) (token e ++ more) =
        Some {| text := token e; groups := gs; rest := more |}
  | None => match_here (items (drive_slot_regex idx slt)) (token e ++ more) = None
  end.
Proof.
  assert (Hitems : items (drive_slot_regex idx slt) =
                   (One (Lit "D") :: One (Lit ":") :: lits idx ++ One (Lit ":")
                    :: One Dot :: One (Lit ":") :: lits slt ++ One (Lit ":")
                    :: [Open; Star Dot; Close])%list) by reflexivity.
  destruct e as [n [[m v] |] | ie n vol]; [element_parts Hwf | element_parts Hwf |];
    cbn [drive_slot_hit].
  - assert (E : token (Drive n (Some (m, v))) ++ more =
                String "D" (String ":" (n ++ String ":" ("F:" ++ m ++ String ":" (v ++ more)))))
      by same_text.
    assert (Hq : rmatch (items (drive_slot_regex idx slt)) accept
                   (token (Drive n (Some (m, v))) ++ more) {| pending := []; closed := [] |} =
                 if String.eqb idx n && String.eqb slt m
                 then Some (more, {| pending := []; closed := [v] |}) else None).
    { rewrite E, Hitems, key_prefix by assumption.
      change (accepts (Lit "D") "D") with true.
      cbn [andb]. destruct (String.eqb idx n); [| reflexivity].
      cbn [append rmatch one accepts]. change (Ascii.eqb ":" ":") with true. cbv iota.
      cbn [andb]. destruct (String.eqb_spec slt m) as [-> | Hne].
      - change (rmatch (lits m ++ One (Lit ":") :: [Open; Star Dot; Close]) accept
                  (m ++ String ":" (v ++ more)) {| pending := []; closed := [] |} =
                Some (more, {| pending := []; closed := [v] |})).
        rewrite lits_match. cbn [rmatch one accepts]. change (Ascii.eqb ":" ":") with true.
        cbv iota.
        apply (group_to_line_end v more {| pending := []; closed := [] |});
          [reflexivity | apply words_no_newline; assumption | exact Hmore].
      - apply (lits_numeral_mismatch ":" ":"); try reflexivity; assumption. }
    destruct (String.eqb idx n && String.eqb slt m).
    + split; [reflexivity |].
      apply (match_here_some _ _ _ {| pending := []; closed := [v] |}). exact Hq.
    + apply match_here_none. exact Hq.
  - apply match_here_none.
    assert (E : token (Drive n None) ++ more =
                String "D" (String ":" (n ++ String ":" ("E" ++ more)))) by same_text.
    rewrite E, Hitems, key_prefix by assumption.
    destruct (_ && _); [| reflexivity].
    cbn [append rmatch one accepts]. cbv iota.
    apply (colon_at_line_end (lits slt ++ One (Lit ":") :: [Open; Star Dot; Close])).
  - apply match_here_none. destruct ie, vol; reflexivity.
Qed.

End TokenHeads.

Lemma first_group_shown (m : option Match) (hit : option (string * list string)) :
  shown m = hit -> first_group m = option_map (fun h => nth 0 (snd h) "") hit.
Proof. intros <-. destruct m; reflexivity. Qed.

(** The first match in a listing of tokens, for a pattern that matches
    a token at its head only. *)
Lemma search_tokens (r : regex) (c : cls) (p : list item)
  (hit : Element -> option (string * list string)) (es : list Element) :
  anchored r = false -> items r = One c :: One (Lit ":") :: p ->
  accepts c ":" = false -> (forall a, is_digit a = true -> accepts c a = false) ->
  accepts c "E" = false -> accepts c "F" = false -> accepts c newline = false ->
  (forall e more, well_formed_element e = true -> line_end more ->
     match hit e with
     | Some (w, gs) =>
         w = token e /\
         match_here (items r) (token e ++ more) =
           Some {| text := token e; groups := gs; rest := more |}
     | None => match_here (items r) (token e ++ more) = None
     end) ->
  forallb well_formed_element es = true ->
  shown (scan r true (String.concat nl (map token es))) = first_hit hit es.
Proof.
  intros Ha Hr Hcolon Hdig HE HF Hnl Hhead Hes.
  rewrite <- (app_empty_r (String.concat nl (map token es))).
  apply (scan_lines r token hit (fun e => well_formed_element e = true) "").
  - exact Ha.
  - intros e more He Hmore. apply (token_line r c p); try assumption.
    apply Hhead; assumption.
  - intros more. unfold nl. apply nowhere_cons; [| apply nowhere_nil].
    rewrite Hr. apply first_class_mismatch. exact Hnl.
  - left. reflexivity.
  - unfold scan, try. rewrite Ha, Hr. reflexivity.
  - apply forallb_Forall. exact Hes.
Qed.

Section Labels.

Variables (idx slt : string) (es : list Element).
Hypothesis Hidx : numeral idx = true.
Hypothesis Hslt : numeral slt = true.
Hypothesis Hes : forallb well_formed_element es = true.

Lemma search_slot :
  first_group (search ("[SI]:" ++ slt ++ ":.:(.*)") (String.concat nl (map token es))) =
  volume_in_slot slt es.
Proof.
  apply numeral_parts in Hslt as [_ Hs].
  unfold search. rewrite (slot_pattern slt (digits_are_words slt Hs)).
  rewrite (first_group_shown _ (first_hit (slot_hit slt) es)).
  - clear Hes. induction es as [| e es' IH]; [reflexivity |].
    cbn [first_hit]. destruct e as [n vol | ie n [v |]]; cbn [slot_hit volume_in_slot];
      try exact IH.
    rewrite (String.eqb_sym slt n). destruct (String.eqb n slt); [reflexivity | exact IH].
  - apply (search_tokens _ (Range [("S", "S"); ("I", "I")]%char)
             (lits slt ++ lits ":" ++ One Dot :: lits ":" ++ [Open; Star Dot; Close])%list);
      try reflexivity; try assumption.
    + exact digit_not_SI.
    + intros e more He Hmore. apply slot_head; assumption.
Qed.

Lemma search_drive :
  first_group (search ("D:" ++ idx ++ ":F:\d+:(.*)") (String.concat nl (map token es))) =
  option_map snd (loaded_in idx es).
Proof.
  apply numeral_parts in Hidx as [_ Hi].
  unfold search. rewrite (drive_pattern idx (digits_are_words idx Hi)).
  rewrite (first_group_shown _ (first_hit (drive_hit idx) es)).
  - clear Hes. induction es as [| e es' IH]; [reflexivity |].
    cbn [first_hit]. destruct e as [n [[m v] |] | ie n vol]; cbn [drive_hit loaded_in];
      try exact IH.
    rewrite (String.eqb_sym idx n). destruct (String.eqb n idx); [reflexivity | exact IH].
  - apply (search_tokens _ (Lit "D")
             (lits idx ++ lits ":F:" ++ Plus Dig :: lits ":" ++ [Open; Star Dot; Close])%list);
      try reflexivity; try assumption.
    + exact digit_not_D.
    + intros e more He Hmore. apply drive_head; assumption.
Qed.

Lemma search_drive_slot :
  first_group (search ("D:" ++ idx ++ ":.:" ++ slt ++ ":(.*)")
                 (String.concat nl (map token es))) =
  loaded_from idx slt es.
Proof.
  apply numeral_parts in Hidx as [_ Hi]. apply numeral_parts in Hslt as [_ Hs].
  unfold search.
  rewrite (drive_slot_pattern idx slt (digits_are_words idx Hi) (digits_are_words slt Hs)).
  rewrite (first_group_shown _ (first_hit (drive_slot_hit idx slt) es)).
  - clear Hes. induction es as [| e es' IH]; [reflexivity |].
    cbn [first_hit]. destruct e as [n [[m v] |] | ie n vol]; cbn [drive_slot_hit loaded_from];
      try exact IH.
    rewrite (String.eqb_sym idx n), (String.eqb_sym slt m).
    destruct (String.eqb n idx && String.eqb m slt); [reflexivity | exact IH].
  - apply (search_tokens _ (Lit "D")
             (lits idx ++ lits ":" ++ One Dot :: lits ":" ++ lits slt ++ lits ":"
              ++ [Open; Star Dot; Close])%list);
      try reflexivity; try assumption.
    + exact digit_not_D.
    + intros e more He Hmore. apply drive_slot_head; assumption.
Qed.

End Labels.

(** The listing of a well-formed status text: the tokens of the listed
    elements. *)
Lemma listall_text_tokens (cfg : config) (ls : list line) (final_newline : bool) :
  well_formed_status ls = true ->
  listall_text cfg (status_text ls final_newline) =
    String.concat nl (map token (filter (listed cfg) (elements ls))) /\
  forallb well_formed_element (filter (listed cfg) (elements ls)) = true.
Proof.
  intros H. unfold well_formed_status in H.
  apply andb_true_iff in H as [H Ho]. apply andb_true_iff in H as [Hwf Hu].
  pose proof (well_formed_elements ls Hwf) as Hes.
  set (es := elements ls) in *. set (out := filter (listed cfg) es).
  assert (Hout : forallb well_formed_element out = true) by (apply forallb_sub_filter; exact Hes).
  split; [| exact Hout].
  unfold listall_text.
  change (re.findall "Data Transfer Element \d+:.*\w")
    with (re.findall (element_pattern DataTransfer)).
  change (re.findall "Storage Element \d+:.*\w") with (re.findall (element_pattern Storage)).
  change (re.findall "Storage Element \d+ IMPORT.EXPORT.*\w")
    with (re.findall (element_pattern ImportExport)).
  rewrite !(findall_status _ ls final_newline Hwf). fold es.
  assert (Hlist : (map status_line (filter (of_kind DataTransfer) es) ++
                   map status_line (filter (of_kind Storage) es) ++
                   (if include_import_export cfg
                    then map status_line (filter (of_kind ImportExport) es) else []))%list
                  = map status_line out).
  { subst out. rewrite <- (listed_in_order cfg es Ho), !map_app.
    destruct (include_import_export cfg); reflexivity. }
  rewrite Hlist.
  rewrite (listall_loop_tokens cfg out _ "" Hout (forallb_filter_self _ _)).
  cbn [append]. destruct out as [| e0 out0] eqn:Eout; [reflexivity |].
  rewrite (last_status_line (e0 :: out0) e0) by discriminate.
  apply sep_tokens_concat; [exact Hout | | discriminate].
  rewrite <- Eout. apply unique_keys_filter. exact Hu.
Qed.

(** X17: the volume of a [load].  For a well-formed status text and
    numerals as slot and drive index, [do_getvolname] finds in the listing
    the label of the volume in the listed slot of the request; when that
    slot holds none, or is not listed, the label of the volume in the
    drive of the request; and the empty text when that drive is empty
    too. *)
Theorem load_volume (cfg : config) (req : request) (ls : list line) (final_newline : bool) :
  well_formed_status ls = true -> mtx_cmd req = "load" ->
  numeral (slot req) = true -> numeral (drive_index req) = true ->
  let es := filter (listed cfg) (elements ls) in
  getvolname req (listall_text cfg (status_text ls final_newline)) =
  Label match volume_in_slot (slot req) es with
        | Some v => v
        | None => label_or_empty (option_map snd (loaded_in (drive_index req) es))
        end.
Proof.
  intros Hwf Hcmd Hslot Hidx es.
  destruct (listall_text_tokens cfg ls final_newline Hwf) as [-> Hes]. fold es in Hes |- *.
  unfold getvolname. rewrite Hcmd. cbn [String.eqb Ascii.eqb Bool.eqb].
  pose proof (search_slot (slot req) es Hslot Hes) as H1.
  pose proof (search_drive (drive_index req) es Hidx Hes) as H2.
  unfold first_group in H1, H2.
  destruct (search ("[SI]:" ++ slot req ++ ":.:(.*)") _) as [vol |];
    cbn [option_map] in H1; rewrite <- H1; [reflexivity |].
  destruct (search ("D:" ++ drive_index req ++ ":F:\d+:(.*)") _) as [vol |];
    cbn [option_map] in H2; rewrite <- H2; reflexivity.
Qed.

Lemma load_volume_witness :
  getvolname load_9_into_0 (listall_text sample_config (status_text sample_lines true)) =
  Label "G03005TA".
Proof.
  exact (load_volume sample_config load_9_into_0 sample_lines true
           eq_refl eq_refl eq_refl eq_refl).
Defined.

(** X18: the volume of an [unload].  For a well-formed status text and
    numerals as slot and drive index, [do_getvolname] finds the label of
    the volume in the drive of the request only when the listing says that
    it came from the slot of the request; otherwise the label is the empty
    text, also when the drive holds a volume. *)
Theorem unload_volume (cfg : config) (req : request) (ls : list line) (final_newline : bool) :
  well_formed_status ls = true -> mtx_cmd req = "unload" ->
  numeral (slot req) = true -> numeral (drive_index req) = true ->
  let es := filter (listed cfg) (elements ls) in
  getvolname req (listall_text cfg (status_text ls final_newline)) =
  Label (label_or_empty (loaded_from (drive_index req) (slot req) es)).
Proof.
  intros Hwf Hcmd Hslot Hidx es.
  destruct (listall_text_tokens cfg ls final_newline Hwf) as [-> Hes]. fold es in Hes |- *.
  unfold getvolname. rewrite Hcmd. cbn [String.eqb Ascii.eqb Bool.eqb].
  pose proof (search_drive_slot (drive_index req) (slot req) es Hidx Hslot Hes) as H1.
  unfold first_group in H1.
  destruct (search _ _) as [vol |]; cbn [option_map] in H1; rewrite <- H1; reflexivity.
Qed.

Lemma unload_volume_witness :
  getvolname unload_5_from_0 (listall_text sample_config (status_text sample_lines true)) =
  Label "G03005TA".
Proof.
  exact (unload_volume sample_config unload_5_from_0 sample_lines true
           eq_refl eq_refl eq_refl eq_refl).
Defined.

Lemma volume_in_slot_label (slt : string) (es : list Element) (v : string) :
  forallb well_formed_element es = true -> volume_in_slot slt es = Some v -> label v = true.
Proof.
  induction es as [| e es' IH]; intros Hes H; [discriminate H |].
  cbn [forallb] in Hes. apply andb_true_iff in Hes as [He Hes].
  destruct e as [n vol | ie n [w |]]; cbn [volume_in_slot] in H; try (apply IH; assumption).
  destruct (String.eqb n slt); [| apply IH; assumption].
  injection H as <-. cbn [well_formed_element] in He. apply andb_true_iff in He as [_ He].
  exact He.
Qed.

(** X19: a [transfer] on a well-formed status text, with numerals as
    source and destination slot.  [do_getvolname] finds the labels of the
    volumes in the two slots as far as the slots are listed and full, and
    the empty text for a slot that is empty, missing or an import/export
    slot that is not listed.  So the script runs the transfer command
    after the listing exactly when the source slot is listed with a volume
    and the destination slot is not; it then ends normally whatever the
    transfer command returns.  Otherwise it exits with code 1 after the
    listing. *)
Theorem transfer_volumes (cfg : config) (req : request)
  (shell : list event -> string -> CompletedProcess) (rnd : nat) (doc info : string)
  (h : list event) (ls : list line) (final_newline : bool) :
  mtx_cmd req = "transfer" ->
  (inventory cfg = true -> returncode (shell h (inventory_cmd cfg req)) = 0%Z) ->
  let listing := (inventory_events cfg req ++ [Run (changer_status_cmd cfg req)])%list in
  let result := shell (h ++ inventory_events cfg req)%list (changer_status_cmd cfg req) in
  returncode result = 0%Z -> stdout result = status_text ls final_newline ->
  well_formed_status ls = true ->
  numeral (slot req) = true -> numeral (drive_device req) = true ->
  let es := filter (listed cfg) (elements ls) in
  getvolname req (listall_text cfg (status_text ls final_newline)) =
    Labels (label_or_empty (volume_in_slot (slot req) es))
           (label_or_empty (volume_in_slot (drive_device req) es)) /\
  main cfg req shell rnd doc info h =
    match volume_in_slot (slot req) es, volume_in_slot (drive_device req) es with
    | Some _, None => (Ret tt, (listing ++ [Run (transfer_cmd cfg req)])%list)
    | _, _ => (Exit 1%Z, listing)
    end.
Proof.
  intros Hcmd Hinv listing result Hrc Hout Hwf Hslot Hdst es.
  assert (Hgv : getvolname req (listall_text cfg (status_text ls final_newline)) =
                Labels (label_or_empty (volume_in_slot (slot req) es))
                       (label_or_empty (volume_in_slot (drive_device req) es))).
  { destruct (listall_text_tokens cfg ls final_newline Hwf) as [-> Hes]. fold es in Hes |- *.
    unfold getvolname. rewrite Hcmd. cbn [String.eqb Ascii.eqb Bool.eqb].
    pose proof (search_slot (slot req) es Hslot Hes) as H1.
    pose proof (search_slot (drive_device req) es Hdst Hes) as H2.
    unfold first_group in H1, H2. rewrite <- H1, <- H2.
    destruct (search ("[SI]:" ++ slot req ++ ":.:(.*)") _) as [vol1 |];
      destruct (search ("[SI]:" ++ drive_device req ++ ":.:(.*)") _) as [vol2 |]; reflexivity. }
  split; [exact Hgv |].
  pose proof (do_listall_run cfg req shell h Hinv) as Hl. cbv zeta in Hl.
  fold result in Hl. rewrite Hrc, Hout in Hl. cbn [Z.eqb] in Hl.
  assert (Hget : do_getvolname cfg req shell h =
                 (Ret (listall_text cfg (status_text ls final_newline),
                       getvolname req (listall_text cfg (status_text ls final_newline))),
                  listing)).
  { unfold do_getvolname. rewrite (bind_Ret _ _ _ _ _ Hl). cbn [ret fst snd].
    rewrite app_nil_r. reflexivity. }
  unfold main. rewrite Hcmd. change (one_of "transfer" _) with true. cbv iota.
  rewrite (bind_Ret _ _ _ _ _ Hget). cbn [fst snd]. rewrite Hgv.
  unfold dispatch. rewrite Hcmd. cbn [String.eqb Ascii.eqb Bool.eqb].
  unfold labels_of, do_transfer, bind, ret, sys_exit, get_shell_result. cbn [fst snd].
  pose proof (listall_text_tokens cfg ls final_newline Hwf) as [_ Hes]. fold es in Hes.
  destruct (volume_in_slot (slot req) es) as [v1 |] eqn:E1; cbn [label_or_empty].
  - apply (volume_in_slot_label _ _ _ Hes) in E1. apply label_parts in E1 as [Hne _].
    destruct v1 as [| a1 v1]; [discriminate Hne |]. cbn [String.eqb orb].
    destruct (volume_in_slot (drive_device req) es) as [v2 |] eqn:E2; cbn [label_or_empty].
    + apply (volume_in_slot_label _ _ _ Hes) in E2. apply label_parts in E2 as [Hne2 _].
      destruct v2 as [| a2 v2]; [discriminate Hne2 |]. cbn [String.eqb negb fst snd].
      rewrite app_nil_r. reflexivity.
    + cbn [String.eqb negb]. fold (transfer_cmd cfg req).
      destruct (negb _); cbn [app fst snd]; rewrite ?app_nil_r; reflexivity.
  - cbn [String.eqb orb fst snd]. rewrite app_nil_r. reflexivity.
Qed.

Lemma transfer_volumes_witness :
  getvolname (transfer_request "/dev/sg3" "1" "42" "0")
    (listall_text sample_config (status_text sample_lines true)) =
    Labels "G03001TA" "" /\
  main sample_config (transfer_request "/dev/sg3" "1" "42" "0")
    (fun _ _ => ok (status_text sample_lines true)) 0 "" "" [] =
    (Ret tt, [Run "mtx -f /dev/sg3 status"; Run "mtx -f /dev/sg3 transfer 1 42"]).
Proof.
  exact (transfer_volumes sample_config (transfer_request "/dev/sg3" "1" "42" "0")
           (fun _ _ => ok (status_text sample_lines true)) 0 "" "" [] sample_lines true
           eq_refl (fun H => eq_refl) eq_refl eq_refl eq_refl eq_refl eq_refl).
Defined.

(** ** The cleaning tapes of a listing *)

Lemma cln_drive_pattern (cln : string) :
  all_chars is_word cln = true ->
  compile ("D:\d+:F:(\d+):(" ++ cln ++ ".*)") = cln_drive_regex cln.
Proof. intros H. unfold cln_drive_regex. read_pattern. Qed.

Lemma cln_slot_pattern (cln : string) :
  all_chars is_word cln = true ->
  compile ("[SI]:(\d+):F:(" ++ cln ++ ".*)") = cln_slot_regex cln.
Proof. intros H. unfold cln_slot_regex. read_pattern. Qed.

Lemma prefix_split (x : string) : forall (s : string),
  String.prefix x s = true -> exists t, s = x ++ t.
Proof.
  induction x as [| a x IH]; intros s H.
  - exists s. reflexivity.
  - destruct s as [| b s]; [discriminate H |]. cbn [String.prefix] in H.
    destruct (Ascii.ascii_dec a b) as [<- | Hne]; [| discriminate H].
    destruct (IH s H) as [t ->]. exists t. reflexivity.
Qed.

(** A group gives the text between its two ends. *)
Lemma group_closed (x y : string) (g : caps) :
  close_group y (open_group (x ++ y) g) =
  {| pending := pending g; closed := (closed g ++ [x])%list |}.
Proof. unfold close_group, open_group. cbn [pending closed]. rewrite take_app. reflexivity. Qed.

(** All the matches in a listing of tokens, for a pattern that matches a
    token at its head only, and then the whole of it. *)
Lemma iter_tokens (r : regex) (c : cls) (p : list item)
  (hit : Element -> option (string * list string)) (es : list Element) :
  anchored r = false -> items r = One c :: One (Lit ":") :: p ->
  accepts c ":" = false -> (forall a, is_digit a = true -> accepts c a = false) ->
  accepts c "E" = false -> accepts c "F" = false -> accepts c newline = false ->
  (forall e more, well_formed_element e = true -> line_end more ->
     match hit e with
     | Some (w, gs) =>
         w = token e /\
         match_here (items r) (token e ++ more) =
           Some {| text := token e; groups := gs; rest := more |}
     | None => match_here (items r) (token e ++ more) = None
     end) ->
  forallb well_formed_element es = true ->
  map (fun m => (text m, groups m)) (iter r 0 true (String.concat nl (map token es))) =
  hits hit es.
Proof.
  intros Ha Hr Hcolon Hdig HE HF Hnl Hhead Hes.
  rewrite (iter_flag _ _ _ _ Ha).
  assert (Hempty : iter r 0 false "" = []).
  { cbn [iter]. rewrite (try_unanchored _ _ _ Ha), Hr. reflexivity. }
  assert (Hfeed : forall more, iter r 0 false (nl ++ more) = iter r 0 false more).
  { intros more. apply (iter_nowhere _ nl more Ha). unfold nl.
    apply nowhere_cons; [| apply nowhere_nil]. rewrite Hr. apply first_class_mismatch. exact Hnl. }
  assert (Hone : forall e more, well_formed_element e = true -> line_end more ->
                 map (fun m => (text m, groups m)) (iter r 0 false (token e ++ more)) =
                 (match hit e with Some y => [y] | None => [] end
                  ++ map (fun m => (text m, groups m)) (iter r 0 false more))%list).
  { intros e more He Hmore.
    pose proof (Hhead e more He Hmore) as Hh.
    pose proof (token_tail_nowhere r c p e more Hr Hcolon Hdig HE HF Hnl He Hmore)
      as (a0 & t & Ht & Hno).
    destruct (hit e) as [[w gs] |].
    - destruct Hh as [-> Hm].
      rewrite (iter_match r (token e) more gs Ha); [reflexivity | | exact Hm].
      rewrite Ht. discriminate.
    - rewrite (iter_nowhere r (token e) more Ha); [reflexivity |].
      rewrite Ht in *. apply nowhere_cons; assumption. }
  induction es as [| e es' IH]; cbn [map hits flat_map].
  - cbn [String.concat]. rewrite Hempty. reflexivity.
  - cbn [forallb] in Hes. apply andb_true_iff in Hes as [He Hes'].
    rewrite concat_cons. destruct es' as [| e' es'].
    + cbn [map]. rewrite (Hone e "" He) by (left; reflexivity). rewrite Hempty. reflexivity.
    + specialize (IH Hes'). cbn [map] in IH |- *.
      rewrite (Hone e _ He) by (right; eexists; reflexivity).
      rewrite Hfeed, IH. reflexivity.
Qed.

Section CleaningTokens.

Variables (cln : string) (e : Element) (more : string).
Hypothesis Hcln : all_chars is_word cln = true.
Hypothesis Hwf : well_formed_element e = true.
Hypothesis Hmore : line_end more.

(** The group of the label: the text that begins the label, and the rest
    of the line. *)
Lemma cln_label_group (v : string) (g : caps) :
  pending g = [] -> all_chars is_word v = true ->
  rmatch (Open :: lits cln ++ [Star Dot; Close]) accept (v ++ more) g =
  if String.prefix cln v
  then Some (more, {| pending := []; closed := (closed g ++ [v])%list |})
  else None.
Proof.
  intros Hg Hv. cbn [rmatch].
  destruct (String.prefix cln v) eqn:E.
  - destruct (prefix_split cln v E) as [t ->].
    rewrite all_chars_app in Hv. apply andb_true_iff in Hv as [_ Ht].
    set (g2 := open_group _ g). rewrite app_assoc_s, lits_match. cbn [rmatch].
    rewrite (star_greedy Dot _ t more g2 (more, close_group more g2));
      [| apply words_no_newline; exact Ht | apply line_end_stops; exact Hmore | reflexivity].
    subst g2. rewrite group_closed, Hg. reflexivity.
  - apply lits_mismatch. rewrite prefix_in_line; [exact E | | exact Hmore].
    apply words_no_newline. exact Hcln.
Qed.

Lemma digits_before_group (p : list item) : rejects Dig (rmatch (Close :: One (Lit ":") :: p) accept).
Proof.
  intros a s g Ha. cbn [rmatch one accepts].
  destruct (Ascii.eqb_spec ":" a) as [<- | _]; [discriminate Ha | reflexivity].
Qed.

Lemma cln_drive_head :
  match cln_drive_hit cln e with
  | Some (w, gs) =>
      w = token e /\
      match_here (items (cln_drive_regex cln)) (token e ++ more) =
        Some {| text := token e; groups := gs; rest := more |}
  | None => match_here (items (cln_drive_regex cln)) (token e ++ more) = None
  end.
Proof.
  assert (Hitems : items (cln_drive_regex cln) =
                   (One (Lit "D") :: One (Lit ":") :: Plus Dig :: One (Lit ":")
                    :: One (Lit "F") :: One (Lit ":") :: Open :: Plus Dig :: Close
                    :: One (Lit ":") :: Open :: lits cln ++ [Star Dot; Close])%list)
    by reflexivity.
  destruct e as [n [[m v] |] | ie n vol]; [element_parts Hwf | element_parts Hwf |];
    cbn [cln_drive_hit].
  - assert (E : token (Drive n (Some (m, v))) ++ more =
                String "D" (String ":" (n ++ String ":" (String "F" (String ":"
                  (m ++ String ":" (v ++ more))))))) by same_text.
    assert (Hq : rmatch (items (cln_drive_regex cln)) accept
                   (token (Drive n (Some (m, v))) ++ more) {| pending := []; closed := [] |} =
                 if String.prefix cln v
                 then Some (more, {| pending := []; closed := [m; v] |}) else None).
    { rewrite E, Hitems. cbn [rmatch one accepts]. change (Ascii.eqb "D" "D") with true.
      change (Ascii.eqb ":" ":") with true. cbv iota.
      rewrite plus_run; [| assumption | assumption | solve_rejects | reflexivity].
      cbn [one accepts]. change (Ascii.eqb "F" "F") with true.
      change (Ascii.eqb ":" ":") with true. cbv iota.
      rewrite plus_run;
        [| assumption | assumption
         | apply (digits_before_group (Open :: lits cln ++ [Star Dot; Close])) | reflexivity].
      cbn [rmatch one accepts]. change (Ascii.eqb ":" ":") with true. cbv iota.
      rewrite (group_closed m (String ":" (v ++ more))). cbn [pending closed List.app].
      apply (cln_label_group v {| pending := []; closed := [m] |}); [reflexivity | assumption]. }
    destruct (String.prefix cln v).
    + split; [reflexivity |].
      apply (match_here_some _ _ _ {| pending := []; closed := [m; v] |}). exact Hq.
    + apply match_here_none. exact Hq.
  - apply match_here_none.
    assert (E : token (Drive n None) ++ more =
                String "D" (String ":" (n ++ String ":" ("E" ++ more)))) by same_text.
    rewrite E, Hitems. cbn [rmatch one accepts]. change (Ascii.eqb "D" "D") with true.
    change (Ascii.eqb ":" ":") with true. cbv iota.
    rewrite plus_run; [| assumption | assumption | solve_rejects | reflexivity].
    reflexivity.
  - apply match_here_none. destruct ie, vol; reflexivity.
Qed.

Lemma cln_slot_head :
  match cln_slot_hit cln e with
  | Some (w, gs) =>
      w = token e /\
      match_here (items (cln_slot_regex cln)) (token e ++ more) =
        Some {| text := token e; groups := gs; rest := more |}
  | None => match_here (items (cln_slot_regex cln)) (token e ++ more) = None
  end.
Proof.
  assert (Hitems : items (cln_slot_regex cln) =
                   (One (Range [("S", "S"); ("I", "I")]%char) :: One (Lit ":") :: Open
                    :: Plus Dig :: Close :: One (Lit ":") :: One (Lit "F") :: One (Lit ":")
                    :: Open :: lits cln ++ [Star Dot; Close])%list)
    by reflexivity.
  destruct e as [n vol | ie n [v |]]; [| element_parts Hwf | element_parts Hwf];
    cbn [cln_slot_hit].
  - apply match_here_none. destruct vol as [[m v] |]; reflexivity.
  - assert (E : token (Slot ie n (Some v)) ++ more =
                String (if ie then "I" else "S")%char
                  (String ":" (n ++ String ":" (String "F" (String ":" (v ++ more))))))
      by (destruct ie; same_text).
    assert (Hq : rmatch (items (cln_slot_regex cln)) accept
                   (token (Slot ie n (Some v)) ++ more) {| pending := []; closed := [] |} =
                 if String.prefix cln v
                 then Some (more, {| pending := []; closed := [n; v] |}) else None).
    { rewrite E, Hitems. cbn [rmatch one].
      replace (accepts (Range [("S", "S"); ("I", "I")]%char) (if ie then "I"%char else "S"%char))
        with true by (destruct ie; reflexivity).
      cbn [accepts]. change (Ascii.eqb ":" ":") with true. cbv iota.
      rewrite plus_run;
        [| assumption | assumption
         | apply (digits_before_group
                    (One (Lit "F") :: One (Lit ":") :: Open :: lits cln ++ [Star Dot; Close]))
         | reflexivity].
      cbn [rmatch one accepts]. change (Ascii.eqb "F" "F") with true.
      change (Ascii.eqb ":" ":") with true. cbv iota.
      rewrite (group_closed n (String ":" (String "F" (String ":" (v ++ more))))).
      cbn [pending closed List.app].
      apply (cln_label_group v {| pending := []; closed := [n] |}); [reflexivity | assumption]. }
    destruct (String.prefix cln v).
    + split; [reflexivity |].
      apply (match_here_some _ _ _ {| pending := []; closed := [n; v] |}). exact Hq.
    + apply match_here_none. exact Hq.
  - apply match_here_none.
    assert (E : token (Slot ie n None) ++ more =
                String (if ie then "I" else "S")%char (String ":" (n ++ String ":" ("E" ++ more))))
      by (destruct ie; same_text).
    rewrite E, Hitems. cbn [rmatch one].
    replace (accepts (Range [("S", "S"); ("I", "I")]%char) (if ie then "I"%char else "S"%char))
      with true by (destruct ie; reflexivity).
    cbn [accepts]. change (Ascii.eqb ":" ":") with true. cbv iota.
    rewrite plus_run;
      [| assumption | assumption
       | apply (digits_before_group
                  (One (Lit "F") :: One (Lit ":") :: Open :: lits cln ++ [Star Dot; Close]))
       | reflexivity].
    reflexivity.
Qed.

End CleaningTokens.

Lemma findall2_tokens (r : regex) (c : cls) (p : list item)
  (hit : Element -> option (string * list string)) (found : Element -> list (string * string))
  (es : list Element) :
  map (fun m => (text m, groups m)) (iter r 0 true (String.concat nl (map token es))) =
    hits hit es ->
  (forall e, found e = match hit e with
                       | Some (_, gs) => [(nth 0 gs "", nth 1 gs "")]
                       | None => []
                       end) ->
  map (fun m => (group m 1, group m 2)) (iter r 0 true (String.concat nl (map token es))) =
  flat_map found es.
Proof.
  intros Hiter Hfound.
  rewrite <- (map_map (fun m => (text m, groups m))
                (fun x : string * list string => (nth 0 (snd x) "", nth 1 (snd x) ""))).
  rewrite Hiter. clear Hiter.
  induction es as [| e es' IH]; [reflexivity |].
  unfold hits in *. cbn [flat_map]. rewrite map_app, IH, Hfound.
  destruct (hit e) as [[w gs] |]; reflexivity.
Qed.

(** X20: the cleaning tapes that [chk_for_cln_tapes] finds in the listing
    of a well-formed status text, for a [cln_str] of word characters:
    first the volumes in drives whose label begins with [cln_str], each
    with the slot that it came from, then the volumes in listed slots
    whose label begins with [cln_str], each with its slot; both in the
    order of the status text, and nothing else. *)
Theorem cleaning_tapes (cfg : config) (ls : list line) (final_newline : bool) :
  well_formed_status ls = true -> all_chars is_word (cln_str cfg) = true ->
  let es := filter (listed cfg) (elements ls) in
  chk_for_cln_tapes cfg (listall_text cfg (status_text ls final_newline)) =
  (flat_map (cln_in_drive (cln_str cfg)) es ++ flat_map (cln_in_slot (cln_str cfg)) es)%list.
Proof.
  intros Hwf Hcln es.
  destruct (listall_text_tokens cfg ls final_newline Hwf) as [-> Hes]. fold es in Hes |- *.
  unfold chk_for_cln_tapes, findall2.
  rewrite (cln_drive_pattern _ Hcln), (cln_slot_pattern _ Hcln).
  f_equal.
  - apply (findall2_tokens _ (Lit "D")
             (Plus Dig :: lits ":F:" ++ Open :: Plus Dig :: Close :: lits ":" ++ Open
              :: lits (cln_str cfg) ++ [Star Dot; Close])%list (cln_drive_hit (cln_str cfg))).
    + apply (iter_tokens _ (Lit "D")
               (Plus Dig :: lits ":F:" ++ Open :: Plus Dig :: Close :: lits ":" ++ Open
                :: lits (cln_str cfg) ++ [Star Dot; Close])%list);
        try reflexivity; try assumption.
      * exact digit_not_D.
      * intros e more He Hmore. apply cln_drive_head; assumption.
    + intros [n [[m v] |] | ie n vol]; cbn [cln_in_drive cln_drive_hit]; try reflexivity.
      destruct (String.prefix _ v); reflexivity.
  - apply (findall2_tokens _ (Range [("S", "S"); ("I", "I")]%char)
             (Open :: Plus Dig :: Close :: lits ":F:" ++ Open
              :: lits (cln_str cfg) ++ [Star Dot; Close])%list (cln_slot_hit (cln_str cfg))).
    + apply (iter_tokens _ (Range [("S", "S"); ("I", "I")]%char)
               (Open :: Plus Dig :: Close :: lits ":F:" ++ Open
                :: lits (cln_str cfg) ++ [Star Dot; Close])%list);
        try reflexivity; try assumption.
      * exact digit_not_SI.
      * intros e more He Hmore. apply cln_slot_head; assumption.
    + intros [n vol | ie n [v |]]; cbn [cln_in_slot cln_slot_hit]; try reflexivity.
      destruct (String.prefix _ v); reflexivity.
Qed.

Lemma cleaning_tapes_witness :
  chk_for_cln_tapes sample_config (listall_text sample_config (status_text cleaning_lines true)) =
  [("3", "CLN001"); ("4", "CLN002")].
Proof. exact (cleaning_tapes sample_config cleaning_lines true eq_refl eq_refl). Defined.

(** ** A drive device of no known form *)

Section UnknownDevice.

Variable cfg : config.
Variable req : request.
Variable shell : list event -> string -> CompletedProcess.
Variable rnd : nat.

Hypothesis Hdev : known_device (drive_device req) = false.

(** [st] is bound in none of the branches: the use of it, after the
    [lsscsi] command, raises. *)
Lemma sg_node_unbound (h : list event) :
  do_get_sg_node cfg req shell h = (Raise UnboundLocalError, [Run (lsscsi_bin cfg ++ " -ug")]).
Proof.
  unfold known_device in Hdev.
  apply orb_false_iff in Hdev as [H Hpath]. apply orb_false_iff in H as [H Hid].
  unfold do_get_sg_node. rewrite H, Hid, Hpath. reflexivity.
Qed.

Lemma checkdrive_unbound (fuel : nat) (all_slots : string) (h : list event) :
  auto_clean cfg = false \/ chk_for_cln_tapes cfg all_slots <> [] ->
  do_checkdrive cfg req shell rnd (S fuel) all_slots h =
  (Raise UnboundLocalError, [Run (lsscsi_bin cfg ++ " -ug")]).
Proof.
  intros Hcase. rewrite do_checkdrive_eq. cbv zeta.
  assert (Hgo : auto_clean cfg && (List.length (chk_for_cln_tapes cfg all_slots) =? 0)%nat = false).
  { destruct Hcase as [-> | Hne]; [reflexivity |].
    destruct (chk_for_cln_tapes cfg all_slots); [contradiction |]. apply andb_false_r. }
  rewrite Hgo. apply bind_Raise. apply sg_node_unbound.
Qed.

(** X21: an unload with [chk_drive] set from a drive device of no known
    form.  When the unload command succeeds and the check of the drive is
    not left early for want of cleaning tapes, [do_get_sg_node] uses the
    local [st] that no branch has bound: after the [lsscsi] command the
    script ends with the exception [UnboundLocalError], though the volume
    is unloaded. *)
Theorem unload_unknown_device (fuel : nat) (all_slots slt drv_dev drv_idx vol : string)
  (h : list event) :
  chk_drive cfg = true ->
  auto_clean cfg = false \/ chk_for_cln_tapes cfg all_slots <> [] ->
  returncode (shell (h ++ offline_events cfg drv_dev)%list (unload_cmd cfg req slt drv_idx))
    = 0%Z ->
  do_unload cfg req shell rnd (S (S fuel)) all_slots slt drv_dev drv_idx vol false h =
  (Raise UnboundLocalError,
   (offline_events cfg drv_dev
    ++ [Run (unload_cmd cfg req slt drv_idx); Run (lsscsi_bin cfg ++ " -ug")])%list).
Proof.
  intros Hchk Hcase Hrc. rewrite do_unload_eq.
  rewrite (bind_Ret _ _ h tt _ (offline_part cfg shell drv_dev h)). cbn [fst snd].
  match goal with
  | |- (fst (?K ?h'), _) = _ =>
      assert (HK : K h' = (Raise UnboundLocalError,
                           [Run (unload_cmd cfg req slt drv_idx); Run (lsscsi_bin cfg ++ " -ug")]))
  end.
  { rewrite (bind_Ret (get_shell_result shell (unload_cmd cfg req slt drv_idx)) _ _ _ _ eq_refl).
    rewrite Hrc. cbn [Z.eqb negb]. rewrite Hchk.
    rewrite (bind_Raise _ _ _ _ _ (checkdrive_unbound fuel all_slots _ Hcase)).
    reflexivity. }
  rewrite HK. reflexivity.
Qed.

End UnknownDevice.

Lemma unload_unknown_device_witness :
  do_unload sample_config unload_5_from_tape0 (fun _ _ => ok "") 0 recursion_limit
    tape_in_drive_1 "5" "/dev/tape0" "0" "VOL005" false [] =
  (Raise UnboundLocalError, [Run "mtx -f /dev/sg3 unload 5 0"; Run "lsscsi -ug"]).
Proof.
  apply (unload_unknown_device sample_config unload_5_from_tape0 (fun _ _ => ok "") 0
           eq_refl 998 tape_in_drive_1 "5" "/dev/tape0" "0" "VOL005" [] eq_refl).
  - right. vm_compute. discriminate.
  - reflexivity.
Defined.

(** ** The sg node of a drive *)

(** Where a greedy repetition ends. *)
Lemma star_some_split (c : cls) (k : cont) : forall (y : string) (g : caps) (r : string * caps),
  star c k y g = Some r ->
  exists y1 y2, y = y1 ++ y2 /\ all_chars (accepts c) y1 = true /\ k y2 g = Some r.
Proof.
  induction y as [| a y IH]; intros g r H; cbn [star] in H.
  - exists "", "". auto.
  - destruct (accepts c a) eqn:Ha.
    + destruct (star c k y g) as [r' |] eqn:E.
      * injection H as <-. destruct (IH g r' E) as (y1 & y2 & -> & Hy1 & Hk).
        exists (String a y1), y2. cbn [append all_chars]. rewrite Ha. auto.
      * exists "", (String a y). auto.
    + exists "", (String a y). auto.
Qed.

Lemma star_none_inv (c : cls) (k : cont) : forall (y : string) (g : caps),
  star c k y g = None ->
  forall y1 y2, y = y1 ++ y2 -> all_chars (accepts c) y1 = true -> k y2 g = None.
Proof.
  induction y as [| a y IH]; intros g H y1 y2 E Hy1; cbn [star] in H.
  - destruct y1; [cbn in E; subst y2; exact H | discriminate E].
  - destruct y1 as [| b y1]; cbn [append] in E.
    + subst y2. destruct (accepts c a); [| exact H].
      destruct (star c k y g); [discriminate H | exact H].
    + injection E as <- ->. cbn in Hy1. apply andb_true_iff in Hy1 as [Ha Hy1].
      rewrite Ha in H. destruct (star c k (y1 ++ y2) g) eqn:E'; [discriminate H |].
      apply (IH g E' y1 y2 eq_refl Hy1).
Qed.

(** A greedy repetition in a line, when the pattern goes on from some
    place of the line and gives the same from every place that it goes on
    from. *)
Lemma star_same_line (k : cont) (t rest : string) (g : caps) (r : string * caps) :
  all_chars no_newline t = true -> line_end rest ->
  (exists t1 t2, t = t1 ++ t2 /\ k (t2 ++ rest) g = Some r) ->
  (forall t1 t2 r', t = t1 ++ t2 -> k (t2 ++ rest) g = Some r' -> r' = r) ->
  star Dot k (t ++ rest) g = Some r.
Proof.
  intros Ht Hrest (t1 & t2 & E & Hk) Hsame.
  destruct (star Dot k (t ++ rest) g) as [r' |] eqn:Es.
  - destruct (star_some_split Dot k _ g r' Es) as (y1 & y2 & Ey & Hy1 & Hk').
    destruct (line_split y1 t rest y2 Ey Hy1 Hrest) as (t3 & -> & ->).
    rewrite (Hsame y1 t3 r' eq_refl Hk'). reflexivity.
  - subst t. rewrite all_chars_app in Ht. apply andb_true_iff in Ht as [Ht1 _].
    rewrite (star_none_inv Dot k _ g Es t1 (t2 ++ rest)) in Hk;
      [discriminate Hk | apply app_assoc_s | exact Ht1].
Qed.

(** Two ways to cut a text. *)
Lemma app_cuts : forall (x1 y1 x2 y2 : string),
  x1 ++ y1 = x2 ++ y2 ->
  (exists u, x1 = x2 ++ u /\ y2 = u ++ y1) \/
  (exists a u, x2 = x1 ++ String a u /\ y1 = String a u ++ y2).
Proof.
  induction x1 as [| a x1 IH]; intros y1 x2 y2 E; cbn [append] in E.
  - destruct x2 as [| b x2].
    + left. exists "". split; [reflexivity | symmetry; exact E].
    + right. exists b, x2. split; [reflexivity | exact E].
  - destruct x2 as [| b x2]; cbn [append] in E.
    + left. exists (String a x1). split; [reflexivity | symmetry; exact E].
    + injection E as <- E. destruct (IH y1 x2 y2 E) as [(u & -> & ->) | (c & u & -> & ->)].
      * left. exists u. split; reflexivity.
      * right. exists c, u. split; reflexivity.
Qed.

Lemma prefix_nil (s : string) : String.prefix "" s = true.
Proof. destruct s; reflexivity. Qed.

Lemma prefix_app (x t : string) : String.prefix x (x ++ t) = true.
Proof.
  induction x as [| a x IH]; [apply prefix_nil |].
  cbn [append String.prefix]. destruct (Ascii.ascii_dec a a); [exact IH | contradiction].
Qed.

Lemma contains_app (x t : string) : contains x (x ++ t) = true.
Proof.
  pose proof (prefix_app x t) as H. destruct (x ++ t); cbn [contains]; rewrite H; reflexivity.
Qed.

(** One digit or more, then what the pattern goes on with. *)
Lemma plus_greedy (c : cls) (k : cont) (run rest : string) (g : caps) (r : string * caps) :
  nonempty run = true -> all_chars (accepts c) run = true -> stops c rest ->
  k rest g = Some r -> one c (star c k) (run ++ rest) g = Some r.
Proof.
  intros Hne Hrun Hrest Hk. destruct run as [| a run]; [discriminate Hne |].
  cbn in Hrun. apply andb_true_iff in Hrun as [Ha Hrun].
  cbn [append one]. rewrite Ha. apply star_greedy; assumption.
Qed.

(** The name of the drive, from the device [/dev/st#] or [/dev/nst#]. *)
Lemma st_of_device (n : string) (rewind : bool) :
  numeral n = true ->
  let device := (if rewind then "/dev/st" else "/dev/nst") ++ n in
  contains "/dev/st" device || contains "/dev/nst" device = true /\
  sub "/dev/n*(st\d+)" "\1" device = "st" ++ n.
Proof.
  intros Hn device. apply numeral_parts in Hn as [Hne Hd]. split.
  - subst device. destruct rewind.
    + rewrite contains_app. reflexivity.
    + rewrite (contains_app "/dev/nst" n). apply orb_true_r.
  - assert (Hm : match_here (items (compile "/dev/n*(st\d+)")) (device ++ "") =
                 Some {| text := device; groups := ["st" ++ n]; rest := "" |}).
    { apply (match_here_some _ device "" {| pending := []; closed := ["st" ++ n] |}).
      eval_items. subst device.
      assert (Hst : forall g,
                rmatch [Open; One (Lit "s"); One (Lit "t"); Plus Dig; Close] accept
                  (("st" ++ n) ++ "") g =
                Some ("", {| pending := pending g; closed := (closed g ++ [("st" ++ n)%string])%list |})).
      { intros g. cbn [rmatch]. set (g2 := open_group _ g).
        cbn [append one accepts]. change (Ascii.eqb "s" "s") with true.
        change (Ascii.eqb "t" "t") with true. cbv iota.
        rewrite (plus_greedy Dig _ n "" g2 ("", close_group "" g2));
          [| assumption | assumption | exact I | reflexivity].
        subst g2. rewrite group_closed. reflexivity. }
      destruct rewind; cbn [append rmatch one accepts];
        repeat (change (Ascii.eqb ?x ?x) with true; cbv iota).
      - change (String "s" (String "t" (n ++ ""))) with ("" ++ ("st" ++ n) ++ "").
        rewrite (star_greedy (Lit "n") _ "" (("st" ++ n) ++ "") _
                   ("", {| pending := []; closed := ["st" ++ n] |}));
          [reflexivity | reflexivity | reflexivity |].
        exact (Hst {| pending := []; closed := [] |}).
      - change (String "n" (String "s" (String "t" (n ++ "")))) with ("n" ++ ("st" ++ n) ++ "").
        rewrite (star_greedy (Lit "n") _ "n" (("st" ++ n) ++ "") _
                   ("", {| pending := []; closed := ["st" ++ n] |}));
          [reflexivity | reflexivity | reflexivity |].
        exact (Hst {| pending := []; closed := [] |}). }
    rewrite <- (app_empty_r device) at 1.
    change (device ++ "") with ("" ++ device ++ "").
    rewrite (sub_once "/dev/n*(st\d+)" "\1" "" device "" ["st" ++ n]).
    + cbn [append expand is_digit group nth]. cbn. rewrite !app_empty_r. reflexivity.
    + reflexivity.
    + reflexivity.
    + apply nowhere_nil.
    + subst device. destruct rewind; discriminate.
    + exact Hm.
    + apply nowhere_nil.
Qed.

Lemma sg_pattern (st : string) :
  all_chars is_word st = true -> compile (".*" ++ st ++ " .*(/dev/sg\d+)") = sg_regex st.
Proof. intros H. unfold sg_regex. read_pattern. Qed.

Lemma contains_prefix_false (x s1 s2 : string) : forall (more : string),
  all_chars no_newline x = true -> line_end more ->
  contains x (s1 ++ s2) = false -> String.prefix x (s2 ++ more) = false.
Proof.
  intros more Hx Hmore H. rewrite prefix_in_line by assumption.
  apply (contains_suffix x s1 s2 H).
Qed.

(** No [/dev/sg] begins in a numeral. *)
Lemma contains_digits (k c : string) :
  all_chars is_digit k = true -> contains "/dev/sg" c = false ->
  contains "/dev/sg" (k ++ c) = false.
Proof.
  intros Hk Hc. induction k as [| d k IH]; [exact Hc |].
  cbn in Hk. apply andb_true_iff in Hk as [Hd Hk].
  cbn [append contains]. rewrite (IH Hk), orb_false_r.
  cbn [String.prefix]. destruct (Ascii.ascii_dec "/" d) as [<- | _]; [discriminate Hd | reflexivity].
Qed.

Lemma lits_app (x y : string) : lits (x ++ y) = (lits x ++ lits y)%list.
Proof. induction x as [| a x IH]; [reflexivity |]. cbn [append lits List.app]. rewrite IH. reflexivity. Qed.

Section SgLine.

Variables (st a b k c more : string).
Hypothesis Hst : all_chars is_word st = true.
Hypothesis Ha : all_chars no_newline a = true.
Hypothesis Hb : all_chars no_newline b = true.
Hypothesis Hc : all_chars no_newline c = true.
Hypothesis Hk : numeral k = true.
Hypothesis Hstop : stops Dig c.
Hypothesis Hsg : contains "/dev/sg" c = false.
Hypothesis Hmore : line_end more.

Lemma sg_name_plain : all_chars no_newline (st ++ " ") = true.
Proof. rewrite all_chars_app, (words_no_newline st Hst). reflexivity. Qed.

Lemma sg_node_plain : all_chars no_newline ("/dev/sg" ++ k ++ c) = true.
Proof.
  apply numeral_parts in Hk as [_ Hd].
  change ("/dev/sg" ++ k ++ c) with ("/dev/sg" ++ (k ++ c)).
  rewrite !all_chars_app, Hc, andb_true_r.
  rewrite (all_chars_impl is_digit no_newline k); [reflexivity | | exact Hd].
  intros x Hx. unfold no_newline. destruct (Ascii.eqb_spec x newline) as [-> | _];
    [discriminate Hx | reflexivity].
Qed.

Lemma sg_stops : stops Dig (c ++ more).
Proof.
  destruct c as [| x c']; [| exact Hstop].
  destruct Hmore as [-> | [t ->]]; [exact I | reflexivity].
Qed.

(** The node, where it stands... *)
Lemma sg_here (g : caps) :
  rmatch sg_items accept ("/dev/sg" ++ k ++ c ++ more) g = Some (sg_found k c more g).
Proof.
  apply numeral_parts in Hk as [Hne Hd].
  unfold sg_items. cbn [rmatch List.app]. set (g2 := open_group _ g).
  change (rmatch (lits "/dev/sg" ++ [Plus Dig; Close]) accept ("/dev/sg" ++ k ++ c ++ more) g2
          = Some (sg_found k c more g)).
  rewrite lits_match. cbn [rmatch].
  rewrite (plus_greedy Dig _ k (c ++ more) g2 (c ++ more, close_group (c ++ more) g2));
    [| assumption | assumption | exact sg_stops | reflexivity].
  subst g2.
  change (open_group ("/dev/sg" ++ k ++ c ++ more) g)
    with (open_group (("/dev/sg" ++ k) ++ c ++ more) g).
  rewrite group_closed. reflexivity.
Qed.

(** ... and at no place behind. *)
Lemma sg_not_behind (u t : string) (g : caps) :
  "dev/sg" ++ k ++ c = u ++ t -> rmatch sg_items accept (t ++ more) g = None.
Proof.
  intros E. unfold sg_items. cbn [rmatch List.app].
  change (rmatch (lits "/dev/sg" ++ [Plus Dig; Close]) accept (t ++ more)
            (open_group (t ++ more) g) = None).
  apply lits_mismatch. apply (contains_prefix_false "/dev/sg" u t more); [reflexivity | exact Hmore |].
  rewrite <- E. apply numeral_parts in Hk as [_ Hd].
  cbn [append contains String.prefix].
  change (contains "/dev/sg" (k ++ c) = false). apply contains_digits; assumption.
Qed.

Lemma sg_fails_inside : fails_inside Dot (rmatch sg_items accept) ("/dev/sg" ++ k ++ c ++ more).
Proof.
  intros y1 y2 g E Hne Hy1.
  assert (E' : ("/dev/sg" ++ k ++ c) ++ more = y1 ++ y2) by (rewrite <- E; same_text).
  destruct (line_split y1 _ more y2 E' Hy1 Hmore) as (t & Et & ->).
  destruct y1 as [| x y1]; [contradiction |].
  cbn [append] in Et. injection Et as _ Et.
  apply (sg_not_behind y1 t). exact Et.
Qed.

(** The last node of the line is found from every place before it, and
    from no place behind it. *)
Lemma sg_from (p t : string) (g : caps) (r : string * caps) :
  p ++ t = (a ++ (st ++ " ") ++ b) ++ "/dev/sg" ++ k ++ c ->
  star Dot (rmatch sg_items accept) (t ++ more) g = Some r -> r = sg_found k c more g.
Proof.
  intros E H.
  destruct (app_cuts p t _ _ E) as [(u & Ep & Et) | (x & u & Ep & Et)].
  - destruct u as [| x u].
    + change ("" ++ t) with t in Et. rewrite <- Et in H.
      assert (Ht : ("/dev/sg" ++ k ++ c) ++ more = "" ++ "/dev/sg" ++ k ++ c ++ more)
        by same_text.
      rewrite Ht in H.
      rewrite (star_last Dot _ "" _ g (sg_found k c more g) eq_refl (sg_here g) sg_fails_inside) in H.
      injection H as <-. reflexivity.
    + cbn [append] in Et. injection Et as _ Et.
      rewrite star_none in H; [discriminate H |].
      intros y1 y2 Ey Hy1.
      destruct (line_split y1 t more y2 Ey Hy1 Hmore) as (t2 & -> & ->).
      apply (sg_not_behind (u ++ y1) t2).
      transitivity (u ++ y1 ++ t2); [exact Et | symmetry; apply app_assoc_s].
  - rewrite Et in H.
    assert (Hx : all_chars no_newline (String x u) = true).
    { assert (Hall : all_chars no_newline (a ++ (st ++ " ") ++ b) = true)
        by (rewrite (all_chars_app _ a), (all_chars_app _ (st ++ " ") b), Ha, Hb, sg_name_plain;
            reflexivity).
      rewrite Ep, all_chars_app in Hall. apply andb_true_iff in Hall as [_ Hall]. exact Hall. }
    replace ((String x u ++ "/dev/sg" ++ k ++ c) ++ more)
      with (String x u ++ "/dev/sg" ++ k ++ c ++ more) in H by same_text.
    rewrite (star_last Dot _ (String x u) _ g (sg_found k c more g) Hx (sg_here g) sg_fails_inside) in H.
    injection H as <-. reflexivity.
Qed.

Lemma sg_line_match :
  match_here (items (sg_regex st))
    ((a ++ (st ++ " ") ++ b ++ "/dev/sg" ++ k) ++ c ++ more) =
  Some {| text := a ++ (st ++ " ") ++ b ++ "/dev/sg" ++ k;
          groups := [("/dev/sg" ++ k)%string]; rest := c ++ more |}.
Proof.
  apply (match_here_some _ _ _ {| pending := []; closed := [("/dev/sg" ++ k)%string] |}).
  set (g0 := {| pending := []; closed := [] |}).
  change (items (sg_regex st))
    with (Star Dot :: lits st ++ lits " " ++ Star Dot :: sg_items)%list.
  cbn [rmatch].
  replace ((a ++ (st ++ " ") ++ b ++ "/dev/sg" ++ k) ++ c ++ more)
    with (((a ++ (st ++ " ") ++ b) ++ "/dev/sg" ++ k ++ c) ++ more) by same_text.
  assert (Hline : all_chars no_newline ((a ++ (st ++ " ") ++ b) ++ "/dev/sg" ++ k ++ c) = true).
  { rewrite (all_chars_app _ (a ++ (st ++ " ") ++ b)), sg_node_plain, (all_chars_app _ a),
      (all_chars_app _ (st ++ " ") b), Ha, Hb, sg_name_plain. reflexivity. }
  assert (Hgo : forall t g,
            rmatch (lits st ++ lits " " ++ Star Dot :: sg_items) accept
              (((st ++ " ") ++ t) ++ more) g =
            star Dot (rmatch sg_items accept) (t ++ more) g).
  { intros t g. rewrite !app_assoc_s, lits_match, lits_match. reflexivity. }
  apply (star_same_line _ _ more g0 (sg_found k c more g0) Hline Hmore).
  - exists a, ((st ++ " ") ++ b ++ "/dev/sg" ++ k ++ c). split; [same_text |].
    rewrite Hgo.
    replace ((b ++ "/dev/sg" ++ k ++ c) ++ more) with (b ++ "/dev/sg" ++ k ++ c ++ more)
      by same_text.
    apply (star_last Dot _ b _ g0 (sg_found k c more g0) Hb (sg_here g0) sg_fails_inside).
  - intros t1 t2 r' E H.
    destruct (String.prefix (st ++ " ") (t2 ++ more)) eqn:Ep.
    + destruct (prefix_split _ _ Ep) as [t3 E3].
      destruct (line_split (st ++ " ") t2 more t3 E3 sg_name_plain Hmore) as (t4 & -> & ->).
      rewrite Hgo in H.
      apply (sg_from (t1 ++ st ++ " ") t4 g0 r'); [| exact H].
      rewrite E. same_text.
    + rewrite app_assoc, <- lits_app, lits_mismatch in H; [discriminate H | exact Ep].
Qed.

End SgLine.

Section OtherLines.

Variable st : string.
Hypothesis Hst : all_chars is_word st = true.

Lemma name_not_at_feed (t : string) : String.prefix (st ++ " ") (String newline t) = false.
Proof.
  destruct st as [| x s]; cbn [append String.prefix].
  - destruct (Ascii.ascii_dec " " newline) as [E | _]; [discriminate E | reflexivity].
  - destruct (Ascii.ascii_dec x newline) as [-> | _]; [discriminate Hst | reflexivity].
Qed.

Lemma sg_items_name (p : list item) (s : string) (g : caps) :
  String.prefix (st ++ " ") s = false -> rmatch (lits st ++ lits " " ++ p) accept s g = None.
Proof. intros H. rewrite app_assoc, <- lits_app. apply lits_mismatch. exact H. Qed.

Lemma other_line_nowhere (l rest : string) :
  other_drive st l = true -> line_end rest -> nowhere (sg_regex st) l rest.
Proof.
  intros Hl Hrest s1 s2 -> Hne. unfold other_drive in Hl.
  apply andb_true_iff in Hl as [Hplain Hno]. apply negb_true_iff in Hno.
  rewrite all_chars_app in Hplain. apply andb_true_iff in Hplain as [_ Hplain].
  apply match_here_none.
  change (items (sg_regex st))
    with (Star Dot :: lits st ++ lits " " ++ Star Dot :: Open
          :: lits "/dev/sg" ++ [Plus Dig; Close])%list.
  cbn [rmatch]. apply star_none. intros y1 y2 E Hy1.
  destruct (line_split y1 s2 rest y2 E Hy1 Hrest) as (t & -> & ->).
  apply sg_items_name. apply (contains_prefix_false _ (s1 ++ y1) t rest).
  - rewrite all_chars_app, (words_no_newline st Hst). reflexivity.
  - exact Hrest.
  - rewrite app_assoc_s. exact Hno.
Qed.

Lemma sg_feed_nowhere (rest : string) : nowhere (sg_regex st) nl rest.
Proof.
  unfold nl. apply nowhere_cons; [| apply nowhere_nil]. apply match_here_none.
  change (items (sg_regex st))
    with (Star Dot :: lits st ++ lits " " ++ Star Dot :: Open
          :: lits "/dev/sg" ++ [Plus Dig; Close])%list.
  cbn [rmatch append star]. change (accepts Dot newline) with false. cbv iota.
  apply sg_items_name. apply name_not_at_feed.
Qed.

Lemma other_lines_nowhere (ls : list string) (rest : string) :
  forallb (other_drive st) ls = true -> nowhere (sg_regex st) (lines_text ls) rest.
Proof.
  induction ls as [| l ls IH]; intros H; [apply nowhere_nil |].
  cbn [forallb] in H. apply andb_true_iff in H as [Hl Hls].
  assert (E : lines_text (l :: ls) = (l ++ nl) ++ lines_text ls).
  { unfold lines_text. cbn [map]. rewrite concat_cons.
    destruct (map _ ls); [cbn [String.concat]; rewrite !app_empty_r |]; reflexivity. }
  rewrite E. apply nowhere_app; [| apply IH; exact Hls].
  apply nowhere_app; [| apply sg_feed_nowhere].
  apply other_line_nowhere; [exact Hl |]. right. eexists. reflexivity.
Qed.

End OtherLines.

(** The node that [do_get_sg_node] finds in the answer of [lsscsi] for
    the drive [st]. *)
Lemma sg_search (st : string) (earlier : list string) (a b k c more : string) :
  all_chars is_word st = true ->
  forallb (other_drive st) earlier = true ->
  all_chars no_newline a = true -> all_chars no_newline b = true ->
  all_chars no_newline c = true ->
  numeral k = true -> stops Dig c -> contains "/dev/sg" c = false -> line_end more ->
  search (".*" ++ st ++ " .*(/dev/sg\d+)")
    (lines_text earlier ++ (a ++ st ++ " " ++ b ++ "/dev/sg" ++ k ++ c) ++ more) =
  Some {| text := a ++ (st ++ " ") ++ b ++ "/dev/sg" ++ k;
          groups := [("/dev/sg" ++ k)%string]; rest := c ++ more |}.
Proof.
  intros Hst Hearlier Ha Hb Hc Hk Hstop Hsg Hmore.
  unfold search. rewrite (sg_pattern st Hst).
  replace (lines_text earlier ++ (a ++ st ++ " " ++ b ++ "/dev/sg" ++ k ++ c) ++ more)
    with (lines_text earlier ++ (a ++ (st ++ " ") ++ b ++ "/dev/sg" ++ k) ++ c ++ more)
    by (f_equal; rewrite !app_assoc_s; reflexivity).
  apply scan_found.
  - reflexivity.
  - apply other_lines_nowhere; assumption.
  - apply sg_line_match; assumption.
Qed.

(** X22: the sg node of a drive [/dev/st#] or [/dev/nst#].  The name of
    the drive is [st#].  In the answer of [lsscsi -ug], when no line
    before it has this name before a blank, a line that has the name
    before a blank and, behind it, a node [/dev/sg#] gives the node:
    [do_get_sg_node] returns the last node of that line, with all its
    digits, having run [lsscsi -ug] alone. *)
Theorem sg_node_of_drive (cfg : config) (req : request)
  (shell : list event -> string -> CompletedProcess) (h : list event)
  (n : string) (rewind : bool) (earlier : list string) (a b k c more : string) :
  numeral n = true ->
  drive_device req = (if rewind then "/dev/st" else "/dev/nst") ++ n ->
  let st := "st" ++ n in
  stdout (shell h (lsscsi_bin cfg ++ " -ug")) =
    lines_text earlier ++ (a ++ st ++ " " ++ b ++ "/dev/sg" ++ k ++ c) ++ more ->
  forallb (other_drive st) earlier = true ->
  all_chars no_newline a = true -> all_chars no_newline b = true ->
  all_chars no_newline c = true ->
  numeral k = true -> stops Dig c -> contains "/dev/sg" c = false -> line_end more ->
  do_get_sg_node cfg req shell h =
  (Ret (Some ("/dev/sg" ++ k)), [Run (lsscsi_bin cfg ++ " -ug")]).
Proof.
  intros Hn Hdev st Hout Hearlier Ha Hb Hc Hk Hstop Hsg Hmore.
  destruct (st_of_device n rewind Hn) as [Hform Hsub].
  assert (Hst : all_chars is_word st = true).
  { apply numeral_parts in Hn as [_ Hd]. subst st.
    change ("st" ++ n) with (String "s" (String "t" n)). cbn [all_chars].
    rewrite (digits_are_words n Hd). reflexivity. }
  unfold do_get_sg_node. rewrite Hdev, Hform, Hsub. fold st.
  unfold bind, ret, get_shell_result. cbn [fst snd app]. rewrite app_nil_r, Hout.
  rewrite (sg_search st earlier a b k c more) by assumption.
  reflexivity.
Qed.

Lemma sg_node_of_drive_witness :
  do_get_sg_node sample_config load_9_into_0 lsscsi_shell [] =
  (Ret (Some "/dev/sg2"), [Run "lsscsi -ug"]).
Proof.
  apply (sg_node_of_drive sample_config load_9_into_0 lsscsi_shell [] "0" false
           ["[0:0:0:0]    disk    ATA      /dev/sda   /dev/sg0"]
           "[1:0:0:0]    tape    IBM      /dev/" "  " "2" "" nl);
    try reflexivity; try exact I.
  right. exists "". reflexivity.
Defined.

(** ** The drive that holds the cleaning tape *)

Lemma cln_drv_pattern (slt : string) :
  all_chars is_word slt = true -> compile ("^D:(\d+):F:" ++ slt) = cln_drv_regex slt.
Proof.
  intros H. unfold cln_drv_regex. rewrite <- (app_empty_r slt) at 1. read_pattern.
Qed.

(** A pattern tied to the start of the text is tried there only. *)
Lemma scan_anchored_later (r : regex) (s : string) : anchored r = true -> scan r false s = None.
Proof.
  intros Hr. induction s as [| a s IH]; cbn [scan]; unfold try; rewrite Hr; [reflexivity | exact IH].
Qed.

Lemma scan_anchored (r : regex) (s : string) :
  anchored r = true -> scan r true s = match_here (items r) s.
Proof.
  intros Hr. destruct s as [| a s]; cbn [scan]; unfold try; rewrite Hr; cbn [andb negb].
  - destruct (match_here (items r) ""); reflexivity.
  - destruct (match_here (items r) (String a s)); [reflexivity |].
    apply scan_anchored_later. exact Hr.
Qed.

(** A numeral begins a numeral before a colon as it begins the numeral. *)
Lemma prefix_numeral (x : string) : forall (m t : string),
  all_chars is_digit x = true -> String.prefix x (m ++ String ":" t) = String.prefix x m.
Proof.
  induction x as [| d x IH]; intros m t Hx.
  - rewrite !prefix_nil. reflexivity.
  - cbn in Hx. apply andb_true_iff in Hx as [Hd Hx].
    destruct m as [| b m]; cbn [append String.prefix].
    + destruct (Ascii.ascii_dec d ":") as [-> | _]; [discriminate Hd | reflexivity].
    + destruct (Ascii.ascii_dec d b); [apply IH; exact Hx | reflexivity].
Qed.

Lemma lits_end (x s : string) (g : caps) :
  rmatch (lits x) accept (x ++ s) g = Some (s, g).
Proof.
  rewrite <- (app_nil_r (lits x)). rewrite lits_match. reflexivity.
Qed.

Lemma search_cln_drv (slt : string) (es : list Element) :
  numeral slt = true -> forallb well_formed_element es = true ->
  first_group (search ("^D:(\d+):F:" ++ slt) (String.concat nl (map token es))) =
  cln_tape_in_drv slt es.
Proof.
  intros Hslt Hes. apply numeral_parts in Hslt as [_ Hs].
  unfold search. rewrite (cln_drv_pattern slt (digits_are_words slt Hs)).
  rewrite scan_anchored by reflexivity.
  assert (Hitems : items (cln_drv_regex slt) =
                   (One (Lit "D") :: One (Lit ":") :: Open :: Plus Dig :: Close
                    :: One (Lit ":") :: One (Lit "F") :: One (Lit ":") :: lits slt)%list)
    by reflexivity.
  destruct es as [| e es]; [reflexivity |].
  cbn [forallb] in Hes. apply andb_true_iff in Hes as [He _].
  cbn [map]. rewrite concat_cons.
  set (more := match map token es with [] => "" | _ :: _ => nl ++ String.concat nl (map token es) end).
  destruct e as [n [[m v] |] | ie n vol]; [element_parts He | element_parts He |];
    cbn [cln_tape_in_drv].
  - assert (E : token (Drive n (Some (m, v))) ++ more =
                String "D" (String ":" (n ++ String ":" (String "F" (String ":"
                  (m ++ String ":" (v ++ more))))))) by same_text.
    unfold match_here. rewrite E, Hitems.
    cbn [rmatch one accepts]. change (Ascii.eqb "D" "D") with true.
    change (Ascii.eqb ":" ":") with true. cbv iota.
    rewrite plus_run;
      [| assumption | assumption
       | apply (digits_before_group (One (Lit "F") :: One (Lit ":") :: lits slt)) | reflexivity].
    cbn [rmatch one accepts]. change (Ascii.eqb "F" "F") with true.
    change (Ascii.eqb ":" ":") with true. cbv iota.
    rewrite (group_closed n (String ":" (String "F" (String ":" (m ++ String ":" (v ++ more)))))).
    cbn [pending closed List.app].
    pose proof (prefix_numeral slt m (v ++ more) Hs) as Hp.
    destruct (String.prefix slt m) eqn:Ep.
    + destruct (prefix_split slt m Ep) as [m' ->].
      rewrite app_assoc_s, lits_end. reflexivity.
    + rewrite <- (app_nil_r (lits slt)), lits_mismatch by exact Hp. reflexivity.
  - assert (E : token (Drive n None) ++ more =
                String "D" (String ":" (n ++ String ":" ("E" ++ more)))) by same_text.
    unfold match_here. rewrite E, Hitems.
    cbn [rmatch one accepts]. change (Ascii.eqb "D" "D") with true.
    change (Ascii.eqb ":" ":") with true. cbv iota.
    rewrite plus_run;
      [| assumption | assumption
       | apply (digits_before_group (One (Lit "F") :: One (Lit ":") :: lits slt)) | reflexivity].
    reflexivity.
  - unfold match_here. rewrite Hitems. destruct ie, vol; reflexivity.
Qed.

(** X23: the unload that [do_clean] begins with.  On a listing of
    well-formed tokens and for a cleaning tape whose slot is a numeral,
    [do_clean] looks at the first line of the listing only: when that line
    is a drive whose volume came from a slot that begins with the digits
    of the tape's slot, this drive is unloaded to the tape's slot before
    the load; in every other case the load comes first, also when another
    drive holds the tape. *)
Theorem clean_unloads_first_drive (cfg : config) (req : request)
  (shell : list event -> string -> CompletedProcess) (rnd : nat) (fuel : nat)
  (es : list Element) (cln_tapes : list (string * string)) (cln_slot cln_vol : string)
  (h : list event) :
  forallb well_formed_element es = true ->
  nth_error cln_tapes (rnd mod List.length cln_tapes) = Some (cln_slot, cln_vol) ->
  numeral cln_slot = true ->
  let all_slots := String.concat nl (map token es) in
  do_clean cfg req shell rnd (S fuel) all_slots cln_tapes h =
  ((match cln_tape_in_drv cln_slot es with
    | Some d => do_unload cfg req shell rnd fuel all_slots cln_slot "" d cln_vol true ;; ret tt
    | None => ret tt
    end) ;;
   do_load cfg req shell rnd fuel all_slots cln_slot (drive_device req) (drive_index req)
     cln_vol true ;;
   ret tt) h.
Proof.
  intros Hes Hnth Hslot all_slots. rewrite do_clean_eq.
  assert (Hc : random_choice rnd cln_tapes h = (Ret (cln_slot, cln_vol), [])).
  { unfold random_choice. rewrite Hnth. reflexivity. }
  unfold bind at 1. rewrite Hc. cbn [fst snd]. rewrite app_nil_r.
  pose proof (search_cln_drv cln_slot es Hslot Hes) as Hs. fold all_slots in Hs.
  unfold first_group in Hs.
  destruct (search ("^D:(\d+):F:" ++ cln_slot) all_slots) as [m |]; cbn [option_map] in Hs;
    rewrite <- Hs;
    match goal with |- (let (o, e2) := ?X in _) = _ => destruct X end; reflexivity.
Qed.

Lemma clean_unloads_first_drive_witness :
  do_clean sample_config unload_5_from_0 quiet_shell 0 3
    (String.concat nl (map token tape_of_slot_31)) [("3", "CLN003")] [] =
  (Ret tt, [Run "mtx -f /dev/sg3 unload 3 0"; Run "mtx -f /dev/sg3 load 3 0"; Sleep 5;
            Run "mtx -f /dev/sg3 unload 3 0"]).
Proof.
  exact (clean_unloads_first_drive sample_config unload_5_from_0 quiet_shell 0 2
           tape_of_slot_31 [("3", "CLN003")] "3" "CLN003" [] eq_refl eq_refl eq_refl).
Defined.

(** ** The alerts of a drive *)

Lemma alert_pattern :
  compile "TapeAlert\[(\d+)\]: +(.*)" = {| anchored := false; items := alert_items |}.
Proof. reflexivity. Qed.

Lemma spaces_blank (n : nat) : all_chars (accepts (Lit " ")) (spaces n) = true.
Proof. induction n as [| n IH]; [reflexivity | exact IH]. Qed.

Lemma alert_line_match (code : string) (pad : nat) (txt more : string) :
  well_formed_tapeinfo_line (Alert_line code pad txt) = true -> line_end more ->
  match_here alert_items (tapeinfo_line_text (Alert_line code pad txt) ++ more) =
  Some {| text := tapeinfo_line_text (Alert_line code pad txt);
          groups := [code; txt]; rest := more |}.
Proof.
  intros Hwf Hmore. cbn [well_formed_tapeinfo_line] in Hwf.
  apply andb_true_iff in Hwf as [Hwf Hblank]. apply andb_true_iff in Hwf as [Hcode Htxt].
  apply numeral_parts in Hcode as [Hne Hd]. apply negb_true_iff in Hblank.
  apply (match_here_some _ _ _ {| pending := []; closed := [code; txt] |}).
  cbn [tapeinfo_line_text].
  replace (("TapeAlert[" ++ code ++ "]:" ++ spaces (S pad) ++ txt) ++ more)
    with ("TapeAlert[" ++ code ++ String "]" (String ":" (spaces (S pad) ++ txt ++ more)))
    by same_text.
  unfold alert_items. rewrite lits_match. cbn [rmatch].
  rewrite plus_run; [| assumption | assumption | | reflexivity].
  2: { intros x s g Hx. cbn [rmatch one accepts].
       destruct (Ascii.eqb_spec "]" x) as [<- | _]; [discriminate Hx | reflexivity]. }
  cbn [rmatch one accepts]. change (Ascii.eqb "]" "]") with true.
  change (Ascii.eqb ":" ":") with true. cbv iota.
  rewrite (group_closed code (String "]" (String ":" (spaces (S pad) ++ txt ++ more)))).
  cbn [pending closed List.app].
  apply (plus_greedy (Lit " ") _ (spaces (S pad)) (txt ++ more)).
  - reflexivity.
  - apply spaces_blank.
  - destruct txt as [| x t]; cbn [append].
    + destruct Hmore as [-> | [t ->]]; [exact I | reflexivity].
    + cbn [String.prefix] in Hblank. cbn [stops accepts].
      destruct (Ascii.ascii_dec " " x) as [<- | Hx]; [destruct t; discriminate Hblank |].
      apply Ascii.eqb_neq. exact Hx.
  - apply (group_to_line_end txt more {| pending := []; closed := [code] |});
      [reflexivity | exact Htxt | exact Hmore].
Qed.

Lemma tapealerts (ls : list tapeinfo_line) :
  forallb well_formed_tapeinfo_line ls = true ->
  findall2 "TapeAlert\[(\d+)\]: +(.*)" (tapeinfo_text ls) = alerts ls.
Proof.
  intros Hwf. unfold findall2. rewrite alert_pattern.
  set (r := {| anchored := false; items := alert_items |}).
  rewrite (iter_flag r _ _ _ eq_refl).
  assert (Hfeed : forall more, iter r 0 false (nl ++ more) = iter r 0 false more).
  { intros more. apply (iter_nowhere r nl more eq_refl). unfold nl.
    apply nowhere_cons; [reflexivity | apply nowhere_nil]. }
  unfold tapeinfo_text, lines_text.
  induction ls as [| l ls IH]; [reflexivity |].
  cbn [forallb] in Hwf. apply andb_true_iff in Hwf as [Hl Hls]. specialize (IH Hls).
  cbn [map alerts flat_map]. rewrite concat_cons.
  set (more := String.concat "" (map (fun l0 => l0 ++ nl) (map tapeinfo_line_text ls))) in *.
  assert (Etext : (tapeinfo_line_text l ++ nl) ++
                  match map (fun l0 => l0 ++ nl) (map tapeinfo_line_text ls) with
                  | [] => ""
                  | _ :: _ => "" ++ more
                  end = tapeinfo_line_text l ++ nl ++ more).
  { rewrite app_assoc_s. subst more. destruct (map _ (map _ ls)); reflexivity. }
  rewrite Etext.
  destruct l as [code pad txt | txt].
  - rewrite (iter_match r _ (nl ++ more) [code; txt] eq_refl).
    + cbn [map group nth]. rewrite Hfeed. fold (alerts ls). rewrite <- IH. reflexivity.
    + discriminate.
    + apply (alert_line_match code pad txt (nl ++ more) Hl). right. eexists. reflexivity.
  - cbn [well_formed_tapeinfo_line] in Hl. apply andb_true_iff in Hl as [Hplain Hno].
    apply negb_true_iff in Hno. cbn [tapeinfo_line_text].
    rewrite (iter_nowhere r txt (nl ++ more) eq_refl).
    + rewrite Hfeed. exact IH.
    + apply (nowhere_without r "TapeAlert["
               [Open; Plus Dig; Close; One (Lit "]"); One (Lit ":"); Plus (Lit " "); Open;
                Star Dot; Close]); [reflexivity | reflexivity | exact Hno |].
      right. eexists. reflexivity.
Qed.

Section Alerts.

Variable cfg : config.
Variable req : request.
Variable shell : list event -> string -> CompletedProcess.
Variable rnd : nat.

(** X24: the alerts that [do_checkdrive] reads.  When the check is not
    left early and the node of the drive is found, the answer of
    [tapeinfo] is read line by line: every line [TapeAlert[n]: text] is an
    alert with the number [n] and the text behind the blanks.  With
    [auto_clean] set and an alert whose number (or whole text) is 20 or
    21, [do_clean] is called with the cleaning tapes of the listing, and
    the check returns 0 when [do_clean] returns; in every other case the
    check returns 0 with no command after [tapeinfo]. *)
Theorem checkdrive_alerts (fuel : nat) (all_slots sg : string) (h evs : list event)
  (ls : list tapeinfo_line) :
  auto_clean cfg = false \/ chk_for_cln_tapes cfg all_slots <> [] ->
  do_get_sg_node cfg req shell h = (Ret (Some sg), evs) ->
  stdout (shell (h ++ evs)%list (tapeinfo_bin cfg ++ " -f " ++ sg)) = tapeinfo_text ls ->
  forallb well_formed_tapeinfo_line ls = true ->
  let read := (evs ++ [Run (tapeinfo_bin cfg ++ " -f " ++ sg)])%list in
  do_checkdrive cfg req shell rnd (S fuel) all_slots h =
  if auto_clean cfg && clean_drive_alert (alerts ls)
  then
    let run := do_clean cfg req shell rnd fuel all_slots (chk_for_cln_tapes cfg all_slots)
                 (h ++ read)%list in
    (match fst run with
     | Ret _ => Ret 0%Z
     | Exit c => Exit c
     | Raise e => Raise e
     end, (read ++ snd run)%list)
  else (Ret 0%Z, read).
Proof.
  intros Hcase Hsg Hout Hwf read. rewrite do_checkdrive_eq. cbv zeta.
  assert (Hgo : auto_clean cfg && (List.length (chk_for_cln_tapes cfg all_slots) =? 0)%nat = false).
  { destruct Hcase as [-> | Hne]; [reflexivity |].
    destruct (chk_for_cln_tapes cfg all_slots); [contradiction |]. apply andb_false_r. }
  rewrite Hgo. rewrite (bind_Ret _ _ _ _ _ Hsg). cbn [fst snd].
  rewrite (bind_Ret (get_shell_result shell (tapeinfo_bin cfg ++ " -f " ++ sg)) _ _ _ _ eq_refl).
  cbn [fst snd]. rewrite Hout, (tapealerts ls Hwf).
  assert (Hnone : (0 <? List.length (alerts ls))%nat = false -> clean_drive_alert (alerts ls) = false).
  { destruct (alerts ls); [reflexivity | discriminate]. }
  destruct (clean_drive_alert (alerts ls)) eqn:Ec.
  - destruct (0 <? List.length (alerts ls))%nat; [| discriminate (Hnone eq_refl)].
    destruct (auto_clean cfg); cbn [andb].
    + rewrite fst_bind, snd_bind. subst read. rewrite <- !app_assoc.
      destruct (do_clean cfg req shell rnd fuel all_slots (chk_for_cln_tapes cfg all_slots) _)
        as [[[] | c | e] evs'];
        cbn [fst snd ret]; rewrite ?app_nil_r; reflexivity.
    + cbn [bind ret fst snd]. unfold bind, ret. cbn [fst snd app]. subst read.
      rewrite ?app_nil_r. reflexivity.
  - rewrite andb_false_r.
    destruct (0 <? List.length (alerts ls))%nat; unfold bind, ret; cbn [fst snd app]; subst read;
      rewrite ?app_nil_r; reflexivity.
Qed.

End Alerts.

Lemma checkdrive_alerts_witness :
  do_checkdrive sample_config unload_5_from_0 alert_shell 0 4 tape_in_drive_1 [] =
  (Ret 0%Z, [Run "lsscsi -ug"; Run "tapeinfo -f /dev/sg2"; Run "mtx -f /dev/sg3 load 3 0";
             Sleep 5; Run "mtx -f /dev/sg3 unload 3 0"]).
Proof.
  apply (checkdrive_alerts sample_config unload_5_from_0 alert_shell 0 3 tape_in_drive_1
           "/dev/sg2" [] [Run "lsscsi -ug"] dirty_tapeinfo).
  - right. vm_compute. discriminate.
  - vm_compute. reflexivity.
  - reflexivity.
  - reflexivity.
Defined.

(** ** The ready text *)

Lemma match_here_lits (P s : string) :
  is_some (match_here (lits P) s) = String.prefix P s.
Proof.
  destruct (String.prefix P s) eqn:E.
  - destruct (prefix_split P s E) as [t ->]. unfold match_here. rewrite lits_end. reflexivity.
  - unfold match_here. rewrite <- (app_nil_r (lits P)), lits_mismatch by exact E. reflexivity.
Qed.

Lemma match_here_follows (P : string) (c : cls) : forall (s : string),
  is_some (match_here (lits P ++ [One c]) s) = follows P (accepts c) s.
Proof.
  unfold match_here. generalize {| pending := []; closed := [] |}.
  induction P as [| a P IH]; intros g s.
  - destruct s as [| b s]; cbn [lits List.app rmatch one follows]; [reflexivity |].
    destruct (accepts c b); reflexivity.
  - destruct s as [| b s]; cbn [lits List.app rmatch one follows accepts]; [reflexivity |].
    destruct (Ascii.eqb a b); cbn [andb]; [| reflexivity].
    specialize (IH g s).
    destruct (rmatch (lits P ++ [One c]) accept s g) as [[s' g'] |]; exact IH.
Qed.

(** A search with a plain text finds what contains the text. *)
Lemma search_lits (P : string) : forall (s : string) (b : bool),
  is_some (scan {| anchored := false; items := lits P |} b s) = contains P s.
Proof.
  induction s as [| a s IH]; intros b; cbn [scan contains]; unfold try; cbn [anchored items andb];
    pose proof (match_here_lits P) as H.
  - specialize (H ""). destruct (match_here (lits P) ""); cbn [is_some] in *; rewrite <- H;
      reflexivity.
  - specialize (H (String a s)).
    destruct (match_here (lits P) (String a s)); cbn [is_some] in *; rewrite <- H;
      [reflexivity | apply IH].
Qed.

Lemma search_lits_before (P : string) (c : cls) : forall (s : string) (b : bool),
  is_some (scan {| anchored := false; items := (lits P ++ [One c])%list |} b s) =
  contains_before P (accepts c) s.
Proof.
  induction s as [| a s IH]; intros b; cbn [scan contains_before]; unfold try;
    cbn [anchored items andb]; pose proof (match_here_follows P c) as H.
  - specialize (H ""). destruct (match_here _ ""); cbn [is_some] in *; rewrite <- H;
      reflexivity.
  - specialize (H (String a s)).
    destruct (match_here _ (String a s)); cbn [is_some] in *; rewrite <- H;
      [reflexivity | apply IH].
Qed.

(** X25: the ready text.  [get_ready_str] asks [uname] first and runs
    one command more at most; it never raises.  On an
    unknown system it prints the error line and the usage texts and exits
    with code 1.  Otherwise it returns one of four texts, which
    [do_wait_for_drive] uses as a pattern: a drive is ready when the answer
    of [mt] contains the text, for the text of FreeBSD with any character
    but a line feed in the place of the full stop at its end. *)
Theorem ready_text (shell : list event -> string -> CompletedProcess) (isfile : string -> bool)
  (doc_opt_str prog_info_txt : string) (h : list event) :
  let run := get_ready_str shell isfile doc_opt_str prog_info_txt h in
  match fst run with
  | Ret ready =>
      (In ready ["drive status"; "ONLINE"; "No Additional Sense"] /\
       forall out, is_some (search ready out) = contains ready out) \/
      (ready = "Current Driver State: at rest." /\
       forall out, is_some (search ready out) =
                   contains_before "Current Driver State: at rest" no_newline out)
  | Exit code =>
      code = 1%Z /\
      snd run = [Run "uname"; Output (nl ++ print_opt_errors_uname); Output doc_opt_str;
                 Output prog_info_txt]
  | Raise _ => False
  end /\
  exists probe, snd run = Run "uname" :: probe /\ (List.length (commands probe) <= 1)%nat.
Proof.
  intros run. subst run. unfold get_ready_str.
  rewrite (bind_Ret (get_shell_result shell "uname") _ _ _ _ eq_refl). cbn [fst snd].
  assert (H1 : forall out, is_some (search "drive status" out) = contains "drive status" out)
    by (intros out; apply (search_lits "drive status")).
  assert (H2 : forall out, is_some (search "ONLINE" out) = contains "ONLINE" out)
    by (intros out; apply (search_lits "ONLINE")).
  assert (H3 : forall out, is_some (search "No Additional Sense" out) =
                           contains "No Additional Sense" out)
    by (intros out; apply (search_lits "No Additional Sense")).
  assert (H4 : forall out, is_some (search "Current Driver State: at rest." out) =
                           contains_before "Current Driver State: at rest" no_newline out)
    by (intros out; apply (search_lits_before "Current Driver State: at rest" Dot)).
  destruct (String.eqb (stdout (shell h "uname")) ("Linux" ++ nl)).
  { destruct (isfile "/etc/debian_version").
    - rewrite (bind_Ret (get_shell_result shell mt_st_cmd) _ _ _ _ eq_refl). cbn [fst snd].
      destruct (returncode _ =? 1)%Z; (split; [left; cbn; auto | eexists; split; [reflexivity | cbn; lia]]).
    - rewrite (bind_Ret (get_shell_result shell gnu_cpio_cmd) _ _ _ _ eq_refl). cbn [fst snd].
      destruct (returncode _ =? 0)%Z; (split; [left; cbn; auto | eexists; split; [reflexivity | cbn; lia]]). }
  destruct (String.eqb (stdout (shell h "uname")) ("SunOS" ++ nl)).
  { split; [left; cbn; auto | eexists; split; [reflexivity | cbn; lia]]. }
  destruct (String.eqb (stdout (shell h "uname")) ("FreeBSD" ++ nl)).
  { split; [right; cbn; auto | eexists; split; [reflexivity | cbn; lia]]. }
  split; [cbn; auto | eexists; split; [reflexivity | cbn; lia]].
Qed.

(** ** The sg node of a drive that is named by its id *)

(** A lazy repetition stops at the first place that the pattern goes on
    from. *)
Lemma lazy_first (c : cls) (k : cont) (rest : string) (g : caps) (r : string * caps) :
  forall (run : string),
    all_chars (accepts c) run = true ->
    (forall s1 s2, run = s1 ++ s2 -> s2 <> "" -> k (s2 ++ rest) g = None) ->
    k rest g = Some r ->
    lazy c k (run ++ rest) g = Some r.
Proof.
  induction run as [| a run IH]; intros Hrun Hfail Hk; cbn [append].
  - destruct rest; cbn [lazy]; rewrite Hk; reflexivity.
  - cbn in Hrun. apply andb_true_iff in Hrun as [Ha Hrun].
    pose proof (Hfail "" (String a run) eq_refl ltac:(discriminate)) as H0.
    cbn [append] in H0. cbn [lazy]. rewrite H0, Ha.
    apply IH; [exact Hrun | | exact Hk].
    intros s1 s2 -> Hne. apply (Hfail (String a s1) s2); [reflexivity | exact Hne].
Qed.

(** The id of the drive, from the device [/dev/tape/by-id/scsi-3...]. *)
Lemma st_of_id (wwn tail : string) :
  label wwn = true -> all_chars no_newline tail = true ->
  sub "/dev/tape/by-id/scsi-3(.+?)-.*" "\1" ("/dev/tape/by-id/scsi-3" ++ wwn ++ "-" ++ tail) = wwn.
Proof.
  intros Hw Ht. apply label_parts in Hw as [Hne Hword].
  set (device := "/dev/tape/by-id/scsi-3" ++ wwn ++ "-" ++ tail).
  assert (Hm : match_here (items (compile "/dev/tape/by-id/scsi-3(.+?)-.*")) (device ++ "") =
               Some {| text := device; groups := [wwn]; rest := "" |}).
  { apply (match_here_some _ device "" {| pending := []; closed := [wwn] |}).
    change (items (compile "/dev/tape/by-id/scsi-3(.+?)-.*"))
      with (lits "/dev/tape/by-id/scsi-3"
            ++ [Open; PlusLazy Dot; Close; One (Lit "-"); Star Dot])%list.
    subst device.
    replace (("/dev/tape/by-id/scsi-3" ++ wwn ++ "-" ++ tail) ++ "")
      with ("/dev/tape/by-id/scsi-3" ++ wwn ++ "-" ++ tail) by (symmetry; apply app_empty_r).
    rewrite lits_match. cbn [rmatch].
    assert (Hk : rmatch [Close; One (Lit "-"); Star Dot] accept ("-" ++ tail)
                   (open_group (wwn ++ "-" ++ tail) {| pending := []; closed := [] |}) =
                 Some ("", {| pending := []; closed := [wwn] |})).
    { cbn [rmatch]. rewrite (group_closed wwn ("-" ++ tail)).
      cbn [append one accepts pending closed List.app].
      change (Ascii.eqb "-" "-") with true. cbv iota.
      rewrite <- (app_empty_r tail) at 1. apply star_accept; [exact Ht | exact I]. }
    set (g2 := open_group _ _) in *.
    destruct wwn as [| x w]; [discriminate Hne |].
    cbn in Hword. apply andb_true_iff in Hword as [Hx Hw].
    cbn [append one]. change (accepts Dot x) with (no_newline x).
    rewrite (word_no_newline x Hx).
    apply (lazy_first Dot _ ("-" ++ tail) g2).
    - apply words_no_newline. exact Hw.
    - intros s1 s2 -> Hs2. destruct s2 as [| y s2]; [contradiction |].
      rewrite all_chars_app in Hw. apply andb_true_iff in Hw as [_ Hw].
      cbn in Hw. apply andb_true_iff in Hw as [Hy _].
      cbn [append rmatch one accepts].
      destruct (Ascii.eqb_spec "-" y) as [<- | _]; [discriminate Hy | reflexivity].
    - exact Hk. }
  rewrite <- (app_empty_r device) at 1.
  change (device ++ "") with ("" ++ device ++ "").
  rewrite (sub_once "/dev/tape/by-id/scsi-3(.+?)-.*" "\1" "" device "" [wwn]).
  - cbn [append expand is_digit group nth]. cbn. rewrite ?app_empty_r. reflexivity.
  - reflexivity.
  - reflexivity.
  - apply nowhere_nil.
  - subst device. discriminate.
  - exact Hm.
  - apply nowhere_nil.
Qed.

Lemma contains_mid (x t : string) : forall (p : string), contains x (p ++ x ++ t) = true.
Proof.
  induction p as [| a p IH]; cbn [append]; [apply contains_app |].
  cbn [contains]. rewrite IH. apply orb_true_r.
Qed.

(** X26: the sg node of a drive [/dev/tape/by-id/scsi-3<id>-...], for an
    id of word characters.  The name that [do_get_sg_node] looks for is
    the id, up to the first hyphen behind it.  In the answer of
    [lsscsi -ug], when no line before it has the id before a blank, a
    line that has the id before a blank and, behind it, a node [/dev/sg#]
    gives the node: the last node of that line is returned, and
    [lsscsi -ug] is the only command. *)
Theorem sg_node_of_id (cfg : config) (req : request)
  (shell : list event -> string -> CompletedProcess) (h : list event)
  (wwn tail : string) (earlier : list string) (a b k c more : string) :
  drive_device req = "/dev/tape/by-id/scsi-3" ++ wwn ++ "-" ++ tail ->
  label wwn = true -> all_chars no_newline tail = true ->
  contains "/dev/st" (drive_device req) = false ->
  contains "/dev/nst" (drive_device req) = false ->
  stdout (shell h (lsscsi_bin cfg ++ " -ug")) =
    lines_text earlier ++ (a ++ wwn ++ " " ++ b ++ "/dev/sg" ++ k ++ c) ++ more ->
  forallb (other_drive wwn) earlier = true ->
  all_chars no_newline a = true -> all_chars no_newline b = true ->
  all_chars no_newline c = true ->
  numeral k = true -> stops Dig c -> contains "/dev/sg" c = false -> line_end more ->
  do_get_sg_node cfg req shell h =
  (Ret (Some ("/dev/sg" ++ k)), [Run (lsscsi_bin cfg ++ " -ug")]).
Proof.
  intros Hdev Hw Ht Hst Hnst Hout Hearlier Ha Hb Hc Hk Hstop Hsg Hmore.
  unfold do_get_sg_node. rewrite Hst, Hnst. cbn [orb]. rewrite Hdev.
  assert (Hid : contains "/by-id" ("/dev/tape/by-id/scsi-3" ++ wwn ++ "-" ++ tail) = true)
    by apply (contains_mid "/by-id" ("/scsi-3" ++ wwn ++ "-" ++ tail) "/dev/tape").
  rewrite Hid, (st_of_id wwn tail Hw Ht).
  unfold bind, ret, get_shell_result. cbn [fst snd app]. rewrite app_nil_r, Hout.
  apply label_parts in Hw as [_ Hword].
  rewrite (sg_search wwn earlier a b k c more) by assumption.
  reflexivity.
Qed.

Lemma sg_node_of_id_witness :
  do_get_sg_node sample_config unload_5_by_id lsscsi_id_shell [] =
  (Ret (Some "/dev/sg2"), [Run "lsscsi -ug"]).
Proof.
  apply (sg_node_of_id sample_config unload_5_by_id lsscsi_id_shell [] "50223344ab001200" "nst"
           ["[0:0:0:0]    disk    35000c500a1b2c3d4      /dev/sda   /dev/sg0"]
           "[1:0:0:0]    tape    3" "     /dev/st0   " "2" "" nl);
    try reflexivity; try exact I.
  right. exists "". reflexivity.
Defined.

(** ** The sg node of a drive that is named by its path *)

Lemma rstrip_nl_line (t : string) :
  all_chars no_newline t = true -> nonempty t = true -> rstrip_nl (t ++ nl) = t.
Proof.
  induction t as [| a t IH]; intros Ht Hne; [discriminate Hne |].
  cbn in Ht. apply andb_true_iff in Ht as [Ha Ht].
  cbn [append rstrip_nl]. destruct t as [| b t].
  - cbn [append nl rstrip_nl]. change (Ascii.eqb newline newline) with true. cbv iota.
    unfold no_newline in Ha. apply negb_true_iff in Ha. rewrite Ha. reflexivity.
  - rewrite (IH Ht eq_refl). reflexivity.
Qed.

Section LinkTarget.

Variables (n : string) (rewind : bool).
Hypothesis Hn : numeral n = true.

Lemma st_here (g : caps) :
  rmatch st_items accept ("/" ++ st_node rewind n) g = Some (st_found n g).
Proof.
  apply numeral_parts in Hn as [Hne Hd].
  assert (Hst : forall g',
            rmatch [Open; One (Lit "s"); One (Lit "t"); Plus Dig; Close; Star Dot] accept
              (("st" ++ n) ++ "") g' = Some (st_found n g')).
  { intros g'. cbn [rmatch]. set (g2 := open_group _ g').
    cbn [append one accepts]. change (Ascii.eqb "s" "s") with true.
    change (Ascii.eqb "t" "t") with true. cbv iota.
    rewrite (plus_greedy Dig _ n "" g2 ("", close_group "" g2));
      [| assumption | assumption | exact I | reflexivity].
    subst g2. rewrite group_closed. reflexivity. }
  unfold st_items, st_node. cbn [rmatch append one accepts]. change (Ascii.eqb "/" "/") with true.
  cbv iota. destruct rewind; cbn [append].
  - change (String "s" (String "t" n)) with ("" ++ ("st" ++ n)).
    rewrite <- (app_empty_r ("st" ++ n)).
    apply (star_greedy (Lit "n") _ "" (("st" ++ n) ++ "") g); [reflexivity | reflexivity |].
    apply Hst.
  - change (String "n" (String "s" (String "t" n))) with ("n" ++ ("st" ++ n)).
    rewrite <- (app_empty_r ("st" ++ n)).
    apply (star_greedy (Lit "n") _ "n" (("st" ++ n) ++ "") g); [reflexivity | reflexivity |].
    apply Hst.
Qed.

(** No directory ends in the name of the device. *)
Lemma st_not_behind (u t : string) (g : caps) :
  st_node rewind n = u ++ t -> rmatch st_items accept t g = None.
Proof.
  intros E. unfold st_items. cbn [rmatch].
  destruct t as [| x t]; [reflexivity |]. cbn [one accepts].
  destruct (Ascii.eqb_spec "/" x) as [<- | _]; [| reflexivity].
  exfalso. apply numeral_parts in Hn as [_ Hd].
  assert (Hall : all_chars (fun a => negb (Ascii.eqb a "/")) (st_node rewind n) = true).
  { unfold st_node. rewrite !all_chars_app.
    rewrite (all_chars_impl is_digit (fun a => negb (Ascii.eqb a "/")) n).
    - destruct rewind; reflexivity.
    - intros a Ha. destruct (Ascii.eqb_spec a "/") as [-> | _]; [discriminate Ha | reflexivity].
    - exact Hd. }
  rewrite E, all_chars_app in Hall. apply andb_true_iff in Hall as [_ Hall]. discriminate Hall.
Qed.

Lemma st_fails_inside : fails_inside Dot (rmatch st_items accept) ("/" ++ st_node rewind n).
Proof.
  intros y1 y2 g E Hne Hy1. destruct y1 as [| x y1]; [contradiction |].
  cbn [append] in E. injection E as _ E. apply (st_not_behind y1 y2). exact E.
Qed.

End LinkTarget.

(** A greedy repetition in a text of one line, when the pattern goes on
    from some place and gives the same from every place that it goes on
    from. *)
Lemma star_same_text (k : cont) (t : string) (g : caps) (r : string * caps) :
  all_chars no_newline t = true ->
  (exists t1 t2, t = t1 ++ t2 /\ k t2 g = Some r) ->
  (forall t1 t2 r', t = t1 ++ t2 -> k t2 g = Some r' -> r' = r) ->
  star Dot k t g = Some r.
Proof.
  intros Ht (t1 & t2 & E & Hk) Hsame. rewrite <- (app_empty_r t).
  apply star_same_line; [exact Ht | left; reflexivity | |].
  - exists t1, t2. rewrite app_empty_r. split; assumption.
  - intros u1 u2 r' Eu Hu. rewrite app_empty_r in Hu. apply (Hsame u1 u2 r' Eu Hu).
Qed.

Section LinkLine.

Variables (pre dir n : string) (rewind : bool).
Hypothesis Hpre : all_chars no_newline pre = true.
Hypothesis Hdir : all_chars no_newline dir = true.
Hypothesis Hn : numeral n = true.

Lemma st_node_plain : all_chars no_newline (st_node rewind n) = true.
Proof.
  apply numeral_parts in Hn as [_ Hd]. unfold st_node. rewrite !all_chars_app.
  rewrite (all_chars_impl is_digit no_newline n).
  - destruct rewind; reflexivity.
  - intros x Hx. unfold no_newline. destruct (Ascii.eqb_spec x newline) as [-> | _];
      [discriminate Hx | reflexivity].
  - exact Hd.
Qed.

(** The name of the device is found from every place before its
    directory ends, and from no place behind. *)
Lemma st_from (p t u : string) (g : caps) (r : string * caps) :
  all_chars no_newline u = true -> p ++ t = u ++ "/" ++ st_node rewind n ->
  star Dot (rmatch st_items accept) t g = Some r -> r = st_found n g.
Proof.
  intros Hu E H.
  destruct (app_cuts p t _ _ E) as [(w & Ep & Et) | (x & w & Ep & Et)].
  - destruct w as [| x w].
    + change ("" ++ t) with t in Et. rewrite <- Et in H.
      change ("/" ++ st_node rewind n) with ("" ++ "/" ++ st_node rewind n) in H.
      rewrite (star_last Dot _ "" _ g (st_found n g) eq_refl (st_here n rewind Hn g)
                 (st_fails_inside n rewind Hn)) in H.
      injection H as <-. reflexivity.
    + cbn [append] in Et. injection Et as _ Et.
      rewrite star_none in H; [discriminate H |].
      intros y1 y2 -> Hy1. apply (st_not_behind n rewind Hn (w ++ y1) y2).
      rewrite Et. symmetry. apply app_assoc_s.
  - rewrite Et in H.
    assert (Hx : all_chars no_newline (String x w) = true).
    { rewrite Ep, all_chars_app in Hu. apply andb_true_iff in Hu as [_ Hu]. exact Hu. }
    rewrite (star_last Dot _ (String x w) _ g (st_found n g) Hx (st_here n rewind Hn g)
               (st_fails_inside n rewind Hn)) in H.
    injection H as <-. reflexivity.
Qed.

Lemma link_match :
  match_here (items (compile ".* -> .*/n*(st\d+).*"))
    ((pre ++ " -> " ++ dir ++ "/" ++ st_node rewind n) ++ "") =
  Some {| text := pre ++ " -> " ++ dir ++ "/" ++ st_node rewind n;
          groups := [("st" ++ n)%string]; rest := "" |}.
Proof.
  apply (match_here_some _ _ _ {| pending := []; closed := [("st" ++ n)%string] |}).
  set (g0 := {| pending := []; closed := [] |}).
  change (items (compile ".* -> .*/n*(st\d+).*"))
    with (Star Dot :: lits " -> " ++ Star Dot :: st_items)%list.
  cbn [rmatch]. rewrite app_empty_r.
  assert (Htext : all_chars no_newline (pre ++ " -> " ++ dir ++ "/" ++ st_node rewind n) = true).
  { rewrite (all_chars_app _ pre), (all_chars_app _ " -> "), (all_chars_app _ dir),
      (all_chars_app _ "/"), Hpre, Hdir, st_node_plain. reflexivity. }
  apply (star_same_text _ _ g0 (st_found n g0) Htext).
  - exists pre, (" -> " ++ dir ++ "/" ++ st_node rewind n). split; [reflexivity |].
    rewrite lits_match. cbn [rmatch].
    apply (star_last Dot _ dir _ g0 (st_found n g0) Hdir (st_here n rewind Hn g0)
             (st_fails_inside n rewind Hn)).
  - intros t1 t2 r' E H.
    destruct (String.prefix " -> " t2) eqn:Ep.
    + destruct (prefix_split _ _ Ep) as [t3 ->].
      rewrite lits_match in H. cbn [rmatch] in H.
      apply (st_from (t1 ++ " -> ") t3 (pre ++ " -> " ++ dir) g0 r'); [| | exact H].
      * rewrite (all_chars_app _ pre), (all_chars_app _ " -> "), Hpre, Hdir. reflexivity.
      * rewrite app_assoc_s, <- E. rewrite !app_assoc_s. reflexivity.
    + rewrite lits_mismatch in H; [discriminate H | exact Ep].
Qed.

(** The name of the drive, from the answer of [ls -l] for the link. *)
Lemma st_of_link :
  sub ".* -> .*/n*(st\d+).*" "\1"
    (rstrip_nl ((pre ++ " -> " ++ dir ++ "/" ++ st_node rewind n) ++ nl)) = "st" ++ n.
Proof.
  set (t := pre ++ " -> " ++ dir ++ "/" ++ st_node rewind n).
  assert (Htext : all_chars no_newline t = true).
  { subst t. rewrite (all_chars_app _ pre), (all_chars_app _ " -> "), (all_chars_app _ dir),
      (all_chars_app _ "/"), Hpre, Hdir, st_node_plain. reflexivity. }
  assert (Hne : t <> "").
  { subst t. destruct pre; discriminate. }
  rewrite rstrip_nl_line; [| exact Htext | destruct t; [contradiction | reflexivity]].
  rewrite <- (app_empty_r t) at 1.
  change (t ++ "") with ("" ++ t ++ "").
  rewrite (sub_once ".* -> .*/n*(st\d+).*" "\1" "" t "" [("st" ++ n)%string]).
  - cbn [append expand is_digit group nth]. cbn. rewrite ?app_empty_r. reflexivity.
  - reflexivity.
  - reflexivity.
  - apply nowhere_nil.
  - exact Hne.
  - apply link_match.
  - apply nowhere_nil.
Qed.

End LinkLine.

(** X27: the sg node of a drive [/dev/tape/by-path/...].  [ls -l] is
    asked for the link; from its answer [... -> <dir>/st#] or
    [... -> <dir>/nst#] the name of the drive is [st#], and the node is the
    one that the answer of [lsscsi -ug] gives for this name: when no line
    before it has the name before a blank, the last node [/dev/sg#] of a
    line that has the name before a blank and a node behind it.  The two
    commands are the only ones. *)
Theorem sg_node_of_path (cfg : config) (req : request)
  (shell : list event -> string -> CompletedProcess) (h : list event)
  (pre dir n : string) (rewind : bool) (earlier : list string) (a b k c more : string) :
  contains "/dev/st" (drive_device req) = false ->
  contains "/dev/nst" (drive_device req) = false ->
  contains "/by-id" (drive_device req) = false ->
  contains "/by-path" (drive_device req) = true ->
  let ls := "ls -l " ++ drive_device req in
  stdout (shell h ls) = (pre ++ " -> " ++ dir ++ "/" ++ st_node rewind n) ++ nl ->
  all_chars no_newline pre = true -> all_chars no_newline dir = true -> numeral n = true ->
  let st := "st" ++ n in
  stdout (shell (h ++ [Run ls])%list (lsscsi_bin cfg ++ " -ug")) =
    lines_text earlier ++ (a ++ st ++ " " ++ b ++ "/dev/sg" ++ k ++ c) ++ more ->
  forallb (other_drive st) earlier = true ->
  all_chars no_newline a = true -> all_chars no_newline b = true ->
  all_chars no_newline c = true ->
  numeral k = true -> stops Dig c -> contains "/dev/sg" c = false -> line_end more ->
  do_get_sg_node cfg req shell h =
  (Ret (Some ("/dev/sg" ++ k)), [Run ls; Run (lsscsi_bin cfg ++ " -ug")]).
Proof.
  intros Hst Hnst Hid Hpath ls Hls Hpre Hdir Hn st Hout Hearlier Ha Hb Hc Hk Hstop Hsg Hmore.
  assert (Hword : all_chars is_word st = true).
  { apply numeral_parts in Hn as [_ Hd]. subst st.
    change ("st" ++ n) with (String "s" (String "t" n)). cbn [all_chars].
    rewrite (digits_are_words n Hd). reflexivity. }
  unfold do_get_sg_node. rewrite Hst, Hnst, Hid, Hpath. cbn [orb]. fold ls.
  unfold bind, ret, get_shell_result. cbn [fst snd app]. rewrite ?app_nil_r.
  rewrite Hls, (st_of_link pre dir n rewind Hpre Hdir Hn). fold st.
  rewrite Hout, (sg_search st earlier a b k c more) by assumption.
  reflexivity.
Qed.

Lemma sg_node_of_path_witness :
  do_get_sg_node sample_config unload_5_by_path by_path_shell [] =
  (Ret (Some "/dev/sg2"),
   [Run "ls -l /dev/tape/by-path/pci-0000:03:00.0-sas-nst"; Run "lsscsi -ug"]).
Proof.
  apply (sg_node_of_path sample_config unload_5_by_path by_path_shell []
           "lrwxrwxrwx 1 root root 10 Jan  1 00:00 /dev/tape/by-path/pci-0000:03:00.0-sas-nst"
           "../.." "0" false
           ["[0:0:0:0]    disk    ATA      /dev/sda   /dev/sg0"]
           "[1:0:0:0]    tape    IBM      /dev/" "  " "2" "" nl);
    try reflexivity; try exact I.
  right. exists "". reflexivity.
Defined.

(** ** A drive whose line does not name a slot *)

(** Lines in which a pattern matches nowhere. *)
Lemma lines_nowhere (r : regex) (good : string -> bool) (ls : list string) (rest : string) :
  (forall l more, good l = true -> line_end more -> nowhere r l more) ->
  (forall more, nowhere r nl more) ->
  forallb good ls = true -> nowhere r (lines_text ls) rest.
Proof.
  intros Hline Hfeed. induction ls as [| l ls IH]; intros H; [apply nowhere_nil |].
  cbn [forallb] in H. apply andb_true_iff in H as [Hl Hls].
  assert (E : lines_text (l :: ls) = (l ++ nl) ++ lines_text ls).
  { unfold lines_text. cbn [map]. rewrite concat_cons.
    destruct (map _ ls); [cbn [String.concat]; rewrite !app_empty_r |]; reflexivity. }
  rewrite E. apply nowhere_app; [| apply IH; exact Hls].
  apply nowhere_app; [| apply Hfeed].
  apply Hline; [exact Hl |]. right. eexists. reflexivity.
Qed.

(** A pattern tied to the start of the text that does not match there
    leaves the text as it is. *)
Lemma sub_anchored_none (pattern repl s : string) :
  anchored (compile pattern) = true -> match_here (items (compile pattern)) s = None ->
  sub pattern repl s = s.
Proof.
  intros Hr Hm. unfold sub. destruct s as [| a s]; cbn [subst]; unfold try; rewrite Hr;
    cbn [andb negb]; rewrite Hm; [reflexivity |].
  rewrite (subst_anchored _ _ _ Hr). reflexivity.
Qed.

Lemma contains_before_suffix (x : string) (f : ascii -> bool) : forall (s1 s2 : string),
  contains_before x f (s1 ++ s2) = false -> follows x f s2 = false.
Proof.
  induction s1 as [| a s1 IH]; intros s2 H; cbn [append] in H.
  - destruct s2; cbn [contains_before] in H; apply orb_false_iff in H; apply H.
  - cbn [contains_before] in H. apply orb_false_iff in H as [_ H]. apply IH. exact H.
Qed.

(** A text and then a group that begins with a character of a class. *)
Lemma lits_group_follows (x : string) (c : cls) (p : list item) (k : cont) :
  forall (s : string) (g : caps),
    follows x (accepts c) s = false -> rmatch (lits x ++ Open :: Plus c :: p) k s g = None.
Proof.
  induction x as [| a x IH]; intros s g H.
  - destruct s as [| b s]; cbn [lits List.app rmatch one]; [reflexivity |].
    cbn [follows] in H. rewrite H. reflexivity.
  - destruct s as [| b s]; cbn [lits List.app rmatch one accepts]; [reflexivity |].
    cbn [follows] in H. destruct (Ascii.eqb a b); [apply IH; exact H | reflexivity].
Qed.

(** A text that begins with [E] is not in a run of other characters. *)
Lemma contains_before_skip (x : string) (f : ascii -> bool) (s : string) : forall (p : string),
  all_chars (fun a => negb (Ascii.eqb "E" a)) p = true ->
  contains_before (String "E" x) f (p ++ s) = contains_before (String "E" x) f s.
Proof.
  induction p as [| a p IH]; intros Hp; [reflexivity |].
  cbn [all_chars] in Hp. apply andb_true_iff in Hp as [Ha Hp]. apply negb_true_iff in Ha.
  cbn [append contains_before follows]. rewrite Ha, (IH Hp). reflexivity.
Qed.

Section UnknownSource.

Variables (idx tail : string).
Hypothesis Hidx : numeral idx = true.
Hypothesis Htail : all_chars no_newline tail = true.
Hypothesis Hslot : contains_before "Element " is_digit tail = false.

Lemma full_drive_head_plain : all_chars no_newline (full_drive_head idx) = true.
Proof.
  apply numeral_parts in Hidx as [_ Hd]. unfold full_drive_head.
  rewrite !all_chars_app. rewrite (words_no_newline idx (digits_are_words idx Hd)). reflexivity.
Qed.

Lemma unknown_source_line (more : string) :
  line_end more ->
  match_here (lits "Data Transfer Element " ++ lits idx ++ lits ":Full" ++ [Star Dot])
    ((full_drive_head idx ++ tail) ++ more) =
  Some {| text := full_drive_head idx ++ tail; groups := []; rest := more |}.
Proof.
  intros Hmore. apply (match_here_some _ _ _ {| pending := []; closed := [] |}).
  unfold full_drive_head.
  replace ((("Data Transfer Element " ++ idx ++ ":Full") ++ tail) ++ more)
    with ("Data Transfer Element " ++ idx ++ ":Full" ++ tail ++ more) by same_text.
  rewrite !lits_match. cbn [rmatch].
  apply star_accept; [exact Htail | apply line_end_stops; exact Hmore].
Qed.

Lemma unknown_source_sub :
  sub "^Data Transfer Element.*Element (\d+) Loaded.*= (\w+)" "\1 \2"
    (full_drive_head idx ++ tail) = full_drive_head idx ++ tail.
Proof.
  apply sub_anchored_none; [reflexivity |].
  apply match_here_none.
  change (items (compile "^Data Transfer Element.*Element (\d+) Loaded.*= (\w+)"))
    with (lits "Data Transfer Element" ++ Star Dot
          :: lits "Element " ++ Open :: Plus Dig :: Close
          :: lits " Loaded" ++ Star Dot :: lits "= " ++ [Open; Plus Wrd; Close])%list.
  unfold full_drive_head.
  replace (("Data Transfer Element " ++ idx ++ ":Full") ++ tail)
    with ("Data Transfer Element" ++ (" " ++ idx ++ ":Full") ++ tail) by same_text.
  rewrite lits_match. cbn [rmatch]. apply star_none.
  intros y1 y2 E _. apply lits_group_follows.
  apply (contains_before_suffix "Element " is_digit y1 y2). rewrite <- E.
  rewrite contains_before_skip; [exact Hslot |].
  apply numeral_parts in Hidx as [_ Hd].
  rewrite !all_chars_app.
  rewrite (all_chars_impl is_digit (fun a => negb (Ascii.eqb "E" a)) idx); [reflexivity | | exact Hd].
  intros a Ha. destruct (Ascii.eqb_spec "E" a) as [<- | _]; [discriminate Ha | reflexivity].
Qed.

End UnknownSource.

Lemma split_data_transfer (t : string) :
  split ("Data Transfer " ++ t) = "Data" :: "Transfer" :: split_ws t "".
Proof. reflexivity. Qed.

(** X28: a drive whose line does not name a slot.  When the line of the
    drive of the request says [Full] and has behind that no [Element]
    with a number, as for a volume whose slot the changer does not know,
    the pattern of [do_loaded] for the slot and the label does not match,
    the line is split as it is, and [do_loaded] returns its first word,
    [Data], in the place of a slot. *)
Theorem loaded_without_slot (cfg : config) (req : request)
  (shell : list event -> string -> CompletedProcess) (h : list event)
  (earlier : list string) (tail more : string) :
  let result := shell h (changer_status_cmd cfg req) in
  returncode result = 0%Z ->
  stdout result =
    lines_text earlier ++ (full_drive_head (drive_index req) ++ tail) ++ more ->
  numeral (drive_index req) = true ->
  forallb (other_than_full (drive_index req)) earlier = true ->
  all_chars no_newline tail = true -> contains_before "Element " is_digit tail = false ->
  line_end more ->
  do_loaded cfg req shell h = (Ret "Data", [Run (changer_status_cmd cfg req)]).
Proof.
  intros result Hrc Hout Hidx Hearlier Htail Hslot Hmore.
  pose proof (numeral_parts _ Hidx) as [_ Hd].
  unfold do_loaded, bind, get_shell_result. fold (changer_status_cmd cfg req). fold result.
  rewrite Hrc, Hout. cbn [Z.eqb negb].
  unfold search. rewrite (loaded_pattern _ (digits_are_words _ Hd)).
  rewrite (scan_found _ (lines_text earlier) _
             {| text := full_drive_head (drive_index req) ++ tail; groups := []; rest := more |}
             true).
  - cbn [group text]. rewrite (unknown_source_sub _ tail Hidx Hslot).
    unfold full_drive_head.
    replace (("Data Transfer Element " ++ drive_index req ++ ":Full") ++ tail)
      with ("Data Transfer " ++ "Element " ++ drive_index req ++ ":Full" ++ tail) by same_text.
    rewrite split_data_transfer. reflexivity.
  - reflexivity.
  - apply (lines_nowhere _ (other_than_full (drive_index req))); [| | exact Hearlier].
    + intros l rest Hl Hrest. unfold other_than_full in Hl.
      apply andb_true_iff in Hl as [_ Hno]. apply negb_true_iff in Hno.
      apply (nowhere_without _ (full_drive_head (drive_index req)) [Star Dot]);
        [| apply full_drive_head_plain; exact Hidx | exact Hno | exact Hrest].
      cbn [items]. unfold full_drive_head. rewrite !lits_app, <- !app_assoc. reflexivity.
    + intros rest. unfold nl. apply nowhere_cons; [reflexivity | apply nowhere_nil].
  - apply unknown_source_line; assumption.
Qed.

Lemma loaded_without_slot_witness :
  do_loaded sample_config load_9_into_0 unknown_source_shell [] =
  (Ret "Data", [Run "mtx -f /dev/sg3 status"]).
Proof.
  apply (loaded_without_slot sample_config load_9_into_0 unknown_source_shell []
           ["  Storage Changer /dev/sg3:1 Drives, 2 Slots ( 0 Import/Export )"]
           " (Unknown Storage Element Loaded):VolumeTag = VOL001" nl);
    try reflexivity.
  right. exists "". reflexivity.
Defined.

(** ** The commands that only read *)

Section ReadOnly.

Variable cfg : config.
Variable req : request.
Variable shell : list event -> string -> CompletedProcess.

Lemma inventory_asks (h : list event) :
  Forall (asks_changer cfg req)
    (commands (snd ((if inventory cfg then do_inventory cfg req shell else ret tt) h))).
Proof.
  destruct (inventory cfg); [| apply Forall_nil].
  unfold do_inventory. rewrite snd_bind. cbn [get_shell_result fst snd].
  rewrite commands_app. apply Forall_app. split.
  - apply Forall_cons; [left; reflexivity | apply Forall_nil].
  - destruct (negb _); apply Forall_nil.
Qed.

(** The status command, and then no command more. *)
Lemma status_asks {A : Type} (k : CompletedProcess -> M A) (h : list event) :
  (forall r h', commands (snd (k r h')) = []) ->
  Forall (asks_changer cfg req)
    (commands (snd (bind (get_shell_result shell (changer_status_cmd cfg req)) k h))).
Proof.
  intros Hk. rewrite snd_bind. cbn [get_shell_result fst snd].
  rewrite commands_app, Hk, app_nil_r.
  apply Forall_cons; [right; reflexivity | apply Forall_nil].
Qed.

Lemma do_listall_asks (h : list event) :
  Forall (asks_changer cfg req) (commands (snd (do_listall cfg req shell h))).
Proof.
  unfold do_listall. rewrite snd_bind, commands_app. apply Forall_app. split.
  - apply inventory_asks.
  - destruct (fst _); try apply Forall_nil.
    apply (status_asks (fun result => if negb (returncode result =? 0)%Z
                                      then sys_exit (returncode result)
                                      else ret (listall_text cfg (stdout result)))).
    intros r h'. destruct (negb _); reflexivity.
Qed.

Lemma do_list_asks (h : list event) :
  Forall (asks_changer cfg req) (commands (snd (do_list cfg req shell h))).
Proof.
  unfold do_list. rewrite snd_bind, commands_app. apply Forall_app. split.
  - apply inventory_asks.
  - destruct (fst _); try apply Forall_nil.
    apply (status_asks (fun result => if negb (returncode result =? 0)%Z
                                      then sys_exit (returncode result)
                                      else ret (list_text cfg (stdout result)))).
    intros r h'. destruct (negb _); reflexivity.
Qed.

Lemma do_slots_asks (h : list event) :
  Forall (asks_changer cfg req) (commands (snd (do_slots cfg req shell h))).
Proof.
  unfold do_slots. apply status_asks.
  intros r h'. destruct (negb _); [reflexivity |]. destruct (search _ _); reflexivity.
Qed.

Lemma do_loaded_asks (h : list event) :
  Forall (asks_changer cfg req) (commands (snd (do_loaded cfg req shell h))).
Proof.
  unfold do_loaded. apply status_asks.
  intros r h'. destruct (negb _); [reflexivity |].
  destruct (search _ _); [| reflexivity].
  destruct (split _) as [| slot_loaded [| vol_loaded l]]; reflexivity.
Qed.

Lemma bind_commands {A B : Type} (P : string -> Prop) (m : M A) (k : A -> M B)
  (h : list event) :
  Forall P (commands (snd (m h))) ->
  (forall a h', Forall P (commands (snd (k a h')))) ->
  Forall P (commands (snd (bind m k h))).
Proof.
  intros Hm Hk. rewrite snd_bind, commands_app. apply Forall_app. split; [exact Hm |].
  destruct (fst (m h)); [apply Hk | apply Forall_nil | apply Forall_nil].
Qed.

(** X29: the commands that only read.  For the requests [list],
    [listall], [slots] and [loaded] the script runs no command but the
    inventory and the status of the changer, whatever these answer: no
    volume is loaded, unloaded or moved, no drive is asked for its state
    and nothing is cleaned. *)
Theorem listing_moves_nothing (rnd : nat) (doc_opt_str prog_info_txt : string)
  (h : list event) :
  one_of (mtx_cmd req) ["list"; "listall"; "slots"; "loaded"] = true ->
  Forall (asks_changer cfg req)
    (commands (snd (main cfg req shell rnd doc_opt_str prog_info_txt h))).
Proof.
  intros Hcmd. apply one_of_In in Hcmd. cbn [In] in Hcmd.
  assert (Hprint : forall (txt : string) (h' : list event),
            Forall (asks_changer cfg req) (commands (snd (print txt h'))))
    by (intros txt h'; apply Forall_nil).
  unfold main, dispatch.
  destruct Hcmd as [E | [E | [E | [E | []]]]]; rewrite <- E;
    change (one_of _ _) with true || change (one_of _ _) with false; cbv iota;
    (apply bind_commands; [| intros gv h'; cbn [String.eqb Ascii.eqb Bool.eqb]]).
  - apply Forall_nil.
  - apply bind_commands; [apply do_list_asks | exact Hprint].
  - apply Forall_nil.
  - apply bind_commands; [apply do_listall_asks | exact Hprint].
  - apply Forall_nil.
  - apply bind_commands; [apply do_slots_asks | exact Hprint].
  - unfold do_getvolname. apply bind_commands; [apply do_listall_asks |].
    intros a h2. apply Forall_nil.
  - apply bind_commands; [apply do_loaded_asks | exact Hprint].
Qed.

End ReadOnly.

Lemma listing_moves_nothing_witness :
  Forall (asks_changer import_export_config slots_request)
    (commands (snd (main import_export_config slots_request dirty_drive_shell 0 "" "" []))).
Proof.
  exact (listing_moves_nothing import_export_config slots_request dirty_drive_shell 0 "" "" []
           eq_refl).
Defined.

(** ** The exceptions of the script *)








Section Exceptions.

Variable cfg : config.
Variable req : request.
Variable shell : list event -> string -> CompletedProcess.
Variable rnd : nat.
















End Exceptions.



